(* ===== verification/_CoqProject ===== *)
-Q . S2P
Prelude.v
RbTree.v
Keys.v
DataTree.v
ElemPool.v
Magazine.v
ThreadPool.v
Refill.v
World.v
Qp.v
Relay.v
Hooks.v
Connect.v
Pairing.v
Crowd.v
Server.v
Preconn.v
Flow.v
Proc.v
Typing.v
Boot.v
Common.v
Logger.v
LogChain.v
Tracer.v
Client.v
