(* ===== verification/Prelude.v ===== *)
(** * KTCP split: a verification development

    The program is a Linux kernel module ([src/tcpsplit]) that splits the TCP
    connections of virtual machines: a connection from a client to a server is
    terminated at the host, a second connection is made to the server, and two
    kernel threads relay the bytes between the two sockets, one each way.

    ** How the program works

    A tenant (a packet mark) has a listening socket and a tree of pending
    connections per CPU ([split.c], [rb_data_tree.h]).  When a SYN of the
    tenant passes netfilter, the first hook ([cbn_ingress_hook]) asks the
    thread pool ([thread_pool.c]) to send a probe with the SYN's addresses.
    The second hook ([cbn_egress_hook]) catches the probe on its way out and
    asks the pool for [start_new_connection_syn] on the core the four-tuple
    selects: it makes the connection to the server.  The accept loop of the
    tenant ([split_server]) hands the client's accepted socket to
    [start_new_connection], which moves to the same core.  The two threads, the
    "halves", meet in the tree of that core through a queue pair, the QP
    ([qp_exists], [wait_qp_ready], [get_qp], [put_qp] of [split.c] and
    [qp.c]), and each runs [half_duplex].  Over a tunnel the probe carries the
    SYN's record to the next host, and the server-side half goes through a pool
    of established connections ([conn_pool.c]).  Tenants are made and inspected
    through /proc ([proc.c], [debug.c]).  The elements of the thread pool come
    from a magazine allocator ([magazine.c]).  The logger ([src/logger]), the
    packet tracer ([src/pkt_tracer]) and the traffic client
    ([src/kernel_client]) are modules of their own.

    ** The files

    - [Prelude]: machine integers, bytes, the fault monad [kproc], the frame
      predicate [keeps], and the tactics [kstep], [kpure], [kkeeps].
    - [RbTree]: the kernel's red-black tree as the code uses it: a class
      [RbLib] of the library's rebalancing and its laws [RbLaws] (order is
      kept), the search and insertion loops the sources write out, and what
      they do on ordered trees.
    - [Keys] ([tcp_split.h], [qp.c]): [struct addresses], the QP key,
      [strncmp] on it, [qp2cpu], the arguments packed into a pointer.
    - [DataTree] ([rb_data_tree.h], [preconn_rb_tree.h]): the trees of
      connections (by C string), of listeners and of pools (by wrapping
      difference).
    - [ElemPool]: the contract between an allocator and the thread pool;
      [Magazine] ([magazine.c]): depots, per-CPU magazines, allocation, free,
      and the refinement to a bag, which discharges the contract.
    - [ThreadPool] ([thread_pool.c]): the threads of the pool line by line,
      submission, and every interleaving of them, with refills that may come
      at any time and be of any length; [Refill]: the refill thread line by
      line, what a turn of it makes, and that its runs are runs of the pool.
    - [World]: the objects the module's threads share, and the environment.
    - [Qp] ([qp.c], [qp_exists] and [wait_qp_ready] of [split.c]), in the
      steps between which another thread may run.
    - [Relay] ([half_duplex] of [split.c]).
    - [Hooks] ([split.c], [conn_pool.c]): the two netfilter hooks with the
      table they are registered in, the probe, its passage through a tunnel.
    - [Connect] ([split.c]): [start_new_connection_syn] and
      [start_new_connection] whole.
    - [Pairing]: the same two functions line by line, with the QP's wait queue
      and its [wake_up], and every interleaving of the two halves of one
      connection; [Crowd]: any number of connections that come and interleave.
    - [Server] ([split.c], [conn_pool.c]): listeners, the server thread and its
      accept loop, the listing in /proc.
    - [Preconn] ([conn_pool.c]): the pool of connections to the next host.
    - [Flow]: the parts above put together, from a SYN to its two halves.
    - [Proc] ([proc.c], [debug.c]): the files in /proc with their operations,
      the commands written to them, the dump of connections.
    - [Typing]: the C type of every field of the shared objects, kept by every
      entry point.
    - [Boot]: start and stop of the module, with what it registers and gives
      back.
    - [Common] ([tcpsplit/cbn_common.h]): the texts of packet headers;
      [Tracer]: the packet tracer, its hooks, start and stop.
    - [Logger] ([logger.c], [stats_cb_mgr.h]): the log buffer, its readers and
      writers; [LogChain] ([dpb.h]): the chain of buffers.
    - [Client]: the traffic client, its servers and senders.

    ** State and environment

    The shared objects are a record [World.world]: a finite map per slab from
    an address to the live object, the trees, the sockets, and [log], a history
    of what the module did.  An access to an address not in its map is
    [Oops UseAfterFree], to NULL [Oops NullDeref]; so "returns [Ok]" says that
    the run is free of those faults.  Addresses are not used twice, so a
    dangling pointer is never mistaken for a new object.  Code is a function
    [world -> outcome (A * world)].  A call of a kernel service is answered by
    the class [Env]: the [n]-th call gets [answer n], the bytes [payload n],
    and so on, and every theorem quantifies over the environment.  While a
    thread sleeps in such a call, the other threads may change everything by
    [others n]; a theorem that follows one thread alone says so by the class
    [Quiet].  [Pairing], [Crowd], [ThreadPool] and [Refill] make the
    interleaving explicit: there the lines of the threads are taken in any
    order, and a half asleep on a wait queue takes its next one only after
    that queue was woken.

    ** The theorems

    - From its SYN a connection reaches its two halves, on one core and with
      one key ([Flow]), and it does so among any connections in progress, none
      of which it disturbs; the hooks alone and each half alone, with the
      requests it makes ([Hooks], [Connect]).
    - The functions of the halves are runs of their lines ([Pairing]).  In
      every interleaving of the two halves in which no wait times out or is
      interrupted, the QP's count is the number of holders, the faults are
      those named, and when both have left through [put_qp] the QPs and the
      SYN's record are freed and the rest is as it was.  [timeout_races] has
      two schedules with a timeout that fault, and [wait_qp_ready_signal] what
      an interrupted wait does.
    - Of any number of connections ([Crowd]) whose keys differ as C strings in
      each tree, where no wait times out or is interrupted and no half leaves
      before its peer took its reference: none touches a socket or frees a QP
      of another, the trees stay ordered and hold who waits, a half that sleeps
      is woken by a few lines of its peer, and those that left through [put_qp]
      leave nothing behind.  Outside of these bounds: [low_ports_collide],
      [client_double_syn], [early_leaver_faults] and the two lemmas above.
    - The relay sends, in order, what it received, touches no other socket's
      stream, ends, and frees its pages.
    - The allocator refines a bag.  The pool makes each accepted call once and
      no wake-up of a pool thread is lost.  The refill thread makes what the
      pool is short of, then sleeps, and stops when told to; a wake-up of it
      can be lost, in one place.
    - A server serves or unwinds; its accept loop hands over each connection
      once and closes its socket at the end.  The pool of pre-connections keeps
      its length; the record of a SYN is sent to the next host and read there
      whole.
    - A start registers what a stop gives back, and a stop frees the tenants it
      finds ([Boot]).  Every field keeps its C type ([Typing]), as a supporting
      lemma.
    - The tracer prints the packets it should and its texts fit; what is logged
      is read once, and the heads of the logger's chain take what fits; the
      traffic client sends what it means to and returns its pages and sockets.
    - Where the code faults or leaks, a lemma gives the inputs under which it
      does.

    ** Fuel and bounds

    The loops that run until the peer, the environment or an administrator ends
    them take fuel; [None] means that it ran out.  That they end, with fuel
    beyond the turn at which the environment ends them, is proved for the relay
    ([half_duplex_ends]), the accept loops ([accept_loop_serves],
    [preconn_accept_loop_ends], [server_loop_total]), the walk over the
    listeners ([stop_sockets_total]), the log ([read_drains])
    and the traffic client ([tcp_client_sends]); the
    refill thread is a step relation and stops when told to ([refil_stops]).
    The blocking read and the retries of the traffic client have no end of
    their own, which is proved of them ([blocking_read_spins],
    [send_retry_spins]).  Loops over CPUs, magazines, trees or digits recurse
    on their data.  Integers have the width of the source: [u16], [u32],
    [s32], [u64] wrap where the code does.

    ** What is not modelled

    The statistics of the magazines in debugfs ([lib/mag_stats.c]): the
    Makefile does not build them and they are written for a structure the
    repository does not have.  The macro [log_string] of [dpb.h], which calls a
    function that no file declares.  The macros that trace to the kernel log, and
    code that is commented out or under [#if 0].  The zero-copy kernel patches,
    the scripts and the measurement tools, which are not part of the modules.
    The insides of TCP and of netfilter: they are the environment.  A request
    to the thread pool is recorded in [World] as made; what the pool does with
    it, a refusal for want of memory too, is in [ThreadPool].
    Memory ordering below the level of the lines, and preemption inside a spin
    lock or with interrupts off.  In [Crowd] the coming of a connection, from
    its SYN to the lines of its halves, is one step. *)

From stdpp Require Import base list gmap strings numbers.
From Stdlib Require Import ZArith Lia.

Declare Scope ktcp_scope.
Delimit Scope ktcp_scope with ktcp.
Open Scope Z_scope.

(** ** Machine integers

    A [w]-bit unsigned integer is a [Z] in [0, 2^w); arithmetic wraps by
    [uw].  Signed 32-bit arithmetic wraps (the kernel is built with
    [-fno-strict-overflow]) by [s32]. *)

Definition uw (w z : Z) : Z := z mod 2 ^ w.
Definition u8 (z : Z) : Z := uw 8 z.
Definition u16 (z : Z) : Z := uw 16 z.
Definition u32 (z : Z) : Z := uw 32 z.
Definition u64 (z : Z) : Z := uw 64 z.

Definition sw (w z : Z) : Z := (z + 2 ^ (w - 1)) mod 2 ^ w - 2 ^ (w - 1).
Definition s8 (z : Z) : Z := sw 8 z.
Definition s32 (z : Z) : Z := sw 32 z.
Definition s64 (z : Z) : Z := sw 64 z.

(** errno values the code returns. *)
Definition EAGAIN : Z := 11.
Definition ENOMEM : Z := 12.
Definition EFAULT : Z := 14.
Definition EEXIST : Z := 17.
Definition EINVAL : Z := 22.

(** ** Bytes in memory (little-endian host, as on x86-64) *)

Fixpoint le_bytes (n : nat) (v : Z) : list Z :=
  match n with
  | O => []
  | S n => v mod 256 :: le_bytes n (v / 256)
  end.

Fixpoint le_val (l : list Z) : Z :=
  match l with
  | [] => 0
  | b :: l => b + 256 * le_val l
  end.

(** [htons]/[ntohs] and [htonl]/[ntohl] reverse the bytes of the value. *)
Definition bswap (n : nat) (v : Z) : Z := le_val (rev (le_bytes n v)).
Definition htons (v : Z) : Z := bswap 2 v.
Definition ntohs (v : Z) : Z := bswap 2 v.
Definition htonl (v : Z) : Z := bswap 4 v.
Definition ntohl (v : Z) : Z := bswap 4 v.

(** A byte is a [Z] in [0, 256). *)
Definition is_byte (b : Z) : Prop := 0 <= b < 256.

(** ** Kernel procedures

    A procedure over a state [S] either returns or faults the way the kernel
    does ([Oops]): a NULL or dangling dereference, a failed [assert]
    ([panic]), a list or tree operation outside its documented use, a write past
    the end of a buffer, a free of an address that was never stored. *)

Inductive fault :=
  | NullDeref | UseAfterFree | WildFree | PanicAssert | ListCorrupt | BadIndex | BufferOverflow.

#[export] Instance fault_eq_dec : EqDecision fault.
Proof. solve_decision. Defined.

Inductive outcome (A : Type) :=
  | Ok (a : A)
  | Oops (f : fault).
Arguments Ok {A} a.
Arguments Oops {A} f.

Definition kproc (S A : Type) : Type := S → outcome (A * S).

#[export] Instance kproc_ret S : MRet (kproc S) := λ A a s, Ok (a, s).
#[export] Instance kproc_bind S : MBind (kproc S) := λ A B f m s,
  match m s with
  | Ok (a, s') => f a s'
  | Oops e => Oops e
  end.

Definition oops {S A} (f : fault) : kproc S A := λ s, Oops f.
Definition kget {S} : kproc S S := λ s, Ok (s, s).
Definition kgets {S A} (f : S → A) : kproc S A := λ s, Ok (f s, s).
Definition kmodify {S} (f : S → S) : kproc S unit := λ s, Ok (tt, f s).

(** A pointer dereference: the object, or a fault when there is none. *)
Definition kderef {S A} (f : S → option A) (e : fault) : kproc S A := λ s,
  match f s with
  | Some a => Ok (a, s)
  | None => Oops e
  end.

(** [assert(expr)] of magazine.c: [panic] when the expression is false. *)
Definition kassert {S} (b : bool) : kproc S unit :=
  if b then mret tt else oops PanicAssert.

(** [for] over a list of indices. *)
Fixpoint kforeach {S A} (l : list A) (f : A → kproc S unit) : kproc S unit :=
  match l with
  | [] => mret tt
  | x :: l => f x ;; kforeach l f
  end.

(** ** Lemmas on machine integers *)

Create HintDb ktcp.
Create Rewrite HintDb ktcp.

Lemma uw_range w z : 0 ≤ w → 0 ≤ uw w z < 2 ^ w.
Proof. intros. apply Z.mod_pos_bound, Z.pow_pos_nonneg; lia. Qed.

Lemma u16_range z : 0 ≤ u16 z < 65536.
Proof. apply (uw_range 16). lia. Qed.

Lemma u32_range z : 0 ≤ u32 z < 4294967296.
Proof. apply (uw_range 32). lia. Qed.

Lemma u64_range z : 0 ≤ u64 z < 18446744073709551616.
Proof. apply (uw_range 64). lia. Qed.

Lemma s32_range z : -2147483648 ≤ s32 z < 2147483648.
Proof.
  unfold s32, sw. change (2 ^ (32 - 1)) with 2147483648.
  change (2 ^ 32) with 4294967296.
  pose proof (Z.mod_pos_bound (z + 2147483648) 4294967296). lia.
Qed.

Lemma u16_small z : 0 ≤ z < 65536 → u16 z = z.
Proof. intros. by apply Z.mod_small. Qed.

Lemma u32_small z : 0 ≤ z < 4294967296 → u32 z = z.
Proof. intros. by apply Z.mod_small. Qed.

Lemma u64_small z : 0 ≤ z < 18446744073709551616 → u64 z = z.
Proof. intros. by apply Z.mod_small. Qed.

Lemma s32_small z : -2147483648 ≤ z < 2147483648 → s32 z = z.
Proof.
  intros. unfold s32, sw. change (2 ^ (32 - 1)) with 2147483648.
  change (2 ^ 32) with 4294967296. rewrite Z.mod_small; lia.
Qed.

Lemma u16_succ_u16 z : u16 (u16 z + 1) = u16 (z + 1).
Proof. unfold u16, uw. by rewrite Zplus_mod_idemp_l. Qed.

Lemma u16_pred_u16 z : u16 (u16 z - 1) = u16 (z - 1).
Proof. unfold u16, uw. by rewrite Zminus_mod_idemp_l. Qed.

Lemma u32_succ_u32 z : u32 (u32 z + 1) = u32 (z + 1).
Proof. unfold u32, uw. by rewrite Zplus_mod_idemp_l. Qed.

Lemma u32_pred_u32 z : u32 (u32 z - 1) = u32 (z - 1).
Proof. unfold u32, uw. by rewrite Zminus_mod_idemp_l. Qed.

Lemma u32_s32 z : u32 (s32 z) = u32 z.
Proof.
  unfold u32, uw, s32, sw. rewrite Zminus_mod_idemp_l. f_equal. lia.
Qed.

Lemma s32_u32 z : s32 (u32 z) = s32 z.
Proof. unfold u32, uw, s32, sw. by rewrite Zplus_mod_idemp_l. Qed.

Lemma u32_idemp z : u32 (u32 z) = u32 z.
Proof. apply u32_small, u32_range. Qed.

#[export] Hint Resolve u16_range u32_range u64_range s32_range : ktcp.
#[export] Hint Rewrite u16_succ_u16 u16_pred_u16 u32_succ_u32 u32_pred_u32 u32_s32 s32_u32 u32_idemp : ktcp.

(** [s32] is a representative modulo [2^32]. *)
Lemma s32_offset z : ∃ q, s32 z = z - 4294967296 * q.
Proof.
  exists ((z + 2147483648) / 4294967296). unfold s32, sw. change (2 ^ (32 - 1)) with 2147483648.
  change (2 ^ 32) with 4294967296. pose proof (Z.div_mod (z + 2147483648) 4294967296). lia.
Qed.

Lemma s32_period z q : s32 (z + 4294967296 * q) = s32 z.
Proof.
  unfold s32, sw. change (2 ^ (32 - 1)) with 2147483648. change (2 ^ 32) with 4294967296.
  replace (z + 4294967296 * q + 2147483648) with (z + 2147483648 + q * 4294967296) by lia.
  by rewrite Z_mod_plus_full.
Qed.

Lemma s32_add_s32 x y : s32 (s32 x + y) = s32 (x + y).
Proof.
  destruct (s32_offset x) as [q ->]. replace (x - 4294967296 * q + y) with (x + y + 4294967296 * - q) by lia.
  apply s32_period.
Qed.

(** A value shifted left, with its low bits filled in. *)
Lemma lor_shiftl_low w p q : 0 ≤ w → 0 ≤ q < 2 ^ w → Z.lor (Z.shiftl p w) q = p * 2 ^ w + q.
Proof.
  intros Hw Hq. rewrite <- Z.shiftl_mul_pow2 by done. rewrite <- (Z.add_lor_land (Z.shiftl p w)).
  assert (Z.land (Z.shiftl p w) q = 0) as ->; [| lia].
  apply Z.bits_inj'. intros i Hi. rewrite Z.land_spec, Z.bits_0. destruct (Z.lt_ge_cases i w).
  - by rewrite Z.shiftl_spec_low by lia.
  - rewrite <- (Z.mod_small q (2 ^ w)) by done. rewrite Z.mod_pow2_bits_high by lia. apply andb_false_r.
Qed.

(** Exclusive or keeps a value inside the width of its arguments. *)
Lemma lxor_range w a b :
  0 ≤ w → 0 ≤ a < 2 ^ w → 0 ≤ b < 2 ^ w → 0 ≤ Z.lxor a b < 2 ^ w.
Proof.
  intros Hw Ha Hb.
  assert (Hn : 0 ≤ Z.lxor a b) by (rewrite Z.lxor_nonneg; lia).
  split; [done |].
  destruct (decide (Z.lxor a b = 0)) as [-> | Hne]; [lia |].
  assert (Hlog : ∀ x, 0 ≤ x < 2 ^ w → 0 < w → Z.log2 x < w).
  { intros x [Hx1 Hx2] ?. destruct (decide (x = 0)) as [-> |]; [done |].
    apply Z.log2_lt_pow2; lia. }
  destruct (decide (w = 0)) as [-> |].
  { assert (a = 0) as -> by lia. assert (b = 0) as -> by lia. done. }
  apply Z.log2_lt_pow2; [lia |].
  pose proof (Z.log2_lxor a b ltac:(lia) ltac:(lia)).
  pose proof (Hlog a Ha ltac:(lia)). pose proof (Hlog b Hb ltac:(lia)). lia.
Qed.

(** ** Lemmas on bytes *)

Lemma length_le_bytes n v : length (le_bytes n v) = n.
Proof. revert v. induction n; intros; csimpl; auto with f_equal. Qed.

Lemma le_bytes_byte n v : Forall is_byte (le_bytes n v).
Proof.
  revert v. induction n; intros; constructor; auto.
  apply Z.mod_pos_bound. lia.
Qed.

Lemma le_val_bytes n v : le_val (le_bytes n v) = v mod 256 ^ Z.of_nat n.
Proof.
  revert v. induction n as [| n IH]; intros v; csimpl.
  { by rewrite Z.mod_1_r. }
  rewrite IH, Nat2Z.inj_succ, Z.pow_succ_r by lia.
  rewrite Z.rem_mul_r by (try apply Z.pow_nonzero; lia). lia.
Qed.

Lemma le_bytes_val l : Forall is_byte l → le_bytes (length l) (le_val l) = l.
Proof.
  induction 1 as [| b l Hb Hl IH]; [done |]. cbn [length le_val le_bytes].
  unfold is_byte in Hb.
  rewrite (Z.mul_comm 256), Z_mod_plus_full, Z.mod_small by lia.
  rewrite Z_div_plus_full, Z.div_small, Z.add_0_l by lia. by rewrite IH.
Qed.

Lemma le_val_range l : Forall is_byte l → 0 ≤ le_val l < 256 ^ Z.of_nat (length l).
Proof.
  induction 1 as [| b l Hb Hl IH]; cbn [length le_val]; [lia |].
  rewrite Nat2Z.inj_succ, Z.pow_succ_r by lia. unfold is_byte in Hb. lia.
Qed.

Lemma bswap_range n v : 0 ≤ bswap n v < 256 ^ Z.of_nat n.
Proof.
  pose proof (le_val_range (rev (le_bytes n v))) as H.
  rewrite length_rev, length_le_bytes in H. apply H, Forall_rev, le_bytes_byte.
Qed.

Lemma bswap_involutive n v : 0 ≤ v < 256 ^ Z.of_nat n → bswap n (bswap n v) = v.
Proof.
  intros Hv. unfold bswap.
  rewrite <- (length_le_bytes n v) at 1. rewrite <- (length_rev (le_bytes n v)).
  rewrite le_bytes_val by apply Forall_rev, le_bytes_byte.
  rewrite rev_involutive, le_val_bytes. by apply Z.mod_small.
Qed.

Lemma ntohs_htons v : 0 ≤ v < 65536 → ntohs (htons v) = v.
Proof. apply (bswap_involutive 2). Qed.

Lemma ntohl_htonl v : 0 ≤ v < 4294967296 → ntohl (htonl v) = v.
Proof. apply (bswap_involutive 4). Qed.

(** ** Lemmas on kernel procedures *)

Lemma kbind_ok {S A B} (m : kproc S A) (f : A → kproc S B) s a s' :
  m s = Ok (a, s') → (m ≫= f) s = f a s'.
Proof. intros H. unfold mbind, kproc_bind. by rewrite H. Qed.

(** The steps that cannot fault. *)
Lemma kbind_ret {S A B} (x : A) (f : A → kproc S B) s : (mret x ≫= f) s = f x s.
Proof. done. Qed.

Lemma kbind_modify {S B} (g : S → S) (f : unit → kproc S B) s :
  (kmodify g ≫= f) s = f tt (g s).
Proof. done. Qed.

Lemma kbind_get {S B} (f : S → kproc S B) s : (kget ≫= f) s = f s s.
Proof. done. Qed.

Lemma kbind_gets {S A B} (g : S → A) (f : A → kproc S B) s : (kgets g ≫= f) s = f (g s) s.
Proof. done. Qed.

Lemma kbind_deref {S A B} (g : S → option A) e (f : A → kproc S B) s a :
  g s = Some a → (kderef g e ≫= f) s = f a s.
Proof. intros H. unfold mbind, kproc_bind, kderef. by rewrite H. Qed.

Lemma kbind_assert {S B} (b : bool) (f : unit → kproc S B) s :
  b = true → (kassert b ≫= f) s = f tt s.
Proof. by intros ->. Qed.

Lemma kbind_assoc {S A B C} (m : kproc S A) (f : A → kproc S B) (g : B → kproc S C) s :
  ((m ≫= f) ≫= g) s = (m ≫= λ x, f x ≫= g) s.
Proof. unfold mbind, kproc_bind. by destruct (m s) as [[? ?] |]. Qed.

Lemma kbind_ext {S A B} (m : kproc S A) (f g : A → kproc S B) s :
  (∀ x s', m s = Ok (x, s') → f x s' = g x s') → (m ≫= f) s = (m ≫= g) s.
Proof. intros Hf. unfold mbind, kproc_bind. destruct (m s) as [[x s'] |]; [by apply Hf | done]. Qed.

Lemma kbind_inv {S A B} (m : kproc S A) (f : A → kproc S B) s r :
  (m ≫= f) s = Ok r → ∃ a s', m s = Ok (a, s') ∧ f a s' = Ok r.
Proof.
  unfold mbind, kproc_bind. destruct (m s) as [[a s'] |] eqn:E; [| done].
  eauto.
Qed.

Lemma kderef_ok {S A} (f : S → option A) e s a :
  f s = Some a → kderef f e s = Ok (a, s).
Proof. intros H. unfold kderef. by rewrite H. Qed.

(** A procedure whose every result is related to its start: how frame
    conditions and trace properties pass through the code. *)
Definition keeps {S A} (R : S → S → Prop) (m : kproc S A) : Prop :=
  ∀ s a s', m s = Ok (a, s') → R s s'.

Section keeps.
Context {S : Type} (R : S → S → Prop) `{!Reflexive R, !Transitive R}.

Lemma keeps_ret {A} (a : A) : keeps R (mret a).
Proof. intros s a' s' [= <- <-]. reflexivity. Qed.

Lemma keeps_bind {A B} (m : kproc S A) (f : A → kproc S B) :
  keeps R m → (∀ a, keeps R (f a)) → keeps R (m ≫= f).
Proof.
  intros Hm Hf s b s' Hb. apply kbind_inv in Hb as (a & s1 & H1 & H2).
  etransitivity; [by eapply Hm | by eapply Hf].
Qed.

Lemma keeps_get : keeps R kget.
Proof. intros s a s' [= <- <-]. reflexivity. Qed.

Lemma keeps_gets {A} (g : S → A) : keeps R (kgets g).
Proof. intros s a s' [= <- <-]. reflexivity. Qed.

Lemma keeps_deref {A} (g : S → option A) e : keeps R (kderef g e).
Proof. intros s a s'. unfold kderef. case_match; [| done]. intros [= <- <-]. reflexivity. Qed.

Lemma keeps_oops {A} e : keeps R (@oops S A e).
Proof. by intros s a s'. Qed.

Lemma keeps_assert b : keeps R (kassert b).
Proof. destruct b; [apply keeps_ret | apply keeps_oops]. Qed.

Lemma keeps_foreach {A} (l : list A) (f : A → kproc S unit) :
  (∀ x, keeps R (f x)) → keeps R (kforeach l f).
Proof. intros Hf. induction l; [apply keeps_ret | by apply keeps_bind]. Qed.
End keeps.

Lemma keeps_modify {S} (R : S → S → Prop) (g : S → S) : (∀ s, R s (g s)) → keeps R (kmodify g).
Proof. intros Hg s a s' [= <- <-]. apply Hg. Qed.

Create HintDb keeps.
#[export] Hint Resolve keeps_ret keeps_get keeps_gets keeps_deref keeps_oops keeps_assert : keeps.

(** Go through the code of a procedure, leaving its modifications. *)
Ltac kkeeps :=
  repeat first
    [ solve [eauto 2 with keeps typeclass_instances]
    | apply keeps_bind; [ typeclasses eauto | | intros ? ]
    | apply keeps_foreach; [ typeclasses eauto | typeclasses eauto | intros ? ]
    | case_match | case_decide ].

(** Run one call whose result is known and go on with the continuation. *)
Ltac kstep H := erewrite (kbind_ok _ _ _ _ _ H); cbv beta.

Ltac kstep_in Hyp H := erewrite (kbind_ok _ _ _ _ _ H) in Hyp; cbv beta in Hyp.

Ltac kpure :=
  repeat first [rewrite kbind_ret | rewrite kbind_modify | rewrite kbind_get | rewrite kbind_gets
               | rewrite kbind_assoc];
  cbv beta.

(** Unfold the monad of a goal or a hypothesis. *)
Ltac kunfold := unfold mbind, kproc_bind, mret, kproc_ret, kget, kgets, kmodify, kderef, oops in *.

(** Case analysis on every conditional of the goal. *)
Ltac kcases := repeat (case_match || case_decide); simplify_eq; try done.

(** ** Lemmas on lists *)

Lemma filter_keep {A} (P : A → Prop) `{∀ x, Decision (P x)} (l : list A) :
  Forall P l → filter P l = l.
Proof.
  induction 1; [done |]. by rewrite filter_cons, decide_True, IHForall by done.
Qed.
