(* ===== verification/RbTree.v ===== *)
(** * Red-black trees as the code uses them

    The code of [rb_data_tree.h] and [preconn_rb_tree.h] walks a Linux
    red-black tree with its own comparison, links a node at the leaf it reaches
    and calls [rb_insert_color]; removal is [rb_erase].  This file holds the
    walks ([rb_search], [rb_add]), which are the program's, and the class
    [RbLib] of the two library functions with their documented law
    ([RbLaws]): rebalancing keeps the in-order sequence, erasing removes one
    node from it.  The theorems relate the walks to the in-order sequence for
    any comparison that is an order on the keys in use ([KeyOrder]). *)

From stdpp Require Import base list sorting sets.
From Stdlib Require Import ZArith Lia.
From S2P Require Import Prelude.

Inductive tree (A : Type) :=
  | Leaf
  | Node (l : tree A) (x : A) (r : tree A).
Arguments Leaf {A}.
Arguments Node {A} l x r.

Fixpoint inorder {A} (t : tree A) : list A :=
  match t with
  | Leaf => []
  | Node l x r => inorder l ++ x :: inorder r
  end.

(** The search loop: [result] is the comparison of the probe with the key of
    the visited node. *)
Fixpoint rb_search {A} (result : A → Z) (t : tree A) : option A :=
  match t with
  | Leaf => None
  | Node l this r =>
      if result this <? 0 then rb_search result l
      else if 0 <? result this then rb_search result r
      else Some this
  end.

(** The insertion loop: descend as the search does; [inl this] is the
    duplicate met on the way, [inr t'] the tree with the node linked at the
    leaf ([rb_link_node]). *)
Fixpoint rb_link {A} (result : A → Z) (data : A) (t : tree A) : A + tree A :=
  match t with
  | Leaf => inr (Node Leaf data Leaf)
  | Node l this r =>
      if result this <? 0 then
        match rb_link result data l with
        | inl dup => inl dup
        | inr l' => inr (Node l' this r)
        end
      else if 0 <? result this then
        match rb_link result data r with
        | inl dup => inl dup
        | inr r' => inr (Node l this r')
        end
      else inl this
  end.

(** The nodes either loop reads. *)
Fixpoint rb_path {A} (result : A → Z) (t : tree A) : list A :=
  match t with
  | Leaf => []
  | Node l this r =>
      this :: (if result this <? 0 then rb_path result l
               else if 0 <? result this then rb_path result r else [])
  end.

(** The library functions, external to the program. *)
Class RbLib (A : Type) := {
  rb_insert_color : A → tree A → tree A;
  rb_erase : A → tree A → tree A;
}.

Class RbLaws (A : Type) `{RbLib A} := {
  rb_insert_color_inorder x t : inorder (rb_insert_color x t) = inorder t;
  rb_erase_inorder t l1 x l2 :
    inorder t = l1 ++ x :: l2 → NoDup (inorder t) →
    inorder (rb_erase x t) = l1 ++ l2;
}.

(** Insertion: the duplicate, or NULL and the new tree. *)
Definition rb_add `{RbLib A} (result : A → Z) (data : A) (t : tree A) : option A * tree A :=
  match rb_link result data t with
  | inl dup => (Some dup, t)
  | inr t' => (None, rb_insert_color data t')
  end.

(** ** A concrete library for examples: no rebalancing, a right spine after an
    erase. *)

Fixpoint spine {A} (l : list A) : tree A :=
  match l with
  | [] => Leaf
  | x :: l => Node Leaf x (spine l)
  end.

Definition spine_lib {A} `{EqDecision A} : RbLib A := {|
  rb_insert_color := λ _ t, t;
  rb_erase := λ x t, spine (filter (λ y, y ≠ x) (inorder t));
|}.

Lemma inorder_spine {A} (l : list A) : inorder (spine l) = l.
Proof. induction l; csimpl; auto with f_equal. Qed.

Lemma spine_laws {A} `{EqDecision A} : @RbLaws A spine_lib.
Proof.
  split; [done |]. intros t l1 x l2 E Hnd. simpl.
  rewrite inorder_spine, E in *. rewrite filter_app, filter_cons.
  rewrite decide_False by (intros []; done).
  apply NoDup_app in Hnd as (_ & Hl1 & Hnd). apply NoDup_cons in Hnd as [Hl2 _].
  f_equal; apply filter_keep; apply Forall_forall; intros y Hy ->; [| done].
  by apply (Hl1 x Hy), elem_of_cons; left.
Qed.

(** ** Keys *)

(** [kcmp] is the sign of an order on the keys satisfying [good]. *)
Class KeyOrder {K : Type} (kcmp : K → K → Z) (good : K → Prop) := {
  ko_refl a : good a → kcmp a a = 0;
  ko_antisym a b : good a → good b → kcmp a b < 0 ↔ 0 < kcmp b a;
  ko_trans a b c :
    good a → good b → good c → kcmp a b < 0 → kcmp b c < 0 → kcmp a c < 0;
  ko_eq_l a b c : good a → good b → good c → kcmp a b = 0 → kcmp a c < 0 → kcmp b c < 0;
}.

Section ordered.
Context {A K : Type} (key : A → K) (kcmp : K → K → Z) (good : K → Prop).
Context `{!KeyOrder kcmp good}.
Implicit Types t : tree A.

Definition key_lt (x y : A) : Prop := kcmp (key x) (key y) < 0.

(** A search tree: keys strictly increasing in order. *)
Definition ordered t : Prop :=
  StronglySorted key_lt (inorder t) ∧ Forall (good ∘ key) (inorder t).

Lemma sorted_mid (l r : list A) x :
  StronglySorted key_lt (l ++ x :: r) ↔
  StronglySorted key_lt l ∧ StronglySorted key_lt r ∧
  Forall (λ y, key_lt y x) l ∧ Forall (key_lt x) r ∧
  (∀ y z, y ∈ l → z ∈ r → key_lt y z).
Proof.
  rewrite StronglySorted_app. split.
  - intros (H1 & H2 & H3). apply StronglySorted_inv in H3 as [H3 H4].
    split_and!; try done; [apply Forall_forall |]; intros; apply H1; set_solver.
  - intros (H1 & H2 & H3 & H4 & H5). split_and!; [| done | by constructor].
    intros y z Hy Hz. rewrite Forall_forall in H3.
    apply elem_of_cons in Hz as [-> |]; eauto.
Qed.

Lemma ordered_node l x r :
  ordered (Node l x r) →
  ordered l ∧ ordered r ∧ good (key x) ∧
  (∀ y, y ∈ inorder l → key_lt y x) ∧ (∀ y, y ∈ inorder r → key_lt x y).
Proof.
  intros [Hs Hg]. simpl in *. apply sorted_mid in Hs as (? & ? & Hl & Hr & _).
  apply Forall_app in Hg as [? Hg]. apply Forall_cons in Hg as [? ?].
  rewrite Forall_forall in Hl, Hr. by split_and!.
Qed.

Lemma ordered_good t x : ordered t → x ∈ inorder t → good (key x).
Proof. intros [_ Hg] Hx. by apply (proj1 (Forall_forall _ _) Hg). Qed.

(** The search finds exactly the node whose key compares equal. *)
Lemma rb_search_spec t k :
  ordered t → good k →
  match rb_search (λ this, kcmp k (key this)) t with
  | Some x => x ∈ inorder t ∧ kcmp k (key x) = 0
  | None => ∀ y, y ∈ inorder t → kcmp k (key y) ≠ 0
  end.
Proof.
  intros Ht Hk. induction t as [| l IHl x r IHr]; simpl; [set_solver |].
  pose proof (ordered_node _ _ _ Ht) as (Hl & Hr & Hx & Hlx & Hxr).
  specialize (IHl Hl). specialize (IHr Hr).
  destruct (Z.ltb_spec (kcmp k (key x)) 0); [| destruct (Z.ltb_spec 0 (kcmp k (key x)))].
  - destruct (rb_search _ l) as [z |]; [set_solver |]. intros y Hy.
    rewrite elem_of_app, elem_of_cons in Hy. destruct Hy as [Hy | [-> | Hy]]; [auto | lia |].
    assert (kcmp k (key y) < 0); [| lia].
    apply (ko_trans (good:=good) _ (key x)); eauto using ordered_good. by apply Hxr.
  - destruct (rb_search _ r) as [z |]; [set_solver |]. intros y Hy.
    rewrite elem_of_app, elem_of_cons in Hy. destruct Hy as [Hy | [-> | Hy]]; [| lia | auto].
    assert (0 < kcmp k (key y)); [| lia].
    apply (ko_antisym (good:=good)); eauto using ordered_good.
    apply (ko_trans (good:=good) _ (key x)); eauto using ordered_good; [by apply Hlx |].
    by apply (ko_antisym (good:=good)).
  - split; [set_solver | lia].
Qed.

(** At most one node of an ordered tree compares equal to a key. *)
Lemma ordered_unique t k x y :
  ordered t → good k → x ∈ inorder t → y ∈ inorder t →
  kcmp k (key x) = 0 → kcmp k (key y) = 0 → x = y.
Proof.
  intros Ht Hk Hx Hy Ex Ey.
  assert (Hgx : good (key x)) by eauto using ordered_good.
  assert (Hgy : good (key y)) by eauto using ordered_good.
  assert (Hne : ∀ a b, good (key a) → good (key b) →
    kcmp k (key a) = 0 → kcmp k (key b) = 0 → ¬ key_lt a b).
  { intros a b Ha Hb Ea Eb Hlt.
    assert (kcmp (key a) k = 0) as Ea'.
    { destruct (Z.lt_trichotomy (kcmp (key a) k) 0) as [H | [H | H]]; [| done |];
        apply (ko_antisym (good:=good)) in H; auto; lia. }
    pose proof (ko_eq_l (good:=good) _ _ _ Ha Hk Hb Ea' Hlt). lia. }
  destruct Ht as [Hs _]. apply list_elem_of_split in Hx as (l1 & l2 & El).
  rewrite El in Hs, Hy. apply sorted_mid in Hs as (_ & _ & Hl & Hr & _).
  rewrite Forall_forall in Hl, Hr.
  rewrite elem_of_app, elem_of_cons in Hy. destruct Hy as [Hy | [-> | Hy]]; [| done |].
  - by destruct (Hne y x); auto.
  - by destruct (Hne x y); auto.
Qed.

(** The insertion loop stops at the node the search finds, and otherwise links
    the new node at its place in the order. *)
Lemma rb_link_spec t data :
  ordered t → good (key data) →
  match rb_link (λ this, kcmp (key data) (key this)) data t with
  | inl dup => dup ∈ inorder t ∧ kcmp (key data) (key dup) = 0
  | inr t' => ∃ l1 l2, inorder t = l1 ++ l2 ∧ inorder t' = l1 ++ data :: l2 ∧
      Forall (λ y, key_lt y data) l1 ∧ Forall (key_lt data) l2
  end.
Proof.
  intros Ht Hk. induction t as [| l IHl x r IHr]; simpl.
  { exists [], []. repeat constructor. }
  pose proof (ordered_node _ _ _ Ht) as (Hl & Hr & Hx & Hlx & Hxr).
  specialize (IHl Hl). specialize (IHr Hr).
  destruct (Z.ltb_spec (kcmp (key data) (key x)) 0) as [Hlt | Hge];
    [| destruct (Z.ltb_spec 0 (kcmp (key data) (key x))) as [Hgt |]].
  - destruct (rb_link _ data l) as [z | t']; [set_solver |]. destruct IHl as (l1 & l2 & El & El' & H1 & H2).
    exists l1, (l2 ++ x :: inorder r). simpl. rewrite El, El', <- !app_assoc. split_and!; try done.
    apply Forall_app. split; [done |]. constructor; [done |]. apply Forall_forall. intros y Hy.
    apply (ko_trans (good:=good) _ (key x)); eauto using ordered_good. by apply Hxr.
  - destruct (rb_link _ data r) as [z | t']; [set_solver |]. destruct IHr as (l1 & l2 & El & El' & H1 & H2).
    assert (Hxd : key_lt x data) by (apply (ko_antisym (good:=good)); auto).
    exists (inorder l ++ x :: l1), l2. simpl. rewrite El, El', <- app_assoc. split_and!; try done.
    { rewrite <- app_assoc. done. }
    apply Forall_app. split; [| by constructor]. apply Forall_forall. intros y Hy.
    apply (ko_trans (good:=good) _ (key x)); eauto using ordered_good. by apply Hlx.
  - split; [set_solver | lia].
Qed.

Lemma ordered_insert t t' l1 l2 data :
  ordered t → good (key data) →
  inorder t = l1 ++ l2 → inorder t' = l1 ++ data :: l2 →
  Forall (λ y, key_lt y data) l1 → Forall (key_lt data) l2 → ordered t'.
Proof.
  intros [Hs Hg] Hk El El' H1 H2. unfold ordered. rewrite El'. rewrite El in Hs, Hg.
  apply StronglySorted_app in Hs as (H3 & H4 & H5). split.
  - apply sorted_mid. by split_and!.
  - apply Forall_app in Hg as [? ?]. apply Forall_app. by split; [| constructor].
Qed.

(** Insertion returns the equal node and leaves the tree alone, or returns NULL
    and adds the new node, keeping the order. *)
Lemma rb_add_spec `{RbLaws A} t data :
  ordered t → good (key data) →
  let '(r, t') := rb_add (λ this, kcmp (key data) (key this)) data t in
  ordered t' ∧
  match r with
  | Some dup => t' = t ∧ dup ∈ inorder t ∧ kcmp (key data) (key dup) = 0
  | None => inorder t' ≡ₚ data :: inorder t ∧
      ∀ y, y ∈ inorder t → kcmp (key data) (key y) ≠ 0
  end.
Proof.
  intros Ht Hk. unfold rb_add. pose proof (rb_link_spec t data Ht Hk) as Hlink.
  destruct (rb_link _ _ _) as [dup | t'] eqn:E; [by destruct Hlink |].
  destruct Hlink as (l1 & l2 & El & El' & H1 & H2). split.
  - eapply (ordered_insert t _ l1 l2 data); eauto. by rewrite rb_insert_color_inorder.
  - rewrite rb_insert_color_inorder, El, El'. split; [by rewrite Permutation_middle |].
    intros y Hy. rewrite Forall_forall in H1, H2.
    apply elem_of_app in Hy as [Hy | Hy]; [| pose proof (H2 y Hy); unfold key_lt in *; lia].
    pose proof (H1 y Hy) as Hlt. apply (ko_antisym (good:=good)) in Hlt; [lia | | done].
    apply (ordered_good t); [done |]. rewrite El. set_solver.
Qed.

Lemma StronglySorted_key_NoDup l :
  Forall (good ∘ key) l → StronglySorted key_lt l → NoDup l.
Proof.
  intros Hg. induction 1 as [| x l Hl IH Hx]; [constructor |].
  apply Forall_cons in Hg as [Hgx Hg]. constructor; [| auto]. intros Hin.
  rewrite Forall_forall in Hx. specialize (Hx _ Hin).
  unfold key_lt in Hx. simpl in Hgx. rewrite (ko_refl (good:=good)) in Hx; [lia | done].
Qed.

Lemma ordered_NoDup t : ordered t → NoDup (inorder t).
Proof. intros [Hs Hg]. by apply StronglySorted_key_NoDup. Qed.

(** Erasing a node of an ordered tree removes that node only. *)
Lemma rb_erase_spec `{RbLaws A} t x :
  ordered t → x ∈ inorder t →
  ordered (rb_erase x t) ∧ inorder t ≡ₚ x :: inorder (rb_erase x t).
Proof.
  intros Ht Hx. apply list_elem_of_split in Hx as (l1 & l2 & El).
  pose proof (ordered_NoDup t Ht) as Hnd.
  pose proof (rb_erase_inorder t l1 x l2 El Hnd) as Ee.
  destruct Ht as [Hs Hg]. rewrite El in Hs, Hg |- *. unfold ordered. rewrite Ee. split.
  - apply sorted_mid in Hs as (? & ? & ? & ? & Hlr).
    split; [apply StronglySorted_app; split_and!; auto |].
    apply Forall_app in Hg as [? Hg]. apply Forall_cons in Hg as [? ?].
    by apply Forall_app.
  - by rewrite Permutation_middle.
Qed.

Lemma ordered_Leaf : ordered Leaf.
Proof. split; constructor. Qed.
End ordered.

Lemma rb_path_subset {A} (result : A → Z) t x : x ∈ rb_path result t → x ∈ inorder t.
Proof.
  induction t as [| l IHl y r IHr]; simpl; [done |].
  rewrite elem_of_cons, elem_of_app, elem_of_cons. intros [-> | Hx]; [by right; left |].
  repeat case_match; auto. by apply elem_of_nil in Hx.
Qed.

Lemma inorder_nil {A} (t : tree A) : inorder t = [] → t = Leaf.
Proof.
  destruct t as [| l x r]; [done |]. simpl. by destruct (inorder l).
Qed.

Arguments key_lt {A K} key kcmp x y.
Arguments ordered {A K} key kcmp good t.

(** Only the keys of the nodes matter. *)
Lemma ordered_ext {A K} (key key' : A → K) kcmp good (t : tree A) :
  (∀ x, x ∈ inorder t → key x = key' x) → ordered key kcmp good t → ordered key' kcmp good t.
Proof.
  unfold ordered, key_lt. generalize (inorder t). clear t. intros l Hk [Hs Hg].
  induction Hs as [| x l Hs IH Hx]; [by split; constructor |].
  apply Forall_cons in Hg as [Hgx Hg].
  destruct IH as [Hs' Hg']; [intros y Hy; apply Hk; by right | done |].
  assert (Ex : key x = key' x) by (apply Hk; by left).
  split; constructor; try done; [| by simpl in *; rewrite <- Ex].
  apply Forall_forall. intros y Hy. rewrite <- Ex, <- Hk by (by right).
  by apply (proj1 (Forall_forall _ _) Hx).
Qed.
