(* ===== verification/Keys.v ===== *)
(** * Connection keys, core placement, packed arguments (tcp_split.h, qp.c)

    The 12-byte key of a QP is a union: four network-order fields, or the
    tenant id over the first four bytes.  The tree of pending connections
    compares keys with [strncmp], the core of a connection is the exclusive or
    of the key's bytes modulo the number of online CPUs, and a (tenant, port)
    pair travels in one pointer-sized word. *)

From stdpp Require Import base list sorting.
From Stdlib Require Import ZArith Lia.
From S2P Require Import Prelude RbTree.

Definition RB_KEY_LENGTH : nat := 12.
Definition TX_QP : Z := 0.
Definition RX_QP : Z := 1.
Definition UINT_SHIFT : Z := 32.
Definition PRECONN_SERVER_PORT : Z := 5565.
Definition CBP_PROBE_PORT : Z := 4.
Definition CBN_PROBE_PORT : Z := 4.
Definition UINT_MAX : Z := 4294967295.

(** [((UINT_MAX >> 1) + 1)] *)
Definition CBN_CORE_ROUTE_MARK : Z := Z.shiftr UINT_MAX 1 + 1.

(** struct sockaddr_in: the fields the code uses, in host representation of
    the network-order values. *)
Record sockaddr_in := {
  sin_family : Z;
  sin_port : Z;   (* __be16 *)
  s_addr : Z;     (* __be32 *)
}.

(** struct addresses *)
Record addresses := {
  dest : sockaddr_in;
  src : sockaddr_in;
  sin_addr : Z;   (* next hop, __be32 *)
  mark : Z;       (* int *)
}.

(** ** The key union of struct cbn_qp *)

Definition mk_key (port_s port_d addr_s addr_d : Z) : list Z :=
  le_bytes 2 port_s ++ le_bytes 2 port_d ++ le_bytes 4 addr_s ++ le_bytes 4 addr_d.

Definition key_port_s (k : list Z) : Z := le_val (take 2 k).
Definition key_port_d (k : list Z) : Z := le_val (take 2 (drop 2 k)).
Definition key_addr_s (k : list Z) : Z := le_val (take 4 (drop 4 k)).
Definition key_addr_d (k : list Z) : Z := le_val (take 4 (drop 8 k)).

(** The [tid] view of the union: the first four bytes. *)
Definition key_tid (k : list Z) : Z := s32 (le_val (take 4 k)).
Definition key_set_tid (tid : Z) (k : list Z) : list Z := le_bytes 4 tid ++ drop 4 k.

(** ** strncmp

    C's [strncmp] on two arrays of [n] chars: the characters are compared as
    unsigned chars up to the first difference, the first NUL, or [n]. *)
Fixpoint strncmp (a b : list Z) (n : nat) : Z :=
  match n, a, b with
  | S n, c1 :: a, c2 :: b =>
      if c1 =? c2 then (if c1 =? 0 then 0 else strncmp a b n)
      else if c1 <? c2 then -1 else 1
  | _, _, _ => 0
  end.

(** The C string an array of [n] chars holds: what precedes the first NUL. *)
Fixpoint cstr (a : list Z) (n : nat) : list Z :=
  match n, a with
  | S n, c :: a => if c =? 0 then [] else c :: cstr a n
  | _, _ => []
  end.

(** ** qp.c: the core of a connection *)

(** [core ^= qp->key\[i\]]: the (signed) char is promoted and converted to
    unsigned int. *)
Definition xor_key (core c : Z) : Z := u32 (Z.lxor core (u32 (s8 c))).

Definition qp2cpu (num_online_cpus : Z) (key : list Z) : Z :=
  let core := foldl xor_key 0 (take RB_KEY_LENGTH key) in
  let i := u32 num_online_cpus in
  let i := u32 ((core / i) * i) in
  u32 (core - i).

Definition addresses2cpu (num_online_cpus : Z) (addr : addresses) : Z :=
  qp2cpu num_online_cpus
    (mk_key (sin_port (src addr)) (sin_port (dest addr)) (s_addr (src addr)) (s_addr (dest addr))).

(** ** qp.c: two 32-bit values in one pointer *)

Definition uint2void (a b : Z) : Z :=
  Z.lor (u64 (Z.shiftl (u32 a) UINT_SHIFT)) (u32 b).

Definition void2uint (ptr : Z) : Z * Z :=
  let concat := u64 ptr in
  let b := u32 (Z.shiftr (u64 (Z.shiftl concat UINT_SHIFT)) UINT_SHIFT) in
  let a := u32 (Z.shiftr concat UINT_SHIFT) in
  (a, b).

(** ** Lemmas: the key layout *)

Definition good_key (k : list Z) : Prop := length k = RB_KEY_LENGTH ∧ Forall is_byte k.

Lemma mk_key_good ps pd as_ ad : good_key (mk_key ps pd as_ ad).
Proof.
  split; [unfold mk_key; by rewrite !length_app, !length_le_bytes |].
  unfold mk_key. rewrite !Forall_app. split_and!; apply le_bytes_byte.
Qed.

Lemma mk_key_fields ps pd as_ ad :
  0 ≤ ps < 65536 → 0 ≤ pd < 65536 → 0 ≤ as_ < 4294967296 → 0 ≤ ad < 4294967296 →
  key_port_s (mk_key ps pd as_ ad) = ps ∧ key_port_d (mk_key ps pd as_ ad) = pd ∧
  key_addr_s (mk_key ps pd as_ ad) = as_ ∧ key_addr_d (mk_key ps pd as_ ad) = ad.
Proof.
  intros.
  change (key_port_s _) with (le_val (le_bytes 2 ps)).
  change (key_port_d _) with (le_val (le_bytes 2 pd)).
  change (key_addr_s _) with (le_val (le_bytes 4 as_)).
  change (key_addr_d _) with (le_val (le_bytes 4 ad)).
  rewrite !le_val_bytes. split_and!; by apply Z.mod_small.
Qed.

Lemma mk_key_inj ps pd as_ ad ps' pd' as' ad' :
  0 ≤ ps < 65536 → 0 ≤ pd < 65536 → 0 ≤ as_ < 4294967296 → 0 ≤ ad < 4294967296 →
  0 ≤ ps' < 65536 → 0 ≤ pd' < 65536 → 0 ≤ as' < 4294967296 → 0 ≤ ad' < 4294967296 →
  mk_key ps pd as_ ad = mk_key ps' pd' as' ad' →
  ps = ps' ∧ pd = pd' ∧ as_ = as' ∧ ad = ad'.
Proof.
  intros H1 H2 H3 H4 H5 H6 H7 H8 E.
  destruct (mk_key_fields ps pd as_ ad H1 H2 H3 H4) as (E1 & E2 & E3 & E4).
  destruct (mk_key_fields ps' pd' as' ad' H5 H6 H7 H8) as (E5 & E6 & E7 & E8).
  rewrite E in *. by split_and!; etrans.
Qed.

(** ** Lemmas: strncmp is an order *)

Lemma strncmp_refl a n : strncmp a a n = 0.
Proof.
  revert a. induction n as [| n IH]; intros [| c a]; simpl; try done.
  rewrite Z.eqb_refl, IH. by case_match.
Qed.

Lemma strncmp_opp a b n : strncmp b a n = - strncmp a b n.
Proof.
  revert a b. induction n as [| n IH]; intros [| c a] [| d b]; simpl; try done.
  rewrite (Z.eqb_sym d c). destruct (Z.eqb_spec c d) as [-> |].
  - case_match; [done | apply IH].
  - destruct (Z.ltb_spec c d), (Z.ltb_spec d c); simpl; lia.
Qed.

Lemma strncmp_trans a b c n :
  length a = n → length b = n → length c = n →
  strncmp a b n ≤ 0 → strncmp b c n ≤ 0 →
  strncmp a c n ≤ 0 ∧ (strncmp a b n < 0 ∨ strncmp b c n < 0 → strncmp a c n < 0).
Proof.
  revert a b c. induction n as [| n IH]; intros [| x a] [| y b] [| z c]; simpl; try lia.
  intros Ha Hb Hc. injection Ha as Ha. injection Hb as Hb. injection Hc as Hc.
  specialize (IH a b c Ha Hb Hc).
  destruct (Z.eqb_spec x y), (Z.eqb_spec y z), (Z.eqb_spec x z);
    try (exfalso; congruence); subst;
    repeat match goal with |- context [?u <? ?v] => destruct (Z.ltb_spec u v) end;
    repeat match goal with |- context [?u =? 0] => destruct (Z.eqb_spec u 0) end; lia.
Qed.

Lemma strncmp_cstr a b n :
  length a = n → length b = n → strncmp a b n = 0 ↔ cstr a n = cstr b n.
Proof.
  revert a b. induction n as [| n IH]; intros [| x a] [| y b]; simpl; try (by split); try lia.
  intros Ha Hb. injection Ha as Ha. injection Hb as Hb. specialize (IH a b Ha Hb).
  destruct (Z.eqb_spec x y) as [-> | Hne].
  - destruct (y =? 0); [done |]. rewrite IH. split; [by intros -> | by intros [=]].
  - split; [destruct (x <? y); lia |].
    destruct (Z.eqb_spec x 0), (Z.eqb_spec y 0); intros [=]; congruence.
Qed.

#[export] Instance strncmp_order : KeyOrder (λ a b, strncmp a b RB_KEY_LENGTH) good_key.
Proof.
  split.
  - intros a _. apply strncmp_refl.
  - intros a b _ _. rewrite (strncmp_opp a b). lia.
  - intros a b c [Ha _] [Hb _] [Hc _] H1 H2.
    destruct (strncmp_trans a b c _ Ha Hb Hc); [lia | lia | tauto].
  - intros a b c [Ha _] [Hb _] [Hc _] H1 H2.
    rewrite strncmp_opp in H1.
    destruct (strncmp_trans b a c _ Hb Ha Hc); [lia | lia | tauto].
Qed.

(** A key with no NUL byte is its own C string, so equality of such keys is
    equality of the four fields. *)
Lemma cstr_no_nul k n : length k = n → Forall (λ b, b ≠ 0) k → cstr k n = k.
Proof.
  revert k. induction n as [| n IH]; intros [| c k]; simpl; try done.
  intros Hl Hk. apply Forall_cons in Hk as [Hc Hk].
  destruct (Z.eqb_spec c 0); [done |]. f_equal. apply IH; [lia | done].
Qed.

Lemma strncmp_no_nul a b n :
  length a = n → length b = n → Forall (λ c, c ≠ 0) a →
  strncmp a b n = 0 ↔ a = b.
Proof.
  intros Ha Hb Hn. split; [| intros ->; apply strncmp_refl].
  revert a b Ha Hb Hn. induction n as [| n IH]; intros [| x a] [| y b]; simpl; try done.
  intros Ha Hb Hn. apply Forall_cons in Hn as [Hx Hn].
  destruct (Z.eqb_spec x y) as [<- |].
  - destruct (Z.eqb_spec x 0); [done |]. intros E. f_equal. apply IH; auto; lia.
  - destruct (x <? y); lia.
Qed.

(** ** Lemmas: the core of a connection *)

Lemma foldl_xor_range l c :
  0 ≤ c < 4294967296 → 0 ≤ foldl xor_key c l < 4294967296.
Proof.
  revert c. induction l as [| b l IH]; intros c Hc; [done |]. apply IH, u32_range.
Qed.

Lemma qp2cpu_mod n key :
  0 < n < 4294967296 → qp2cpu n key = foldl xor_key 0 (take RB_KEY_LENGTH key) mod n.
Proof.
  intros Hn. unfold qp2cpu. cbv zeta.
  pose proof (foldl_xor_range (take RB_KEY_LENGTH key) 0 ltac:(lia)) as Hc.
  set (core := foldl _ _ _) in *. clearbody core. rewrite (u32_small n) by lia.
  pose proof (Z.div_mod core n ltac:(lia)). pose proof (Z.mod_pos_bound core n ltac:(lia)).
  pose proof (Z.div_pos core n ltac:(lia) ltac:(lia)).
  assert (Hq : 0 ≤ core / n * n ≤ core) by (rewrite (Z.mul_comm (core / n)); nia).
  rewrite (u32_small (core / n * n)) by lia. rewrite u32_small by lia. lia.
Qed.

Lemma xor_key_comm c a b : xor_key (xor_key c a) b = xor_key (xor_key c b) a.
Proof.
  unfold xor_key.
  assert (H : ∀ x y, u32 (Z.lxor (u32 x) (u32 y)) = Z.lxor (u32 x) (u32 y)).
  { intros x y. apply u32_small. apply (lxor_range 32); try lia; apply u32_range. }
  assert (H' : ∀ x y z, Z.lxor (u32 (Z.lxor x (u32 y))) (u32 z) =
    u32 (Z.lxor x (Z.lxor (u32 y) (u32 z)))).
  { intros x y z. unfold u32, uw. rewrite <- !Z.land_ones by lia.
    apply Z.bits_inj'. intros i Hi.
    rewrite !Z.lxor_spec, !Z.land_spec, !Z.lxor_spec, !Z.land_spec.
    by destruct (Z.testbit x i), (Z.testbit y i), (Z.testbit z i), (Z.testbit (Z.ones 32) i). }
  by rewrite !H', (Z.lxor_comm (u32 (s8 a))).
Qed.

Lemma foldl_xor_perm l l' c : l ≡ₚ l' → foldl xor_key c l = foldl xor_key c l'.
Proof.
  intros Hp. revert c. induction Hp; intros c; simpl; auto; [by rewrite xor_key_comm |].
  by rewrite IHHp1.
Qed.

(** The (tenant, port) pair survives the trip through a pointer. *)
Lemma void2uint_pair a b :
  0 ≤ a < 4294967296 → 0 ≤ b < 4294967296 → void2uint (uint2void a b) = (a, b).
Proof.
  intros Ha Hb. unfold void2uint, uint2void, UINT_SHIFT.
  rewrite (u32_small a), (u32_small b) by lia.
  rewrite (u64_small (Z.shiftl a 32)) by (rewrite Z.shiftl_mul_pow2 by lia; lia).
  assert (E : Z.lor (Z.shiftl a 32) b = a * 4294967296 + b) by (apply (lor_shiftl_low 32); lia).
  rewrite E, u64_small by lia.
  rewrite Z.shiftl_mul_pow2, !Z.shiftr_div_pow2 by lia. change (2 ^ 32) with 4294967296.
  f_equal.
  - rewrite Z.div_add_l, (Z.div_small b), Z.add_0_r by lia. by apply u32_small.
  - unfold u64, uw. change (2 ^ 64) with (4294967296 * 4294967296).
    rewrite Z.mul_mod_distr_r by lia. rewrite Z.div_mul by lia.
    rewrite Z.add_comm, Z_mod_plus_full, Z.mod_small by lia. by apply u32_small.
Qed.
