(* ===== verification/DataTree.v ===== *)
(** * The three trees (rb_data_tree.h, preconn_rb_tree.h)

    Pending QPs, ordered by [strncmp] on the 12-byte key; listeners and
    pre-connection pools, ordered by the sign of a wrapping 32-bit
    difference.  Nodes are addresses; [key] reads the key of a node.  The
    spin lock and the read/write lock make each operation one atomic step. *)

From stdpp Require Import base list sorting sets.
From Stdlib Require Import ZArith Lia.
From S2P Require Import Prelude RbTree Keys.

Section trees.
Context `{RbLib Z}.

(** ** Pending QPs *)

Definition de_tree_qp (node : Z) (root : tree Z) : tree Z := rb_erase node root.

Definition add_rb_data (key : Z → list Z) (root : tree Z) (data : Z) : option Z * tree Z :=
  rb_add (λ this, strncmp (key data) (key this) RB_KEY_LENGTH) data root.

(** ** Listeners: [int32_t result = key - this->key] *)

Definition key_diff (key this_key : Z) : Z := s32 (key - this_key).

Definition search_rb_listner (key : Z → Z) (root : tree Z) (k : Z) : option Z :=
  rb_search (λ this, key_diff (s32 k) (key this)) root.

Definition add_rb_listner (key : Z → Z) (root : tree Z) (data : Z) : option Z * tree Z :=
  rb_add (λ this, key_diff (key data) (key this)) data root.

(** ** Pre-connection pools *)

Definition search_rb_preconn (key : Z → Z) (root : tree Z) (k : Z) : option Z :=
  rb_search (λ this, key_diff (s32 k) (key this)) root.

Definition add_rb_preconn (key : Z → Z) (root : tree Z) (data : Z) : option Z * tree Z :=
  rb_add (λ this, key_diff (key data) (key this)) data root.
End trees.

(** ** The wrapping difference orders any half of the 32-bit circle *)

Definition in_half (lo k : Z) : Prop := lo ≤ k < lo + 2147483648.

#[export] Instance key_diff_order lo : KeyOrder key_diff (in_half lo).
Proof.
  assert (E : ∀ a b, in_half lo a → in_half lo b → key_diff a b = a - b).
  { unfold in_half, key_diff. intros. apply s32_small. lia. }
  split; intros; rewrite ?E in * by done; lia.
Qed.

(** The keys of the nodes of a tree, as the search sees them. *)
Abbreviation qp_ordered key := (ordered key (λ a b, strncmp a b RB_KEY_LENGTH) good_key).
Abbreviation int_ordered key lo := (ordered key key_diff (in_half lo)).

Section lemmas.
Context `{RbLaws Z}.
Implicit Types root : tree Z.

(** Adding a QP: the result tells whether a key with the same C string is in
    the tree, and the tree stays ordered and gains the node exactly when it
    is not. *)
Lemma add_rb_data_spec key root data :
  qp_ordered key root → good_key (key data) →
  let '(r, root') := add_rb_data key root data in
  qp_ordered key root' ∧
  match r with
  | Some dup => root' = root ∧ dup ∈ inorder root ∧
      cstr (key dup) RB_KEY_LENGTH = cstr (key data) RB_KEY_LENGTH
  | None => inorder root' ≡ₚ data :: inorder root ∧
      ∀ y, y ∈ inorder root → cstr (key y) RB_KEY_LENGTH ≠ cstr (key data) RB_KEY_LENGTH
  end.
Proof.
  intros Ho Hg. unfold add_rb_data.
  pose proof (rb_add_spec key _ good_key root data Ho Hg) as Hadd. cbv beta in Hadd.
  destruct (rb_add _ _ _) as [[dup |] root']; destruct Hadd as [Ho' Hadd]; split; try done.
  - destruct Hadd as (? & Hin & E). split_and!; try done.
    symmetry. apply strncmp_cstr in E; [done | apply Hg |].
    by apply (ordered_good key _ _ root dup Ho).
  - destruct Hadd as [? Hne]. split; [done |]. intros y Hy E. apply (Hne y Hy).
    apply strncmp_cstr; [apply Hg | | done]. by apply (ordered_good key _ _ root y Ho).
Qed.

(** The two outcomes, told apart by the keys of the tree. *)
Lemma add_rb_data_found key root data b :
  qp_ordered key root → good_key (key data) → b ∈ inorder root →
  cstr (key b) RB_KEY_LENGTH = cstr (key data) RB_KEY_LENGTH →
  add_rb_data key root data = (Some b, root).
Proof.
  intros Ho Hg Hb Eb. pose proof (add_rb_data_spec key root data Ho Hg) as Ha.
  destruct (add_rb_data key root data) as [[c |] root']; destruct Ha as [_ Ha].
  - destruct Ha as (-> & Hc & Ec). do 2 f_equal.
    assert (Hcmp : ∀ y, y ∈ inorder root → cstr (key y) RB_KEY_LENGTH = cstr (key data) RB_KEY_LENGTH →
      strncmp (key data) (key y) RB_KEY_LENGTH = 0).
    { intros y Hy E. apply strncmp_cstr; [apply Hg | | done].
      by apply (ordered_good key _ _ root y Ho). }
    apply (ordered_unique key _ good_key root (key data)); auto.
  - destruct Ha as [_ Hne]. by destruct (Hne b Hb).
Qed.

Lemma add_rb_data_new key root data :
  qp_ordered key root → good_key (key data) →
  (∀ y, y ∈ inorder root → cstr (key y) RB_KEY_LENGTH ≠ cstr (key data) RB_KEY_LENGTH) →
  ∃ root', add_rb_data key root data = (None, root') ∧ qp_ordered key root' ∧
    inorder root' ≡ₚ data :: inorder root.
Proof.
  intros Ho Hg Hne. pose proof (add_rb_data_spec key root data Ho Hg) as Ha.
  destruct (add_rb_data key root data) as [[c |] root']; destruct Ha as [Ho' Ha].
  - destruct Ha as (_ & Hc & Ec). by destruct (Hne c Hc).
  - destruct Ha as [Hp _]. by exists root'.
Qed.

Lemma de_tree_qp_spec key root node :
  qp_ordered key root → node ∈ inorder root →
  qp_ordered key (de_tree_qp node root) ∧
  inorder root ≡ₚ node :: inorder (de_tree_qp node root).
Proof. intros Ho. by apply (rb_erase_spec key _ good_key). Qed.

(** ** The connection tree as a dictionary of 4-tuples *)

(** With no NUL byte in its key, a QP meets exactly the QP of the same
    4-tuple. *)
Lemma add_rb_data_exact key root data :
  qp_ordered key root → good_key (key data) → Forall (λ b, b ≠ 0) (key data) →
  match (add_rb_data key root data).1 with
  | Some dup => dup ∈ inorder root ∧ key dup = key data
  | None => ∀ y, y ∈ inorder root → key y ≠ key data
  end.
Proof.
  intros Ho Hg Hn. pose proof (rb_add_spec key _ good_key root data Ho Hg) as Hadd.
  cbv beta in Hadd. fold (add_rb_data key root data) in Hadd.
  assert (Hiff : ∀ y, y ∈ inorder root →
    strncmp (key data) (key y) RB_KEY_LENGTH = 0 ↔ key data = key y).
  { intros y Hy. apply strncmp_no_nul; [apply Hg | | done].
    by apply (ordered_good key _ _ root y Ho). }
  destruct (add_rb_data key root data) as [[dup |] root']; destruct Hadd as [_ Hadd]; csimpl.
  - destruct Hadd as (_ & Hin & E). split; [done |]. symmetry. by apply Hiff.
  - intros y Hy E. by apply (proj2 Hadd y Hy), Hiff.
Qed.

(** The key of a connection to a destination port below 256 has a NUL third
    byte: its C string is at most the source port. *)
Lemma cstr_low_port ps dport as_ ad :
  0 ≤ dport < 256 →
  cstr (mk_key ps (htons dport) as_ ad) RB_KEY_LENGTH = cstr (le_bytes 2 ps) 2.
Proof.
  intros Hp.
  assert (E : le_bytes 2 (htons dport) = [0; dport]).
  { unfold htons, bswap.
    assert (le_bytes 2 dport = [dport; 0]) as ->.
    { cbn. rewrite Z.mod_small, Z.div_small by lia. done. }
    apply (le_bytes_val [0; dport]). rewrite !Forall_cons, Forall_nil. unfold is_byte. lia. }
  unfold mk_key. rewrite E. simpl.
  destruct (Z.eqb_spec (ps mod 256) 0); [done |].
  by destruct (Z.eqb_spec (ps / 256 mod 256) 0).
Qed.

(** ** Search among listeners and pools whose keys lie in one half *)

Lemma search_rb_listner_spec key root lo k :
  int_ordered key lo root → in_half lo (s32 k) →
  match search_rb_listner key root k with
  | Some x => x ∈ inorder root ∧ key x = s32 k
  | None => ∀ y, y ∈ inorder root → key y ≠ s32 k
  end.
Proof.
  intros Ho Hk. unfold search_rb_listner.
  pose proof (rb_search_spec key key_diff (in_half lo) root (s32 k) Ho Hk) as Hs.
  assert (E : ∀ y, y ∈ inorder root → key_diff (s32 k) (key y) = 0 ↔ key y = s32 k).
  { intros y Hy. pose proof (ordered_good key _ _ root y Ho Hy) as Hg.
    unfold in_half, key_diff in *. rewrite s32_small by lia. lia. }
  case_match.
  - destruct Hs as [Hin Ek]. split; [done |]. by apply E.
  - intros y Hy Ek. by apply (Hs y Hy), E.
Qed.

Lemma add_rb_listner_spec key root lo data :
  int_ordered key lo root → in_half lo (key data) →
  let '(r, root') := add_rb_listner key root data in
  int_ordered key lo root' ∧
  match r with
  | Some dup => root' = root ∧ dup ∈ inorder root ∧ key dup = key data
  | None => inorder root' ≡ₚ data :: inorder root ∧ ∀ y, y ∈ inorder root → key y ≠ key data
  end.
Proof.
  intros Ho Hk. unfold add_rb_listner.
  pose proof (rb_add_spec key key_diff (in_half lo) root data Ho Hk) as Hs. cbv beta in Hs.
  assert (E : ∀ y, y ∈ inorder root → key_diff (key data) (key y) = 0 ↔ key y = key data).
  { intros y Hy. pose proof (ordered_good key _ _ root y Ho Hy) as Hg.
    unfold in_half, key_diff in *. rewrite s32_small by lia. lia. }
  destruct (rb_add _ _ _) as [[dup |] root']; destruct Hs as [Ho' Hs]; split; try done.
  - destruct Hs as (? & ? & Ek). split_and!; try done. by apply E.
  - destruct Hs as [? Hne]. split; [done |]. intros y Hy Ek. by apply (Hne y Hy), E.
Qed.
End lemmas.

(** ** Theorems *)

(** A lookup of an added listener succeeds. *)
Lemma search_add_listner `{RbLaws Z} key root lo data :
  int_ordered key lo root → in_half lo (key data) → -2147483648 ≤ key data < 2147483648 →
  (add_rb_listner key root data).1 = None →
  search_rb_listner key (add_rb_listner key root data).2 (key data) = Some data.
Proof.
  intros Ho Hk Hr Hnone. pose proof (add_rb_listner_spec key root lo data Ho Hk) as Ha.
  destruct (add_rb_listner key root data) as [r root']. simpl in *. subst r.
  destruct Ha as [Ho' [Hp Hne]].
  pose proof (search_rb_listner_spec key root' lo (key data) Ho') as Hs.
  rewrite s32_small in Hs by done. specialize (Hs Hk).
  destruct (search_rb_listner key root' (key data)) as [x |].
  - destruct Hs as [Hx Ek]. rewrite Hp in Hx.
    apply elem_of_cons in Hx as [-> | Hx]; [done | by destruct (Hne x Hx)].
  - destruct (Hs data); [| done]. rewrite Hp. set_solver.
Qed.

(** Outside one half of the circle the difference is not an order:
    whatever node [rb_erase] promotes, after erasing the first of three
    listeners with keys 0, 0x60000000 and 0xB0000000, a listener that is still
    in the tree is no longer found. *)
Lemma search_misses_after_erase `{RbLaws Z} (a b c : Z) (key : Z → Z) :
  a ≠ b → b ≠ c → a ≠ c →
  key a = 0 → key b = 1610612736 → key c = s32 2952790016 →
  let root := rb_erase a (Node (Node Leaf c Leaf) a (Node Leaf b Leaf)) in
  inorder root = [c; b] ∧
  (search_rb_listner key root (key b) = None ∨ search_rb_listner key root (key c) = None).
Proof.
  intros Hab Hbc Hac Ka Kb Kc root.
  assert (Ei : inorder root = [c; b]).
  { apply (rb_erase_inorder _ [c] a [b]); [done |].
    apply NoDup_ListNoDup. repeat constructor; simpl; intuition congruence. }
  split; [done |]. clearbody root. unfold search_rb_listner. rewrite Kb, Kc.
  assert (Ebc : key_diff (s32 1610612736) (s32 2952790016) = -1342177280) by reflexivity.
  assert (Ecb : key_diff (s32 (s32 2952790016)) 1610612736 = 1342177280) by reflexivity.
  destruct root as [| l x r]; [done |]. simpl in Ei.
  destruct (inorder l) as [| y [| z ll]] eqn:El; injection Ei; intros; subst.
  - left. simpl. rewrite Kc, Ebc. simpl. by rewrite (inorder_nil l).
  - right. simpl. rewrite Kb, Ecb. simpl. by rewrite (inorder_nil r).
  - by destruct ll.
Qed.

(** Two clients of one tenant, different addresses and different servers,
    whose source ports agree, connecting to destination ports below 256: the
    second one is taken for the first. *)
Lemma low_ports_collide `{RbLaws Z} (key : Z → list Z) x y ps p1 p2 as1 ad1 as2 ad2 :
  0 ≤ p1 < 256 → 0 ≤ p2 < 256 →
  key x = mk_key ps (htons p1) as1 ad1 → key y = mk_key ps (htons p2) as2 ad2 →
  add_rb_data key (Node Leaf x Leaf) y = (Some x, Node Leaf x Leaf).
Proof.
  intros Hp1 Hp2 Ex Ey. apply add_rb_data_found.
  - split; [repeat constructor |]. constructor; [| done]. simpl. rewrite Ex. apply mk_key_good.
  - rewrite Ey. apply mk_key_good.
  - simpl. set_solver.
  - by rewrite Ex, Ey, !cstr_low_port.
Qed.

(** Two requests of one client, to ports 22 and 80 of different servers. *)
Lemma low_ports_collide_witness :
  let key a := if a =? 1 then mk_key 4660 (htons 22) 7 8 else mk_key 4660 (htons 80) 9 10 in
  key 1 ≠ key 2 ∧ @add_rb_data spine_lib key (Node Leaf 1 Leaf) 2 = (Some 1, Node Leaf 1 Leaf).
Proof.
  intros key. split; [by vm_compute |].
  apply (@low_ports_collide spine_lib spine_laws key 1 2 4660 22 80 7 8 9 10); [lia | lia | reflexivity | reflexivity].
Defined.

Lemma search_misses_after_erase_witness :
  let key a := if a =? 1 then 0 else if a =? 2 then 1610612736 else s32 2952790016 in
  let root := @rb_erase Z spine_lib 1 (Node (Node Leaf 3 Leaf) 1 (Node Leaf 2 Leaf)) in
  search_rb_listner key root (key 2) = None ∨ search_rb_listner key root (key 3) = None.
Proof.
  intros key root. by apply (@search_misses_after_erase spine_lib spine_laws 1 2 3 key).
Defined.
