(* ===== verification/ElemPool.v ===== *)
(** * What the magazine allocator promises the thread pool

    The thread pool only calls [mag_alloc_elem], [mag_free_elem] and reads
    [full_count].  [ElemPool] is that interface, [ElemPoolLaws] the contract:
    the allocator is a bag of elements.  The theorems about sequences of
    operations are proved against the contract. *)

From stdpp Require Import base list sets.
From Stdlib Require Import ZArith Lia.
From S2P Require Import Prelude.

(** Operations and the observations the contract needs: the invariant, the
    CPUs and contexts with a pair, the elements held, whether an answer of the
    memory allocator can be used. *)
Class ElemPool (St : Type) := {
  ep_alloc : Z → bool → kproc St Z;
  ep_free : Z → bool → Z → Z → kproc St unit;
  ep_full_count : St → Z;
  ep_ok : St → Prop;
  ep_cpu : St → Z → bool → Prop;
  ep_elems : St → list Z;
  ep_mem : St → Z → Prop;
}.

Class ElemPoolLaws (St : Type) `{ElemPool St} := {
  ep_alloc_law s cpu bh : ep_ok s → ep_cpu s cpu bh →
    ∃ e s', ep_alloc cpu bh s = Ok (e, s') ∧ ep_ok s' ∧
      (∀ c b, ep_cpu s' c b ↔ ep_cpu s c b) ∧
      ((e = 0 ∧ s' = s) ∨ ep_elems s ≡ₚ e :: ep_elems s');
  ep_free_law s cpu bh ptr e : ep_ok s → ep_cpu s cpu bh → ep_mem s ptr →
    ∃ s', ep_free cpu bh ptr e s = Ok (tt, s') ∧ ep_ok s' ∧
      (∀ c b, ep_cpu s' c b ↔ ep_cpu s c b) ∧ ep_elems s' ≡ₚ e :: ep_elems s;
  ep_full_range s : ep_ok s → 0 ≤ ep_full_count s < 65536;
}.

(** ** Sequences of operations *)

Inductive pool_op :=
  | PAlloc (cpu : Z) (bh : bool)
  | PFree (cpu : Z) (bh : bool) (kzalloc elem : Z).

(** The answers: the element or NULL for an allocation, 0 for a free. *)
Definition run_op `{ElemPool St} (o : pool_op) : kproc St Z :=
  match o with
  | PAlloc cpu bh => ep_alloc cpu bh
  | PFree cpu bh ptr e => ep_free cpu bh ptr e ;; mret 0
  end.

Fixpoint run_ops `{ElemPool St} (os : list pool_op) : kproc St (list Z) :=
  match os with
  | [] => mret []
  | o :: os => r ← run_op o; rs ← run_ops os; mret (r :: rs)
  end.

(** Every operation runs on a CPU the allocator knows, and the memory
    allocator serves the frees. *)
Fixpoint ops_served `{ElemPool St} (os : list pool_op) (s : St) : Prop :=
  match os with
  | [] => True
  | o :: os =>
      match o with
      | PAlloc cpu bh => ep_cpu s cpu bh
      | PFree cpu bh ptr _ => ep_cpu s cpu bh ∧ ep_mem s ptr
      end ∧ ∀ r s', run_op o s = Ok (r, s') → ops_served os s'
  end.

(** The abstract allocator: a bag. *)
Inductive bag_step : list Z → pool_op → Z → list Z → Prop :=
  | bag_take b b' e cpu bh : b ≡ₚ e :: b' → bag_step b (PAlloc cpu bh) e b'
  | bag_none b cpu bh : bag_step b (PAlloc cpu bh) 0 b
  | bag_put b b' cpu bh ptr e : b' ≡ₚ e :: b → bag_step b (PFree cpu bh ptr e) 0 b'.

Inductive bag_run : list Z → list pool_op → list Z → list Z → Prop :=
  | bag_done b : bag_run b [] [] b
  | bag_next b b1 b2 o os r rs :
      bag_step b o r b1 → bag_run b1 os rs b2 → bag_run b (o :: os) (r :: rs) b2.

(** What a run puts in and takes out. *)
Definition freed (os : list pool_op) : list Z :=
  os ≫= λ o, match o with PFree _ _ _ e => [e] | PAlloc _ _ => [] end.
Definition allocated (rs : list Z) : list Z := filter (λ r, r ≠ 0) rs.

Lemma bag_conservation b os rs b' :
  bag_run b os rs b' → Forall (λ e, e ≠ 0) b → Forall (λ e, e ≠ 0) (freed os) →
  allocated rs ++ b' ≡ₚ freed os ++ b.
Proof.
  unfold allocated. induction 1 as [| b b1 b2 o os r rs Hstep Hrun IH]; intros Hb Hf; [done |].
  unfold freed in *. csimpl in *. apply Forall_app in Hf as [Hf1 Hf].
  destruct Hstep as [b0 b1' e cpu bh Hp | b0 cpu bh | b0 b1' cpu bh ptr e Hp].
  - rewrite Hp in Hb. apply Forall_cons in Hb as [He Hb]. rewrite filter_cons, decide_True by done.
    csimpl. rewrite IH, Hp by done. solve_Permutation.
  - rewrite filter_cons, decide_False by tauto. csimpl. by apply IH.
  - rewrite filter_cons, decide_False by tauto. csimpl. csimpl in Hf1.
    rewrite IH, Hp; [solve_Permutation | | done]. rewrite Hp. constructor; [| done].
    by apply Forall_cons in Hf1 as [? _].
Qed.

Section contract.
Context `{ElemPoolLaws St}.

Lemma run_op_refines o s :
  ep_ok s →
  match o with
  | PAlloc cpu bh => ep_cpu s cpu bh
  | PFree cpu bh ptr _ => ep_cpu s cpu bh ∧ ep_mem s ptr
  end →
  ∃ r s', run_op o s = Ok (r, s') ∧ ep_ok s' ∧ bag_step (ep_elems s) o r (ep_elems s').
Proof.
  intros Hok. destruct o as [cpu bh | cpu bh ptr e]; intros Hs.
  - destruct (ep_alloc_law s cpu bh Hok Hs) as (e & s' & Hr & Hok' & _ & [[-> ->] | Hp]).
    + exists 0, s. split_and!; try done. apply bag_none.
    + exists e, s'. split_and!; try done. by apply bag_take.
  - destruct Hs as [Hc Hm]. destruct (ep_free_law s cpu bh ptr e Hok Hc Hm) as (s' & Hr & Hok' & _ & Hp).
    exists 0, s'. simpl. kstep Hr. split_and!; try done. by apply bag_put.
Qed.

(** Every sequence of served operations runs without a fault and is a run of
    the bag. *)
Lemma run_ops_refines os s :
  ep_ok s → ops_served os s →
  ∃ rs s', run_ops os s = Ok (rs, s') ∧ ep_ok s' ∧ bag_run (ep_elems s) os rs (ep_elems s').
Proof.
  revert s. induction os as [| o os IH]; intros s Hok Hs.
  { exists [], s. split_and!; try done. constructor. }
  destruct Hs as [Ho Hrest]. destruct (run_op_refines o s Hok Ho) as (r & s1 & Hr & Hok1 & Hstep).
  destruct (IH s1 Hok1 (Hrest r s1 Hr)) as (rs & s' & Hrs & Hok' & Hrun).
  exists (r :: rs), s'. simpl. kstep Hr. kstep Hrs. split_and!; try done. by econstructor.
Qed.

(** No element is lost, made up or handed out twice. *)
Lemma run_ops_conserves os s rs s' :
  ep_ok s → ops_served os s → run_ops os s = Ok (rs, s') →
  Forall (λ e, e ≠ 0) (ep_elems s) → Forall (λ e, e ≠ 0) (freed os) →
  allocated rs ++ ep_elems s' ≡ₚ freed os ++ ep_elems s.
Proof.
  intros Hok Hs Hrun Hb Hf. destruct (run_ops_refines os s Hok Hs) as (rs' & s1 & Hrun' & _ & Hbag).
  rewrite Hrun in Hrun'. simplify_eq. by eapply bag_conservation.
Qed.
End contract.

(** ** A reference implementation: a stack of elements *)

#[export] Instance list_pool : ElemPool (list Z) := {|
  ep_alloc _ _ := λ s, Ok (hd 0 s, tl s);
  ep_free _ _ _ e := λ s, Ok (tt, e :: s);
  ep_full_count _ := 0;
  ep_ok _ := True;
  ep_cpu _ _ _ := True;
  ep_elems s := s;
  ep_mem _ _ := True;
|}.

#[export] Instance list_pool_laws : ElemPoolLaws (list Z).
Proof.
  split; simpl; [| | lia].
  - intros s _ _ _ _. exists (hd 0 s), (tl s). split_and!; try done. destruct s; [by left | by right].
  - intros s _ _ _ e _ _ _. by exists (e :: s).
Qed.
