(* ===== verification/Magazine.v ===== *)
(** * The magazine allocator (lib/magazine.h, magazine.c)

    Free elements live on fixed-depth stacks (magazines).  Each CPU owns two
    pairs of magazines, one for task and one for softirq context; full and
    empty magazines are exchanged with two shared lists under a lock.  The
    state is a heap of magazines ([heap]: address to stack slots), the pairs
    as pointers into it, and the two lists as sequences of addresses in
    traversal order.  Interrupts are off around an operation and the shared
    lists are only touched under the lock, so an operation is one step. *)

From stdpp Require Import base list gmap sets.
From Stdlib Require Import ZArith Lia.
From S2P Require Import Prelude ElemPool.

Definition MAG_DEPTH : Z := 4.
Definition MAG_COUNT : Z := 2.
Definition L1_CACHE_BYTES : Z := 64.
Definition sizeof_magazine : Z := 48.  (* struct list_head (16) + 4 pointers *)

(** struct mag_pair: [mags]/[mag_ptr] are one union, [count] the fill levels. *)
Record mag_pair := MkPair {
  mag0 : Z; mag1 : Z;
  count0 : Z; count1 : Z;
}.

Definition mags (p : mag_pair) (idx : Z) : Z := if idx =? 0 then mag0 p else mag1 p.
Definition count (p : mag_pair) (idx : Z) : Z := if idx =? 0 then count0 p else count1 p.

Definition set_mags (idx v : Z) (p : mag_pair) : mag_pair :=
  if idx =? 0 then MkPair v (mag1 p) (count0 p) (count1 p)
  else MkPair (mag0 p) v (count0 p) (count1 p).
Definition set_count (idx v : Z) (p : mag_pair) : mag_pair :=
  if idx =? 0 then MkPair (mag0 p) (mag1 p) v (count1 p)
  else MkPair (mag0 p) (mag1 p) (count0 p) v.

(** struct mag_allocator, with the memory its magazines live in.  A pair is
    named by its CPU and its context (task or softirq). *)
Record mag_allocator := MkAlloc {
  empty_list : list Z;
  full_list : list Z;
  empty_count : Z;  (* uint16_t *)
  full_count : Z;   (* uint16_t *)
  pcp_pair : gmap (Z * bool) mag_pair;
  heap : gmap Z (list Z);
}.

Definition with_pairs (f : gmap (Z * bool) mag_pair → gmap (Z * bool) mag_pair) (a : mag_allocator) :=
  MkAlloc (empty_list a) (full_list a) (empty_count a) (full_count a) (f (pcp_pair a)) (heap a).
Definition with_heap (f : gmap Z (list Z) → gmap Z (list Z)) (a : mag_allocator) :=
  MkAlloc (empty_list a) (full_list a) (empty_count a) (full_count a) (pcp_pair a) (f (heap a)).
Definition with_empty (l : list Z) (n : Z) (a : mag_allocator) :=
  MkAlloc l (full_list a) n (full_count a) (pcp_pair a) (heap a).
Definition with_full (l : list Z) (n : Z) (a : mag_allocator) :=
  MkAlloc (empty_list a) l (empty_count a) n (pcp_pair a) (heap a).

Abbreviation mproc := (kproc mag_allocator).

(** ALIGN(x, a) *)
Definition ALIGN (x a : Z) : Z := Z.land (x + (a - 1)) (Z.lnot (a - 1)).

(** ** Memory accesses *)

Definition load_pair (k : Z * bool) : mproc mag_pair :=
  kderef (λ s, pcp_pair s !! k) NullDeref.
Definition store_pair (k : Z * bool) (p : mag_pair) : mproc unit :=
  kmodify (with_pairs <[k := p]>).

(** [mag->stack\[i\]] *)
Definition load_slot (mag i : Z) : mproc Z :=
  stack ← kderef (λ s, heap s !! mag) NullDeref;
  kderef (λ _, stack !! Z.to_nat i) BadIndex.
Definition store_slot (mag i elem : Z) : mproc unit :=
  stack ← kderef (λ s, heap s !! mag) NullDeref;
  _ ← kderef (λ _, stack !! Z.to_nat i) BadIndex;
  kmodify (with_heap <[mag := <[Z.to_nat i := elem]> stack]>).

(** ** Operations *)

Definition mag_pair_count (p : mag_pair) : Z := u32 (count p 0 + count p 1).

(** The pair of the running CPU and context. *)
Definition get_cpu_mag_pair (cpu : Z) (in_softirq : bool) : Z * bool := (cpu, in_softirq).

(** Three exclusive ors on the pointers, three on the counts. *)
Definition swap_mags (k : Z * bool) : mproc unit :=
  pair ← load_pair k;
  let pair := set_mags 0 (Z.lxor (mags pair 0) (mags pair 1)) pair in
  let pair := set_mags 1 (Z.lxor (mags pair 1) (mags pair 0)) pair in
  let pair := set_mags 0 (Z.lxor (mags pair 0) (mags pair 1)) pair in
  let pair := set_count 0 (Z.lxor (count pair 0) (count pair 1)) pair in
  let pair := set_count 1 (Z.lxor (count pair 1) (count pair 0)) pair in
  let pair := set_count 0 (Z.lxor (count pair 0) (count pair 1)) pair in
  store_pair k pair.

(** NULL is 0. *)
Definition mag_pair_alloc (k : Z * bool) : mproc Z :=
  pair ← load_pair k;
  if count pair 0 =? 0 then mret 0
  else
    let pair := set_count 0 (u32 (count pair 0 - 1)) pair in
    store_pair k pair ;;
    elem ← load_slot (mags pair 0) (count pair 0);
    (if count pair 0 =? 0 then swap_mags k else mret tt) ;;
    mret elem.

Definition mag_pair_free (k : Z * bool) (elem : Z) : mproc unit :=
  pair ← load_pair k;
  kassert ((count pair 0 <? MAG_DEPTH) || (count pair 1 <? MAG_DEPTH)) ;;
  let idx := if count pair 0 =? MAG_DEPTH then 1 else 0 in
  store_slot (mags pair idx) (count pair idx) elem ;;
  store_pair k (set_count idx (u32 (count pair idx + 1)) pair).

(** [list_add(&mag->list, head)] writes into the magazine. *)
Definition touch (mag : Z) : mproc unit :=
  _ ← kderef (λ s, heap s !! mag) NullDeref; mret tt.

(** [kzalloc] returns [ptr], zeroed memory or NULL; the magazine is placed at
    the next cache line. *)
Definition new_magazine (ptr : Z) : mproc Z :=
  let mag := ALIGN (u64 ptr) L1_CACHE_BYTES in
  (if ptr =? 0 then mret tt
   else kmodify (with_heap <[mag := replicate (Z.to_nat MAG_DEPTH) 0]>)) ;;
  mret mag.

Definition mag_allocator_switch_full (kzalloc : Z) (k : Z * bool) : mproc unit :=
  pair ← load_pair k;
  let idx := if count pair 1 =? MAG_DEPTH then 1 else 0 in
  kassert (count pair idx =? MAG_DEPTH) ;;
  touch (mags pair idx) ;;
  kmodify (λ a, with_full (mags pair idx :: full_list a) (u16 (full_count a + 1)) a) ;;
  allocator ← kget;
  mag ← (if empty_count allocator =? 0 then new_magazine kzalloc
         else mag ← kderef (λ a, head (empty_list a)) ListCorrupt;
              kmodify (λ a, with_empty (tail (empty_list a)) (u16 (empty_count a - 1)) a) ;;
              mret mag);
  store_pair k (set_count idx 0 (set_mags idx mag pair)).

Definition mag_allocator_switch_empty (k : Z * bool) : mproc unit :=
  pair ← load_pair k;
  let idx := if count pair 0 =? 0 then 0 else 1 in
  allocator ← kget;
  if full_count allocator =? 0 then mret tt
  else
    touch (mags pair idx) ;;
    kmodify (λ a, with_empty (mags pair idx :: empty_list a) (u16 (empty_count a + 1)) a) ;;
    mag ← kderef (λ a, head (full_list a)) ListCorrupt;
    kmodify (λ a, with_full (tail (full_list a)) (u16 (full_count a - 1)) a) ;;
    store_pair k (set_count idx MAG_DEPTH (set_mags idx mag pair)).

Definition mag_alloc_elem (cpu : Z) (in_softirq : bool) : mproc Z :=
  let k := get_cpu_mag_pair cpu in_softirq in
  pair ← load_pair k;
  (if mag_pair_count pair =? 0 then mag_allocator_switch_empty k else mret tt) ;;
  mag_pair_alloc k.

Definition mag_free_elem (cpu : Z) (in_softirq : bool) (kzalloc elem : Z) : mproc unit :=
  let k := get_cpu_mag_pair cpu in_softirq in
  mag_pair_free k elem ;;
  pair ← load_pair k;
  if mag_pair_count pair =? Z.shiftl MAG_DEPTH 1 then mag_allocator_switch_full kzalloc k
  else mret tt.

(** One allocation holds both magazines of a pair. *)
Definition init_mag_pair (kzalloc : Z) (k : Z * bool) : mproc unit :=
  kassert (negb (kzalloc =? 0)) ;;
  let mag := ALIGN (u64 kzalloc) L1_CACHE_BYTES in
  kmodify (with_heap (λ h, <[mag := replicate (Z.to_nat MAG_DEPTH) 0]>
    (<[mag + sizeof_magazine := replicate (Z.to_nat MAG_DEPTH) 0]> h))) ;;
  pair ← load_pair k;
  let pair := set_mags 0 mag pair in
  let pair := set_mags 1 (mag + sizeof_magazine) pair in
  store_pair k pair ;;
  kassert (negb (mags pair 0 =? 0)).

(** [alloc_percpu] gives zeroed pairs; [kzalloc cpu softirq] is the address
    the allocation of one pair returns. *)
Definition mag_allocator_init (possible_cpus : list Z) (kzalloc : Z → bool → Z) : mproc unit :=
  kforeach possible_cpus (λ cpu,
    store_pair (cpu, false) (MkPair 0 0 0 0) ;; store_pair (cpu, true) (MkPair 0 0 0 0)) ;;
  kforeach possible_cpus (λ cpu,
    init_mag_pair (kzalloc cpu false) (cpu, false) ;;
    init_mag_pair (kzalloc cpu true) (cpu, true)) ;;
  kmodify (λ a, with_full [] (full_count a) (with_empty [] (empty_count a) a)).

(** The allocator as static storage holds it before initialisation. *)
Definition zeroed_allocator : mag_allocator := MkAlloc [] [] 0 0 ∅ ∅.

(** ** The memory of the allocator as a list of slots

    A slot is a magazine address with the number of elements it holds,
    whether it sits in a pair or on a shared list.  The elements of the
    allocator are read off the slots, and every operation either permutes the
    slots or changes one. *)

Definition pair_slots (p : mag_pair) : list (Z * Z) := [(mag0 p, count0 p); (mag1 p, count1 p)].

Definition slots (a : mag_allocator) : list (Z * Z) :=
  (map_to_list (pcp_pair a) ≫= λ kp, pair_slots kp.2) ++
  ((λ m, (m, 0)) <$> empty_list a) ++ ((λ m, (m, MAG_DEPTH)) <$> full_list a).

Definition slot_elems (h : gmap Z (list Z)) (s : Z * Z) : list Z :=
  take (Z.to_nat s.2) (default [] (h !! s.1)).

(** The elements the allocator holds. *)
Definition contents (a : mag_allocator) : list Z := slots a ≫= slot_elems (heap a).

Definition stack_ok (h : gmap Z (list Z)) (s : Z * Z) : Prop :=
  ∃ stack, h !! s.1 = Some stack ∧ length stack = Z.to_nat MAG_DEPTH.

(** Memory safety: no magazine has two owners, every slot is a magazine in
    memory, the 16-bit counters are the list lengths modulo 2^16. *)
Record mem_wf (a : mag_allocator) : Prop := {
  wf_nodup : NoDup (slots a).*1;
  wf_stacks : Forall (stack_ok (heap a)) (slots a);
  wf_empty : empty_count a = u16 (Z.of_nat (length (empty_list a)));
  wf_full : full_count a = u16 (Z.of_nat (length (full_list a)));
}.

(** Between operations: fill levels in range, the elements of a pair on its
    first magazine first, never both magazines full. *)
Definition pair_range (p : mag_pair) : Prop :=
  0 ≤ count0 p ≤ MAG_DEPTH ∧ 0 ≤ count1 p ≤ MAG_DEPTH ∧ (count0 p = 0 → count1 p = 0).
Definition pair_ok (p : mag_pair) : Prop :=
  pair_range p ∧ count0 p + count1 p < 2 * MAG_DEPTH.

Definition alloc_wf (a : mag_allocator) : Prop :=
  mem_wf a ∧ map_Forall (λ _, pair_ok) (pcp_pair a).

Lemma slots_insert a k p :
  slots (with_pairs <[k := p]> a) ≡ₚ pair_slots p ++ slots (with_pairs (delete k) a).
Proof.
  unfold slots. simpl. rewrite <- insert_delete_eq.
  rewrite map_to_list_insert by apply lookup_delete_eq. done.
Qed.

Lemma slots_lookup a k p :
  pcp_pair a !! k = Some p → slots a ≡ₚ pair_slots p ++ slots (with_pairs (delete k) a).
Proof.
  intros Hp. rewrite <- slots_insert. destruct a; unfold slots; simpl in *.
  by rewrite insert_id.
Qed.

Lemma slots_with_heap f a : slots (with_heap f a) = slots a.
Proof. done. Qed.

Lemma bind_elems_store h m stack (l : list (Z * Z)) :
  m ∉ l.*1 → l ≫= slot_elems (<[m := stack]> h) = l ≫= slot_elems h.
Proof.
  induction l as [| [m' n] l IH]; csimpl; [done |]. rewrite not_elem_of_cons. intros [Hne Hl].
  rewrite IH by done. f_equal. unfold slot_elems. csimpl. by rewrite lookup_insert_ne.
Qed.

(** The memory part of the invariant depends on the slots up to order. *)
Lemma mem_wf_slots a a' :
  mem_wf a → slots a' ≡ₚ slots a → heap a' = heap a →
  empty_count a' = u16 (Z.of_nat (length (empty_list a'))) →
  full_count a' = u16 (Z.of_nat (length (full_list a'))) → mem_wf a'.
Proof.
  intros [Hnd Hst _ _] Hs Hh He Hf. split; [| | done | done].
  - by rewrite Hs.
  - by rewrite Hs, Hh.
Qed.

Lemma contents_slots a a' :
  slots a' ≡ₚ slots a → heap a' = heap a → contents a' ≡ₚ contents a.
Proof. intros Hs Hh. unfold contents. by rewrite Hs, Hh. Qed.

(** Changing the fill level of one slot keeps the memory safe. *)
Lemma mem_wf_counts a a' rest m n n' :
  mem_wf a → slots a ≡ₚ (m, n) :: rest → slots a' ≡ₚ (m, n') :: rest →
  (∃ stack, heap a' = <[m := stack]> (heap a) ∧ length stack = Z.to_nat MAG_DEPTH) →
  empty_list a' = empty_list a → full_list a' = full_list a →
  empty_count a' = empty_count a → full_count a' = full_count a → mem_wf a'.
Proof.
  intros [Hnd Hst Hec Hfc] Hs Hs' (stack & Hh & Hl) He Hf Hec' Hfc'.
  rewrite Hs in Hnd, Hst. csimpl in Hnd. split; [| | congruence | congruence].
  - by rewrite Hs'.
  - rewrite Hs', Hh. apply Forall_cons in Hst as [_ Hst]. constructor.
    + exists stack. csimpl. by rewrite lookup_insert_eq.
    + apply NoDup_cons in Hnd as [Hm _]. rewrite Forall_forall in Hst |- *.
      intros [m' k] Hin. destruct (Hst _ Hin) as (st & Hst' & Hl'). exists st. csimpl in *.
      split; [| done]. rewrite lookup_insert_ne; [done |]. intros ->. apply Hm.
      apply list_elem_of_fmap. by exists (m', k).
Qed.

(** What changing one slot does to the elements. *)
Lemma contents_update a a' rest m n n' stack stack' :
  mem_wf a → slots a ≡ₚ (m, n) :: rest → slots a' ≡ₚ (m, n') :: rest →
  heap a !! m = Some stack → heap a' = <[m := stack']> (heap a) →
  ∃ R, contents a ≡ₚ take (Z.to_nat n) stack ++ R ∧
    contents a' ≡ₚ take (Z.to_nat n') stack' ++ R.
Proof.
  intros Hwf Hs Hs' Hst Hh. exists (rest ≫= slot_elems (heap a)).
  assert (Hni : m ∉ rest.*1).
  { pose proof (wf_nodup a Hwf) as Hnd. rewrite Hs in Hnd. by apply NoDup_cons in Hnd as [? _]. }
  assert (E : ∀ h c, slot_elems h (m, c) = take (Z.to_nat c) (default [] (h !! m))) by done.
  unfold contents. rewrite Hs, Hs', Hh. csimpl. rewrite bind_elems_store by done.
  by rewrite !E, Hst, lookup_insert_eq.
Qed.

Lemma wf_stack a m n : mem_wf a → (m, n) ∈ slots a →
  ∃ stack, heap a !! m = Some stack ∧ length stack = Z.to_nat MAG_DEPTH.
Proof. intros Hwf Hin. by apply (proj1 (Forall_forall _ _) (wf_stacks a Hwf) (m, n)). Qed.

Lemma load_pair_bind {B} a k p (f : mag_pair → mproc B) :
  pcp_pair a !! k = Some p → (load_pair k ≫= f) a = f p a.
Proof. apply (kbind_deref (λ s, pcp_pair s !! k)). Qed.

(** ** swap_mags swaps *)

Lemma lxor_swap a b :
  Z.lxor (Z.lxor a b) (Z.lxor b (Z.lxor a b)) = b ∧ Z.lxor b (Z.lxor a b) = a.
Proof.
  assert (E : Z.lxor b (Z.lxor a b) = a).
  { by rewrite (Z.lxor_comm a b), <- Z.lxor_assoc, Z.lxor_nilpotent, Z.lxor_0_l. }
  split; [| done]. by rewrite E, (Z.lxor_comm a b), Z.lxor_assoc, Z.lxor_nilpotent, Z.lxor_0_r.
Qed.

Definition swapped (p : mag_pair) : mag_pair := MkPair (mag1 p) (mag0 p) (count1 p) (count0 p).

Lemma swap_mags_eq a k p :
  pcp_pair a !! k = Some p →
  swap_mags k a = Ok (tt, with_pairs <[k := swapped p]> a).
Proof.
  intros Hp. unfold swap_mags. rewrite (load_pair_bind a k p) by done.
  unfold store_pair, kmodify. destruct p as [m0 m1 c0 c1]. unfold swapped, mags, count, set_mags, set_count.
  simpl. destruct (lxor_swap m0 m1) as [-> ->], (lxor_swap c0 c1) as [-> ->]. done.
Qed.

(** ** Alloc and free on one pair *)

Lemma pair_range_u32 p i : pair_range p → u32 (count p i - 1) = count p i - 1 ∨ count p i = 0.
Proof.
  intros (H0 & H1 & _). unfold MAG_DEPTH, count in *.
  destruct (i =? 0); [destruct (decide (count0 p = 0)) | destruct (decide (count1 p = 0))];
    auto; left; apply u32_small; lia.
Qed.

Lemma load_slot_ok a m i stack e :
  heap a !! m = Some stack → stack !! Z.to_nat i = Some e → load_slot m i a = Ok (e, a).
Proof.
  intros Hm Hi. unfold load_slot. kstep (kderef_ok (λ s, heap s !! m) NullDeref a stack Hm).
  unfold kderef. by rewrite Hi.
Qed.

Lemma store_slot_ok a m i e stack :
  heap a !! m = Some stack → (Z.to_nat i < length stack)%nat →
  store_slot m i e a = Ok (tt, with_heap <[m := <[Z.to_nat i := e]> stack]> a).
Proof.
  intros Hm Hi. unfold store_slot. kstep (kderef_ok (λ s, heap s !! m) NullDeref a stack Hm).
  destruct (lookup_lt_is_Some_2 _ _ Hi) as [x Hx].
  by kstep (kderef_ok (λ _ : mag_allocator, stack !! Z.to_nat i) BadIndex a x Hx).
Qed.

(** The pair after an allocation: one element less on the first magazine, and
    the magazines swapped if that emptied it. *)
Definition popped (p : mag_pair) : mag_pair :=
  let p := MkPair (mag0 p) (mag1 p) (count0 p - 1) (count1 p) in
  if count0 p =? 0 then swapped p else p.

Lemma popped_slots p : pair_slots (popped p) ≡ₚ [(mag0 p, count0 p - 1); (mag1 p, count1 p)].
Proof. unfold popped. csimpl. destruct (_ =? _); [apply Permutation_swap | done]. Qed.

Lemma mag_pair_alloc_eq a k p stack e :
  pcp_pair a !! k = Some p → 0 < count0 p ≤ MAG_DEPTH →
  heap a !! mag0 p = Some stack → stack !! Z.to_nat (count0 p - 1) = Some e →
  mag_pair_alloc k a = Ok (e, with_pairs <[k := popped p]> a).
Proof.
  intros Hp Hc Hst He. unfold mag_pair_alloc, MAG_DEPTH in *. rewrite (load_pair_bind a k p) by done.
  change (count p 0) with (count0 p). change (set_count 0 ?v p) with (MkPair (mag0 p) (mag1 p) v (count1 p)).
  rewrite u32_small by lia. destruct (Z.eqb_spec (count0 p) 0); [lia |]. cbv zeta.
  set (p1 := MkPair _ _ _ _). set (a1 := with_pairs <[k := p1]> a).
  assert (H1 : store_pair k p1 a = Ok (tt, a1)) by done. kstep H1.
  assert (H2 : load_slot (mags p1 0) (count p1 0) a1 = Ok (e, a1)) by by eapply load_slot_ok.
  kstep H2. unfold popped. change (count p1 0) with (count0 p1). fold p1.
  destruct (count0 p1 =? 0); [| done].
  assert (H3 : swap_mags k a1 = Ok (tt, with_pairs <[k := swapped p1]> a1)).
  { apply swap_mags_eq. simpl. by rewrite lookup_insert_eq. }
  kstep H3. unfold with_pairs. simpl. by rewrite insert_insert_eq.
Qed.

Lemma mag_pair_alloc_spec a k p :
  mem_wf a → pcp_pair a !! k = Some p → 0 < count0 p ≤ MAG_DEPTH →
  ∃ e, let a' := with_pairs <[k := popped p]> a in
    mag_pair_alloc k a = Ok (e, a') ∧ mem_wf a' ∧ contents a ≡ₚ e :: contents a'.
Proof.
  intros Hwf Hp Hc. pose proof (slots_lookup a k p Hp) as Hs.
  destruct (wf_stack a (mag0 p) (count0 p) Hwf) as (stack & Hst & Hl);
    [rewrite Hs; apply elem_of_cons; by left |].
  unfold MAG_DEPTH in *.
  assert (is_Some (stack !! Z.to_nat (count0 p - 1))) as [e He] by (apply lookup_lt_is_Some_2; lia).
  exists e. cbv zeta. set (rest := (mag1 p, count1 p) :: slots (with_pairs (delete k) a)).
  assert (Hs' : slots (with_pairs <[k := popped p]> a) ≡ₚ (mag0 p, count0 p - 1) :: rest).
  { rewrite slots_insert, popped_slots. reflexivity. }
  split_and!.
  - by eapply mag_pair_alloc_eq.
  - apply (mem_wf_counts a _ rest _ _ _ Hwf Hs Hs'); [| done..].
    exists stack. split; [| done]. simpl. by rewrite insert_id.
  - destruct (contents_update a (with_pairs <[k := popped p]> a) rest _ _ _ stack stack Hwf Hs Hs' Hst)
      as (R & -> & ->); [simpl; by rewrite insert_id |].
    replace (Z.to_nat (count0 p)) with (S (Z.to_nat (count0 p - 1))) by lia.
    rewrite (take_S_r _ _ _ He), <- app_assoc. symmetry. apply Permutation_middle.
Qed.

(** The pair after a free. *)
Definition free_idx (p : mag_pair) : Z := if count0 p =? MAG_DEPTH then 1 else 0.
Definition pushed (p : mag_pair) : mag_pair :=
  set_count (free_idx p) (count p (free_idx p) + 1) p.

Lemma free_idx_lt p : pair_ok p → 0 ≤ count p (free_idx p) < MAG_DEPTH.
Proof.
  unfold pair_ok, pair_range, free_idx, count, MAG_DEPTH. intros.
  destruct (Z.eqb_spec (count0 p) 4); simpl; lia.
Qed.

Lemma pushed_range p : pair_ok p →
  pair_range (pushed p) ∧ count0 (pushed p) + count1 (pushed p) = count0 p + count1 p + 1.
Proof.
  unfold pair_ok, pair_range, pushed, free_idx, count, set_count, MAG_DEPTH. intros.
  destruct (Z.eqb_spec (count0 p) 4); simpl; lia.
Qed.

Lemma slots_at p i : ∃ other, ∀ n,
  pair_slots (set_count i n p) ≡ₚ [(mags p i, n); other].
Proof.
  unfold mags, set_count. destruct (i =? 0); [by exists (mag1 p, count1 p) |].
  exists (mag0 p, count0 p). intros. apply Permutation_swap.
Qed.

Lemma set_count_id p i : set_count i (count p i) p = p.
Proof. destruct p. unfold set_count, count. by destruct (i =? 0). Qed.

Lemma mag_pair_free_eq a k p e stack :
  pcp_pair a !! k = Some p → pair_ok p →
  heap a !! mags p (free_idx p) = Some stack → length stack = Z.to_nat MAG_DEPTH →
  mag_pair_free k e a = Ok (tt, with_pairs <[k := pushed p]>
    (with_heap <[mags p (free_idx p) := <[Z.to_nat (count p (free_idx p)) := e]> stack]> a)).
Proof.
  intros Hp Hok Hst Hl. unfold mag_pair_free. rewrite (load_pair_bind a k p) by done.
  assert (Ha : (count p 0 <? MAG_DEPTH) || (count p 1 <? MAG_DEPTH) = true).
  { unfold pair_ok, count, MAG_DEPTH in *. simpl. apply orb_true_iff. rewrite !Z.ltb_lt. lia. }
  rewrite Ha. change (kassert true) with (mret tt : mproc unit).
  assert (Hr : (mret tt : mproc unit) a = Ok (tt, a)) by done. kstep Hr.
  change (count p 0 =? MAG_DEPTH) with (count0 p =? MAG_DEPTH). fold (free_idx p). cbv zeta.
  pose proof (free_idx_lt p Hok) as Hi.
  assert (Hs : store_slot (mags p (free_idx p)) (count p (free_idx p)) e a = Ok (tt, with_heap
    <[mags p (free_idx p) := <[Z.to_nat (count p (free_idx p)) := e]> stack]> a)).
  { apply store_slot_ok; [done |]. lia. }
  kstep Hs. unfold pushed, MAG_DEPTH in *. by rewrite u32_small by lia.
Qed.

Lemma mag_pair_free_spec a k p e :
  mem_wf a → pcp_pair a !! k = Some p → pair_ok p →
  ∃ f, let a' := with_pairs <[k := pushed p]> (with_heap f a) in
    mag_pair_free k e a = Ok (tt, a') ∧ mem_wf a' ∧ contents a' ≡ₚ e :: contents a ∧
    (∀ m, heap a !! m = None → heap a' !! m = None).
Proof.
  intros Hwf Hp Hok. pose proof (slots_lookup a k p Hp) as Hs.
  pose proof (free_idx_lt p Hok) as Hi. set (i := free_idx p) in *.
  destruct (slots_at p i) as [other Hat]. pose proof (Hat (count p i)) as Hold.
  rewrite set_count_id in Hold. rewrite Hold in Hs.
  destruct (wf_stack a (mags p i) (count p i) Hwf) as (stack & Hst & Hl);
    [rewrite Hs; apply elem_of_cons; by left |].
  set (rest := other :: slots (with_pairs (delete k) a)).
  set (stack' := <[Z.to_nat (count p i) := e]> stack).
  exists (<[mags p i := stack']>). cbv zeta. set (a' := with_pairs _ _).
  assert (Hs' : slots a' ≡ₚ (mags p i, count p i + 1) :: rest).
  { unfold a'. rewrite slots_insert. unfold pushed. fold i. rewrite Hat. reflexivity. }
  split_and!.
  - by apply mag_pair_free_eq.
  - apply (mem_wf_counts a _ rest _ _ _ Hwf Hs Hs'); [| done..].
    exists stack'. split; [done |]. by unfold stack'; rewrite length_insert.
  - destruct (contents_update a a' rest _ _ _ stack stack' Hwf Hs Hs' Hst eq_refl) as (R & -> & ->).
    replace (Z.to_nat (count p i + 1)) with (S (Z.to_nat (count p i))) by lia.
    unfold stack', MAG_DEPTH in *. erewrite take_S_r by (apply list_lookup_insert_eq; lia).
    rewrite take_insert_ge, <- app_assoc by lia. symmetry. apply Permutation_middle.
  - intros m Hm. simpl. rewrite lookup_insert_ne; [done | congruence].
Qed.

(** ** Exchanging magazines with the shared lists *)

Definition list_slots (a : mag_allocator) : list (Z * Z) :=
  ((λ m, (m, 0)) <$> empty_list a) ++ ((λ m, (m, MAG_DEPTH)) <$> full_list a).

Lemma slots_lists a k p :
  slots (with_pairs <[k := p]> a) ≡ₚ
  pair_slots p ++ (map_to_list (delete k (pcp_pair a)) ≫= λ kp, pair_slots kp.2) ++ list_slots a.
Proof. by rewrite slots_insert. Qed.

Lemma slots_lists_lookup a k p :
  pcp_pair a !! k = Some p → slots a ≡ₚ
  pair_slots p ++ (map_to_list (delete k (pcp_pair a)) ≫= λ kp, pair_slots kp.2) ++ list_slots a.
Proof. intros Hp. by rewrite (slots_lookup a k p Hp). Qed.

Lemma touch_ok a m n : mem_wf a → (m, n) ∈ slots a → touch m a = Ok (tt, a).
Proof.
  intros Hwf Hin. destruct (wf_stack a m n Hwf Hin) as (stack & Hst & _). unfold touch.
  by kstep (kderef_ok (λ s, heap s !! m) NullDeref a stack Hst).
Qed.

(** [kzalloc] succeeds and the magazine it gives is not in use. *)
Definition fresh_mag (a : mag_allocator) (ptr : Z) : Prop :=
  ptr ≠ 0 ∧ heap a !! ALIGN (u64 ptr) L1_CACHE_BYTES = None.

Lemma fresh_not_slot a m n : mem_wf a → heap a !! m = None → (m, n) ∉ slots a.
Proof. intros Hwf Hm Hin. destruct (wf_stack a m n Hwf Hin) as (? & ? & _). congruence. Qed.

Lemma fresh_not_owned a m : mem_wf a → heap a !! m = None → m ∉ (slots a).*1.
Proof.
  intros Hwf Hm Hin. apply list_elem_of_fmap in Hin as ([m' n] & -> & Hin).
  by apply (fresh_not_slot a m' n) in Hin.
Qed.

(** Adding an empty magazine outside the memory in use. *)
Lemma mem_wf_new a a' m :
  mem_wf a → heap a !! m = None → slots a' ≡ₚ (m, 0) :: slots a →
  heap a' = <[m := replicate (Z.to_nat MAG_DEPTH) 0]> (heap a) →
  empty_count a' = u16 (Z.of_nat (length (empty_list a'))) →
  full_count a' = u16 (Z.of_nat (length (full_list a'))) →
  mem_wf a' ∧ contents a' ≡ₚ contents a.
Proof.
  intros Hwf Hm Hs Hh He Hf. pose proof (fresh_not_owned a m Hwf Hm) as Hni. split; [split |].
  - rewrite Hs. csimpl. constructor; [done | apply Hwf].
  - rewrite Hs, Hh. constructor.
    + exists (replicate (Z.to_nat MAG_DEPTH) 0). 
      split; [by csimpl; rewrite lookup_insert_eq | done].
    + rewrite Forall_forall. intros [m' n] Hin. destruct (wf_stack a m' n Hwf Hin) as (st & Hst & Hl).
      exists st. csimpl. rewrite lookup_insert_ne; [done | congruence].
  - done.
  - done.
  - unfold contents. rewrite Hs, Hh. csimpl. rewrite bind_elems_store by done.
    done.
Qed.

(** The pair after the exchange of its full second magazine. *)
Definition emptied (p : mag_pair) (m : Z) : mag_pair := MkPair (mag0 p) m (count0 p) 0.

Lemma switch_full_spec a k p ptr :
  mem_wf a → pcp_pair a !! k = Some p → count0 p = MAG_DEPTH → count1 p = MAG_DEPTH →
  (empty_count a = 0 → fresh_mag a ptr) →
  ∃ m a', mag_allocator_switch_full ptr k a = Ok (tt, a') ∧ mem_wf a' ∧
    contents a' ≡ₚ contents a ∧ pcp_pair a' = <[k := emptied p m]> (pcp_pair a).
Proof.
  intros Hwf Hp H0 H1 Hfr. pose proof (slots_lists_lookup a k p Hp) as Hs.
  unfold mag_allocator_switch_full. rewrite (load_pair_bind a k p) by done.
  change (count p 1) with (count1 p). rewrite H1. cbv zeta.
  change (MAG_DEPTH =? MAG_DEPTH) with true. cbv iota.
  change (count p 1) with (count1 p). rewrite H1. change (mags p 1) with (mag1 p).
  change (kassert (MAG_DEPTH =? MAG_DEPTH)) with (mret tt : mproc unit). kpure.
  assert (Ht : touch (mag1 p) a = Ok (tt, a)).
  { apply (touch_ok a _ (count1 p) Hwf). rewrite Hs. simpl. rewrite !elem_of_cons. auto. }
  kstep Ht. kpure.
  match goal with |- context [empty_count ?x] => set (af := x) end.
  change (set_count 1 0 (set_mags 1 ?m p)) with (emptied p m).
  assert (Hfc : full_count af = u16 (Z.of_nat (length (full_list af)))).
  { simpl. rewrite (wf_full a Hwf), u16_succ_u16. f_equal. lia. }
  change (empty_count af) with (empty_count a). destruct (Z.eqb_spec (empty_count a) 0) as [Hz | Hnz].
  - destruct (Hfr Hz) as [Hptr Hfresh]. set (m := ALIGN (u64 ptr) L1_CACHE_BYTES) in *.
    set (a1 := with_heap <[m := replicate (Z.to_nat MAG_DEPTH) 0]> af).
    assert (Hn : new_magazine ptr af = Ok (m, a1)).
    { unfold new_magazine. fold m. destruct (Z.eqb_spec ptr 0); done. }
    kstep Hn. exists m, (with_pairs <[k := emptied p m]> a1). split; [done |].
    assert (Hs' : slots (with_pairs <[k := emptied p m]> a1) ≡ₚ (m, 0) :: slots a).
    { rewrite slots_lists, Hs. unfold list_slots, emptied, pair_slots. csimpl. rewrite H0, H1.
      solve_Permutation. }
    destruct (mem_wf_new a (with_pairs <[k := emptied p m]> a1) m Hwf Hfresh Hs') as [Hwf' Hc];
      [done | apply Hwf | done |].
    by split_and!.
  - destruct (empty_list a) as [| m el] eqn:Eel.
    { destruct Hnz. by rewrite (wf_empty a Hwf), Eel. }
    kpure. rewrite (kbind_deref (λ a, head (empty_list a)) _ _ _ m) by (simpl; by rewrite Eel). kpure.
    change (empty_list af) with (empty_list a). rewrite Eel. simpl tail.
    eexists m, _. split; [done |]. set (a' := with_pairs _ _).
    assert (Hs' : slots a' ≡ₚ slots a).
    { unfold a'. rewrite slots_lists, Hs. unfold list_slots, emptied, pair_slots. csimpl.
      rewrite Eel, H0, H1. csimpl. solve_Permutation. }
    split_and!; [| by apply contents_slots | done].
    apply (mem_wf_slots a a' Hwf Hs'); [done | | done]. simpl.
    rewrite (wf_empty a Hwf), u16_pred_u16, Eel. csimpl. f_equal. lia.
Qed.

(** The pair after the exchange of its empty first magazine for a full one. *)
Definition refilled (p : mag_pair) (m : Z) : mag_pair := MkPair m (mag1 p) MAG_DEPTH (count1 p).

Lemma switch_empty_spec a k p :
  mem_wf a → pcp_pair a !! k = Some p → count0 p = 0 →
  (full_count a = 0 ∧ mag_allocator_switch_empty k a = Ok (tt, a)) ∨
  (∃ m a', mag_allocator_switch_empty k a = Ok (tt, a') ∧ mem_wf a' ∧
    contents a' ≡ₚ contents a ∧ pcp_pair a' = <[k := refilled p m]> (pcp_pair a)).
Proof.
  intros Hwf Hp H0. pose proof (slots_lists_lookup a k p Hp) as Hs.
  unfold mag_allocator_switch_empty. rewrite (load_pair_bind a k p) by done.
  change (count p 0) with (count0 p). rewrite H0. cbv zeta.
  change (0 =? 0) with true. cbv iota. kpure. change (mags p 0) with (mag0 p).
  destruct (Z.eqb_spec (full_count a) 0) as [Hz | Hnz]; [by left | right].
  destruct (full_list a) as [| m fl] eqn:Efl.
  { destruct Hnz. by rewrite (wf_full a Hwf), Efl. }
  assert (Ht : touch (mag0 p) a = Ok (tt, a)).
  { apply (touch_ok a _ (count0 p) Hwf). rewrite Hs. simpl. rewrite !elem_of_cons. auto. }
  kstep Ht. kpure.
  rewrite (kbind_deref (λ a, head (full_list a)) _ _ _ m) by (simpl; by rewrite Efl). kpure.
  change (set_count 0 MAG_DEPTH (set_mags 0 m p)) with (refilled p m).
  eexists m, _. split; [done |]. set (a' := with_pairs _ _).
  assert (Hs' : slots a' ≡ₚ slots a).
  { unfold a'. rewrite slots_lists, Hs. unfold list_slots, refilled, pair_slots. csimpl.
    rewrite Efl, H0. csimpl. solve_Permutation. }
  split_and!; [| by apply contents_slots | done].
  apply (mem_wf_slots a a' Hwf Hs'); [done | |]; simpl.
  - rewrite (wf_empty a Hwf), u16_succ_u16. f_equal. lia.
  - rewrite (wf_full a Hwf), u16_pred_u16, Efl. csimpl. f_equal. lia.
Qed.

(** ** The two entry points *)

Lemma pair_sum_small p : pair_range p → mag_pair_count p = count0 p + count1 p.
Proof.
  unfold pair_range, MAG_DEPTH, mag_pair_count, count. simpl. intros. apply u32_small. lia.
Qed.

Lemma pair_ok_popped p : pair_ok p → 0 < count0 p → pair_ok (popped p).
Proof.
  unfold pair_ok, pair_range, popped, swapped, MAG_DEPTH. intros. csimpl.
  destruct (Z.eqb_spec (count0 p - 1) 0); simpl; lia.
Qed.

Lemma wf_pair_ok a k p : alloc_wf a → pcp_pair a !! k = Some p → pair_ok p.
Proof. intros [_ Hok] Hp. by apply (Hok k). Qed.

Lemma alloc_wf_intro a a' k p :
  map_Forall (λ _, pair_ok) (pcp_pair a) → mem_wf a' →
  pcp_pair a' = <[k := p]> (pcp_pair a) → pair_ok p → alloc_wf a'.
Proof. intros Ha Hm Hpp Hp. split; [done |]. rewrite Hpp. by apply map_Forall_insert_2. Qed.

(** Allocation: NULL only when the pair is empty and no full magazine is
    counted, else an element leaves the allocator. *)
Lemma mag_alloc_elem_spec a cpu bh p :
  alloc_wf a → pcp_pair a !! (cpu, bh) = Some p →
  (count0 p = 0 ∧ full_count a = 0 ∧ mag_alloc_elem cpu bh a = Ok (0, a)) ∨
  (∃ e a', mag_alloc_elem cpu bh a = Ok (e, a') ∧ alloc_wf a' ∧ contents a ≡ₚ e :: contents a' ∧
    dom (pcp_pair a') = dom (pcp_pair a)).
Proof.
  intros Hawf Hp. pose proof (wf_pair_ok a _ p Hawf Hp) as Hok. destruct Hawf as [Hwf Hall].
  unfold mag_alloc_elem, get_cpu_mag_pair. rewrite (load_pair_bind a (cpu, bh) p) by done.
  rewrite pair_sum_small by apply Hok. destruct (decide (count0 p = 0)) as [H0 | Hn].
  - assert (count0 p + count1 p = 0) as -> by (destruct Hok as [(_ & _ & ?) _]; lia).
    cbv iota. change (0 =? 0) with true. cbv iota.
    destruct (switch_empty_spec a _ p Hwf Hp H0) as [[Hz Hsw] | (m & a1 & Hsw & Hwf1 & Hc1 & Hp1)].
    + left. split_and!; [done.. |]. kstep Hsw. unfold mag_pair_alloc. rewrite (load_pair_bind a (cpu, bh) p) by done.
      change (count p 0) with (count0 p). by rewrite H0.
    + right. kstep Hsw.
      destruct (mag_pair_alloc_spec a1 (cpu, bh) (refilled p m) Hwf1) as (e & He & Hwf2 & Hc2);
        [by rewrite Hp1, lookup_insert_eq | done |].
      eexists e, _. split; [exact He |]. split; [| split; [by rewrite <- Hc1 |]].
      apply (alloc_wf_intro a _ (cpu, bh) (popped (refilled p m)) Hall Hwf2).
      * simpl. by rewrite Hp1, insert_insert_eq.
      * apply pair_ok_popped; [| done]. unfold pair_ok, pair_range, refilled, MAG_DEPTH in *. simpl. lia.
      * simpl. rewrite Hp1, insert_insert_eq. apply dom_insert_lookup_L. by rewrite Hp.
  - right. destruct Hok as [Hr Hlt]. assert (0 < count0 p ≤ MAG_DEPTH) as Hc by (unfold pair_range in *; lia).
    destruct (Z.eqb_spec (count0 p + count1 p) 0); [unfold pair_range in *; lia |]. kpure.
    destruct (mag_pair_alloc_spec a (cpu, bh) p Hwf Hp Hc) as (e & He & Hwf2 & Hc2).
    eexists e, _. split; [exact He |]. split; [| split; [done |]].
    + apply (alloc_wf_intro a _ (cpu, bh) (popped p) Hall Hwf2); [done |].
      apply pair_ok_popped; [done | lia].
    + apply dom_insert_lookup_L. by rewrite Hp.
Qed.

(** Freeing: the element enters the allocator, whatever exchange it causes,
    provided the memory for a new magazine, when one is needed, is there. *)
Lemma mag_free_elem_spec a cpu bh p ptr e :
  alloc_wf a → pcp_pair a !! (cpu, bh) = Some p →
  (count0 p + count1 p = 2 * MAG_DEPTH - 1 → empty_count a = 0 → fresh_mag a ptr) →
  ∃ a', mag_free_elem cpu bh ptr e a = Ok (tt, a') ∧ alloc_wf a' ∧ contents a' ≡ₚ e :: contents a ∧
    dom (pcp_pair a') = dom (pcp_pair a).
Proof.
  intros Hawf Hp Hfr. pose proof (wf_pair_ok a _ p Hawf Hp) as Hok. destruct Hawf as [Hwf Hall].
  assert (Hdom : ∀ q, dom (<[(cpu, bh) := q]> (pcp_pair a)) = dom (pcp_pair a)).
  { intros q. apply dom_insert_lookup_L. by rewrite Hp. }
  unfold mag_free_elem, get_cpu_mag_pair.
  destruct (mag_pair_free_spec a (cpu, bh) p e Hwf Hp Hok) as (f & Hf & Hwf1 & Hc1 & Hnone).
  kstep Hf. set (a1 := with_pairs _ _) in *. destruct (pushed_range p Hok) as [Hr Hsum].
  assert (Hp1 : pcp_pair a1 !! (cpu, bh) = Some (pushed p)) by (simpl; by rewrite lookup_insert_eq).
  rewrite (load_pair_bind a1 (cpu, bh) (pushed p)) by done.
  rewrite pair_sum_small, Hsum by done. change (Z.shiftl MAG_DEPTH 1) with 8.
  destruct (Z.eqb_spec (count0 p + count1 p + 1) 8) as [H8 | Hn8].
  - assert (Hfull : count0 (pushed p) = MAG_DEPTH ∧ count1 (pushed p) = MAG_DEPTH).
    { unfold pair_range, MAG_DEPTH in *. lia. }
    destruct (switch_full_spec a1 (cpu, bh) (pushed p) ptr Hwf1 Hp1) as (m & a2 & Hsw & Hwf2 & Hc2 & Hp2);
      [tauto.. | |].
    { intros He. destruct Hfr as [? Hn]; [unfold MAG_DEPTH; lia | done |]. split; [done | by apply Hnone]. }
    simpl in Hp2. rewrite insert_insert_eq in Hp2.
    exists a2. split_and!; [done | | by rewrite Hc2 | by rewrite Hp2].
    apply (alloc_wf_intro a _ (cpu, bh) (emptied (pushed p) m) Hall Hwf2 Hp2).
    destruct Hfull as [Hf0 _]. unfold pair_ok, pair_range, emptied. cbn [count0 count1].
    rewrite Hf0. unfold MAG_DEPTH. lia.
  - exists a1. split_and!; [done | | done | apply Hdom].
    apply (alloc_wf_intro a _ (cpu, bh) (pushed p) Hall Hwf1); [done |].
    split; [done |]. unfold pair_ok, MAG_DEPTH in *. lia.
Qed.

(** A failed [kzalloc] in the exchange leaves a NULL second magazine in
    the pair, and the next free on that pair dereferences it. *)
Lemma mag_free_null_deref a cpu bh p e1 e2 :
  alloc_wf a → pcp_pair a !! (cpu, bh) = Some p →
  count0 p + count1 p = 2 * MAG_DEPTH - 1 → empty_count a = 0 → heap a !! 0 = None →
  (mag_free_elem cpu bh 0 e1 ;; mag_free_elem cpu bh 0 e2) a = Oops NullDeref.
Proof.
  intros Hawf Hp Hsum He H0. pose proof (wf_pair_ok a _ p Hawf Hp) as Hok. destruct Hawf as [Hwf Hall].
  set (next := mag_free_elem cpu bh 0 e2). unfold mag_free_elem, get_cpu_mag_pair. cbv zeta.
  destruct (mag_pair_free_spec a (cpu, bh) p e1 Hwf Hp Hok) as (f & Hf & Hwf1 & Hc1 & Hnone).
  rewrite kbind_assoc. kstep Hf. set (a1 := with_pairs _ _) in *.
  destruct (pushed_range p Hok) as [Hr Hsum'].
  assert (Hp1 : pcp_pair a1 !! (cpu, bh) = Some (pushed p)) by (simpl; by rewrite lookup_insert_eq).
  rewrite kbind_assoc, (load_pair_bind a1 (cpu, bh) (pushed p)) by done.
  rewrite pair_sum_small, Hsum' by done. change (Z.shiftl MAG_DEPTH 1) with 8.
  unfold MAG_DEPTH in *. destruct (Z.eqb_spec (count0 p + count1 p + 1) 8); [| lia].
  assert (Hfull : count0 (pushed p) = 4 ∧ count1 (pushed p) = 4) by (unfold pair_range, MAG_DEPTH in *; lia).
  destruct (pushed p) as [m0 m1 c0 c1] eqn:Ep. simpl in Hfull. destruct Hfull as [-> ->].
  set (q := MkPair m0 m1 4 4) in *. set (b := emptied q 0).
  set (a2 := with_pairs <[(cpu, bh) := b]> (with_full (m1 :: full_list a1) (u16 (full_count a1 + 1)) a1)).
  assert (Hsw : mag_allocator_switch_full 0 (cpu, bh) a1 = Ok (tt, a2)).
  { unfold mag_allocator_switch_full. rewrite (load_pair_bind a1 (cpu, bh) q) by done.
    cbv beta zeta. rewrite kbind_assert by reflexivity. kpure.
    assert (Ht : touch m1 a1 = Ok (tt, a1)).
    { apply (touch_ok a1 m1 4 Hwf1). rewrite (slots_lookup a1 _ _ Hp1). simpl. rewrite !elem_of_cons. auto. }
    kstep Ht. kpure. match goal with |- context [empty_count ?x =? 0] =>
      change (empty_count x) with (empty_count a) end. by rewrite He. }
  kstep Hsw. unfold next, mag_free_elem, get_cpu_mag_pair, mag_pair_free. cbv zeta. rewrite kbind_assoc.
  rewrite (load_pair_bind a2 (cpu, bh) b) by (simpl; by rewrite lookup_insert_eq).
  cbv beta zeta. rewrite kbind_assoc, kbind_assert by reflexivity. kpure.
  change (mags b _) with 0. unfold store_slot. rewrite kbind_assoc.
  unfold mbind, kproc_bind, kderef. replace (heap a2 !! 0) with (None : option (list Z)); [done |].
  symmetry. by apply (Hnone 0).
Qed.

(** ** Initialisation *)

(** Bytes of the allocation that holds the two magazines of a pair. *)
Definition pair_alloc_size : Z := sizeof_magazine * MAG_COUNT + L1_CACHE_BYTES - 1.

Lemma ALIGN_div x : 0 ≤ x → ALIGN x 64 = (x + 63) / 64 * 64.
Proof.
  intros Hx. unfold ALIGN. change (64 - 1) with (Z.ones 6).
  rewrite <- Z.ldiff_land, Z.ldiff_ones_r, Z.shiftr_div_pow2, Z.shiftl_mul_pow2 by lia. done.
Qed.

(** The aligned magazines stay inside the allocation. *)
Lemma init_mag_pair_bounds ptr :
  0 ≤ ptr →
  let mag := ALIGN ptr L1_CACHE_BYTES in
  mag mod L1_CACHE_BYTES = 0 ∧ ptr ≤ mag ∧
  mag + sizeof_magazine + sizeof_magazine ≤ ptr + pair_alloc_size.
Proof.
  intros Hp. unfold L1_CACHE_BYTES. cbv zeta. rewrite ALIGN_div by done.
  change pair_alloc_size with 159. change sizeof_magazine with 48.
  rewrite Z.mod_mul by done. pose proof (Z.div_mod (ptr + 63) 64 ltac:(lia)).
  pose proof (Z.mod_pos_bound (ptr + 63) 64 ltac:(lia)). lia.
Qed.

(** The keys in the order the loops visit them. *)
Definition pair_keys (cpus : list Z) : list (Z * bool) := cpus ≫= λ c, [(c, false); (c, true)].

Section init.
Context (possible_cpus : list Z) (kzalloc : Z → bool → Z).
Hypothesis cpus_nodup : NoDup possible_cpus.

(** Every allocation succeeds, below the end of the address space. *)
Hypothesis kzalloc_range : ∀ k, k ∈ pair_keys possible_cpus →
  0 < kzalloc k.1 k.2 < 18446744073709551616 - pair_alloc_size.
(** Two allocations do not overlap. *)
Hypothesis kzalloc_disjoint : ∀ k1 k2, k1 ∈ pair_keys possible_cpus → k2 ∈ pair_keys possible_cpus → k1 ≠ k2 →
  kzalloc k1.1 k1.2 + pair_alloc_size ≤ kzalloc k2.1 k2.2 ∨
  kzalloc k2.1 k2.2 + pair_alloc_size ≤ kzalloc k1.1 k1.2.

Definition pair_base (k : Z * bool) : Z := ALIGN (u64 (kzalloc k.1 k.2)) L1_CACHE_BYTES.
Definition zero_stack : list Z := replicate (Z.to_nat MAG_DEPTH) 0.
Definition init_pair (k : Z * bool) : mag_pair :=
  MkPair (pair_base k) (pair_base k + sizeof_magazine) 0 0.

Lemma pair_base_bounds k :
  k ∈ pair_keys possible_cpus →
  kzalloc k.1 k.2 ≤ pair_base k ∧
  pair_base k + 2 * sizeof_magazine ≤ kzalloc k.1 k.2 + pair_alloc_size.
Proof.
  intros Hk. pose proof (kzalloc_range k Hk). change pair_alloc_size with 159 in *.
  unfold pair_base. rewrite u64_small by lia.
  pose proof (init_mag_pair_bounds (kzalloc k.1 k.2) ltac:(lia)) as Hb. cbv zeta in Hb.
  change pair_alloc_size with 159 in Hb. lia.
Qed.

Lemma pair_base_apart k1 k2 :
  k1 ∈ pair_keys possible_cpus → k2 ∈ pair_keys possible_cpus → k1 ≠ k2 → pair_base k1 + 2 * sizeof_magazine ≤ pair_base k2 ∨
            pair_base k2 + 2 * sizeof_magazine ≤ pair_base k1.
Proof.
  intros H1 H2 Hne. pose proof (pair_base_bounds k1 H1). pose proof (pair_base_bounds k2 H2).
  destruct (kzalloc_disjoint k1 k2 H1 H2 Hne); lia.
Qed.

(** A pair that has been initialised, and the two magazines it owns. *)
Definition pair_done (a : mag_allocator) (k : Z * bool) : Prop :=
  pcp_pair a !! k = Some (init_pair k) ∧ heap a !! pair_base k = Some zero_stack ∧
  heap a !! (pair_base k + sizeof_magazine) = Some zero_stack.

Definition pair_init (k : Z * bool) (a : mag_allocator) : mag_allocator :=
  with_pairs <[k := init_pair k]> (with_heap (λ h, <[pair_base k := zero_stack]>
    (<[pair_base k + sizeof_magazine := zero_stack]> h)) a).

Lemma init_mag_pair_eq k a p :
  k ∈ pair_keys possible_cpus → pcp_pair a !! k = Some p → count0 p = 0 → count1 p = 0 →
  init_mag_pair (kzalloc k.1 k.2) k a = Ok (tt, pair_init k a).
Proof.
  intros Hk Hp H0 H1. pose proof (kzalloc_range k Hk) as Hr. pose proof (pair_base_bounds k Hk) as Hb.
  change pair_alloc_size with 159 in *. unfold init_mag_pair.
  rewrite kbind_assert by (destruct (Z.eqb_spec (kzalloc k.1 k.2) 0); [lia | done]).
  cbv zeta. kpure. fold (pair_base k) zero_stack.
  erewrite (load_pair_bind _ k p) by done. cbv zeta.
  assert (E : set_mags 1 (pair_base k + sizeof_magazine) (set_mags 0 (pair_base k) p) = init_pair k).
  { destruct p. simpl in *. by subst. }
  rewrite E. unfold store_pair. rewrite kbind_modify. change (mags (init_pair k) 0) with (pair_base k).
  destruct (Z.eqb_spec (pair_base k) 0); [lia | done].
Qed.

Lemma pair_init_done k a : pair_done (pair_init k a) k.
Proof.
  unfold pair_done, pair_init. simpl. rewrite !lookup_insert_eq. split_and!; try done.
  rewrite lookup_insert_ne by (unfold sizeof_magazine; lia). by rewrite lookup_insert_eq.
Qed.

Lemma pair_init_other k k' a :
  k ∈ pair_keys possible_cpus → k' ∈ pair_keys possible_cpus → k ≠ k' → pair_done a k' → pair_done (pair_init k a) k'.
Proof.
  intros Hk Hk' Hne (H1 & H2 & H3). pose proof (pair_base_apart k k' Hk Hk' Hne).
  change sizeof_magazine with 48 in *.
  unfold pair_done, pair_init. simpl. change sizeof_magazine with 48 in *.
  rewrite !lookup_insert_ne by (done || lia). by split_and!.
Qed.

Lemma kforeach_pairs (f : Z * bool → mproc unit) cpus s :
  kforeach cpus (λ c, f (c, false) ;; f (c, true)) s = kforeach (pair_keys cpus) f s.
Proof.
  revert s. induction cpus as [| c cpus IH]; intros s; [done |]. csimpl.
  unfold mbind, kproc_bind. destruct (f (c, false) s) as [[[] s1] |]; [| done].
  destruct (f (c, true) s1) as [[[] s2] |]; [| done]. apply IH.
Qed.

Lemma zero_loop keys a :
  ∃ m, kforeach keys (λ k, store_pair k (MkPair 0 0 0 0)) a = Ok (tt, with_pairs (λ _, m) a) ∧
    dom m = dom (pcp_pair a) ∪ list_to_set keys ∧
    (∀ k, k ∈ keys → m !! k = Some (MkPair 0 0 0 0)) ∧ (∀ k, k ∉ keys → m !! k = pcp_pair a !! k).
Proof.
  revert a. induction keys as [| k keys IH]; intros a.
  { exists (pcp_pair a). split; [by destruct a |]. split_and!; set_solver. }
  destruct (IH (with_pairs <[k := MkPair 0 0 0 0]> a)) as (m & Hf & Hd & Hin & Hout). exists m. csimpl.
  assert (Hs : store_pair k (MkPair 0 0 0 0) a = Ok (tt, with_pairs <[k := MkPair 0 0 0 0]> a)) by done.
  kstep Hs. rewrite Hf. split_and!; [done | | |]; simpl in *.
  - rewrite Hd, dom_insert_L. set_solver.
  - intros k'. rewrite elem_of_cons. intros [-> | ?]; [| auto].
    destruct (decide (k ∈ keys)); [auto |]. rewrite Hout by done. by rewrite lookup_insert_eq.
  - intros k'. rewrite not_elem_of_cons. intros [? ?]. rewrite Hout by done. by rewrite lookup_insert_ne.
Qed.

Lemma init_loop keys done_keys a :
  (∀ k, k ∈ done_keys ++ keys → k ∈ pair_keys possible_cpus) →
  NoDup keys → (∀ k, k ∈ keys → pcp_pair a !! k = Some (MkPair 0 0 0 0)) →
  (∀ k, k ∈ done_keys → k ∉ keys ∧ pair_done a k) →
  ∃ a', kforeach keys (λ k, init_mag_pair (kzalloc k.1 k.2) k) a = Ok (tt, a') ∧
    (∀ k, k ∈ done_keys ++ keys → pair_done a' k) ∧ dom (pcp_pair a') = dom (pcp_pair a) ∧
    empty_count a' = empty_count a ∧ full_count a' = full_count a.
Proof.
  revert done_keys a. induction keys as [| k keys IH]; intros dk a Hsub Hnd Hz Hd.
  { exists a. split_and!; try done. intros k. rewrite app_nil_r. intros Hk. by apply Hd. }
  apply NoDup_cons in Hnd as [Hk Hnd].
  assert (Hpk : pcp_pair a !! k = Some (MkPair 0 0 0 0)) by (apply Hz; by left).
  assert (Hin : k ∈ pair_keys possible_cpus) by (apply Hsub; rewrite elem_of_app, elem_of_cons; tauto).
  csimpl. kstep (init_mag_pair_eq k a _ Hin Hpk eq_refl eq_refl).
  destruct (IH (k :: dk) (pair_init k a)) as (a' & Hf & Hdone & Hdom & He & Hfc); [| done | | |].
  - intros k' Hk'. apply Hsub. rewrite elem_of_app, !elem_of_cons in *. tauto.
  - intros k' Hk'. simpl. rewrite lookup_insert_ne by congruence. apply Hz. by right.
  - intros k'. rewrite elem_of_cons. intros [-> | Hk']; [split; [done | apply pair_init_done] |].
    destruct (Hd k' Hk') as [Hni Hd']. apply not_elem_of_cons in Hni as [? ?].
    split; [done |]. apply pair_init_other; try done. apply Hsub, elem_of_app. by left.
  - exists a'. split_and!; try done.
    + intros k' Hk'. apply Hdone. rewrite elem_of_app, !elem_of_cons in *. tauto.
    + rewrite Hdom. simpl. apply dom_insert_lookup_L. by rewrite Hpk.
Qed.

Lemma done_slots_nodup (m : gmap (Z * bool) mag_pair) :
  (∀ k p, m !! k = Some p → k ∈ pair_keys possible_cpus ∧ p = init_pair k) →
  NoDup ((map_to_list m ≫= λ kp, pair_slots kp.2).*1).
Proof.
  intros Hm.
  assert (E : ∀ l : list (Z * bool * mag_pair),
    (l ≫= λ kp, pair_slots kp.2).*1 = l ≫= λ kp, [mag0 kp.2; mag1 kp.2]).
  { induction l as [| kp l IH]; csimpl; [done |]. by rewrite IH. }
  rewrite E. apply NoDup_bind; [| | apply NoDup_map_to_list].
  - intros [k1 p1] [k2 p2] y H1 H2. apply elem_of_map_to_list in H1, H2.
    destruct (Hm _ _ H1) as [K1 ->]. destruct (Hm _ _ H2) as [K2 ->]. csimpl.
    destruct (decide (k1 = k2)) as [-> | Hne]; [congruence |].
    pose proof (pair_base_apart k1 k2 K1 K2 Hne). change sizeof_magazine with 48 in *.
    rewrite !elem_of_cons, !elem_of_nil. lia.
  - intros [k p] Hp. apply elem_of_map_to_list in Hp. destruct (Hm _ _ Hp) as [_ ->]. csimpl.
    change sizeof_magazine with 48. rewrite !NoDup_cons, elem_of_cons, !elem_of_nil.
    split_and!; [lia | tauto | apply NoDup_nil_2].
Qed.

Lemma mag_init_ok :
  ∃ a, mag_allocator_init possible_cpus kzalloc zeroed_allocator = Ok (tt, a) ∧
    alloc_wf a ∧ contents a = [] ∧ dom (pcp_pair a) = list_to_set (pair_keys possible_cpus).
Proof.
  assert (Hnd : NoDup (pair_keys possible_cpus)).
  { apply NoDup_bind; [| | done].
    - intros c1 c2 y _ _. rewrite !elem_of_cons, !elem_of_nil. naive_solver.
    - intros c _. rewrite !NoDup_cons, elem_of_cons, !elem_of_nil. split_and!; [naive_solver | tauto | apply NoDup_nil_2]. }
  unfold mag_allocator_init.
  destruct (zero_loop (pair_keys possible_cpus) zeroed_allocator) as (m & Hz & Hdm & Hin & Hout).
  rewrite <- kforeach_pairs in Hz. kstep Hz.
  destruct (init_loop (pair_keys possible_cpus) [] (with_pairs (λ _, m) zeroed_allocator))
    as (a & Hi & Hdone & Hdom & He & Hf); [done | done | done | set_solver |].
  rewrite <- kforeach_pairs in Hi. kstep Hi. eexists. split; [done |].
  assert (Hpairs : ∀ k p, pcp_pair a !! k = Some p → k ∈ pair_keys possible_cpus ∧ p = init_pair k).
  { intros k p Hp. assert (k ∈ pair_keys possible_cpus) as Hk.
    { assert (Hd : k ∈ dom (pcp_pair a)) by (by apply elem_of_dom).
      rewrite Hdom in Hd. simpl in Hd. rewrite Hdm in Hd. set_solver. }
    split; [done |]. destruct (Hdone k Hk) as [Hp' _]. congruence. }
  split_and!; [split; [split |] | |].
  - unfold slots. simpl. rewrite app_nil_r. by apply done_slots_nodup.
  - unfold slots. simpl. rewrite app_nil_r. apply Forall_forall. intros s Hs.
    apply list_elem_of_bind in Hs as ([k p] & Hs & Hp%elem_of_map_to_list).
    destruct (Hpairs k p Hp) as [Hk ->]. destruct (Hdone k Hk) as (_ & H1 & H2).
    unfold pair_slots, stack_ok in *. cbn [snd] in Hs. rewrite !elem_of_cons, elem_of_nil in Hs.
    destruct Hs as [-> | [-> | []]]; exists zero_stack; by split.
  - done.
  - done.
  - intros k p Hp. simpl in Hp. destruct (Hpairs k p Hp) as [_ ->].
    unfold pair_ok, pair_range, init_pair, MAG_DEPTH. simpl. lia.
  - unfold contents, slots. simpl. rewrite app_nil_r.
    apply elem_of_nil_inv. intros x Hx. apply list_elem_of_bind in Hx as (s & Hx & Hs).
    apply list_elem_of_bind in Hs as ([k p] & Hs & Hp%elem_of_map_to_list).
    destruct (Hpairs k p Hp) as [_ ->]. unfold pair_slots in Hs. cbn [snd] in Hs.
    rewrite !elem_of_cons, elem_of_nil in Hs.
    unfold slot_elems in Hx. destruct Hs as [-> | [-> | []]]; by apply elem_of_nil in Hx.
  - simpl in *. rewrite Hdom, Hdm, dom_empty_L. set_solver.
Qed.

(** C22. Initialisation succeeds and gives an empty, well-formed allocator
    with a pair for every CPU and context. *)
Theorem mag_allocator_init_spec :
  ∃ a, mag_allocator_init possible_cpus kzalloc zeroed_allocator = Ok (tt, a) ∧
    alloc_wf a ∧ contents a = [] ∧ dom (pcp_pair a) = list_to_set (pair_keys possible_cpus).
Proof. exact mag_init_ok. Qed.
End init.

(** ** The allocator keeps its contract *)

#[export] Instance mag_pool : ElemPool mag_allocator := {|
  ep_alloc := mag_alloc_elem;
  ep_free := mag_free_elem;
  ep_full_count := full_count;
  ep_ok := alloc_wf;
  ep_cpu := λ a cpu bh, is_Some (pcp_pair a !! (cpu, bh));
  ep_elems := contents;
  ep_mem := fresh_mag;
|}.


Lemma dom_cpu a a' : dom (pcp_pair a') = dom (pcp_pair a) →
  ∀ c b, is_Some (pcp_pair a' !! (c, b)) ↔ is_Some (pcp_pair a !! (c, b)).
Proof. intros Hd c b. by rewrite <- !elem_of_dom, Hd. Qed.

#[export] Instance mag_pool_laws : ElemPoolLaws mag_allocator.
Proof.
  split.
  - intros a cpu bh Hok [p Hp].
    destruct (mag_alloc_elem_spec a cpu bh p Hok Hp) as [(_ & _ & Hr) | (e & a' & Hr & Hok' & Hc & Hd)].
    + exists 0, a. by split_and!; auto.
    + exists e, a'. split_and!; auto. by apply dom_cpu.
  - intros a cpu bh ptr e Hok [p Hp] Hm.
    destruct (mag_free_elem_spec a cpu bh p ptr e Hok Hp) as (a' & Hr & Hok' & Hc & Hd); [done |].
    exists a'. split_and!; auto. by apply dom_cpu.
  - intros a [Hm _]. simpl. rewrite (wf_full a Hm). apply u16_range.
Qed.

(** C21. The magazines are a bag: any sequence of allocations and frees, on
    any CPUs and in any context, runs without a fault, answers as a bag would,
    and loses, makes up or hands out twice no element. *)
Theorem mag_ops_refine_bag os (a : mag_allocator) :
  alloc_wf a → ops_served os a →
  Forall (λ e, e ≠ 0) (contents a) → Forall (λ e, e ≠ 0) (freed os) →
  ∃ rs a', run_ops os a = Ok (rs, a') ∧ alloc_wf a' ∧ bag_run (contents a) os rs (contents a') ∧
    allocated rs ++ contents a' ≡ₚ freed os ++ contents a.
Proof.
  intros Hok Hs Hb Hf. assert (Hok1 : ep_ok a) by exact Hok.
  destruct (run_ops_refines os a Hok1 Hs) as (rs & a' & Hrun & Hok' & Hbag).
  exists rs, a'. split_and!; try done. by apply (bag_conservation _ _ _ _ Hbag).
Qed.

(** ** A concrete allocator

    One CPU in task context, its two magazines at 64 and 112. *)

Definition one_pair (c0 c1 : Z) (s0 s1 : list Z) : mag_allocator :=
  MkAlloc [] [] 0 0 {[ (0, false) := MkPair 64 112 c0 c1 ]} {[ 64 := s0; 112 := s1 ]}.

Lemma one_pair_wf c0 c1 s0 s1 :
  length s0 = 4%nat → length s1 = 4%nat → pair_ok (MkPair 64 112 c0 c1) → alloc_wf (one_pair c0 c1 s0 s1).
Proof.
  intros Hs0 Hs1 Hok. split.
  - split; [| | done | done].
    + unfold slots. simpl. rewrite map_to_list_singleton. simpl.
      rewrite !NoDup_cons, elem_of_cons, !elem_of_nil. split_and!; [lia | tauto | apply NoDup_nil_2].
    + unfold slots. simpl. rewrite map_to_list_singleton. simpl. unfold stack_ok.
      rewrite !Forall_cons, Forall_nil. split_and!; [exists s0 | exists s1 | done]; done.
  - intros k p Hp. simpl in Hp. apply lookup_singleton_Some in Hp as [_ <-]. done.
Qed.

(** Seven elements, then the free that fills the second magazine, with memory
    for a new one at 4096. *)
Lemma mag_ops_refine_bag_witness :
  let a := one_pair 4 3 [1; 2; 3; 4] [5; 6; 7; 0] in
  ∃ rs a', @run_ops _ mag_pool [PFree 0 false 4096 8; PAlloc 0 false] a = Ok (rs, a') ∧
    allocated rs ++ contents a' ≡ₚ [8; 1; 2; 3; 4; 5; 6; 7].
Proof.
  intros a.
  destruct (mag_ops_refine_bag [PFree 0 false 4096 8; PAlloc 0 false] a) as (rs & a' & Hr & _ & _ & Hp).
  - apply one_pair_wf; [done | done |]. unfold pair_ok, pair_range, MAG_DEPTH. simpl. lia.
  - simpl. split_and!; [by eexists | done |]. intros r s' [= <- <-]. split; [by eexists | done].
  - repeat constructor; done.
  - repeat constructor; done.
  - by exists rs, a'.
Defined.

Lemma mag_free_null_deref_witness :
  (mag_free_elem 0 false 0 8 ;; mag_free_elem 0 false 0 9) (one_pair 4 3 [1; 2; 3; 4] [5; 6; 7; 0]) = Oops NullDeref.
Proof.
  apply (mag_free_null_deref (one_pair 4 3 [1; 2; 3; 4] [5; 6; 7; 0]) 0 false (MkPair 64 112 4 3)); try done.
  apply one_pair_wf; [done | done |]. unfold pair_ok, pair_range, MAG_DEPTH. simpl. lia.
Defined.

(** Two CPUs, each allocation in a page of its own. *)
Lemma mag_allocator_init_spec_witness :
  let kzalloc c (b : bool) := 4096 * (2 * c + (if b then 2 else 1)) in
  ∃ a, mag_allocator_init [0; 1] kzalloc zeroed_allocator = Ok (tt, a) ∧ contents a = [].
Proof.
  intros kzalloc.
  destruct (mag_allocator_init_spec [0; 1] kzalloc) as (a & Hr & _ & Hc & _).
  - rewrite !NoDup_cons, elem_of_cons, !elem_of_nil. split_and!; [lia | tauto | apply NoDup_nil_2].
  - intros [c b]. unfold pair_keys. simpl. rewrite !elem_of_cons, elem_of_nil. intros Hk. change pair_alloc_size with 159.
    repeat destruct Hk as [[= -> ->] | Hk]; unfold kzalloc; simpl; try lia; done.
  - intros [c1 b1] [c2 b2]. unfold pair_keys. simpl. rewrite !elem_of_cons, !elem_of_nil. change pair_alloc_size with 159.
    unfold kzalloc. intros Hk1 Hk2 Hne. destruct b1, b2; simpl;
      intuition (try discriminate); simplify_eq; try lia; done.
  - by exists a.
Defined.
