(* ===== verification/ThreadPool.v ===== *)
(** * The kernel thread pool (thread_pool.h, thread_pool.c)

    A pool element carries one kernel thread.  Idle elements sit in the
    element allocator; [kthread_pool_run] takes one, stores a function and its
    argument in it and wakes the thread; the thread runs the function, puts
    its element back and goes to sleep.  The model is over any allocator that
    keeps the [ElemPool] contract.  Each thread has a program counter over the
    lines of [pipe_loop_task]; submissions, refills and thread lines interleave
    freely in [pool_step]. *)

From stdpp Require Import base list gmap sets.
From Stdlib Require Import ZArith Lia.
From S2P Require Import Prelude ElemPool.

Definition DEF_CBN_POOL_SIZE : Z := 64.

(** The scheduler states the code uses. *)
Inductive task_state := TASK_RUNNING | TASK_UNINTERRUPTIBLE.

(** The lines of [pipe_loop_task] at which a thread can be observed. *)
Inductive thread_pc :=
  | PCreated       (* created, never woken *)
  | PLoop          (* while (!kthread_should_stop()) *)
  | PRun           (* elem->pool_task(elem->data) *)
  | PSetState      (* set_current_state(TASK_UNINTERRUPTIBLE) *)
  | PCheck         (* if (!kthread_should_stop()) *)
  | PClear         (* elem->pool_task = NULL *)
  | PReuse         (* kthread_pool_reuse *)
  | PSchedule      (* schedule() *)
  | PRunning       (* __set_current_state(TASK_RUNNING) *)
  | PExit.         (* return 0 *)

#[export] Instance thread_pc_eq_dec : EqDecision thread_pc.
Proof. solve_decision. Defined.
#[export] Instance task_state_eq_dec : EqDecision task_state.
Proof. solve_decision. Defined.

Section pool.
Context {St F : Type} `{ElemPool St}.

(** struct pool_elem with the task_struct it points to. *)
Record pool_elem := MkElem {
  pc : thread_pc;
  tstate : task_state;
  cpus_mask : list Z;
  no_setaffinity : bool;   (* PF_NO_SETAFFINITY *)
  should_stop : bool;
  pool_task : option F;
  data : Z;
}.

(** struct kthread_pool.  [held] and [executed] are not in the code: the calls
    that have an element but have not woken it yet, and the function calls the
    threads have made. *)
Record kthread_pool := MkPool {
  pool_size : Z;
  top_count : Z;
  refil_awake : bool;
  allocator : St;
  elems : gmap Z pool_elem;
  held : list (Z * (F * Z));
  executed : list (F * Z);
}.

Definition with_allocator (s : St) (p : kthread_pool) : kthread_pool :=
  MkPool (pool_size p) (top_count p) (refil_awake p) s (elems p) (held p) (executed p).
Definition with_elems (f : gmap Z pool_elem → gmap Z pool_elem) (p : kthread_pool) : kthread_pool :=
  MkPool (pool_size p) (top_count p) (refil_awake p) (allocator p) (f (elems p)) (held p) (executed p).
Definition with_held (l : list (Z * (F * Z))) (p : kthread_pool) : kthread_pool :=
  MkPool (pool_size p) (top_count p) (refil_awake p) (allocator p) (elems p) l (executed p).
Definition with_executed (l : list (F * Z)) (p : kthread_pool) : kthread_pool :=
  MkPool (pool_size p) (top_count p) (refil_awake p) (allocator p) (elems p) (held p) l.
Definition with_top (n : Z) (p : kthread_pool) : kthread_pool :=
  MkPool (pool_size p) n (refil_awake p) (allocator p) (elems p) (held p) (executed p).
Definition with_refil (b : bool) (p : kthread_pool) : kthread_pool :=
  MkPool (pool_size p) (top_count p) b (allocator p) (elems p) (held p) (executed p).

Definition set_pc (c : thread_pc) (e : pool_elem) : pool_elem :=
  MkElem c (tstate e) (cpus_mask e) (no_setaffinity e) (should_stop e) (pool_task e) (data e).
Definition set_state (s : task_state) (e : pool_elem) : pool_elem :=
  MkElem (pc e) s (cpus_mask e) (no_setaffinity e) (should_stop e) (pool_task e) (data e).
Definition set_task (t : option F) (e : pool_elem) : pool_elem :=
  MkElem (pc e) (tstate e) (cpus_mask e) (no_setaffinity e) (should_stop e) t (data e).
Definition set_data (d : Z) (e : pool_elem) : pool_elem :=
  MkElem (pc e) (tstate e) (cpus_mask e) (no_setaffinity e) (should_stop e) (pool_task e) d.
Definition set_mask (m : list Z) (n : bool) (e : pool_elem) : pool_elem :=
  MkElem (pc e) (tstate e) m n (should_stop e) (pool_task e) (data e).

Abbreviation pproc := (kproc kthread_pool).

(** A call into the allocator. *)
Definition lift_alloc {A} (m : kproc St A) : pproc A := λ p,
  match m (allocator p) with
  | Ok (a, s) => Ok (a, with_allocator s p)
  | Oops f => Oops f
  end.

(** A thread [kthread_create] made: it sleeps until it is woken. *)
Definition new_elem : pool_elem := MkElem PCreated TASK_UNINTERRUPTIBLE [] false false None 0.

(** ** Refill *)

(** One iteration per missing element: [answers i] gives the element
    [kmem_cache_alloc] returns, whether [kthread_create] gives a thread, and
    the memory the allocator may ask for. *)
Fixpoint refill_loop (cpu : Z) (bh : bool) (answers : nat → Z * bool * Z) (count i : nat) : pproc unit :=
  match count with
  | O => mret tt
  | S count =>
      let '(elem, k, kzalloc) := answers i in
      if elem =? 0 then mret tt
      else if negb k then mret tt
      else
        kmodify (with_elems <[elem := new_elem]>) ;;
        lift_alloc (ep_free cpu bh kzalloc elem) ;;
        kmodify (λ p, with_top (s32 (top_count p + 1)) p) ;;
        refill_loop cpu bh answers count (S i)
  end.

Definition refill_count (p : kthread_pool) : Z :=
  let count := s32 (pool_size p - Z.shiftl (ep_full_count (allocator p)) 2) in
  if count <? 0 then 0 else count.

Definition refill_pool (cpu : Z) (bh : bool) (answers : nat → Z * bool * Z) : pproc unit :=
  p ← kget;
  refill_loop cpu bh answers (Z.to_nat (refill_count p)) 0.

(** ** Submission *)

Definition refill_task_start : pproc unit := kmodify (with_refil true).

Definition kthread_pool_alloc (cpu : Z) (bh : bool) : pproc Z :=
  refill_task_start ;;
  lift_alloc (ep_alloc cpu bh).

(** [wake_up_process] *)
Definition wake_up (e : pool_elem) : pool_elem := set_state TASK_RUNNING e.

(** The stores of [__kthread_pool_run] into the element it was given, up to
    the wake-up. *)
Definition assign (func : F) (d : Z) (mask : list Z) (e : pool_elem) : pool_elem :=
  let e := set_task (Some func) e in
  let e := set_data d e in
  let e := set_mask mask true e in
  let e := set_mask mask false e in
  wake_up e.

Definition kthread_pool_assign (elem : Z) (func : F) (d : Z) (mask : list Z) : pproc unit :=
  e ← kderef (λ p, elems p !! elem) UseAfterFree;
  kmodify (with_elems <[elem := assign func d mask e]>).

(** [inr elem], or [inl (-ENOMEM)] for [ERR_PTR(-ENOMEM)]. *)
Definition kthread_pool_run_mask (cpu : Z) (bh : bool) (func : F) (d : Z) (mask : list Z) : pproc (Z + Z) :=
  elem ← kthread_pool_alloc cpu bh;
  if elem =? 0 then mret (inl (- ENOMEM))
  else kthread_pool_assign elem func d mask ;; mret (inr elem).

Definition kthread_pool_run_cpu (cpu : Z) (bh : bool) (func : F) (d target : Z) : pproc (Z + Z) :=
  kthread_pool_run_mask cpu bh func d [target].

Definition kthread_pool_run (possible : list Z) (cpu : Z) (bh : bool) (func : F) (d : Z) : pproc (Z + Z) :=
  kthread_pool_run_mask cpu bh func d possible.

(** ** The thread function *)

Definition kthread_pool_reuse (cpu : Z) (bh : bool) (kzalloc elem : Z) : pproc unit :=
  lift_alloc (ep_free cpu bh kzalloc elem).

(** One line of [pipe_loop_task] for the thread of [elem].  [None]: the thread
    is blocked ([schedule] in a state other than running, or not yet woken). *)
Definition pipe_loop_task (cpu : Z) (bh : bool) (kzalloc elem : Z) (e : pool_elem) : option (pproc unit) :=
  let goto e := kmodify (with_elems <[elem := e]>) in
  match pc e with
  | PCreated => if decide (tstate e = TASK_RUNNING) then Some (goto (set_pc PLoop e)) else None
  | PLoop => Some (goto (set_pc (if should_stop e then PExit else PRun) e))
  | PRun => Some (
      match pool_task e with
      | Some f => kmodify (λ p, with_executed ((f, data e) :: executed p) p)
      | None => mret tt
      end ;; goto (set_pc PSetState e))
  | PSetState => Some (goto (set_pc PCheck (set_state TASK_UNINTERRUPTIBLE e)))
  | PCheck => Some (goto (set_pc (if should_stop e then PRunning else PClear) e))
  | PClear => Some (goto (set_pc PReuse (set_task None e)))
  | PReuse => Some (goto (set_pc PSchedule e) ;; kthread_pool_reuse cpu bh kzalloc elem)
  | PSchedule => if decide (tstate e = TASK_RUNNING) then Some (goto (set_pc PRunning e)) else None
  | PRunning => Some (goto (set_pc PLoop (set_state TASK_RUNNING e)))
  | PExit => None
  end.

(** ** All of it running concurrently

    A submission is two steps, taking the element and assigning it, so that
    other threads run between them.  Of the refill thread it keeps what the
    other threads see: that an element may come at any time.  It is looser than
    the thread on purpose, so that what is proved of the pool does not depend on
    when that thread runs; [Refill] has the thread's own lines, shows that they
    are steps of this kind, and what they do.  The label of a step is the call
    it accepts. *)
Inductive pool_step : kthread_pool → option (F * Z) → kthread_pool → Prop :=
  | step_take cpu bh func d elem p p' :
      ep_cpu (allocator p) cpu bh →
      kthread_pool_alloc cpu bh p = Ok (elem, p') → elem ≠ 0 →
      pool_step p (Some (func, d)) (with_held ((elem, (func, d)) :: held p) p')
  | step_none cpu bh p p' :
      ep_cpu (allocator p) cpu bh →
      kthread_pool_alloc cpu bh p = Ok (0, p') → pool_step p None p'
  | step_assign elem func d mask l1 l2 p p' :
      held p = l1 ++ (elem, (func, d)) :: l2 →
      kthread_pool_assign elem func d mask p = Ok (tt, p') →
      pool_step p None (with_held (l1 ++ l2) p')
  | step_thread cpu bh kzalloc elem e m p p' :
      ep_cpu (allocator p) cpu bh → ep_mem (allocator p) kzalloc →
      elems p !! elem = Some e → pipe_loop_task cpu bh kzalloc elem e = Some m →
      m p = Ok (tt, p') → pool_step p None p'
  | step_refill cpu bh elem kzalloc p p' :
      ep_cpu (allocator p) cpu bh → ep_mem (allocator p) kzalloc →
      elem ≠ 0 → elems p !! elem = None →
      refill_loop cpu bh (λ _, (elem, true, kzalloc)) 1 0 p = Ok (tt, p') →
      pool_step p None p'
  | step_refil_state b p : pool_step p None (with_refil b p).

(** A run with the calls it accepted. *)
Inductive pool_run : kthread_pool → list (F * Z) → kthread_pool → Prop :=
  | run_refl p : pool_run p [] p
  | run_step p p1 p2 l ls :
      pool_run p ls p1 → pool_step p1 l p2 → pool_run p (option_list l ++ ls) p2.

(** ** The invariant *)

(** An element nobody has assigned: its thread sleeps and has no task. *)
Definition idle_elem (e : pool_elem) : Prop :=
  (pc e = PCreated ∨ pc e = PSchedule) ∧ tstate e = TASK_UNINTERRUPTIBLE ∧
  pool_task e = None ∧ should_stop e = false.

(** An element its thread owns: up to the call it is running and has the task
    it must call, after the call it is on its way back to the allocator. *)
Definition busy_elem (e : pool_elem) : Prop :=
  should_stop e = false ∧
  match pc e with
  | PCreated | PSchedule | PRunning | PLoop | PRun => tstate e = TASK_RUNNING ∧ is_Some (pool_task e)
  | PSetState => tstate e = TASK_RUNNING
  | PCheck | PClear => tstate e = TASK_UNINTERRUPTIBLE
  | PReuse => tstate e = TASK_UNINTERRUPTIBLE ∧ pool_task e = None
  | PExit => False
  end.

(** The call a thread still has to make. *)
Definition pending (e : pool_elem) : option (F * Z) :=
  match pc e with
  | PCreated | PSchedule | PRunning | PLoop | PRun => (λ f, (f, data e)) <$> pool_task e
  | _ => None
  end.

Definition pending_work (p : kthread_pool) : list (F * Z) :=
  (held p).*2 ++ (map_to_list (elems p) ≫= λ ke, option_list (pending ke.2)).

(** The elements no thread owns. *)
Definition free_elems (p : kthread_pool) : list Z := ep_elems (allocator p) ++ (held p).*1.

Record pool_inv (p : kthread_pool) : Prop := {
  inv_alloc : ep_ok (allocator p);
  inv_nodup : NoDup (free_elems p);
  inv_free k : k ∈ free_elems p → k ≠ 0 ∧ ∃ e, elems p !! k = Some e ∧ idle_elem e;
  inv_busy k e : elems p !! k = Some e → k ∉ free_elems p → busy_elem e;
  inv_null : elems p !! 0 = None;
}.
End pool.

Arguments pool_elem F : clear implicits.
Arguments kthread_pool St F : clear implicits.

Section invariant.
Context {St F : Type} `{ElemPoolLaws St}.
Implicit Types p : kthread_pool St F.

Lemma pending_idle (e : pool_elem F) : idle_elem e → pending e = None.
Proof. intros (_ & _ & Ht & _). unfold pending. rewrite Ht. by destruct (pc e). Qed.

(** Work due, with one element singled out. *)
Lemma work_lookup (m : gmap Z (pool_elem F)) k e :
  m !! k = Some e →
  (map_to_list m ≫= λ ke, option_list (pending ke.2)) ≡ₚ
  option_list (pending e) ++ (map_to_list (delete k m) ≫= λ ke, option_list (pending ke.2)).
Proof. intros Hk. by rewrite <- (map_to_list_delete m k e Hk). Qed.

Lemma work_insert (m : gmap Z (pool_elem F)) k e :
  (map_to_list (<[k := e]> m) ≫= λ ke, option_list (pending ke.2)) ≡ₚ
  option_list (pending e) ++ (map_to_list (delete k m) ≫= λ ke, option_list (pending ke.2)).
Proof. rewrite <- insert_delete_eq, map_to_list_insert by apply lookup_delete_eq. done. Qed.

Lemma pool_inv_perm p p' :
  pool_inv p → ep_ok (allocator p') → free_elems p' ≡ₚ free_elems p → elems p' = elems p → pool_inv p'.
Proof.
  intros [Ha Hn Hf Hb Hz] Ha' Hp He. split; [done | by rewrite Hp | | | by rewrite He].
  - intros k. rewrite Hp, He. apply Hf.
  - intros k e. rewrite Hp, He. apply Hb.
Qed.

(** A thread moving on with its own element. *)
Lemma pool_inv_busy p k e e' :
  pool_inv p → elems p !! k = Some e → k ∉ free_elems p → busy_elem e' →
  pool_inv (with_elems <[k := e']> p).
Proof.
  intros [Ha Hn Hf Hb Hz] Hk Hni He'.
  split; [done | done | | | simpl; rewrite lookup_insert_ne; [done | congruence]].
  - intros k' Hk'. change (free_elems _) with (free_elems p) in Hk'.
    destruct (Hf k' Hk') as (Hne & e0 & He0 & Hi). split; [done |]. exists e0. simpl.
    rewrite lookup_insert_ne; [done | by intros ->].
  - intros k' e0. simpl. change (free_elems _) with (free_elems p).
    destruct (decide (k = k')) as [<- |]; [rewrite lookup_insert_eq; by intros [= <-] |].
    rewrite lookup_insert_ne by done. apply Hb.
Qed.

(** An element entering the allocator. *)
Lemma pool_inv_idle p s k e' :
  pool_inv p → k ∉ free_elems p → k ≠ 0 → idle_elem e' → ep_ok s →
  ep_elems s ≡ₚ k :: ep_elems (allocator p) →
  pool_inv (with_allocator s (with_elems <[k := e']> p)).
Proof.
  intros [Ha Hn Hf Hb Hz] Hni Hk0 He' Hs Hp.
  assert (Hfree : free_elems (with_allocator s (with_elems <[k := e']> p)) ≡ₚ k :: free_elems p).
  { unfold free_elems. simpl. by rewrite Hp. }
  split; [done | rewrite Hfree; by constructor | | | simpl; by rewrite lookup_insert_ne].
  - intros k' Hk'. rewrite Hfree, elem_of_cons in Hk'. simpl.
    destruct (decide (k = k')) as [<- | Hne]; [rewrite lookup_insert_eq; eauto |].
    rewrite lookup_insert_ne by done. destruct Hk' as [-> | Hk']; [done | auto].
  - intros k' e0 Hk' Hni'. rewrite Hfree, not_elem_of_cons in Hni'. destruct Hni' as [Hne Hni'].
    simpl in Hk'. rewrite lookup_insert_ne in Hk' by done. eauto.
Qed.

Lemma lift_alloc_ok {A} (m : kproc St A) p a s :
  m (allocator p) = Ok (a, s) → lift_alloc m p = Ok (a, with_allocator s p).
Proof. intros Hm. unfold lift_alloc. by rewrite Hm. Qed.

(** Taking an element: an idle one, or NULL. *)
Lemma kthread_pool_alloc_spec p cpu bh :
  pool_inv p → ep_cpu (allocator p) cpu bh →
  ∃ elem s, kthread_pool_alloc cpu bh p = Ok (elem, with_allocator s (with_refil true p)) ∧ ep_ok s ∧
    ((elem = 0 ∧ s = allocator p) ∨ (elem ≠ 0 ∧ ep_elems (allocator p) ≡ₚ elem :: ep_elems s)).
Proof.
  intros Hinv Hcpu.
  destruct (ep_alloc_law (allocator p) cpu bh (inv_alloc p Hinv) Hcpu) as (elem & s & Hr & Hok & _ & Hc).
  exists elem, s. unfold kthread_pool_alloc, refill_task_start. rewrite kbind_modify.
  rewrite (lift_alloc_ok _ (with_refil true p) elem s Hr). split_and!; [done | done |].
  destruct Hc as [Hc | Hc]; [by left | right]. split; [| done].
  apply (inv_free p Hinv). unfold free_elems. rewrite Hc. by left.
Qed.

(** What one step may do: keep the invariant, and move the calls between
    accepted, due and made without losing or repeating one. *)
Definition step_good p (l : option (F * Z)) p' : Prop :=
  pool_inv p' ∧ executed p' ++ pending_work p' ≡ₚ option_list l ++ executed p ++ pending_work p.

Lemma step_take_good p cpu bh func d elem p' :
  pool_inv p → ep_cpu (allocator p) cpu bh →
  kthread_pool_alloc cpu bh p = Ok (elem, p') → elem ≠ 0 →
  step_good p (Some (func, d)) (with_held ((elem, (func, d)) :: held p) p').
Proof.
  intros Hinv Hcpu Hr Hne.
  destruct (kthread_pool_alloc_spec p cpu bh Hinv Hcpu) as (e & s & Hr' & Hok & Hc).
  rewrite Hr in Hr'. injection Hr' as <- ->. destruct Hc as [[? _] | [_ Hc]]; [done |]. split.
  - apply (pool_inv_perm p); [done | done | | done].
    unfold free_elems. simpl. rewrite Hc. solve_Permutation.
  - unfold pending_work. simpl. solve_Permutation.
Qed.

Lemma step_none_good p cpu bh p' :
  pool_inv p → ep_cpu (allocator p) cpu bh →
  kthread_pool_alloc cpu bh p = Ok (0, p') → step_good p None p'.
Proof.
  intros Hinv Hcpu Hr.
  destruct (kthread_pool_alloc_spec p cpu bh Hinv Hcpu) as (e & s & Hr' & Hok & Hc).
  rewrite Hr in Hr'. injection Hr' as <- ->. destruct Hc as [[_ ->] | [? _]]; [| done]. split; [| done].
  by apply (pool_inv_perm p).
Qed.

Lemma assign_busy (func : F) d mask (e : pool_elem F) :
  idle_elem e → busy_elem (assign func d mask e) ∧ pending (assign func d mask e) = Some (func, d).
Proof.
  intros ([Hpc | Hpc] & Hst & Ht & Hs); unfold busy_elem, pending, assign; simpl; rewrite Hpc; eauto.
Qed.

Lemma held_free p k fd : (k, fd) ∈ held p → k ∈ free_elems p.
Proof.
  intros Hin. unfold free_elems. apply elem_of_app. right. apply list_elem_of_fmap. by exists (k, fd).
Qed.

Lemma step_assign_good p elem func d mask l1 l2 p' :
  pool_inv p → held p = l1 ++ (elem, (func, d)) :: l2 →
  kthread_pool_assign elem func d mask p = Ok (tt, p') →
  step_good p None (with_held (l1 ++ l2) p').
Proof.
  intros Hinv Hh Hr. set (p0 := with_held (l1 ++ l2) p).
  assert (Hfree : free_elems p ≡ₚ elem :: free_elems p0).
  { unfold free_elems. simpl. rewrite Hh, !fmap_app. csimpl. solve_Permutation. }
  destruct (inv_free p Hinv elem) as (_ & e & He & Hidle); [rewrite Hfree; by left |].
  unfold kthread_pool_assign in Hr. rewrite (kbind_deref (λ p, elems p !! elem) _ _ _ e) in Hr by done.
  injection Hr as <-. destruct (assign_busy func d mask e Hidle) as [Hbusy Hpend].
  pose proof (inv_nodup p Hinv) as Hnd. rewrite Hfree in Hnd. apply NoDup_cons in Hnd as [Hni Hnd]. split.
  - split; [apply Hinv | exact Hnd | | | simpl; rewrite lookup_insert_ne; [apply Hinv |]].
    + intros k Hk. change (free_elems _) with (free_elems p0) in Hk.
      destruct (inv_free p Hinv k) as (Hk0 & e0 & He0 & Hi); [rewrite Hfree; by right |].
      split; [done |]. exists e0. simpl. rewrite lookup_insert_ne; [done | by intros ->].
    + intros k e0 Hk Hnk. change (free_elems _) with (free_elems p0) in Hnk. simpl in Hk.
      destruct (decide (elem = k)) as [<- | Hne]; [rewrite lookup_insert_eq in Hk; by injection Hk as <- |].
      rewrite lookup_insert_ne in Hk by done. apply (inv_busy p Hinv k e0 Hk).
      rewrite Hfree. by apply not_elem_of_cons.
    + intros ->. by rewrite (inv_null p Hinv) in He.
  - unfold pending_work. simpl. rewrite work_insert, Hpend, (work_lookup (elems p) elem e) by done.
    rewrite (pending_idle e Hidle), Hh, !fmap_app. csimpl. solve_Permutation.
Qed.

Lemma step_busy_good p k e e' ex :
  pool_inv p → elems p !! k = Some e → k ∉ free_elems p → busy_elem e' →
  option_list (pending e') ++ ex ≡ₚ option_list (pending e) ++ executed p →
  step_good p None (with_elems <[k := e']> (with_executed ex p)).
Proof.
  intros Hinv Hk Hni He' Hex. split.
  - apply (pool_inv_busy (with_executed ex p) k e e'); [| done..].
    by destruct Hinv; constructor.
  - unfold pending_work. simpl. rewrite work_insert, (work_lookup (elems p) k e) by done.
    set (rest := map_to_list _ ≫= _).
    transitivity ((option_list (pending e') ++ ex) ++ (held p).*2 ++ rest); [solve_Permutation |].
    rewrite Hex. solve_Permutation.
Qed.

Lemma thread_not_free p k e cpu bh ptr m :
  pool_inv p → elems p !! k = Some e → pipe_loop_task cpu bh ptr k e = Some m → k ∉ free_elems p.
Proof.
  intros Hinv Hk Hm Hin. destruct (inv_free p Hinv k Hin) as (_ & e0 & He0 & Hi).
  rewrite Hk in He0. injection He0 as <-. destruct Hi as ([Hpc | Hpc] & Hst & _);
    unfold pipe_loop_task in Hm; rewrite Hpc, Hst in Hm; by case_decide.
Qed.

Lemma step_reuse_good p cpu bh ptr k e p' :
  pool_inv p → ep_cpu (allocator p) cpu bh → ep_mem (allocator p) ptr →
  elems p !! k = Some e → k ∉ free_elems p → k ≠ 0 → pc e = PReuse → busy_elem e →
  (kmodify (with_elems <[k := set_pc PSchedule e]>) ;; kthread_pool_reuse cpu bh ptr k) p = Ok (tt, p') →
  step_good p None p'.
Proof.
  intros Hinv Hcpu Hmem Hk Hni Hk0 Hpc [Hstop Hbusy] Hr. rewrite Hpc in Hbusy. destruct Hbusy as [Hst Ht].
  rewrite kbind_modify in Hr. set (p1 := with_elems _ p) in Hr.
  destruct (ep_free_law (allocator p) cpu bh ptr k (inv_alloc p Hinv) Hcpu Hmem)
    as (s & Hf & Hok & _ & Hp).
  unfold kthread_pool_reuse in Hr. rewrite (lift_alloc_ok _ p1 tt s Hf) in Hr. injection Hr as <-.
  assert (Hidle : idle_elem (set_pc PSchedule e)) by (unfold idle_elem; simpl; auto). split.
  - by apply pool_inv_idle.
  - unfold pending_work. simpl. rewrite work_insert, (work_lookup (elems p) k e) by done.
    rewrite (pending_idle _ Hidle). unfold pending. by rewrite Hpc.
Qed.

Lemma step_thread_good p cpu bh ptr k e m p' :
  pool_inv p → ep_cpu (allocator p) cpu bh → ep_mem (allocator p) ptr → k ≠ 0 →
  elems p !! k = Some e → pipe_loop_task cpu bh ptr k e = Some m → m p = Ok (tt, p') →
  step_good p None p'.
Proof.
  intros Hinv Hcpu Hmem Hk0 Hk Hm Hr. pose proof (thread_not_free p k e cpu bh ptr m Hinv Hk Hm) as Hni.
  pose proof (inv_busy p Hinv k e Hk Hni) as Hb. pose proof Hb as [Hstop Hbusy].
  assert (Hgo : ∀ e', (kmodify (with_elems <[k := e']>) : kproc (kthread_pool St F) unit) p = Ok (tt, p') →
    busy_elem e' → pending e' = pending e → step_good p None p').
  { intros e' Hr' Hb' Hp'. injection Hr' as <-.
    apply (step_busy_good p k e e' (executed p)); try done. by rewrite Hp'. }
  assert (Hpend : ∀ e' : pool_elem F, pc e' = PSetState → pending e' = None).
  { intros e' Hpc. unfold pending. by rewrite Hpc. }
  unfold pipe_loop_task in Hm. rewrite ?Hstop in Hm.
  destruct (pc e) eqn:Epc; try (by destruct Hbusy); try case_decide; simplify_eq;
    try (eapply Hgo; [exact Hr | unfold busy_elem; simpl; tauto | unfold pending; simpl; by rewrite Epc]).
  - destruct Hbusy as [Hst [f Hf]]. rewrite Hf, kbind_modify in Hr. injection Hr as <-.
    apply (step_busy_good p k e (set_pc PSetState e) ((f, data e) :: executed p)); try done.
    rewrite Hpend by done. unfold pending. by rewrite Epc, Hf.
  - by eapply step_reuse_good.
Qed.

Lemma step_refill_good p cpu bh k ptr p' :
  pool_inv p → ep_cpu (allocator p) cpu bh → ep_mem (allocator p) ptr → k ≠ 0 → elems p !! k = None →
  refill_loop cpu bh (λ _, (k, true, ptr)) 1 0 p = Ok (tt, p') → step_good p None p'.
Proof.
  intros Hinv Hcpu Hmem Hk0 Hk Hr. simpl in Hr. destruct (Z.eqb_spec k 0); [done |].
  rewrite kbind_modify in Hr. set (p1 := with_elems _ p) in Hr.
  destruct (ep_free_law (allocator p) cpu bh ptr k (inv_alloc p Hinv) Hcpu Hmem)
    as (s & Hf & Hok & _ & Hp).
  erewrite kbind_ok in Hr by exact (lift_alloc_ok _ p1 tt s Hf). rewrite kbind_modify in Hr. injection Hr as <-.
  assert (Hidle : idle_elem (new_elem (F:=F))) by (unfold idle_elem; simpl; auto).
  assert (Hni : k ∉ free_elems p).
  { intros Hin. destruct (inv_free p Hinv k Hin) as (_ & e & He & _). congruence. }
  split.
  - apply (pool_inv_perm (with_allocator s p1)); [| done..]. by apply pool_inv_idle.
  - unfold pending_work. simpl. rewrite map_to_list_insert by done. done.
Qed.

(** Every step is good. *)
Lemma pool_step_good p l p' : pool_inv p → pool_step p l p' → step_good p l p'.
Proof.
  intros Hinv Hstep. destruct Hstep; eauto using step_take_good, step_none_good, step_assign_good, step_refill_good.
  - eapply step_thread_good; eauto. intros ->. by rewrite (inv_null p Hinv) in *.
  - split; [by destruct Hinv | done].
Qed.

(** The pool after [cbn_kthread_pool_init]: no element, no thread. *)
Definition pool_start p : Prop :=
  ep_ok (allocator p) ∧ ep_elems (allocator p) = [] ∧ elems p = ∅ ∧ held p = [] ∧ executed p = [].

Lemma pool_start_inv p : pool_start p → pool_inv p.
Proof.
  intros (Hok & He & Hm & Hh & _). split; [done | | | | by rewrite Hm].
  - unfold free_elems. rewrite He, Hh. constructor.
  - intros k. unfold free_elems. rewrite He, Hh. by intros ?%elem_of_nil.
  - intros k e. by rewrite Hm.
Qed.

(** In every reachable state the invariant holds, and the accepted calls are
    exactly the calls made and the calls still due, each once. *)
Lemma pool_run_inv p ls p' :
  pool_start p → pool_run p ls p' → pool_inv p' ∧ ls ≡ₚ executed p' ++ pending_work p'.
Proof.
  intros Hstart Hrun. induction Hrun as [p | p p1 p2 l ls Hrun IH Hstep].
  - split; [by apply pool_start_inv |]. destruct Hstart as (_ & _ & Hm & Hh & Hx).
    unfold pending_work. by rewrite Hm, Hh, Hx.
  - destruct (IH Hstart) as [Hinv Hls]. destruct (pool_step_good p1 l p2 Hinv Hstep) as [Hinv' Hw].
    split; [done |]. by rewrite Hw, Hls.
Qed.

(** C16. No accepted call is lost, and none is made twice: what the threads
    have called is part of what was accepted, and all of it once nothing is
    due. *)
Theorem pool_calls_once p ls p' :
  pool_start p → pool_run p ls p' →
  executed p' ⊆+ ls ∧ (pending_work p' = [] → executed p' ≡ₚ ls).
Proof.
  intros Hstart Hrun. destruct (pool_run_inv p ls p' Hstart Hrun) as [_ Hls]. split.
  - rewrite Hls. apply submseteq_inserts_r. done.
  - intros Hw. by rewrite Hls, Hw, app_nil_r.
Qed.

(** C18. The element a call is given has no task and a sleeping thread: the
    [task allocated twice] branch is dead. *)
Theorem pool_take_idle p ls p0 cpu bh elem p' :
  pool_start p0 → pool_run p0 ls p → ep_cpu (allocator p) cpu bh →
  kthread_pool_alloc cpu bh p = Ok (elem, p') → elem ≠ 0 →
  ∃ e, elems p' !! elem = Some e ∧ pool_task e = None ∧ tstate e = TASK_UNINTERRUPTIBLE.
Proof.
  intros Hstart Hrun Hcpu Hr Hne. destruct (pool_run_inv p0 ls p Hstart Hrun) as [Hinv _].
  destruct (kthread_pool_alloc_spec p cpu bh Hinv Hcpu) as (k & s & Hr' & Hok & Hc).
  rewrite Hr in Hr'. injection Hr' as <- ->. destruct Hc as [[? _] | [_ Hc]]; [done |].
  destruct (inv_free p Hinv elem) as (_ & e & He & _ & Hst & Ht & _).
  { unfold free_elems. rewrite Hc. by left. }
  by exists e.
Qed.

(** ** No lost wake-up: a due call is made by its thread alone *)

(** The lines of the thread of [k] only. *)
Inductive thread_run (k : Z) : kthread_pool St F → kthread_pool St F → Prop :=
  | thread_stop p : thread_run k p p
  | thread_line cpu bh ptr p e m p1 p' :
      elems p !! k = Some e → pipe_loop_task cpu bh ptr k e = Some m → m p = Ok (tt, p1) →
      thread_run k p1 p' → thread_run k p p'.

(** A line that only moves the thread on. *)
Lemma thread_advance k q e e' ex :
  elems q !! k = Some e →
  pipe_loop_task 0 false 0 k e = Some (kmodify (with_elems <[k := e']>) : kproc (kthread_pool St F) unit) →
  (∀ q', elems q' !! k = Some e' → executed q' = executed q →
    ∃ p', thread_run k q' p' ∧ executed p' = ex) →
  ∃ p', thread_run k q p' ∧ executed p' = ex.
Proof.
  intros Hk Hm Hnext. destruct (Hnext (with_elems <[k := e']> q)) as (p' & Hr & Hx); [| done |].
  { simpl. by rewrite lookup_insert_eq. }
  exists p'. split; [| done]. by eapply (thread_line k 0 false 0 q e).
Qed.

Lemma thread_runs_task k q f d st ms na :
  elems q !! k = Some (MkElem PRun st ms na false (Some f) d) →
  ∃ p', thread_run k q p' ∧ executed p' = (f, d) :: executed q.
Proof.
  intros Hk. eexists. split.
  - eapply (thread_line k 0 false 0); [exact Hk | reflexivity | reflexivity | apply thread_stop].
  - done.
Qed.

(** C17. In every reachable state a thread that has a call to make makes it
    when only its own lines run: no wake-up is lost. *)
Theorem pending_call_runs p ls p0 k e f d :
  pool_start p0 → pool_run p0 ls p → elems p !! k = Some e → k ∉ free_elems p →
  pending e = Some (f, d) →
  ∃ p', thread_run k p p' ∧ executed p' = (f, d) :: executed p.
Proof.
  intros Hstart Hrun Hk Hni Hp. destruct (pool_run_inv p0 ls p Hstart Hrun) as [Hinv _].
  destruct (inv_busy p Hinv k e Hk Hni) as [Hstop Hb]. clear p0 ls Hstart Hrun Hinv Hni.
  assert (Hdone : ∀ q st ms na, executed q = executed p →
    elems q !! k = Some (MkElem PRun st ms na false (Some f) d) →
    ∃ p', thread_run k q p' ∧ executed p' = (f, d) :: executed p).
  { intros q st ms na <- Hq. by eapply thread_runs_task. }
  destruct e as [c st ms na stop t d']. simpl in Hstop. subst stop. unfold pending in Hp. simpl in Hp, Hb.
  destruct c; try done; (destruct t as [f' |]; [| done]); simpl in Hp; injection Hp as -> ->;
    destruct Hb as [-> _];
    repeat (eapply thread_advance; [eassumption | reflexivity |]; intros);
    (eapply Hdone; [congruence | eassumption]).
Qed.

(** ** Refill brings the pool up to its size *)

(** The environment serves the iterations of a refill: fresh elements, threads,
    and memory for the allocator. *)
Fixpoint refill_served cpu bh (answers : nat → Z * bool * Z) (n i : nat) p : Prop :=
  match n with
  | O => True
  | S n =>
      let '(elem, k, kzalloc) := answers i in
      k = true ∧ elem ≠ 0 ∧ elems p !! elem = None ∧ ep_mem (allocator p) kzalloc ∧
      ∀ p', refill_loop cpu bh (λ _, (elem, true, kzalloc)) 1 0 p = Ok (tt, p') →
        refill_served cpu bh answers n (S i) p'
  end.

Lemma refill_one p cpu bh k ptr :
  pool_inv p → ep_cpu (allocator p) cpu bh → ep_mem (allocator p) ptr → k ≠ 0 → elems p !! k = None →
  ∃ p', refill_loop cpu bh (λ _, (k, true, ptr)) 1 0 p = Ok (tt, p') ∧ pool_inv p' ∧
    (∀ c b, ep_cpu (allocator p') c b ↔ ep_cpu (allocator p) c b) ∧
    elems p' = <[k := new_elem]> (elems p) ∧ ep_elems (allocator p') ≡ₚ k :: ep_elems (allocator p) ∧
    ∃ s, p' = with_top (s32 (top_count p + 1)) (with_allocator s (with_elems <[k := new_elem]> p)).
Proof.
  intros Hinv Hcpu Hmem Hk0 Hk.
  destruct (ep_free_law (allocator p) cpu bh ptr k (inv_alloc p Hinv) Hcpu Hmem) as (s & Hf & Hok & Hc & Hp).
  assert (Hr : refill_loop cpu bh (λ _, (k, true, ptr)) 1 0 p =
    Ok (tt, with_top (s32 (top_count p + 1)) (with_allocator s (with_elems <[k := new_elem]> p)))).
  { simpl. destruct (Z.eqb_spec k 0); [done |]. rewrite kbind_modify.
    by kstep (lift_alloc_ok (ep_free cpu bh ptr k) (with_elems <[k := new_elem]> p) tt s Hf). }
  eexists. split; [exact Hr |]. split_and!; try done; [by eapply step_refill_good | by exists s].
Qed.

(** A turn of the loop, and the rest. *)
Lemma refill_loop_cons cpu bh answers n i p k ptr p1 :
  answers i = (k, true, ptr) → k ≠ 0 → refill_loop cpu bh (λ _, (k, true, ptr)) 1 0 p = Ok (tt, p1) →
  refill_loop cpu bh answers (S n) i p = refill_loop cpu bh answers n (S i) p1.
Proof.
  intros Ea Hk0 Hr. simpl in Hr |- *. rewrite Ea. destruct (Z.eqb_spec k 0); [done |]. simpl in *.
  rewrite kbind_modify in *. apply kbind_inv in Hr as ([] & s1 & Hf & Hr). kstep Hf. rewrite kbind_modify in *.
  by injection Hr as <-.
Qed.

Lemma refill_loop_spec cpu bh answers n i p :
  pool_inv p → ep_cpu (allocator p) cpu bh → refill_served cpu bh answers n i p →
  ∃ p', refill_loop cpu bh answers n i p = Ok (tt, p') ∧ pool_inv p' ∧
    size (elems p') = (n + size (elems p))%nat ∧
    length (ep_elems (allocator p')) = (n + length (ep_elems (allocator p)))%nat.
Proof.
  revert i p. induction n as [| n IH]; intros i p Hinv Hcpu Hs; [by exists p |].
  simpl in Hs. destruct (answers i) as [[k th] ptr] eqn:Ea. destruct Hs as (-> & Hk0 & Hk & Hmem & Hnext).
  destruct (refill_one p cpu bh k ptr Hinv Hcpu Hmem Hk0 Hk) as (p1 & Hr & Hinv1 & Hc & He & Hp & _).
  destruct (IH (S i) p1 Hinv1 (proj2 (Hc cpu bh) Hcpu) (Hnext p1 Hr)) as (p' & Hr' & Hinv' & Hsz & Hlen).
  exists p'. split_and!; [| done | |].
  - by rewrite (refill_loop_cons _ _ _ _ _ _ _ _ _ Ea Hk0 Hr).
  - rewrite Hsz, He, map_size_insert_None by done. lia.
  - rewrite Hlen, Hp. simpl. lia.
Qed.

Lemma refill_count_short p :
  pool_inv p → 0 ≤ pool_size p < 2147483648 →
  refill_count p = Z.max 0 (pool_size p - 4 * ep_full_count (allocator p)).
Proof.
  intros Hinv Hsz. pose proof (ep_full_range (allocator p) (inv_alloc p Hinv)) as Hf.
  unfold refill_count. rewrite Z.shiftl_mul_pow2 by lia. change (2 ^ 2) with 4. rewrite s32_small by lia. cbv zeta.
  destruct (Z.ltb_spec (pool_size p - ep_full_count (allocator p) * 4) 0); lia.
Qed.

(** A refill adds [pool_size - 4 * full_count] elements, none when that
    is negative. *)
Lemma refill_pool_spec p cpu bh answers :
  pool_inv p → ep_cpu (allocator p) cpu bh → 0 ≤ pool_size p < 2147483648 ->
  refill_served cpu bh answers (Z.to_nat (refill_count p)) 0 p →
  let n := Z.max 0 (pool_size p - 4 * ep_full_count (allocator p)) in
  ∃ p', refill_pool cpu bh answers p = Ok (tt, p') ∧ pool_inv p' ∧
    Z.of_nat (size (elems p')) = Z.of_nat (size (elems p)) + n ∧
    Z.of_nat (length (ep_elems (allocator p'))) = Z.of_nat (length (ep_elems (allocator p))) + n.
Proof.
  intros Hinv Hcpu Hsz Hs n. unfold refill_pool. rewrite kbind_get.
  destruct (refill_loop_spec cpu bh answers _ 0 p Hinv Hcpu Hs) as (p' & Hr & Hinv' & Hs1 & Hs2).
  rewrite refill_count_short in * by done. exists p'. split_and!; try done; lia.
Qed.
End invariant.

(** ** A concrete run

    Over the stack of elements: element 5 is made, a call of function 1 on the
    argument 7 takes it and wakes its thread, and the thread makes the call. *)

Definition pool_at (s : list Z) (e : pool_elem Z) (h : list (Z * (Z * Z))) (x : list (Z * Z)) :
  kthread_pool (list Z) Z := MkPool 64 1 true s {[5 := e]} h x.

Definition empty_pool : kthread_pool (list Z) Z := MkPool 64 0 true [] ∅ [] [].
Definition woken_elem : pool_elem Z := assign 1 7 [0] new_elem.
Definition assigned_pool : kthread_pool (list Z) Z := pool_at [] woken_elem [] [].

Lemma empty_pool_start : pool_start empty_pool.
Proof. done. Qed.

Lemma idle_run : pool_run empty_pool [] (pool_at [5] new_elem [] []).
Proof.
  apply (run_step empty_pool empty_pool _ None []); [apply run_refl |].
  by apply (step_refill 0 false 5 0).
Qed.

Lemma assigned_run : pool_run empty_pool [(1, 7)] assigned_pool.
Proof.
  apply (run_step empty_pool (pool_at [] new_elem [(5, (1, 7))] []) _ None [(1, 7)]);
    [| by apply (step_assign 5 1 7 [0] [] [] (pool_at [] new_elem [(5, (1, 7))] [])
         (pool_at [] woken_elem [(5, (1, 7))] []))].
  apply (run_step empty_pool _ _ (Some (1, 7)) [] idle_run).
  by apply (step_take 0 false 1 7 5 (pool_at [5] new_elem [] []) (pool_at [] new_elem [] [])).
Qed.

Lemma called_run : pool_run empty_pool [(1, 7)] (pool_at [] (set_pc PSetState woken_elem) [] [(1, 7)]).
Proof.
  apply (run_step empty_pool (pool_at [] (set_pc PRun woken_elem) [] []) _ None [(1, 7)]);
    [| by eapply (step_thread 0 false 0 5)].
  apply (run_step empty_pool (pool_at [] (set_pc PLoop woken_elem) [] []) _ None [(1, 7)]);
    [| by eapply (step_thread 0 false 0 5)].
  apply (run_step empty_pool assigned_pool _ None [(1, 7)] assigned_run).
  by eapply (step_thread 0 false 0 5).
Qed.

Lemma pool_calls_once_witness : [(1, 7)] ≡ₚ [(1, 7)] ∧ [(1, 7)] ⊆+ [(1, 7)].
Proof.
  destruct (pool_calls_once empty_pool _ _ empty_pool_start called_run) as [Hsub Hall].
  split; [by apply Hall | exact Hsub].
Defined.

Lemma pool_take_idle_witness :
  ∃ e, elems (pool_at [] (@new_elem Z) [] []) !! 5 = Some e ∧ pool_task e = None ∧ tstate e = TASK_UNINTERRUPTIBLE.
Proof.
  by apply (pool_take_idle (pool_at [5] new_elem [] []) [] empty_pool 0 false 5 (pool_at [] new_elem [] [])
    empty_pool_start idle_run).
Defined.

Lemma pending_call_runs_witness : ∃ p', thread_run 5 assigned_pool p' ∧ executed p' = [(1, 7)].
Proof.
  apply (pending_call_runs assigned_pool [(1, 7)] empty_pool 5 woken_elem 1 7 empty_pool_start assigned_run);
    [done | by apply not_elem_of_nil | done].
Defined.

(** Two elements are made for a pool of two. *)
Lemma refill_pool_spec_witness :
  let p := MkPool 2 0 true [] ∅ [] [] : kthread_pool (list Z) Z in
  ∃ p', refill_pool 0 false (λ i, (Z.of_nat i + 5, true, 0)) p = Ok (tt, p') ∧
    Z.of_nat (size (elems p')) = 2 ∧ Z.of_nat (length (ep_elems (allocator p'))) = 2.
Proof.
  intros p.
  destruct (refill_pool_spec p 0 false (λ i, (Z.of_nat i + 5, true, 0))) as (p' & Hr & _ & Hs & Hl); [| done | done | |].
  - by apply pool_start_inv.
  - split_and!; try done. intros p' [= <-]. split_and!; try done.
  - by exists p'.
Defined.
