(* ===== verification/Refill.v ===== *)
(** * The refill thread of the pool (refil_thread of thread_pool.c)

    The thread that keeps the pool filled, cut into the lines at which other
    threads can run: it refills, goes to sleep, and is woken by every call that
    takes an element.  [refil_awake] of the pool is the state of its task.  The
    steps of all threads together are steps of the pool, so the theorems of
    [ThreadPool] hold of them. *)

From stdpp Require Import base list gmap sets.
From Stdlib Require Import ZArith Lia.
From S2P Require Import Prelude ElemPool ThreadPool.

(** The lines of [refil_thread]. *)
Inductive refil_pc :=
  | RLoop       (* while (!kthread_should_stop()) *)
  | RRefill     (* refill_pool(cbn_pool) *)
  | RSet        (* set_current_state(TASK_INTERRUPTIBLE) *)
  | RCheck      (* if (!kthread_should_stop()) *)
  | RSchedule   (* schedule() *)
  | RRunning    (* __set_current_state(TASK_RUNNING) *)
  | RExit.      (* return 0 *)

#[export] Instance refil_pc_eq_dec : EqDecision refil_pc.
Proof. solve_decision. Defined.

Section refill.
Context {St F : Type} `{ElemPool St}.

(** The pool, the line the refill thread is at, and whether it was told to
    stop. *)
Record refil_sys := MkRefil { rpool : kthread_pool St F; rpc : refil_pc; rstop : bool }.

(** One line; [None]: the thread sleeps.  [answers] is what the environment
    answers to the requests of [refill_pool]. *)
Definition refil_thread (cpu : Z) (bh : bool) (answers : nat → Z * bool * Z) (c : refil_pc) (stop : bool) :
  kthread_pool St F → option (outcome (refil_pc * kthread_pool St F)) := λ p,
  match c with
  | RLoop => Some (Ok (if stop then RExit else RRefill, p))
  | RRefill => Some ((refill_pool cpu bh answers ;; mret RSet) p)
  | RSet => Some (Ok (RCheck, with_refil false p))
  | RCheck => Some (Ok (if stop then RRunning else RSchedule, p))
  | RSchedule => if refil_awake p then Some (Ok (RRunning, p)) else None
  | RRunning => Some (Ok (RLoop, with_refil true p))
  | RExit => None
  end.

(** [kthread_stop]: tell the thread, then wake it. *)
Definition kthread_stop_refil (s : refil_sys) : refil_sys :=
  MkRefil (with_refil true (rpool s)) (rpc s) true.

(** Steps: a line of the refill thread, with an environment that serves it; a
    step of any other thread; a request to stop.  The label is the call that
    was accepted. *)
Inductive refil_step : refil_sys → option (F * Z) → refil_sys → Prop :=
  | refil_line cpu bh answers p c c' stop p' :
      ep_cpu (allocator p) cpu bh →
      refill_served cpu bh answers (Z.to_nat (refill_count p)) 0 p →
      refil_thread cpu bh answers c stop p = Some (Ok (c', p')) →
      refil_step (MkRefil p c stop) None (MkRefil p' c' stop)
  | refil_other p c stop l p' :
      pool_step p l p' → refil_step (MkRefil p c stop) l (MkRefil p' c stop)
  | refil_told s : refil_step s None (kthread_stop_refil s).

Inductive refil_run : refil_sys → list (F * Z) → refil_sys → Prop :=
  | refil_start s : refil_run s [] s
  | refil_next s s1 s2 l ls :
      refil_run s ls s1 → refil_step s1 l s2 → refil_run s (option_list l ++ ls) s2.

(** The refill thread alone, on a given CPU. *)
Inductive refil_alone (cpu : Z) (bh : bool) (answers : nat → Z * bool * Z) : refil_sys → refil_sys → Prop :=
  | alone_here s : refil_alone cpu bh answers s s
  | alone_line p c c' stop p' s :
      refil_thread cpu bh answers c stop p = Some (Ok (c', p')) →
      refil_alone cpu bh answers (MkRefil p' c' stop) s →
      refil_alone cpu bh answers (MkRefil p c stop) s.
End refill.

Arguments refil_sys St F : clear implicits.

Section refill_lemmas.
Context {St F : Type} `{ElemPoolLaws St}.
Implicit Types p q : kthread_pool St F.

Lemma pool_run_trans p p1 p2 ls ls' :
  pool_run p ls p1 → pool_run p1 ls' p2 → pool_run p (ls' ++ ls) p2.
Proof.
  intros Hr Hr'. induction Hr' as [| p1 p2 p3 l ls' Hr' IH Hs]; [done |].
  rewrite <- app_assoc. econstructor; [by apply IH | done].
Qed.

Lemma pool_step_run p l p' : pool_step p l p' → pool_run p (option_list l) p'.
Proof. intros Hs. rewrite <- (app_nil_r (option_list l)). econstructor; [constructor | done]. Qed.

(** A served refill is a run of the pool, one element a step. *)
Lemma refill_loop_run cpu bh answers n i p :
  pool_inv p → ep_cpu (allocator p) cpu bh → refill_served cpu bh answers n i p →
  ∃ p', refill_loop cpu bh answers n i p = Ok (tt, p') ∧ pool_run p [] p' ∧ pool_inv p'.
Proof.
  revert i p. induction n as [| n IH]; intros i p Hinv Hcpu Hs.
  { exists p. split_and!; [done | constructor | done]. }
  simpl in Hs. destruct (answers i) as [[k th] ptr] eqn:Ea. destruct Hs as (-> & Hk0 & Hk & Hmem & Hnext).
  destruct (refill_one p cpu bh k ptr Hinv Hcpu Hmem Hk0 Hk) as (p1 & Hr & Hinv1 & Hc & _).
  destruct (IH (S i) p1 Hinv1 (proj2 (Hc cpu bh) Hcpu) (Hnext p1 Hr)) as (p' & Hr' & Hrun & Hinv').
  exists p'. split_and!; [| | done].
  - by rewrite (refill_loop_cons _ _ _ _ _ _ _ _ _ Ea Hk0 Hr).
  - change ([] : list (F * Z)) with (([] : list (F * Z)) ++ []).
    eapply pool_run_trans; [| exact Hrun]. apply (pool_step_run p None). by eapply step_refill.
Qed.

Lemma refill_pool_run cpu bh answers p :
  pool_inv p → ep_cpu (allocator p) cpu bh →
  refill_served cpu bh answers (Z.to_nat (refill_count p)) 0 p →
  ∃ p', refill_pool cpu bh answers p = Ok (tt, p') ∧ pool_run p [] p' ∧ pool_inv p'.
Proof. intros Hinv Hcpu Hs. unfold refill_pool. rewrite kbind_get. by apply refill_loop_run. Qed.

Lemma refil_line_run cpu bh answers p c c' stop p' :
  pool_inv p → ep_cpu (allocator p) cpu bh →
  refill_served cpu bh answers (Z.to_nat (refill_count p)) 0 p →
  refil_thread cpu bh answers c stop p = Some (Ok (c', p')) → pool_run p [] p'.
Proof.
  intros Hinv Hcpu Hs Hl. assert (Hset : ∀ b, pool_run p [] (with_refil b p)).
  { intros b. apply (pool_step_run p None). constructor. }
  destruct c; simpl in Hl; try (injection Hl as <- <-; constructor); try (injection Hl as <- <-; apply Hset); [| |done].
  - destruct (refill_pool_run cpu bh answers p Hinv Hcpu Hs) as (q & Hr & Hrun & _).
    unfold mbind, kproc_bind in Hl. rewrite Hr in Hl. by injection Hl as <- <-.
  - destruct (refil_awake p); [injection Hl as <- <-; constructor | done].
Qed.

(** Every interleaving of the refill thread's lines with the other
    threads and with a request to stop is a run of the pool: what holds of its
    runs holds with the thread as the code has it. *)
Lemma refil_run_refines (s : refil_sys St F) ls s' :
  pool_start (rpool s) → refil_run s ls s' → pool_run (rpool s) ls (rpool s').
Proof.
  intros Hstart Hrun. induction Hrun as [s | s s1 s2 l ls Hrun IH Hs]; [constructor |].
  specialize (IH Hstart). destruct (pool_run_inv _ _ _ Hstart IH) as [Hinv _].
  eapply pool_run_trans; [exact IH |]. destruct Hs; simpl in *.
  - by eapply refil_line_run.
  - by apply pool_step_run.
  - apply (pool_step_run _ None). constructor.
Qed.

(** ** Waking and stopping *)

Definition served_now cpu bh (answers : nat → Z * bool * Z) p : Prop :=
  pool_inv p ∧ ep_cpu (allocator p) cpu bh ∧ refill_served cpu bh answers (Z.to_nat (refill_count p)) 0 p.

(** The state of the thread does not matter to a refill. *)
Lemma refill_served_refil cpu bh answers n i p b :
  refill_served cpu bh answers n i p → refill_served cpu bh answers n i (with_refil b p).
Proof.
  revert i p. induction n as [| n IH]; intros i p; simpl; [done |]. destruct (answers i) as [[k th] ptr].
  intros (? & Hk & ? & ? & Hn). split_and!; try done. intros p' Hp'.
  destruct (Z.eqb_spec k 0); [done |]. rewrite kbind_modify in Hp'.
  apply kbind_inv in Hp' as ([] & s & Hl & Hp'). rewrite kbind_modify in Hp'. injection Hp' as <-.
  unfold lift_alloc in Hl. simpl in Hl. destruct (ep_free cpu bh ptr k (allocator p)) as [[[] sx] |] eqn:E; [| done].
  injection Hl as <-. set (q := with_top (s32 (top_count p + 1)) (with_allocator sx (with_elems <[k := new_elem]> p))).
  apply (IH (S i) q), Hn. rewrite kbind_modify. erewrite kbind_ok; [| unfold lift_alloc; simpl; by rewrite E].
  by rewrite kbind_modify.
Qed.

(** A pool that differs from [p] in the elements that were added, [new]. *)
Record added (new : list Z) p p' : Prop := {
  ad_new : NoDup new ∧ ∀ k, k ∈ new → k ≠ 0 ∧ elems p !! k = None;
  ad_elems k : elems p' !! k = if decide (k ∈ new) then Some new_elem else elems p !! k;
  ad_idle : ep_elems (allocator p') ≡ₚ new ++ ep_elems (allocator p);
  ad_top : s32 (top_count p') = s32 (top_count p + Z.of_nat (length new));
  ad_rest : pool_size p' = pool_size p ∧ held p' = held p ∧ executed p' = executed p;
}.

(** The elements [kmem_cache_alloc] returns from turn [i] on. *)
Definition allocs (answers : nat → Z * bool * Z) (i n : nat) : list Z := (λ j, (answers j).1.1) <$> seq i n.

Lemma refill_loop_added cpu bh answers n i p :
  pool_inv p → ep_cpu (allocator p) cpu bh → refill_served cpu bh answers n i p →
  ∃ p', refill_loop cpu bh answers n i p = Ok (tt, p') ∧ added (allocs answers i n) p p'.
Proof.
  revert i p. induction n as [| n IH]; intros i p Hinv Hcpu Hs.
  { exists p. split; [done |]. split; try done; [split; [constructor | by intros k ?%elem_of_nil] | by rewrite Z.add_0_r]. }
  simpl in Hs. destruct (answers i) as [[k th] ptr] eqn:Ea. destruct Hs as (-> & Hk0 & Hk & Hmem & Hnext).
  destruct (refill_one p cpu bh k ptr Hinv Hcpu Hmem Hk0 Hk) as (p1 & Hr & Hinv1 & Hc & He & Hp & s & E).
  destruct (IH (S i) p1 Hinv1 (proj2 (Hc cpu bh) Hcpu) (Hnext p1 Hr)) as (p' & Hr' & [[Hnd Hfr] Hel Hid Htop Hrest]).
  exists p'. split; [by rewrite (refill_loop_cons _ _ _ _ _ _ _ _ _ Ea Hk0 Hr) |].
  assert (El : allocs answers i (S n) = k :: allocs answers (S i) n) by (unfold allocs; simpl; by rewrite Ea).
  rewrite El. assert (Hkn : k ∉ allocs answers (S i) n).
  { intros Hin. destruct (Hfr k Hin) as [_ Hn]. by rewrite He, lookup_insert_eq in Hn. }
  assert (Hfr' : ∀ x, x ∈ allocs answers (S i) n → x ≠ 0 ∧ elems p !! x = None).
  { intros x Hx. destruct (Hfr x Hx) as [? Hn]. rewrite He, lookup_insert_ne in Hn by (by intros ->). done. }
  split.
  - split; [by constructor |]. intros x [-> | Hx]%elem_of_cons; auto.
  - intros x. rewrite Hel, He. destruct (decide (x = k)) as [-> |].
    + rewrite (decide_False (P := k ∈ allocs _ _ _)), decide_True, lookup_insert_eq by (done || by left). done.
    + rewrite lookup_insert_ne by done. do 2 case_decide; set_solver.
  - by rewrite Hid, Hp, <- Permutation_middle.
  - rewrite Htop, E. simpl. rewrite s32_add_s32. f_equal. lia.
  - rewrite E in Hrest. exact Hrest.
Qed.

(** C19. A turn of the refill thread. Not told to stop, it makes as many
    elements as the pool is short of, the pool size less four times the
    allocator's count of full magazines, each a new thread that sleeps without
    a task, and hands them to the allocator; it changes nothing else, and then
    sleeps until it is woken. *)
Theorem refil_turn cpu bh answers p :
  pool_inv p → ep_cpu (allocator p) cpu bh → 0 ≤ pool_size p < 2147483648 →
  refill_served cpu bh answers (Z.to_nat (refill_count p)) 0 p →
  let short := Z.max 0 (pool_size p - 4 * ep_full_count (allocator p)) in
  ∃ p', refil_alone cpu bh answers (MkRefil p RLoop false) (MkRefil p' RSchedule false) ∧
    added (allocs answers 0 (Z.to_nat short)) p p' ∧
    ∀ cpu' bh' answers' stop, refil_thread cpu' bh' answers' RSchedule stop p' = None.
Proof.
  intros Hinv Hcpu Hsz Hs short. assert (En : refill_count p = short) by by apply refill_count_short.
  rewrite <- En. destruct (refill_loop_added cpu bh answers _ 0 p Hinv Hcpu Hs) as (p1 & Hr & Had).
  exists (with_refil false p1). split_and!; [| by destruct Had | done].
  eapply alone_line; [done |]. eapply alone_line.
  { simpl. unfold refill_pool. rewrite kbind_assoc, kbind_get. by kstep Hr. }
  eapply alone_line; [done |]. eapply alone_line; [done | constructor].
Qed.

(** C20. Told to stop, the thread returns, whichever line it is at: the
    request wakes it, and it looks for the request after it has said it is
    going to sleep. *)
Theorem refil_stops cpu bh answers p c :
  served_now cpu bh answers p →
  ∃ p', refil_alone cpu bh answers (kthread_stop_refil (MkRefil p c false)) (MkRefil p' RExit true).
Proof.
  intros (Hinv & Hcpu & Hs). unfold kthread_stop_refil. simpl.
  assert (Hloop : ∀ q : kthread_pool St F, refil_alone cpu bh answers (MkRefil q RLoop true) (MkRefil q RExit true)).
  { intros q. eapply alone_line; [done | constructor]. }
  assert (Hrunning : ∀ q : kthread_pool St F, ∃ p', refil_alone cpu bh answers (MkRefil q RRunning true) (MkRefil p' RExit true)).
  { intros q. eexists. eapply alone_line; [done | apply Hloop]. }
  assert (Hset : ∀ q : kthread_pool St F, ∃ p', refil_alone cpu bh answers (MkRefil q RSet true) (MkRefil p' RExit true)).
  { intros q. destruct (Hrunning (with_refil false q)) as [p' Hp']. exists p'.
    eapply alone_line; [done |]. eapply alone_line; [done | exact Hp']. }
  destruct c.
  - eexists. apply Hloop.
  - assert (Hs' : refill_served cpu bh answers (Z.to_nat (refill_count (with_refil true p))) 0 (with_refil true p)). by apply refill_served_refil.
    destruct (refill_pool_run cpu bh answers (with_refil true p)) as (q & Hr & _); [by destruct Hinv | done | done |].
    destruct (Hset q) as [p' Hp']. exists p'. eapply alone_line; [| exact Hp']. simpl.
    unfold mbind, kproc_bind. by rewrite Hr.
  - apply Hset.
  - destruct (Hrunning (with_refil true p)) as [p' Hp']. exists p'. by eapply alone_line.
  - destruct (Hrunning (with_refil true p)) as [p' Hp']. exists p'. by eapply alone_line.
  - apply Hrunning.
  - eexists. constructor.
Qed.

(** An element that is taken while the thread is asleep, or before it
    looks at the pool again, is followed by a refill: the call wakes the
    thread and its own lines lead to [refill_pool]. Only a call that comes
    between the refill and the thread's going to sleep may leave it asleep. *)
Lemma refil_wakes cpu bh answers p c cpu' bh' elem p' :
  kthread_pool_alloc cpu' bh' p = Ok (elem, p') → c ≠ RSet → c ≠ RExit →
  ∃ q, refil_alone cpu bh answers (MkRefil p' c false) (MkRefil q RRefill false) ∧ elems q = elems p' ∧
    allocator q = allocator p'.
Proof.
  intros Hr Hns Hne. assert (Haw : refil_awake p' = true).
  { unfold kthread_pool_alloc, refill_task_start in Hr. rewrite kbind_modify in Hr. unfold lift_alloc in Hr.
    destruct (ep_alloc cpu' bh' _) as [[a sx] |]; [| done]. by injection Hr as <- <-. }
  assert (Hl : ∀ q : kthread_pool St F, ∃ q', refil_alone cpu bh answers (MkRefil q RRunning false) (MkRefil q' RRefill false) ∧
    elems q' = elems q ∧ allocator q' = allocator q).
  { intros q. exists (with_refil true q). split; [| done].
    eapply alone_line; [done |]. eapply alone_line; [done | constructor]. }
  assert (Hsch : ∃ q', refil_alone cpu bh answers (MkRefil p' RSchedule false) (MkRefil q' RRefill false) ∧
    elems q' = elems p' ∧ allocator q' = allocator p').
  { destruct (Hl p') as (q & Hq & He). exists q. split; [| done]. eapply alone_line; [| exact Hq]. simpl. by rewrite Haw. }
  destruct c; try done.
  - exists p'. split; [| done]. eapply alone_line; [done | constructor].
  - exists p'. split; [constructor | done].
  - destruct Hsch as (q & Hq & He). exists q. split; [| done]. by eapply alone_line.
Qed.

(** Such a call does: its wake-up comes before the thread's own state change,
    which undoes it, and the thread sleeps on a pool that is short of an
    element. *)
Lemma refil_wake_lost cpu bh answers p cpu' bh' elem p' :
  kthread_pool_alloc cpu' bh' p = Ok (elem, p') →
  refil_awake p' = true ∧
  refil_alone cpu bh answers (MkRefil p' RSet false) (MkRefil (with_refil false p') RSchedule false) ∧
  refil_thread cpu bh answers RSchedule false (with_refil false p') = None.
Proof.
  intros Hr. split_and!; [| | done].
  - unfold kthread_pool_alloc, refill_task_start in Hr. rewrite kbind_modify in Hr. unfold lift_alloc in Hr.
    destruct (ep_alloc cpu' bh' _) as [[a sx] |]; [| done]. by injection Hr as <- <-.
  - eapply alone_line; [done |]. eapply alone_line; [done | constructor].
Qed.
End refill_lemmas.

(** ** Concrete runs

    A pool of one over the stack of elements; element 5 is made. *)

Definition short_pool : kthread_pool (list Z) Z := MkPool 1 0 true [] ∅ [] [].
Definition full_pool : kthread_pool (list Z) Z := MkPool 1 1 true [5] {[5 := new_elem]} [] [].
Definition five (i : nat) : Z * bool * Z := (5, true, 0).

Lemma short_served : served_now 0 false five short_pool.
Proof. split_and!; try done. by apply pool_start_inv. Qed.

Lemma short_run : refil_run (MkRefil short_pool RRefill false) [] (MkRefil full_pool RSet false).
Proof.
  apply (refil_next _ (MkRefil short_pool RRefill false) _ None []); [constructor |].
  apply (refil_line 0 false five); [done | apply short_served | by vm_compute].
Qed.

Lemma refil_run_refines_witness : pool_run short_pool [] full_pool.
Proof. by apply (refil_run_refines (MkRefil short_pool RRefill false) [] (MkRefil full_pool RSet false)); [| exact short_run]. Defined.

Lemma refil_turn_witness :
  ∃ p', refil_alone 0 false five (MkRefil short_pool RLoop false) (MkRefil p' RSchedule false) ∧
    ep_elems (allocator p') ≡ₚ [5] ∧ elems p' !! 5 = Some new_elem.
Proof.
  destruct (refil_turn 0 false five short_pool) as (p' & Hr & [_ Hel Hid _ _] & _);
    [apply short_served | done | done | apply short_served |].
  exists p'. split; [exact Hr | split; [exact Hid |]]. rewrite Hel. by rewrite decide_True by (vm_compute; left).
Defined.

Lemma refil_stops_witness :
  ∃ p', refil_alone 0 false five (kthread_stop_refil (MkRefil short_pool RRefill false)) (MkRefil p' RExit true).
Proof. apply refil_stops. exact short_served. Defined.

(** The pool has its element taken while the thread sleeps. *)
Lemma refil_wakes_witness :
  ∃ q, refil_alone 0 false five (MkRefil (with_allocator [] full_pool) RSchedule false) (MkRefil q RRefill false) ∧
    elems q = elems full_pool.
Proof.
  destruct (refil_wakes 0 false five (with_refil false full_pool) RSchedule 0 false 5 (with_allocator [] full_pool))
    as (q & Hq & He & _); [by vm_compute | done | done | by exists q].
Defined.
