(* ===== verification/World.v ===== *)
(** * The shared state of the module

    The objects the threads of the module share: the slabs, the trees, the
    sockets, the per-CPU lists, and a log of what was done to the outside.
    Kernel services are not part of the program: [Env] answers every call of
    one with a result, and says what other threads did while a thread slept. *)

From stdpp Require Import base list gmap sets strings.
From Stdlib Require Import ZArith Lia.
From S2P Require Import Prelude RbTree Keys.

(** A pointer: NULL, [ERR_PTR(e)], or an object. *)
Inductive ptr := PNull | PErr (e : Z) | PObj (a : Z).

#[export] Instance ptr_eq_dec : EqDecision ptr.
Proof. solve_decision. Defined.

Definition IS_ERR_OR_NULL (p : ptr) : bool :=
  match p with PObj _ => false | _ => true end.

(** struct cbn_qp; [qp_dir\[TX_QP\]] is [tx], [qp_dir\[RX_QP\]] is [rx]. *)
Record cbn_qp := MkQp {
  q_key : list Z;
  ref_cnt : Z;
  q_listner : ptr;
  q_tx : ptr;
  q_rx : ptr;
}.

Definition qp_dir (q : cbn_qp) (dir : Z) : ptr := if dir =? TX_QP then q_tx q else q_rx q.
Definition set_qp_dir (dir : Z) (v : ptr) (q : cbn_qp) : cbn_qp :=
  if dir =? TX_QP then MkQp (q_key q) (ref_cnt q) (q_listner q) v (q_rx q)
  else MkQp (q_key q) (ref_cnt q) (q_listner q) (q_tx q) v.
Definition set_ref (n : Z) (q : cbn_qp) : cbn_qp :=
  MkQp (q_key q) n (q_listner q) (q_tx q) (q_rx q).
Definition set_key (k : list Z) (q : cbn_qp) : cbn_qp :=
  MkQp k (ref_cnt q) (q_listner q) (q_tx q) (q_rx q).
Definition set_listner (l : ptr) (q : cbn_qp) : cbn_qp :=
  MkQp (q_key q) (ref_cnt q) l (q_tx q) (q_rx q).

(** struct cbn_listner; the per-CPU trees are in [roots]. *)
Record cbn_listner := MkListner {
  l_key : Z;      (* int32_t, the tenant id *)
  l_port : Z;     (* uint16_t *)
  l_status : Z;   (* uint16_t *)
  l_sock : ptr;
  l_raw : ptr;
}.

(** The headers of a packet, fields in host representation. *)
Record iphdr := { protocol : Z; saddr : Z; daddr : Z }.
Record tcphdr := { th_source : Z; th_dest : Z; th_syn : bool; th_ack : bool; th_window : Z }.

(** struct sockets *)
Record sockets := MkSockets { so_rx : ptr; so_tx : ptr; so_dir : Z }.

(** struct probe *)
Record probe := { p_iphdr : iphdr; p_tcphdr : tcphdr; p_listner : ptr }.

(** Functions handed to the thread pool. *)
Inductive task_fn :=
  | T_start_new_connection
  | T_start_new_connection_syn
  | T_start_new_pre_connection_syn
  | T_start_new_pending_connection
  | T_start_half_duplex
  | T_start_probe_syn
  | T_split_server
  | T_prealloc_connection
  | T_prealloc_connection_pool.

#[export] Instance task_fn_eq_dec : EqDecision task_fn.
Proof. solve_decision. Defined.

(** Functions that get a thread of their own. *)
Inductive thread_fn :=
  | F_refil_thread
  | F_prec_conn_listner_server
  | F_poll_thread (data : Z)
  | F_split_server
  | F_split_server_z
  | F_start_new_connection
  | F_start_new_connection_z.

#[export] Instance thread_fn_eq_dec : EqDecision thread_fn.
Proof. solve_decision. Defined.

(** struct nf_hook_ops: the function, where and in which order netfilter calls
    it, and the name it is given. *)
Inductive nf_point := NF_INET_PRE_ROUTING | NF_INET_LOCAL_IN | NF_INET_FORWARD | NF_INET_LOCAL_OUT | NF_INET_POST_ROUTING.
Record nf_hook_ops {F : Type} := MkHook { hook : F; hooknum : nf_point; priority : Z; priv : string }.
Arguments nf_hook_ops : clear implicits.
Arguments MkHook {F}.

Definition NF_IP_PRI_FIRST : Z := -2147483648.
Definition NF_IP_PRI_RAW : Z := -300.
Definition NF_IP_PRI_LAST : Z := 2147483647.

(** Socket options the code sets or reads. *)
Inductive sockopt :=
  | O_SO_MARK | O_TCP_NODELAY | O_IP_TRANSPARENT | O_SO_KEEPALIVE | O_IP_HDRINCL | O_SO_ORIGINAL_DST.

(** Calls of kernel services whose result the environment decides. *)
Inductive kcall :=
  | C_sock_create
  | C_setsockopt (s : ptr) (o : sockopt) (v : Z)
  | C_getsockopt (s : ptr) (o : sockopt)
  | C_getpeername (s : ptr)
  | C_bind (s : ptr) (port addr : Z)
  | C_connect (s : ptr) (port addr : Z)
  | C_listen (s : ptr) (backlog : Z)
  | C_accept (s : ptr)
  | C_sendmsg (s : ptr) (len : Z)
  | C_recvmsg (s : ptr) (len : Z)
  | C_setaffinity (cpu : option Z)
  | C_alloc
  | C_alloc_page
  | C_copy_from_user
  | C_copy_to_user (buff len : Z)
  | C_should_stop
  | C_wait
  | C_alloc_pages (order : Z)
  | C_peek_tail (s : ptr)
  | C_read_zcopy (s : ptr) (nr : Z)
  | C_wait_data (s : ptr)
  | C_schedule
  | C_kthread (f : thread_fn)
  | C_kallsyms (symbol : string)
  | C_slab_create (slab : string)
  | C_proc_mkdir (dir : string)
  | C_proc_create (dir : option string) (file : string)
  | C_nf_register.

(** What the module did. *)
Inductive event :=
  | E_call (c : kcall) (rc : Z)
  | E_recv (s : ptr) (bytes : list Z)
  | E_send (s : ptr) (bytes : list Z)
  | E_send_raw (s : ptr) (ih : iphdr) (th : tcphdr) (addr : Z)  (* the packet kernel_sendmsg was called with *)
  | E_pool_run (f : task_fn) (data : ptr) (arg : Z) (cpu : option Z)  (* kthread_pool_run was called *)
  | E_alloc_page (a : Z)
  | E_free_page (a : Z)
  | E_user (buff : Z) (bytes : list Z)
  | E_shutdown (s : Z)
  | E_release (s : Z)
  | E_free_qp (a : Z)
  | E_unlock_freed (a : Z)   (* spin_unlock on a freed QP *)
  | E_wake (a : Z)
  | E_kthread_run (f : thread_fn) (data : Z)
  | E_kthread_stop (f : thread_fn)
  | E_put_page (a : Z)
  | E_slab_destroy (slab : string)
  | E_proc_remove (dir : string)
  | E_nf_unregister.

(** What a module holds of the kernel: what it registered and did not give
    back, read off its history, latest first. *)
Inductive resource :=
  | R_slab (slab : string)
  | R_dir (dir : string)
  | R_file (dir : option string) (file : string)
  | R_hooks
  | R_thread (f : thread_fn).

#[export] Instance resource_eq_dec : EqDecision resource.
Proof. solve_decision. Defined.

Definition gained (e : event) : list resource :=
  match e with
  | E_call (C_slab_create slab) rc => if rc =? 0 then [] else [R_slab slab]
  | E_call (C_proc_mkdir dir) rc => if rc =? 0 then [] else [R_dir dir]
  | E_call (C_proc_create dir file) rc => if rc =? 0 then [] else [R_file dir file]
  | E_call C_nf_register rc => if rc =? 0 then [R_hooks] else []
  | E_kthread_run f _ => [R_thread f]
  | _ => []
  end.

Definition given_back (e : event) (r : resource) : bool :=
  match e, r with
  | E_slab_destroy slab, R_slab slab' => bool_decide (slab = slab')
  | E_proc_remove dir, R_dir dir' => bool_decide (dir = dir')
  | E_proc_remove dir, R_file dir' _ => bool_decide (Some dir = dir')
  | E_nf_unregister, R_hooks => true
  | E_kthread_stop f, R_thread f' => bool_decide (f = f')
  | _, _ => false
  end.

Fixpoint resources (l : list event) : list resource :=
  match l with
  | [] => []
  | (E_slab_destroy _ | E_proc_remove _ | E_nf_unregister | E_kthread_stop _) as e :: l =>
      filter (λ r, given_back e r = false) (resources l)
  | e :: l => gained e ++ resources l
  end.

(** The wake-ups of the wait queue of the QP at [a] so far. *)
Fixpoint wakes (a : Z) (l : list event) : nat :=
  match l with
  | [] => 0
  | E_wake b :: l => if b =? a then S (wakes a l) else wakes a l
  | _ :: l => wakes a l
  end.

Inductive sock_state := S_open | S_shut.

Record world := MkWorld {
  tick : nat;                        (* calls answered so far *)
  next : Z;                          (* next object address *)
  qps : gmap Z cbn_qp;               (* live objects of qp_slab *)
  listners : gmap Z cbn_listner;     (* live objects of listner_slab *)
  listner_root : tree Z;
  roots : gmap (Z * Z) (tree Z);     (* connections_root of (listner, cpu) *)
  syns : gmap Z addresses;           (* live objects of syn_slab *)
  probes : gmap Z probe;             (* live objects of probe_slab *)
  preconns : gmap Z Z;               (* live objects of preconn_slab: their key *)
  preconn_root : tree Z;
  pcp_lists : gmap (Z * Z) (list Z * Z);  (* pcp_list of (preconn, cpu): list, len *)
  socks : gmap Z sock_state;         (* live sockets *)
  ip_transparent : Z;
  pre_conn_listner : ptr;            (* conn_pool.c *)
  is_zcopy : Z;                      (* client.c *)
  log : list event;                  (* latest first *)
}.

Abbreviation wproc := (kproc world).

Definition upd_qps f (w : world) := MkWorld (tick w) (next w) (f (qps w)) (listners w) (listner_root w)
  (roots w) (syns w) (probes w) (preconns w) (preconn_root w) (pcp_lists w) (socks w) (ip_transparent w) (pre_conn_listner w) (is_zcopy w) (log w).
Definition upd_listners f (w : world) := MkWorld (tick w) (next w) (qps w) (f (listners w)) (listner_root w)
  (roots w) (syns w) (probes w) (preconns w) (preconn_root w) (pcp_lists w) (socks w) (ip_transparent w) (pre_conn_listner w) (is_zcopy w) (log w).
Definition set_listner_root t (w : world) := MkWorld (tick w) (next w) (qps w) (listners w) t
  (roots w) (syns w) (probes w) (preconns w) (preconn_root w) (pcp_lists w) (socks w) (ip_transparent w) (pre_conn_listner w) (is_zcopy w) (log w).
Definition upd_roots f (w : world) := MkWorld (tick w) (next w) (qps w) (listners w) (listner_root w)
  (f (roots w)) (syns w) (probes w) (preconns w) (preconn_root w) (pcp_lists w) (socks w) (ip_transparent w) (pre_conn_listner w) (is_zcopy w) (log w).
Definition upd_syns f (w : world) := MkWorld (tick w) (next w) (qps w) (listners w) (listner_root w)
  (roots w) (f (syns w)) (probes w) (preconns w) (preconn_root w) (pcp_lists w) (socks w) (ip_transparent w) (pre_conn_listner w) (is_zcopy w) (log w).
Definition upd_probes f (w : world) := MkWorld (tick w) (next w) (qps w) (listners w) (listner_root w)
  (roots w) (syns w) (f (probes w)) (preconns w) (preconn_root w) (pcp_lists w) (socks w) (ip_transparent w) (pre_conn_listner w) (is_zcopy w) (log w).
Definition upd_preconns f (w : world) := MkWorld (tick w) (next w) (qps w) (listners w) (listner_root w)
  (roots w) (syns w) (probes w) (f (preconns w)) (preconn_root w) (pcp_lists w) (socks w) (ip_transparent w) (pre_conn_listner w) (is_zcopy w) (log w).
Definition set_preconn_root t (w : world) := MkWorld (tick w) (next w) (qps w) (listners w) (listner_root w)
  (roots w) (syns w) (probes w) (preconns w) t (pcp_lists w) (socks w) (ip_transparent w) (pre_conn_listner w) (is_zcopy w) (log w).
Definition upd_pcp_lists f (w : world) := MkWorld (tick w) (next w) (qps w) (listners w) (listner_root w)
  (roots w) (syns w) (probes w) (preconns w) (preconn_root w) (f (pcp_lists w)) (socks w) (ip_transparent w) (pre_conn_listner w) (is_zcopy w) (log w).
Definition upd_socks f (w : world) := MkWorld (tick w) (next w) (qps w) (listners w) (listner_root w)
  (roots w) (syns w) (probes w) (preconns w) (preconn_root w) (pcp_lists w) (f (socks w)) (ip_transparent w) (pre_conn_listner w) (is_zcopy w) (log w).
Definition set_transparent v (w : world) := MkWorld (tick w) (next w) (qps w) (listners w) (listner_root w)
  (roots w) (syns w) (probes w) (preconns w) (preconn_root w) (pcp_lists w) (socks w) v (pre_conn_listner w) (is_zcopy w) (log w).
Definition set_pre_conn_listner p (w : world) := MkWorld (tick w) (next w) (qps w) (listners w) (listner_root w)
  (roots w) (syns w) (probes w) (preconns w) (preconn_root w) (pcp_lists w) (socks w) (ip_transparent w) p (is_zcopy w) (log w).
Definition set_zcopy v (w : world) := MkWorld (tick w) (next w) (qps w) (listners w) (listner_root w)
  (roots w) (syns w) (probes w) (preconns w) (preconn_root w) (pcp_lists w) (socks w) (ip_transparent w) (pre_conn_listner w) v (log w).
Definition add_log e (w : world) := MkWorld (tick w) (next w) (qps w) (listners w) (listner_root w)
  (roots w) (syns w) (probes w) (preconns w) (preconn_root w) (pcp_lists w) (socks w) (ip_transparent w) (pre_conn_listner w) (is_zcopy w) (e :: log w).
Definition set_tick n (w : world) := MkWorld n (next w) (qps w) (listners w) (listner_root w)
  (roots w) (syns w) (probes w) (preconns w) (preconn_root w) (pcp_lists w) (socks w) (ip_transparent w) (pre_conn_listner w) (is_zcopy w) (log w).
Definition set_next n (w : world) := MkWorld (tick w) n (qps w) (listners w) (listner_root w)
  (roots w) (syns w) (probes w) (preconns w) (preconn_root w) (pcp_lists w) (socks w) (ip_transparent w) (pre_conn_listner w) (is_zcopy w) (log w).

(** ** The environment *)

(** The world outside the running thread, read at the [n]-th call: [answer]
    the result, [payload] the bytes a receive delivers, [name] the address a
    query of a socket delivers, [garbage], [garbage_syn] and [garbage_listner]
    what a recycled slab object still holds, [stale] a word of the stack nothing
    was stored in, [others] what the other threads did meanwhile.  The machine has
    [num_online_cpus] and [possible_cpus]. *)
Class Env := {
  answer : nat → Z;
  payload : nat → list Z;
  name : nat → sockaddr_in;
  garbage : nat → cbn_qp;
  garbage_syn : nat → addresses;
  garbage_listner : nat → cbn_listner;
  stale : nat → Z;
  others : nat → world → world;
  num_online_cpus : Z;
  possible_cpus : list Z;
}.

(** The other threads never touch what is the running thread's: its clock and
    its own history; addresses in use are not handed out again. *)
Definition interfere `{Env} (w : world) : world :=
  let w' := others (tick w) w in
  MkWorld (S (tick w)) (Z.max (next w) (next w')) (qps w') (listners w') (listner_root w') (roots w')
    (syns w') (probes w') (preconns w') (preconn_root w') (pcp_lists w') (socks w') (ip_transparent w') (pre_conn_listner w') (is_zcopy w') (log w).

Section services.
Context `{Env}.

(** A call of a kernel service: the other threads run, then it answers. *)
Definition kernel_call (c : kcall) : wproc Z := λ w,
  let rc := answer (tick w) in Ok (rc, add_log (E_call c rc) (interfere w)).

(** A point where other threads may run in between. *)
Definition preempt : wproc unit := kmodify interfere.

(** [copy_to_user]: the number of bytes it could not copy. *)
Definition copy_to_user (buff : Z) (bytes : list Z) : wproc Z :=
  rc ← kernel_call (C_copy_to_user buff (Z.of_nat (length bytes)));
  (if rc =? 0 then kmodify (add_log (E_user buff bytes)) else mret tt) ;;
  mret rc.

(** A fresh object address. *)
Definition fresh_addr : wproc Z := λ w, Ok (next w, set_next (next w + 1) w).

(** [sock_create_kern]: 0 and a new open socket, or an error code. *)
Definition sock_create_kern : wproc (Z * ptr) :=
  rc ← kernel_call C_sock_create;
  if rc =? 0 then
    a ← fresh_addr;
    kmodify (upd_socks <[a := S_open]>) ;;
    mret (0, PObj a)
  else mret (rc, PNull).

(** [kernel_accept] *)
Definition kernel_accept (s : ptr) : wproc (Z * ptr) :=
  rc ← kernel_call (C_accept s);
  if rc =? 0 then
    a ← fresh_addr;
    kmodify (upd_socks <[a := S_open]>) ;;
    mret (0, PObj a)
  else mret (rc, PNull).

(** [kmem_cache_alloc], [alloc_reserved_percpu] and the like: an address, or
    none when the answer is 0. *)
Definition slab_alloc : wproc (option Z) :=
  rc ← kernel_call C_alloc;
  if rc =? 0 then mret None else a ← fresh_addr; mret (Some a).

(** A live socket behind a pointer. *)
Definition sock_addr (s : ptr) : wproc Z :=
  match s with
  | PNull => oops NullDeref
  | PErr _ => oops NullDeref
  | PObj a => _ ← kderef (λ w, socks w !! a) UseAfterFree; mret a
  end.

Definition sock_release (s : ptr) : wproc unit :=
  a ← sock_addr s;
  kmodify (upd_socks (delete a)) ;;
  kmodify (add_log (E_release a)).

Definition kernel_sock_shutdown (s : ptr) : wproc unit :=
  a ← sock_addr s;
  kmodify (upd_socks <[a := S_shut]>) ;;
  kmodify (add_log (E_shutdown a)).

(** [kernel_recvmsg]: at most [len] bytes of what arrived, or an error. *)
Definition kernel_recvmsg (s : ptr) (len : Z) : wproc (Z * list Z) :=
  _ ← sock_addr s;
  w ← kget;
  n ← kernel_call (C_recvmsg s len);
  if n <=? 0 then mret (n, [])
  else
    let bytes := take (Z.to_nat (Z.min n len)) (payload (tick w)) in
    kmodify (add_log (E_recv s bytes)) ;;
    mret (Z.of_nat (length bytes), bytes).

(** [kernel_recvmsg] with [MSG_WAITALL]: [len] bytes, less only if no more
    come, or an error; [payload] is all that comes until then. *)
Definition kernel_recvmsg_waitall (s : ptr) (len : Z) : wproc (Z * list Z) :=
  _ ← sock_addr s;
  w ← kget;
  n ← kernel_call (C_recvmsg s len);
  if n <=? 0 then mret (n, [])
  else
    let bytes := take (Z.to_nat len) (payload (tick w)) in
    kmodify (add_log (E_recv s bytes)) ;;
    mret (Z.of_nat (length bytes), bytes).

(** [kernel_sendmsg]: the number of bytes it took, or an error. *)
Definition kernel_sendmsg (s : ptr) (bytes : list Z) : wproc Z :=
  _ ← sock_addr s;
  n ← kernel_call (C_sendmsg s (Z.of_nat (length bytes)));
  if n <=? 0 then mret n
  else
    let taken := take (Z.to_nat n) bytes in
    kmodify (add_log (E_send s taken)) ;;
    mret (Z.of_nat (length taken)).

(** [kernel_getsockopt(SO_ORIGINAL_DST)] and [kernel_getpeername] *)
Definition kernel_query (c : kcall) (s : ptr) : wproc (Z * sockaddr_in) :=
  _ ← sock_addr s;
  w ← kget;
  rc ← kernel_call c;
  mret (rc, name (tick w)).

Definition kernel_setsockopt (s : ptr) (o : sockopt) (v : Z) : wproc Z :=
  _ ← sock_addr s; kernel_call (C_setsockopt s o v).
Definition kernel_bind (s : ptr) (port addr : Z) : wproc Z :=
  _ ← sock_addr s; kernel_call (C_bind s port addr).
Definition kernel_connect (s : ptr) (port addr : Z) : wproc Z :=
  _ ← sock_addr s; kernel_call (C_connect s port addr).
Definition kernel_listen (s : ptr) (backlog : Z) : wproc Z :=
  _ ← sock_addr s; kernel_call (C_listen s backlog).

(** [kthread_create] and [kthread_run]: the task, or an error pointer. *)
Definition kthread (f : thread_fn) (data : Z) : wproc ptr :=
  rc ← kernel_call (C_kthread f);
  if rc <? 0 then mret (PErr (- rc))
  else a ← fresh_addr; kmodify (add_log (E_kthread_run f data)) ;; mret (PObj a).

(** [kthread_stop]: the caller sleeps until the thread has returned. *)
Definition kthread_stop (t : ptr) (f : thread_fn) : wproc unit :=
  match t with
  | PObj _ => preempt ;; kmodify (add_log (E_kthread_stop f))
  | _ => oops NullDeref
  end.

(** [proc_mkdir_mode] and [proc_create]: a directory that could not be made is
    NULL, and NULL as a parent is /proc itself. *)
Definition proc_mkdir (dir : string) : wproc (option string) :=
  rc ← kernel_call (C_proc_mkdir dir); mret (if rc =? 0 then None else Some dir).
Definition proc_create (dir : option string) (file : string) : wproc bool :=
  rc ← kernel_call (C_proc_create dir file); mret (negb (rc =? 0)).

(** [nf_register_net_hooks] and its inverse. *)
Definition nf_register_net_hooks : wproc Z := kernel_call C_nf_register.
Definition nf_unregister_net_hooks : wproc unit := kmodify (add_log E_nf_unregister).

(** [kmem_cache_create]; no caller looks at the result. *)
Definition slab_create (slab : string) : wproc unit :=
  _ ← kernel_call (C_slab_create slab); mret tt.

(** A call of [kthread_pool_run] or [kthread_pool_run_cpu], as its caller sees
    it: the request.  Whether the pool has a thread for it, or answers
    [ERR_PTR(-ENOMEM)] and starts nothing, is told in [ThreadPool]; no caller
    looks at the result. *)
Definition pool_run (f : task_fn) (data : ptr) (arg : Z) (cpu : option Z) : wproc unit :=
  kmodify (add_log (E_pool_run f data arg cpu)).

Definition kthread_should_stop : wproc bool :=
  rc ← kernel_call C_should_stop; mret (negb (rc =? 0)).

(** ** Accesses to the shared objects *)

Definition load_qp (p : ptr) : wproc cbn_qp :=
  match p with
  | PObj a => kderef (λ w, qps w !! a) UseAfterFree
  | _ => oops NullDeref
  end.

Definition store_qp (p : ptr) (q : cbn_qp) : wproc unit :=
  match p with
  | PObj a => _ ← kderef (λ w, qps w !! a) UseAfterFree; kmodify (upd_qps <[a := q]>)
  | _ => oops NullDeref
  end.

Definition free_qp (p : ptr) : wproc unit :=
  match p with
  | PObj a =>
      _ ← kderef (λ w, qps w !! a) UseAfterFree;
      kmodify (upd_qps (delete a)) ;; kmodify (add_log (E_free_qp a))
  | _ => oops NullDeref
  end.

(** [kmem_cache_alloc(qp_slab)]: the object holds whatever it held. *)
Definition alloc_qp : wproc ptr :=
  w ← kget;
  o ← slab_alloc;
  match o with
  | None => mret PNull
  | Some a => kmodify (upd_qps <[a := garbage (tick w)]>) ;; mret (PObj a)
  end.

Definition load_listner (p : ptr) : wproc cbn_listner :=
  match p with
  | PObj a => kderef (λ w, listners w !! a) UseAfterFree
  | _ => oops NullDeref
  end.

Definition store_listner (p : ptr) (l : cbn_listner) : wproc unit :=
  match p with
  | PObj a => _ ← kderef (λ w, listners w !! a) UseAfterFree; kmodify (upd_listners <[a := l]>)
  | _ => oops NullDeref
  end.

Definition load_syn (p : ptr) : wproc addresses :=
  match p with
  | PObj a => kderef (λ w, syns w !! a) UseAfterFree
  | _ => oops NullDeref
  end.

Definition store_syn (p : ptr) (x : addresses) : wproc unit :=
  match p with
  | PObj a => _ ← kderef (λ w, syns w !! a) UseAfterFree; kmodify (upd_syns <[a := x]>)
  | _ => oops NullDeref
  end.

Definition free_syn (p : ptr) : wproc unit :=
  match p with
  | PObj a => _ ← kderef (λ w, syns w !! a) UseAfterFree; kmodify (upd_syns (delete a))
  | _ => oops NullDeref
  end.

Definition ptr_of (o : option Z) : ptr :=
  match o with Some a => PObj a | None => PNull end.

(** [qp_dir\[dir\]] read through a pointer. *)
Definition read_dir (p : ptr) (dir : Z) : wproc ptr := q ← load_qp p; mret (qp_dir q dir).
End services.

(** ** What the accesses do when they succeed *)

Section service_lemmas.
Context `{Env}.
Implicit Types w : world.

Lemma sock_release_ok w a st :
  socks w !! a = Some st →
  sock_release (PObj a) w = Ok (tt, add_log (E_release a) (upd_socks (delete a) w)).
Proof. intros Hs. unfold sock_release, sock_addr. kunfold. by rewrite Hs. Qed.

Lemma kernel_sock_shutdown_ok w a st :
  socks w !! a = Some st →
  kernel_sock_shutdown (PObj a) w = Ok (tt, add_log (E_shutdown a) (upd_socks <[a := S_shut]> w)).
Proof. intros Hs. unfold kernel_sock_shutdown, sock_addr. kunfold. by rewrite Hs. Qed.

Lemma load_qp_ok w a q : qps w !! a = Some q → load_qp (PObj a) w = Ok (q, w).
Proof. intros Hq. unfold load_qp, kderef. by rewrite Hq. Qed.

Lemma store_qp_ok w a q q' :
  qps w !! a = Some q → store_qp (PObj a) q' w = Ok (tt, upd_qps <[a := q']> w).
Proof. intros Hq. unfold store_qp. kunfold. by rewrite Hq. Qed.

Lemma free_qp_ok w a q :
  qps w !! a = Some q → free_qp (PObj a) w = Ok (tt, add_log (E_free_qp a) (upd_qps (delete a) w)).
Proof. intros Hq. unfold free_qp. kunfold. by rewrite Hq. Qed.

Lemma load_qp_dead w a : qps w !! a = None → load_qp (PObj a) w = Oops UseAfterFree.
Proof. intros Hq. unfold load_qp, kderef. by rewrite Hq. Qed.

Lemma load_listner_ok w a l : listners w !! a = Some l → load_listner (PObj a) w = Ok (l, w).
Proof. intros Hl. unfold load_listner, kderef. by rewrite Hl. Qed.

Lemma load_syn_ok w a x : syns w !! a = Some x → load_syn (PObj a) w = Ok (x, w).
Proof. intros Hx. unfold load_syn, kderef. by rewrite Hx. Qed.

Lemma read_dir_ok w a q dir :
  qps w !! a = Some q → read_dir (PObj a) dir w = Ok (qp_dir q dir, w).
Proof. intros Hq. unfold read_dir. by kstep (load_qp_ok w a q Hq). Qed.

Lemma store_syn_ok w a x x' :
  syns w !! a = Some x → store_syn (PObj a) x' w = Ok (tt, upd_syns <[a := x']> w).
Proof. intros Hx. unfold store_syn. kunfold. by rewrite Hx. Qed.

Lemma free_syn_ok w a x :
  syns w !! a = Some x → free_syn (PObj a) w = Ok (tt, upd_syns (delete a) w).
Proof. intros Hx. unfold free_syn. kunfold. by rewrite Hx. Qed.

Lemma store_listner_ok w a x x' :
  listners w !! a = Some x → store_listner (PObj a) x' w = Ok (tt, upd_listners <[a := x']> w).
Proof. intros Hx. unfold store_listner. kunfold. by rewrite Hx. Qed.

Lemma kernel_call_eq c w :
  kernel_call c w = Ok (answer (tick w), add_log (E_call c (answer (tick w))) (interfere w)).
Proof. done. Qed.

Lemma sock_addr_ok w a st : socks w !! a = Some st → sock_addr (PObj a) w = Ok (a, w).
Proof. intros Hs. unfold sock_addr. kunfold. by rewrite Hs. Qed.

Lemma sock_addr_inv p w a w' :
  sock_addr p w = Ok (a, w') → p = PObj a ∧ w' = w ∧ is_Some (socks w !! a).
Proof.
  destruct p as [| | b]; [done | done |]. unfold sock_addr. kunfold.
  destruct (socks w !! b) eqn:E; intros; simplify_eq. by rewrite E.
Qed.

(** A call on a live socket. *)
Lemma sock_call_ok w a st c :
  socks w !! a = Some st →
  (_ ← sock_addr (PObj a); kernel_call c) w
  = Ok (answer (tick w), add_log (E_call c (answer (tick w))) (interfere w)).
Proof. intros Hs. by kstep (sock_addr_ok w a st Hs). Qed.
End service_lemmas.

(** With nobody else running, only the clock moves. *)
Class Quiet `{Env} : Prop := quiet n w : others n w = w.

Lemma interfere_quiet `{Quiet} w : interfere w = set_tick (S (tick w)) w.
Proof. unfold interfere. rewrite quiet. destruct w. unfold set_tick. simpl. f_equal. apply Z.max_id. Qed.

(** The world after a call nobody interfered with. *)
Definition ticked `{Env} (c : kcall) (w : world) : world :=
  add_log (E_call c (answer (tick w))) (set_tick (S (tick w)) w).

Section quiet_lemmas.
Context `{Quiet}.
Implicit Types w : world.

Lemma kernel_call_quiet c w : kernel_call c w = Ok (answer (tick w), ticked c w).
Proof. unfold kernel_call. by rewrite interfere_quiet. Qed.

Lemma sock_call_quiet w a st c :
  socks w !! a = Some st → (_ ← sock_addr (PObj a); kernel_call c) w = Ok (answer (tick w), ticked c w).
Proof. intros Hs. kstep (sock_addr_ok w a st Hs). apply kernel_call_quiet. Qed.

Lemma setsockopt_quiet w a st o v :
  socks w !! a = Some st →
  kernel_setsockopt (PObj a) o v w = Ok (answer (tick w), ticked (C_setsockopt (PObj a) o v) w).
Proof. apply sock_call_quiet. Qed.

Lemma bind_quiet w a st port addr :
  socks w !! a = Some st →
  kernel_bind (PObj a) port addr w = Ok (answer (tick w), ticked (C_bind (PObj a) port addr) w).
Proof. apply sock_call_quiet. Qed.

Lemma connect_quiet w a st port addr :
  socks w !! a = Some st →
  kernel_connect (PObj a) port addr w = Ok (answer (tick w), ticked (C_connect (PObj a) port addr) w).
Proof. apply sock_call_quiet. Qed.

Lemma query_quiet w a st c :
  socks w !! a = Some st → kernel_query c (PObj a) w = Ok ((answer (tick w), name (tick w)), ticked c w).
Proof.
  intros Hs. unfold kernel_query. kstep (sock_addr_ok w a st Hs). kpure. by kstep (kernel_call_quiet c w).
Qed.

Lemma alloc_qp_quiet w :
  answer (tick w) ≠ 0 →
  alloc_qp w = Ok (PObj (next w),
    upd_qps <[next w := garbage (tick w)]> (set_next (next w + 1) (ticked C_alloc w))).
Proof.
  intros Ha. unfold alloc_qp, slab_alloc. kpure. kstep (kernel_call_quiet C_alloc w).
  apply Z.eqb_neq in Ha. rewrite Ha. rewrite kbind_assoc.
  by kstep (eq_refl (fresh_addr (ticked C_alloc w))).
Qed.

Lemma sock_create_quiet w :
  answer (tick w) = 0 →
  sock_create_kern w = Ok ((0, PObj (next w)),
    upd_socks <[next w := S_open]> (set_next (next w + 1) (ticked C_sock_create w))).
Proof.
  intros Ha. unfold sock_create_kern. kstep (kernel_call_quiet C_sock_create w). rewrite Ha.
  change (0 =? 0) with true. cbv iota. by kstep (eq_refl (fresh_addr (ticked C_sock_create w))).
Qed.

Lemma kthread_quiet f d w :
  0 ≤ answer (tick w) →
  kthread f d w = Ok (PObj (next w), add_log (E_kthread_run f d) (set_next (next w + 1) (ticked (C_kthread f) w))).
Proof.
  intros Ha. unfold kthread. kstep (kernel_call_quiet (C_kthread f) w). rewrite (proj2 (Z.ltb_ge _ _)) by done.
  by kstep (eq_refl (fresh_addr (ticked (C_kthread f) w))).
Qed.

Lemma kthread_stop_quiet a f w :
  kthread_stop (PObj a) f w = Ok (tt, add_log (E_kthread_stop f) (set_tick (S (tick w)) w)).
Proof. unfold kthread_stop, preempt. kpure. by rewrite interfere_quiet. Qed.

Lemma proc_mkdir_quiet dir w :
  proc_mkdir dir w = Ok (if answer (tick w) =? 0 then None else Some dir, ticked (C_proc_mkdir dir) w).
Proof. unfold proc_mkdir. by kstep (kernel_call_quiet (C_proc_mkdir dir) w). Qed.

Lemma proc_create_quiet dir file w :
  proc_create dir file w = Ok (negb (answer (tick w) =? 0), ticked (C_proc_create dir file) w).
Proof. unfold proc_create. by kstep (kernel_call_quiet (C_proc_create dir file) w). Qed.

Lemma slab_create_quiet slab w : slab_create slab w = Ok (tt, ticked (C_slab_create slab) w).
Proof. unfold slab_create. by kstep (kernel_call_quiet (C_slab_create slab) w). Qed.

Lemma sock_create_fails w :
  answer (tick w) ≠ 0 → sock_create_kern w = Ok ((answer (tick w), PNull), ticked C_sock_create w).
Proof.
  intros Ha. unfold sock_create_kern. kstep (kernel_call_quiet C_sock_create w).
  apply Z.eqb_neq in Ha. by rewrite Ha.
Qed.
End quiet_lemmas.

(** ** What the halves of a connection leave alone *)

(** The shared state they do not use. *)
Definition rest (w : world) :=
  (listner_root w, probes w, preconns w, preconn_root w, pcp_lists w, ip_transparent w, pre_conn_listner w, is_zcopy w).

(** Nobody woken. *)
Definition same_wakes (w w' : world) : Prop := ∀ y, wakes y (log w') = wakes y (log w).

#[export] Instance same_wakes_refl : Reflexive same_wakes.
Proof. by intros w y. Qed.

#[export] Instance same_wakes_trans : Transitive same_wakes.
Proof. intros w1 w2 w3 H1 H2 y. by rewrite H2, H1. Qed.

(** ** A concrete environment

    Nobody else runs, recycled memory is zero; the answers, the bytes received
    and the names of sockets are given. *)

Definition no_addr : sockaddr_in := {| sin_family := 0; sin_port := 0; s_addr := 0 |}.
Definition no_addresses : addresses := {| dest := no_addr; src := no_addr; sin_addr := 0; mark := 0 |}.

Definition calm (ans : nat → Z) (pay : nat → list Z) (nm : nat → sockaddr_in) : Env := {|
  answer := ans;
  payload := pay;
  name := nm;
  garbage _ := MkQp (replicate 12 0) 0 PNull PNull PNull;
  garbage_syn _ := no_addresses;
  garbage_listner _ := MkListner 0 0 0 PNull PNull;
  stale _ := 0;
  others _ w := w;
  num_online_cpus := 4;
  possible_cpus := [0; 1; 2; 3];
|}.

Lemma calm_quiet ans pay nm : @Quiet (calm ans pay nm).
Proof. by intros n w. Qed.

(** The same answer to every call. *)
Definition always (z : Z) : Env := calm (λ _, z) (λ _, []) (λ _, no_addr).

(** The first object address not in use is [n]. *)
Definition empty_world (n : Z) : world := MkWorld 0 n ∅ ∅ Leaf ∅ ∅ ∅ ∅ Leaf ∅ ∅ 1 PNull 0 [].
