(* ===== verification/Qp.v ===== *)
(** * QP pairing: reference count, tree, wake-up (qp.c, split.c)

    A QP joins the two halves of one split connection.  The half that arrives
    first puts its QP in the tree of pending connections of its core; the half
    that arrives second finds it there and stores its socket in it; each half
    takes a reference, the second reference removes the QP from the tree, and
    the last put releases both sockets and frees the QP. *)

From stdpp Require Import base list gmap sets.
From Stdlib Require Import ZArith Lia.
From S2P Require Import Prelude RbTree Keys DataTree World.

Definition QP_TO : Z := 90.
Definition ERESTARTSYS : Z := 512.

Section qp.
Context `{Env} `{RbLib Z}.

(** The key of a tree node. *)
Definition node_key (w : world) (a : Z) : list Z := from_option q_key [] (qps w !! a).

(** [per_cpu_ptr(listner->connections_root, cpu)] *)
Definition load_root (l : ptr) (cpu : Z) : wproc (tree Z) :=
  _ ← load_listner l;
  match l with
  | PObj a => kderef (λ w, roots w !! (a, cpu)) NullDeref
  | _ => oops NullDeref
  end.

Definition store_root (l : ptr) (cpu : Z) (t : tree Z) : wproc unit :=
  match l with
  | PObj a => kmodify (upd_roots <[(a, cpu) := t]>)
  | _ => oops NullDeref
  end.

(** [de_tree_qp]; [rb_erase] on a node that is not in the tree corrupts it. *)
Definition erase_qp (qp l : ptr) (cpu : Z) : wproc unit :=
  root ← load_root l cpu;
  match qp with
  | PObj a =>
      if decide (a ∈ inorder root) then store_root l cpu (de_tree_qp a root)
      else oops ListCorrupt
  | _ => oops NullDeref
  end.

(** qp.c *)

Definition fin_connected_qp (cpu : Z) (qp : ptr) : wproc unit :=
  q ← load_qp qp;
  if decide (q_listner q = PNull) then mret tt
  else erase_qp qp (q_listner q) cpu.

(** [atomic_inc_return(&qp->ref_cnt)] *)
Definition inc_ref (qp : ptr) : wproc Z :=
  q ← load_qp qp;
  let rc := s32 (ref_cnt q + 1) in
  store_qp qp (set_ref rc q) ;;
  mret rc.

Definition get_qp (cpu : Z) (qp : ptr) : wproc unit :=
  rc ← inc_ref qp;
  if rc =? 2 then fin_connected_qp cpu qp
  else mret tt.

Definition put_qp (qp : ptr) : wproc Z :=
  q ← load_qp qp;
  let rc := s32 (ref_cnt q - 1) in
  store_qp qp (set_ref rc q) ;;
  (if rc =? 0 then
     (if IS_ERR_OR_NULL (q_tx q) then mret tt else sock_release (q_tx q)) ;;
     (if IS_ERR_OR_NULL (q_rx q) then mret tt else sock_release (q_rx q)) ;;
     free_qp qp ;;
     match qp with PObj a => kmodify (add_log (E_unlock_freed a)) | _ => mret tt end
   else
     (if IS_ERR_OR_NULL (q_tx q) then mret tt else kernel_sock_shutdown (q_tx q)) ;;
     (if IS_ERR_OR_NULL (q_rx q) then mret tt else kernel_sock_shutdown (q_rx q))) ;;
  mret (u32 rc).

(** split.c *)

(** [add_rb_data] on the tree of the core, under its lock: the QP that is
    there already, if one is. *)
Definition qp_insert (cpu : Z) (pqp : ptr) : wproc (option Z) :=
  pq ← load_qp pqp;
  root ← load_root (q_listner pq) cpu;
  w ← kget;
  match pqp with
  | PObj data =>
      let result this := strncmp (node_key w data) (node_key w this) RB_KEY_LENGTH in
      if forallb (λ this, bool_decide (is_Some (qps w !! this))) (rb_path result root) then
        let '(found, root') := add_rb_data (node_key w) root data in
        store_root (q_listner pq) cpu root' ;;
        mret found
      else oops UseAfterFree
  | _ => oops NullDeref
  end.

(** The other half was first: our socket goes into its QP, and ours is freed. *)
Definition qp_adopt (pqp qp : ptr) (dir : Z) : wproc unit :=
  pq ← load_qp pqp;
  q ← load_qp qp;
  store_qp qp (set_qp_dir dir (qp_dir pq dir) q) ;;
  free_qp pqp.

(** NULL for a double SYN, else the QP the half goes on with. *)
Definition qp_exists (cpu : Z) (pqp : ptr) (dir : Z) : wproc ptr :=
  found ← qp_insert cpu pqp;
  match found with
  | Some this =>
      q ← load_qp (PObj this);
      if decide (qp_dir q dir ≠ PNull) then mret PNull
      else
        qp_adopt pqp (PObj this) dir ;;
        mret (PObj this)
  | None => mret pqp
  end.

(** [schedule_timeout] in the wait, and the look at the condition after it: the
    other threads run; positive when the peer's socket is there, 0 on a timeout,
    [-ERESTARTSYS] on a signal. *)
Definition wait_sleep (qp : ptr) (dir : Z) : wproc Z :=
  rc ← kernel_call C_wait;
  peer ← read_dir qp (Z.lxor dir 1);
  mret (if negb (IS_ERR_OR_NULL peer) then Z.max 1 rc
        else if rc <? 0 then - ERESTARTSYS else 0).

(** [wait_event_interruptible_timeout] on the peer's socket: it looks, puts
    itself on the queue, looks again, and sleeps; positive when it need not. *)
Definition wait_peer (qp : ptr) (dir : Z) : wproc Z :=
  peer ← read_dir qp (Z.lxor dir 1);
  if negb (IS_ERR_OR_NULL peer) then mret 1
  else
    peer ← read_dir qp (Z.lxor dir 1);
    if negb (IS_ERR_OR_NULL peer) then mret 1
    else wait_sleep qp dir.

(** [wake_up(&qp->wait)] *)
Definition wake_up_qp (qp : ptr) : wproc unit :=
  match qp with PObj a => kmodify (add_log (E_wake a)) | _ => oops NullDeref end.

(** What a half does when its peer has not come in time; the peer may still
    come between the wait and this. *)
Definition wait_timeout (cpu : Z) (qp : ptr) : wproc unit :=
  preempt ;;
  q ← load_qp qp;
  (if decide (q_listner q = PNull) then mret tt else erase_qp qp (q_listner q) cpu) ;;
  _ ← put_qp qp;
  mret tt.

Definition wait_qp_ready (cpu : Z) (qp : ptr) (dir : Z) : wproc Z :=
  peer ← read_dir qp (Z.lxor dir 1);
  if IS_ERR_OR_NULL peer then
    get_qp cpu qp ;;
    rc ← wait_peer qp dir;
    if rc =? 0 then wait_timeout cpu qp ;; mret 1
    else mret 0
  else
    get_qp cpu qp ;;
    wake_up_qp qp ;;
    mret 0.
End qp.

Section qp_lemmas.
Context `{Env} `{RbLaws Z}.
Implicit Types w : world.

(** A QP on its way from pairing to teardown: both sockets open. *)
Definition qp_connected w a (q : cbn_qp) (tx rx : Z) : Prop :=
  qps w !! a = Some q ∧ q_tx q = PObj tx ∧ q_rx q = PObj rx ∧ tx ≠ rx ∧
  is_Some (socks w !! tx) ∧ is_Some (socks w !! rx).

(** The first of two puts shuts both sockets down and keeps the QP. *)
Lemma put_qp_first w a q tx rx :
  qp_connected w a q tx rx → ref_cnt q = 2 →
  ∃ w', put_qp (PObj a) w = Ok (1, w') ∧
    qps w' = <[a := set_ref 1 q]> (qps w) ∧
    socks w' = <[rx := S_shut]> (<[tx := S_shut]> (socks w)) ∧
    log w' = E_shutdown rx :: E_shutdown tx :: log w.
Proof.
  intros (Hq & Ht & Hr & Hne & [st Hst] & [sr Hsr]) Href. unfold put_qp.
  kstep (load_qp_ok w a q Hq). rewrite Href. change (s32 (2 - 1)) with 1. cbv zeta.
  kstep (store_qp_ok w a q (set_ref 1 q) Hq). change (1 =? 0) with false. cbv iota.
  rewrite Ht, Hr. simpl IS_ERR_OR_NULL. cbv iota. kpure.
  set (w1 := upd_qps _ w).
  kstep (kernel_sock_shutdown_ok w1 tx st Hst).
  assert (Hsr' : ∃ s, socks (add_log (E_shutdown tx) (upd_socks <[tx := S_shut]> w1)) !! rx = Some s).
  { simpl. rewrite lookup_insert_ne by done. eauto. }
  destruct Hsr' as [s Hs]. kstep (kernel_sock_shutdown_ok _ rx s Hs).
  eexists. split; [reflexivity |]. done.
Qed.

(** The last put releases each socket once and frees the QP -- and then
    unlocks the lock inside the freed QP. *)
Lemma put_qp_last w a q tx rx :
  qp_connected w a q tx rx → ref_cnt q = 1 →
  ∃ w', put_qp (PObj a) w = Ok (0, w') ∧
    qps w' = delete a (qps w) ∧ socks w' = delete rx (delete tx (socks w)) ∧
    log w' = E_unlock_freed a :: E_free_qp a :: E_release rx :: E_release tx :: log w.
Proof.
  intros (Hq & Ht & Hr & Hne & [st Hst] & [sr Hsr]) Href. unfold put_qp.
  kstep (load_qp_ok w a q Hq). rewrite Href. change (s32 (1 - 1)) with 0. cbv zeta.
  kstep (store_qp_ok w a q (set_ref 0 q) Hq). change (0 =? 0) with true. cbv iota.
  rewrite Ht, Hr. simpl IS_ERR_OR_NULL. cbv iota. kpure.
  set (w1 := upd_qps _ w).
  kstep (sock_release_ok w1 tx st Hst). kpure.
  set (w2 := add_log _ (upd_socks (delete tx) w1)).
  assert (Hs : socks w2 !! rx = Some sr) by (simpl; by rewrite lookup_delete_ne).
  kstep (sock_release_ok w2 rx sr Hs). kpure.
  set (w3 := add_log _ (upd_socks (delete rx) w2)).
  assert (Hq3 : qps w3 !! a = Some (set_ref 0 q)) by (simpl; by rewrite lookup_insert_eq).
  kstep (free_qp_ok w3 a _ Hq3). kpure.
  eexists. split; [reflexivity |]. split_and!; [| done | done].
  simpl. by rewrite delete_insert_eq.
Qed.

(** C30. The two halves leave: the first put shuts both sockets down, the
    second releases each of them once and frees the QP -- and then unlocks the
    lock that was inside it. *)
Theorem put_qp_twice w a q tx rx :
  qp_connected w a q tx rx → ref_cnt q = 2 →
  ∃ w1 w2, put_qp (PObj a) w = Ok (1, w1) ∧ put_qp (PObj a) w1 = Ok (0, w2) ∧
    socks w1 = <[rx := S_shut]> (<[tx := S_shut]> (socks w)) ∧
    qps w2 = delete a (qps w) ∧ socks w2 = delete rx (delete tx (socks w)) ∧
    log w2 = E_unlock_freed a :: E_free_qp a :: E_release rx :: E_release tx
      :: E_shutdown rx :: E_shutdown tx :: log w.
Proof.
  intros Hc Href. destruct (put_qp_first w a q tx rx Hc Href) as (w1 & H1' & Eq & Es & El).
  destruct Hc as (Hq & Ht & Hr & Hne & Hst & Hsr).
  destruct (put_qp_last w1 a (set_ref 1 q) tx rx) as (w2 & H2' & Eq2 & Es2 & El2); [| done |].
  { split_and!; try done; [by rewrite Eq, lookup_insert_eq | |]; rewrite Es.
    - rewrite lookup_insert_ne, lookup_insert_eq by done. by eexists.
    - rewrite lookup_insert_eq. by eexists. }
  exists w1, w2. split_and!; try done.
  - by rewrite Eq2, Eq, delete_insert_eq.
  - rewrite Es2, Es. rewrite delete_insert_ne by done. by rewrite !delete_insert_eq.
  - by rewrite El2, El.
Qed.

(** A listener with a tree on the running core. *)
Definition has_root w (l : Z) (cpu : Z) (t : tree Z) : Prop :=
  is_Some (listners w !! l) ∧ roots w !! (l, cpu) = Some t.

Lemma load_root_ok w l cpu t :
  has_root w l cpu t → load_root (PObj l) cpu w = Ok (t, w).
Proof.
  intros [[x Hl] Hr]. unfold load_root. kstep (load_listner_ok w l x Hl). unfold kderef. by rewrite Hr.
Qed.

Lemma erase_qp_ok w a l cpu t :
  has_root w l cpu t → a ∈ inorder t →
  erase_qp (PObj a) (PObj l) cpu w = Ok (tt, upd_roots <[(l, cpu) := de_tree_qp a t]> w).
Proof.
  intros Hr Ha. unfold erase_qp. kstep (load_root_ok w l cpu t Hr). by rewrite decide_True.
Qed.

Lemma inc_ref_ok w a q :
  qps w !! a = Some q →
  inc_ref (PObj a) w = Ok (s32 (ref_cnt q + 1), upd_qps <[a := set_ref (s32 (ref_cnt q + 1)) q]> w).
Proof.
  intros Hq. unfold inc_ref. kstep (load_qp_ok w a q Hq). cbv zeta. by kstep (store_qp_ok w a q (set_ref (s32 (ref_cnt q + 1)) q) Hq).
Qed.

Lemma fin_connected_qp_ok w a q l cpu t :
  qps w !! a = Some q → q_listner q = PObj l → has_root w l cpu t → a ∈ inorder t →
  fin_connected_qp cpu (PObj a) w = Ok (tt, upd_roots <[(l, cpu) := de_tree_qp a t]> w).
Proof.
  intros Hq Hl Hr Ha. unfold fin_connected_qp. kstep (load_qp_ok w a q Hq). rewrite Hl.
  rewrite decide_False by done. by apply erase_qp_ok.
Qed.

(** The first reference only counts. *)
Lemma get_qp_first w a q cpu :
  qps w !! a = Some q → ref_cnt q = 0 →
  get_qp cpu (PObj a) w = Ok (tt, upd_qps <[a := set_ref 1 q]> w).
Proof.
  intros Hq Href. unfold get_qp. kstep (inc_ref_ok w a q Hq). by rewrite Href.
Qed.

(** The second reference takes the QP out of the tree of pending
    connections. *)
Lemma get_qp_second w a q l cpu t :
  qps w !! a = Some q → ref_cnt q = 1 → q_listner q = PObj l → has_root w l cpu t → a ∈ inorder t →
  get_qp cpu (PObj a) w = Ok (tt, upd_roots <[(l, cpu) := de_tree_qp a t]> (upd_qps <[a := set_ref 2 q]> w)).
Proof.
  intros Hq Href Hl Hr Ha. unfold get_qp. kstep (inc_ref_ok w a q Hq). rewrite Href.
  change (s32 (1 + 1)) with 2. change (2 =? 2) with true. cbv iota. set (w1 := upd_qps _ w).
  assert (Hq1 : qps w1 !! a = Some (set_ref 2 q)) by (simpl; by rewrite lookup_insert_eq).
  by apply (fin_connected_qp_ok w1 a _ l cpu t Hq1).
Qed.

(** Every node of the tree is a live QP with a 12-byte key, in key order. *)
Definition root_ok w (t : tree Z) : Prop :=
  qp_ordered (node_key w) t ∧ ∀ x, x ∈ inorder t → is_Some (qps w !! x).

Lemma root_ok_live w t result :
  root_ok w t → forallb (λ this, bool_decide (is_Some (qps w !! this))) (rb_path result t) = true.
Proof.
  intros [_ Hl]. apply forallb_forall. intros x Hx. apply bool_decide_eq_true_2, Hl.
  apply (rb_path_subset result), list_elem_of_In, Hx.
Qed.

Lemma root_ok_ext w w' t :
  (∀ x, x ∈ inorder t → is_Some (qps w' !! x) ∧ node_key w' x = node_key w x) →
  root_ok w t → root_ok w' t.
Proof.
  intros Hx [Ho Hl]. split; [| intros x Hin; by apply Hx].
  eapply ordered_ext; [| exact Ho]. intros x Hin. symmetry. by apply Hx.
Qed.

(** A half with a QP [pq] of its own at [a], not yet in the tree. *)
Definition qp_fresh w a (pq : cbn_qp) l cpu t : Prop :=
  qps w !! a = Some pq ∧ q_listner pq = PObj l ∧ has_root w l cpu t ∧ root_ok w t ∧
  good_key (q_key pq) ∧ a ∉ inorder t.

(** The pending QPs of the tree with the C string of a key. *)
Definition same_cstr w y (k : list Z) : Prop :=
  cstr (node_key w y) RB_KEY_LENGTH = cstr k RB_KEY_LENGTH.

(** No pending QP with this C string: ours is inserted. *)
Lemma qp_insert_new w cpu a pq l t :
  qp_fresh w a pq l cpu t → (∀ y, y ∈ inorder t → ¬ same_cstr w y (q_key pq)) →
  ∃ t', qp_insert cpu (PObj a) w = Ok (None, upd_roots <[(l, cpu) := t']> w) ∧
    inorder t' ≡ₚ a :: inorder t ∧ root_ok w t'.
Proof.
  intros (Hq & Hl & Hr & Hok & Hg & Hna) Hne.
  assert (Ek : node_key w a = q_key pq) by (unfold node_key; by rewrite Hq).
  destruct (add_rb_data_new (node_key w) t a (proj1 Hok)) as (t' & Hadd & Ho' & Hp);
    [by rewrite Ek | intros y Hy; rewrite Ek; by apply Hne |].
  exists t'. split_and!; [| done |].
  - unfold qp_insert. kstep (load_qp_ok w a pq Hq). rewrite Hl.
    kstep (load_root_ok w l cpu t Hr). kpure. cbv zeta. by rewrite root_ok_live, Hadd.
  - split; [done |]. intros x. rewrite Hp, elem_of_cons. intros [-> | Hx]; [by exists pq | by apply Hok].
Qed.

(** One with it is found. *)
Lemma qp_insert_found w cpu a pq l t b :
  qp_fresh w a pq l cpu t → b ∈ inorder t → same_cstr w b (q_key pq) →
  qp_insert cpu (PObj a) w = Ok (Some b, upd_roots <[(l, cpu) := t]> w).
Proof.
  intros (Hq & Hl & Hr & Hok & Hg & Hna) Hb Hcs.
  assert (Ek : node_key w a = q_key pq) by (unfold node_key; by rewrite Hq).
  assert (Hadd : add_rb_data (node_key w) t a = (Some b, t))
    by (apply add_rb_data_found; [apply Hok | by rewrite Ek | done | by rewrite Ek]).
  unfold qp_insert. kstep (load_qp_ok w a pq Hq). rewrite Hl.
  kstep (load_root_ok w l cpu t Hr). kpure. cbv zeta. by rewrite root_ok_live, Hadd by done.
Qed.

Lemma qp_adopt_ok w a b pq q dir :
  qps w !! a = Some pq → qps w !! b = Some q → a ≠ b →
  qp_adopt (PObj a) (PObj b) dir w = Ok (tt, add_log (E_free_qp a) (upd_qps (delete a)
    (upd_qps <[b := set_qp_dir dir (qp_dir pq dir) q]> w))).
Proof.
  intros Hq Hqb Hab. unfold qp_adopt. kstep (load_qp_ok w a pq Hq). kstep (load_qp_ok w b q Hqb).
  kstep (store_qp_ok w b q (set_qp_dir dir (qp_dir pq dir) q) Hqb). set (w2 := upd_qps _ w).
  assert (Hqa : qps w2 !! a = Some pq) by (simpl; by rewrite lookup_insert_ne).
  by rewrite (free_qp_ok w2 a pq Hqa).
Qed.

Lemma qp_exists_new w cpu a pq l t dir :
  qp_fresh w a pq l cpu t → (∀ y, y ∈ inorder t → ¬ same_cstr w y (q_key pq)) →
  ∃ t', qp_exists cpu (PObj a) dir w = Ok (PObj a, upd_roots <[(l, cpu) := t']> w) ∧
    inorder t' ≡ₚ a :: inorder t ∧ root_ok w t'.
Proof.
  intros Hf Hne. destruct (qp_insert_new w cpu a pq l t Hf Hne) as (t' & Hi & Hp & Hok).
  exists t'. split_and!; [| done | done]. unfold qp_exists. by kstep Hi.
Qed.

(** A pending QP without a socket on our side takes ours; our QP is freed. *)
Lemma qp_exists_join w cpu a pq l t dir b q :
  qp_fresh w a pq l cpu t → b ∈ inorder t → qps w !! b = Some q → same_cstr w b (q_key pq) →
  qp_dir q dir = PNull →
  qp_exists cpu (PObj a) dir w = Ok (PObj b, add_log (E_free_qp a) (upd_qps (delete a)
    (upd_qps <[b := set_qp_dir dir (qp_dir pq dir) q]> (upd_roots <[(l, cpu) := t]> w)))).
Proof.
  intros Hf Hb Hqb Hcs Hd. unfold qp_exists. kstep (qp_insert_found w cpu a pq l t b Hf Hb Hcs).
  set (w1 := upd_roots _ w). kstep (load_qp_ok w1 b q Hqb). rewrite decide_False by tauto.
  destruct Hf as (Hq & _ & _ & _ & _ & Hna). assert (Hab : a ≠ b) by (by intros ->).
  by kstep (qp_adopt_ok w1 a b pq q dir Hq Hqb Hab).
Qed.

(** A pending QP whose side is taken, a double SYN: no QP, and ours is left
    where it is. *)
Lemma qp_exists_taken w cpu a pq l t dir b q :
  qp_fresh w a pq l cpu t → b ∈ inorder t → qps w !! b = Some q → same_cstr w b (q_key pq) →
  qp_dir q dir ≠ PNull →
  qp_exists cpu (PObj a) dir w = Ok (PNull, upd_roots <[(l, cpu) := t]> w).
Proof.
  intros Hf Hb Hqb Hcs Hd. unfold qp_exists. kstep (qp_insert_found w cpu a pq l t b Hf Hb Hcs).
  set (w1 := upd_roots _ w). kstep (load_qp_ok w1 b q Hqb). by rewrite decide_True.
Qed.

(** Two halves with one key on one core meet in one QP: the first inserts
    its own, the second is given the first's, its socket stored there, and its
    own QP is freed. *)
Lemma halves_meet w cpu a b qa qb l t dir :
  qp_fresh w a qa l cpu t → qp_fresh w b qb l cpu t → a ≠ b → q_key qb = q_key qa →
  qp_dir qa dir = PNull → (∀ y, y ∈ inorder t → ¬ same_cstr w y (q_key qa)) →
  ∃ w1 w2, qp_exists cpu (PObj a) (Z.lxor dir 1) w = Ok (PObj a, w1) ∧
    qp_exists cpu (PObj b) dir w1 = Ok (PObj a, w2) ∧
    qps w2 = delete b (<[a := set_qp_dir dir (qp_dir qb dir) qa]> (qps w)) ∧
    ∃ t', has_root w2 l cpu t' ∧ inorder t' ≡ₚ a :: inorder t.
Proof.
  intros Ha Hb Hab Hk Hd Hne.
  destruct (qp_exists_new w cpu a qa l t (Z.lxor dir 1) Ha Hne) as (t' & Hrun & Hp & Hok').
  set (w1 := upd_roots <[(l, cpu) := t']> w) in *.
  destruct Ha as (Hqa & Hla & Hra & _). destruct Hb as (Hqb & Hlb & _ & _ & Hgb & Hnb).
  assert (Hb1 : qp_fresh w1 b qb l cpu t').
  { split_and!; try done; [split; [apply Hra | simpl; by rewrite lookup_insert_eq] |].
    rewrite Hp, elem_of_cons. by intros [-> |]. }
  assert (Hcs : same_cstr w1 a (q_key qb)) by (unfold same_cstr, node_key; simpl; by rewrite Hqa, Hk).
  assert (Hin : a ∈ inorder t') by (rewrite Hp; by left).
  eexists w1, _. split_and!; [exact Hrun | exact (qp_exists_join w1 cpu b qb l t' dir a qa Hb1 Hin Hqa Hcs Hd) | done |].
  exists t'. split; [| done]. split; [apply Hra |]. simpl. by rewrite lookup_insert_eq.
Qed.

(** Without a listener for the tenant the half dereferences NULL. *)
Lemma qp_exists_no_listner w cpu a pq dir :
  qps w !! a = Some pq → q_listner pq = PNull → qp_exists cpu (PObj a) dir w = Oops NullDeref.
Proof.
  intros Hq Hl. unfold qp_exists, qp_insert. rewrite !kbind_assoc. kstep (load_qp_ok w a pq Hq). by rewrite Hl.
Qed.
(** ** wait_qp_ready *)

(** A direction of a QP. *)
Definition is_dir (dir : Z) : Prop := dir = TX_QP ∨ dir = RX_QP.

(** A QP in the tree of the running core, with one side's socket. *)
Definition qp_half w a (q : cbn_qp) l cpu t dir s : Prop :=
  qps w !! a = Some q ∧ q_listner q = PObj l ∧ has_root w l cpu t ∧ a ∈ inorder t ∧
  qp_dir q dir = PObj s ∧ is_Some (socks w !! s).

(** Both sockets are there: the second half takes the QP out of the tree and
    wakes the first. *)
Lemma wait_qp_ready_peer w a q l cpu t dir s peer :
  qp_half w a q l cpu t dir s → ref_cnt q = 1 → qp_dir q (Z.lxor dir 1) = PObj peer →
  wait_qp_ready cpu (PObj a) dir w =
    Ok (0, add_log (E_wake a) (upd_roots <[(l, cpu) := de_tree_qp a t]> (upd_qps <[a := set_ref 2 q]> w))).
Proof.
  intros (Hq & Hl & Hr & Ha & _) Href Hp. unfold wait_qp_ready.
  kstep (read_dir_ok w a q (Z.lxor dir 1) Hq). rewrite Hp. cbn [IS_ERR_OR_NULL].
  by kstep (get_qp_second w a q l cpu t Hq Href Hl Hr Ha).
Qed.

(** The state in which a lone half waits. *)
Lemma wait_peer_quiet `{!Quiet} w a q dir :
  qps w !! a = Some q → IS_ERR_OR_NULL (qp_dir q (Z.lxor dir 1)) = true →
  wait_peer (PObj a) dir w =
    Ok (if answer (tick w) <? 0 then - ERESTARTSYS else 0,
        add_log (E_call C_wait (answer (tick w))) (set_tick (S (tick w)) w)).
Proof.
  intros Hq Hp. unfold wait_peer. kstep (read_dir_ok w a q (Z.lxor dir 1) Hq). rewrite Hp. cbn [negb].
  kstep (read_dir_ok w a q (Z.lxor dir 1) Hq). rewrite Hp. cbn [negb].
  unfold wait_sleep. kstep (kernel_call_eq C_wait w). rewrite interfere_quiet.
  set (w1 := add_log _ _). assert (Hq1 : qps w1 !! a = Some q) by done.
  kstep (read_dir_ok w1 a q (Z.lxor dir 1) Hq1). by rewrite Hp.
Qed.

(** Dropping the only reference releases the only socket. *)
Lemma put_qp_alone w a q dir s :
  qps w !! a = Some q → ref_cnt q = 1 → is_dir dir → qp_dir q dir = PObj s → is_Some (socks w !! s) →
  IS_ERR_OR_NULL (qp_dir q (Z.lxor dir 1)) = true →
  put_qp (PObj a) w = Ok (0, add_log (E_unlock_freed a) (add_log (E_free_qp a)
    (upd_qps (delete a) (add_log (E_release s) (upd_socks (delete s) (upd_qps <[a := set_ref 0 q]> w)))))).
Proof.
  intros Hq Href Hdir Hs [st Hst] Hp. unfold put_qp.
  kstep (load_qp_ok w a q Hq). rewrite Href. change (s32 (1 - 1)) with 0. cbv zeta.
  kstep (store_qp_ok w a q (set_ref 0 q) Hq). change (0 =? 0) with true. cbv iota.
  set (w1 := upd_qps _ w). assert (Hst1 : socks w1 !! s = Some st) by done.
  assert (Hq1 : qps (add_log (E_release s) (upd_socks (delete s) w1)) !! a = Some (set_ref 0 q))
    by (simpl; by rewrite lookup_insert_eq).
  destruct Hdir as [-> | ->];
    [change (q_tx q = PObj s) in Hs; change (IS_ERR_OR_NULL (q_rx q) = true) in Hp
    | change (q_rx q = PObj s) in Hs; change (IS_ERR_OR_NULL (q_tx q) = true) in Hp];
    rewrite Hs, Hp; cbn [IS_ERR_OR_NULL]; kpure;
    kstep (sock_release_ok w1 s st Hst1); kpure; by kstep (free_qp_ok _ a _ Hq1).
Qed.

(** No peer within the timeout: the QP leaves the tree, its socket is
    released, the QP freed, and the caller is told. *)
Lemma wait_qp_ready_timeout `{!Quiet} w a q l cpu t dir s :
  qp_half w a q l cpu t dir s → is_dir dir → ref_cnt q = 0 →
  IS_ERR_OR_NULL (qp_dir q (Z.lxor dir 1)) = true → answer (tick w) = 0 →
  ∃ w', wait_qp_ready cpu (PObj a) dir w = Ok (1, w') ∧
    qps w' = delete a (qps w) ∧ socks w' = delete s (socks w) ∧
    roots w' = <[(l, cpu) := de_tree_qp a t]> (roots w).
Proof.
  intros (Hq & Hl & Hr & Ha & Hs & Hst) Hdir Href Hp Hans. unfold wait_qp_ready.
  kstep (read_dir_ok w a q (Z.lxor dir 1) Hq). rewrite Hp. cbv iota.
  kstep (get_qp_first w a q cpu Hq Href). set (w1 := upd_qps _ w).
  assert (Hq1 : qps w1 !! a = Some (set_ref 1 q)) by (simpl; by rewrite lookup_insert_eq).
  kstep (wait_peer_quiet w1 a _ dir Hq1 Hp). change (tick w1) with (tick w). rewrite Hans.
  change (0 <? 0) with false. cbv iota. change (0 =? 0) with true. cbv iota.
  unfold wait_timeout, preempt. kpure. rewrite interfere_quiet. set (w2 := set_tick _ _).
  assert (Hq2 : qps w2 !! a = Some (set_ref 1 q)) by done.
  kstep (load_qp_ok w2 a _ Hq2). change (q_listner (set_ref 1 q)) with (q_listner q). rewrite Hl.
  rewrite decide_False by done. kpure.
  assert (Hr2 : has_root w2 l cpu t) by done. kstep (erase_qp_ok w2 a l cpu t Hr2 Ha). kpure.
  set (w3 := upd_roots _ w2).
  assert (Hst3 : is_Some (socks w3 !! s)) by done.
  kstep (put_qp_alone w3 a (set_ref 1 q) dir s Hq2 eq_refl Hdir Hs Hst3 Hp).
  eexists. split; [reflexivity |]. split_and!; try done.
  simpl. by rewrite !delete_insert_eq.
Qed.

(** A signal ends the wait early, and the half goes on as if its peer were
    there: the QP stays in the tree with one reference. *)
Lemma wait_qp_ready_signal `{!Quiet} w a q cpu dir :
  qps w !! a = Some q → ref_cnt q = 0 →
  IS_ERR_OR_NULL (qp_dir q (Z.lxor dir 1)) = true → answer (tick w) < 0 →
  ∃ w', wait_qp_ready cpu (PObj a) dir w = Ok (0, w') ∧
    qps w' = <[a := set_ref 1 q]> (qps w) ∧ roots w' = roots w.
Proof.
  intros Hq Href Hp Hans. unfold wait_qp_ready.
  kstep (read_dir_ok w a q (Z.lxor dir 1) Hq). rewrite Hp. cbv iota.
  kstep (get_qp_first w a q cpu Hq Href). set (w1 := upd_qps _ w).
  assert (Hq1 : qps w1 !! a = Some (set_ref 1 q)) by (simpl; by rewrite lookup_insert_eq).
  kstep (wait_peer_quiet w1 a _ dir Hq1 Hp). change (tick w1) with (tick w).
  apply Z.ltb_lt in Hans. rewrite Hans. eexists. split; [reflexivity |]. done.
Qed.

(** The peer that connects between the end of the wait and the clean-up
    has taken the QP out of the tree already: it is erased twice. *)
Lemma wait_timeout_race w a q l cpu t :
  qps (interfere w) !! a = Some q → q_listner q = PObj l → has_root (interfere w) l cpu t →
  a ∉ inorder t → wait_timeout cpu (PObj a) w = Oops ListCorrupt.
Proof.
  intros Hq Hl Hr Ha. unfold wait_timeout, preempt. kpure.
  kstep (load_qp_ok _ a q Hq). rewrite Hl. rewrite decide_False by done.
  unfold mbind, kproc_bind. unfold erase_qp. kstep (load_root_ok _ l cpu t Hr).
  by rewrite decide_False.
Qed.
End qp_lemmas.

(** ** Concrete runs *)

Lemma root_ok_Leaf w : root_ok w Leaf.
Proof. split; [split; constructor | intros x Hx; by apply elem_of_nil in Hx]. Qed.

Lemma root_ok_single w a q : qps w !! a = Some q → good_key (q_key q) → root_ok w (Node Leaf a Leaf).
Proof.
  intros Hq Hg. split.
  - split; simpl; [repeat constructor |]. constructor; [| done]. simpl. unfold node_key. by rewrite Hq.
  - intros x Hx. simpl in Hx. apply elem_of_cons in Hx as [-> | Hx]; [by exists q | by apply elem_of_nil in Hx].
Qed.

(** A listener [9] whose tree on core 0 is [t]. *)
Definition listening (t : tree Z) (w : world) : world :=
  upd_roots <[(9, 0) := t]> (upd_listners <[9 := MkListner 7 80 6 (PObj 30) (PObj 31)]>
    (set_listner_root (Node Leaf 9 Leaf) w)).

Definition some_key : list Z := mk_key 4660 82 16909060 84281096.
Definition client_qp : cbn_qp := MkQp some_key 0 (PObj 9) PNull (PObj 20).
Definition server_qp : cbn_qp := MkQp some_key 0 (PObj 9) (PErr EINVAL) PNull.

Lemma halves_meet_witness :
  let w := upd_qps <[1 := client_qp]> (upd_qps <[2 := server_qp]> (listening Leaf (empty_world 100))) in
  ∃ w1 w2, @qp_exists spine_lib 0 (PObj 1) RX_QP w = Ok (PObj 1, w1) ∧
    @qp_exists spine_lib 0 (PObj 2) TX_QP w1 = Ok (PObj 1, w2) ∧
    qps w2 !! 1 = Some (set_qp_dir TX_QP (PErr EINVAL) client_qp) ∧ qps w2 !! 2 = None.
Proof.
  intros w.
  destruct (@halves_meet spine_lib spine_laws w 0 1 2 client_qp server_qp 9 Leaf TX_QP)
    as (w1 & w2 & H1 & H2 & Hq & _); try done.
  - split_and!; try done; [apply root_ok_Leaf | apply mk_key_good | by apply not_elem_of_nil].
  - split_and!; try done; [apply root_ok_Leaf | apply mk_key_good | by apply not_elem_of_nil].
  - intros y Hy. by apply elem_of_nil in Hy.
  - exists w1, w2. rewrite Hq. split_and!; [exact H1 | exact H2 | done | done].
Defined.

Definition joined_qp (ref : Z) : cbn_qp := MkQp some_key ref (PObj 9) (PObj 21) (PObj 20).

Lemma put_qp_twice_witness :
  let w := upd_qps <[1 := joined_qp 2]> (upd_socks <[20 := S_open]> (upd_socks <[21 := S_open]> (empty_world 100))) in
  ∃ w1 w2, put_qp (PObj 1) w = Ok (1, w1) ∧ put_qp (PObj 1) w1 = Ok (0, w2) ∧
    log w2 = [E_unlock_freed 1; E_free_qp 1; E_release 20; E_release 21; E_shutdown 20; E_shutdown 21].
Proof.
  intros w. destruct (put_qp_twice w 1 (joined_qp 2) 21 20) as (w1 & w2 & H1 & H2 & _ & _ & _ & Hl); [| done |].
  - split_and!; try done; by eexists.
  - by exists w1, w2.
Defined.

(** A client half alone in the tree of core 0. *)
Definition lone_world : world :=
  upd_socks <[20 := S_open]> (upd_qps <[1 := client_qp]> (listening (Node Leaf 1 Leaf) (empty_world 100))).

Lemma wait_qp_ready_timeout_witness :
  ∃ w', @wait_qp_ready (always 0) spine_lib 0 (PObj 1) RX_QP lone_world = Ok (1, w') ∧
    qps w' !! 1 = None ∧ socks w' !! 20 = None.
Proof.
  destruct (@wait_qp_ready_timeout (always 0) spine_lib (calm_quiet _ _ _) lone_world 1 client_qp 9 0
    (Node Leaf 1 Leaf) RX_QP 20) as (w' & Hr & Hq & Hs & _); [| by right | done | done | done |].
  - split_and!; try done; [by left].
  - exists w'. rewrite Hq, Hs. by split_and!.
Defined.

(** The peer has taken the QP out of the tree, but the wait had ended. *)
Lemma wait_timeout_race_witness :
  @wait_timeout (always 0) spine_lib 0 (PObj 1) (upd_roots <[(9, 0) := Leaf]> lone_world) = Oops ListCorrupt.
Proof.
  apply (@wait_timeout_race (always 0) spine_lib _ 1 client_qp 9 0 Leaf); try done.
  by apply not_elem_of_nil.
Defined.
