(* ===== verification/Relay.v ===== *)
(** * The relay loop (split.c, half_duplex)

    Each half of a split connection moves bytes one way: receive up to sixteen
    pages, send what was received, until the peer closes, an error, or the
    thread is asked to stop. *)

From stdpp Require Import base list gmap gmultiset sets.
From Stdlib Require Import ZArith Lia.
From S2P Require Import Prelude RbTree Keys DataTree World Qp.

Definition PAGE_SIZE : Z := 4096.
Definition VEC_SZ : nat := 16.

Section relay.
Context `{Env} `{RbLib Z}.

(** The kvec array: [None] is an entry nothing was stored in yet, [Some 0] a
    NULL from the allocator. *)
Abbreviation kvec := (list (option Z)).

Fixpoint alloc_kvec (call : kcall) (n : nat) : wproc (kvec * bool) :=
  match n with
  | O => mret ([], true)
  | S n =>
      rc ← kernel_call call;
      if rc =? 0 then mret (Some 0 :: replicate n None, false)
      else
        a ← fresh_addr;
        kmodify (add_log (E_alloc_page a)) ;;
        '(l, ok) ← alloc_kvec call n;
        mret (Some a :: l, ok)
  end.

(** [free_page]: nothing for NULL, and any address at all is freed when the
    entry is whatever the stack held. *)
Definition free_page (p : option Z) : wproc unit :=
  match p with
  | None => oops WildFree
  | Some a => if a =? 0 then mret tt else kmodify (add_log (E_free_page a))
  end.

(** The body of the loop: [None] to go on, [Some rc] to leave. *)
Definition duplex_step (sock : sockets) (qp : ptr) : wproc (option Z) :=
  '(rc, bytes) ← kernel_recvmsg (so_rx sock) (PAGE_SIZE * Z.of_nat VEC_SZ);
  if rc <=? 0 then _ ← put_qp qp; mret (Some rc)
  else
    rc ← kernel_sendmsg (so_tx sock) bytes;
    if rc <=? 0 then _ ← put_qp qp; mret (Some rc)
    else
      stop ← kthread_should_stop;
      mret (if (stop : bool) then Some rc else None).

Fixpoint duplex_loop (fuel : nat) (sock : sockets) (qp : ptr) : wproc (option Z) :=
  match fuel with
  | O => mret None
  | S fuel =>
      r ← duplex_step sock qp;
      match r with
      | Some rc => mret (Some rc)
      | None => duplex_loop fuel sock qp
      end
  end.

(** [None]: still relaying when the fuel ran out. *)
Definition half_duplex (fuel : nat) (sock : sockets) (qp : ptr) : wproc (option Z) :=
  _ ← kernel_call (C_setaffinity None);
  '(kvec, ok) ← alloc_kvec C_alloc_page VEC_SZ;
  r ← (if ok : bool then duplex_loop fuel sock qp else mret (Some (- ENOMEM)));
  match r with
  | Some rc => kforeach kvec free_page ;; mret (Some rc)
  | None => mret None
  end.
End relay.

(** ** What went in and out of a socket *)

Fixpoint received (s : ptr) (l : list event) : list Z :=
  match l with
  | [] => []
  | E_recv s' b :: l => if decide (s = s') then received s l ++ b else received s l
  | _ :: l => received s l
  end.

Fixpoint sent (s : ptr) (l : list event) : list Z :=
  match l with
  | [] => []
  | E_send s' b :: l => if decide (s = s') then sent s l ++ b else sent s l
  | _ :: l => sent s l
  end.

Section relay_lemmas.
Context `{Env} `{RbLib Z}.
Implicit Types w : world.

(** Nothing received, nothing sent. *)
Definition silent (i o : ptr) w w' : Prop :=
  received i (log w') = received i (log w) ∧ sent o (log w') = sent o (log w).

#[local] Instance silent_refl i o : Reflexive (silent i o).
Proof. by intros w. Qed.

#[local] Instance silent_trans i o : Transitive (silent i o).
Proof. intros w1 w2 w3 [H1 H2] [H3 H4]. split; by etransitivity. Qed.

Lemma silent_kernel_call i o c : keeps (silent i o) (kernel_call c).
Proof. intros w a w' [= <- <-]. done. Qed.

Lemma silent_modify i o g :
  (∀ w, received i (log (g w)) = received i (log w) ∧ sent o (log (g w)) = sent o (log w)) →
  keeps (silent i o) (kmodify g).
Proof. intros Hg. by apply keeps_modify. Qed.

#[local] Hint Resolve silent_kernel_call : keeps.
#[local] Hint Extern 1 (keeps (silent _ _) (kmodify _)) => apply silent_modify; intros; done : keeps.

Lemma silent_put_qp i o qp : keeps (silent i o) (put_qp qp).
Proof.
  unfold put_qp, load_qp, store_qp, free_qp, sock_release, kernel_sock_shutdown, sock_addr. kkeeps.
Qed.

Lemma silent_alloc_kvec i o call n : keeps (silent i o) (alloc_kvec call n).
Proof.
  induction n; simpl; kkeeps; intros w a' w' [= <- <-]; done.
Qed.

Lemma silent_free_kvec i o l : keeps (silent i o) (kforeach l free_page).
Proof. unfold free_page. kkeeps. Qed.

Lemma recvmsg_streams i o len w rc b w' :
  kernel_recvmsg i len w = Ok ((rc, b), w') →
  received i (log w') = received i (log w) ++ b ∧ sent o (log w') = sent o (log w) ∧
  (rc ≤ 0 → b = []) ∧ (0 ≤ len → Z.of_nat (length b) ≤ len) ∧ tick w' = S (tick w).
Proof.
  unfold kernel_recvmsg. intros Hr. apply kbind_inv in Hr as (a & w1 & H1 & Hr).
  apply sock_addr_inv in H1 as (_ & -> & _).
  rewrite kbind_get in Hr. kstep_in Hr (kernel_call_eq (C_recvmsg i len) w).
  revert Hr. case_match; intros [= <- <- <-]; simpl.
  - rewrite app_nil_r. by split_and!.
  - rewrite decide_True by done. split_and!; try done; [intros; apply nil_length_inv; lia |].
    rewrite length_take. lia.
Qed.

Lemma sendmsg_streams i o b w rc w' :
  kernel_sendmsg o b w = Ok (rc, w') →
  ∃ n, received i (log w') = received i (log w) ∧ sent o (log w') = sent o (log w) ++ take n b ∧
    (rc ≤ 0 → take n b = []) ∧ tick w' = S (tick w) ∧ (Z.of_nat (length b) ≤ answer (tick w) → b ≠ [] → take n b = b).
Proof.
  unfold kernel_sendmsg. intros Hr. apply kbind_inv in Hr as (a & w1 & H1 & Hr).
  apply sock_addr_inv in H1 as (_ & -> & _).
  kstep_in Hr (kernel_call_eq (C_sendmsg o (Z.of_nat (length b))) w).
  revert Hr. case_match eqn:E; intros [= <- <-]; simpl.
  - exists 0%nat. rewrite take_0, app_nil_r. split_and!; try done. intros Hl Hb. destruct b; [done |]. simpl in Hl. lia.
  - exists (Z.to_nat (answer (tick w))). rewrite decide_True by done. split_and!; try done.
    + intros. apply nil_length_inv. lia.
    + intros. apply take_ge. lia.
Qed.

(** What a stretch of relaying does: chunks come in, a prefix of each goes
    out, in order. *)
Definition relayed (i o : ptr) w w' : Prop := ∃ chunks : list (list Z * nat),
  received i (log w') = received i (log w) ++ concat (fst <$> chunks) ∧
  sent o (log w') = sent o (log w) ++ concat ((λ c, take c.2 c.1) <$> chunks).

#[local] Instance relayed_refl i o : Reflexive (relayed i o).
Proof. intros w. exists []. by rewrite !app_nil_r. Qed.

#[local] Instance relayed_trans i o : Transitive (relayed i o).
Proof.
  intros w1 w2 w3 (c1 & R1 & S1) (c2 & R2 & S2). exists (c1 ++ c2).
  rewrite R2, R1, S2, S1, !fmap_app, !concat_app, !app_assoc. done.
Qed.

Lemma silent_relayed i o {A} (m : wproc A) : keeps (silent i o) m → keeps (relayed i o) m.
Proof.
  intros Hm w a w' Hr. destruct (Hm _ _ _ Hr) as [R S]. exists []. simpl. by rewrite !app_nil_r.
Qed.

Lemma duplex_step_relayed sock qp : keeps (relayed (so_rx sock) (so_tx sock)) (duplex_step sock qp).
Proof.
  intros w r w' Hr. unfold duplex_step in Hr. apply kbind_inv in Hr as ([rc b] & w1 & H1 & Hr).
  destruct (recvmsg_streams _ (so_tx sock) _ _ _ _ _ H1) as (R1 & S1 & _ & _ & _). destruct (rc <=? 0).
  - apply kbind_inv in Hr as (x & w2 & H2 & [= <- <-]).
    destruct (silent_put_qp (so_rx sock) (so_tx sock) _ _ _ _ H2) as [R2 S2].
    exists [(b, 0%nat)]. simpl. by rewrite R2, S2, R1, S1, !app_nil_r.
  - apply kbind_inv in Hr as (rc' & w2 & H2 & Hr).
    destruct (sendmsg_streams (so_rx sock) _ _ _ _ _ H2) as (n & R2 & S2 & _).
    assert (Hk : keeps (silent (so_rx sock) (so_tx sock))
      (if rc' <=? 0 then _ ← put_qp qp; mret (Some rc')
       else stop ← kthread_should_stop; mret (if (stop : bool) then Some rc' else None))).
    { pose proof (silent_put_qp (so_rx sock) (so_tx sock) qp). unfold kthread_should_stop. kkeeps. }
    destruct (Hk _ _ _ Hr) as [R3 S3]. exists [(b, n)]. simpl.
    by rewrite R3, S3, R2, S2, R1, S1, !app_nil_r.
Qed.

Lemma duplex_loop_relayed fuel sock qp :
  keeps (relayed (so_rx sock) (so_tx sock)) (duplex_loop fuel sock qp).
Proof.
  induction fuel; simpl; [apply keeps_ret; tc_solve |].
  apply keeps_bind; [tc_solve | apply duplex_step_relayed | intros [rc |]; [apply keeps_ret; tc_solve | done]].
Qed.

(** Nothing received on another socket than [i], nothing sent on another than
    [o]. *)
Definition only (i o : ptr) w w' : Prop := ∀ s,
  (s ≠ i → received s (log w') = received s (log w)) ∧ (s ≠ o → sent s (log w') = sent s (log w)).

#[local] Instance only_refl i o : Reflexive (only i o).
Proof. by intros w s. Qed.

#[local] Instance only_trans i o : Transitive (only i o).
Proof.
  intros w1 w2 w3 H1 H2 s. destruct (H1 s) as [R1 S1], (H2 s) as [R2 S2].
  split; intros Hs; [by rewrite R2, R1 | by rewrite S2, S1].
Qed.

Lemma only_kernel_call i o c : keeps (only i o) (kernel_call c).
Proof. by intros w a w' [= <- <-] s. Qed.

Lemma only_fresh i o : keeps (only i o) fresh_addr.
Proof. by intros w a w' [= <- <-] s. Qed.

Lemma only_modify i o g : (∀ w, only i o w (g w)) → keeps (only i o) (kmodify g).
Proof. apply keeps_modify. Qed.

Lemma only_recv i o b w : only i o w (add_log (E_recv i b) w).
Proof. intros s. split; [| done]. intros Hs. simpl. by rewrite decide_False. Qed.

Lemma only_send i o b w : only i o w (add_log (E_send o b) w).
Proof. intros s. split; [done |]. intros Hs. simpl. by rewrite decide_False. Qed.

#[local] Hint Resolve only_kernel_call only_fresh : keeps.
#[local] Hint Extern 1 (keeps (only _ _) (kmodify _)) =>
  apply only_modify; intros; first [apply only_recv | apply only_send | done] : keeps.

Lemma only_half_duplex fuel sock qp : keeps (only (so_rx sock) (so_tx sock)) (half_duplex fuel sock qp).
Proof.
  assert (Hput : keeps (only (so_rx sock) (so_tx sock)) (put_qp qp)).
  { unfold put_qp, load_qp, store_qp, free_qp, sock_release, kernel_sock_shutdown, sock_addr. kkeeps. }
  assert (Halloc : ∀ n, keeps (only (so_rx sock) (so_tx sock)) (alloc_kvec C_alloc_page n)) by (induction n; simpl; kkeeps).
  assert (Hstep : keeps (only (so_rx sock) (so_tx sock)) (duplex_step sock qp)).
  { unfold duplex_step, kernel_recvmsg, kernel_sendmsg, kthread_should_stop, sock_addr. kkeeps. }
  assert (Hloop : keeps (only (so_rx sock) (so_tx sock)) (duplex_loop fuel sock qp)) by (induction fuel; simpl; kkeeps).
  unfold half_duplex, free_page. kkeeps.
Qed.

(** C14. Whatever happens, the relay sends, in order, a prefix of each chunk
    it received, and nothing else; and it receives from no other socket and
    sends to no other. *)
Theorem half_duplex_relays fuel sock qp w r w' :
  half_duplex fuel sock qp w = Ok (r, w') →
  relayed (so_rx sock) (so_tx sock) w w' ∧
  ∀ s, (s ≠ so_rx sock → received s (log w') = received s (log w)) ∧
    (s ≠ so_tx sock → sent s (log w') = sent s (log w)).
Proof.
  intros Hr. split; [| exact (only_half_duplex fuel sock qp w r w' Hr)].
  revert w r w' Hr. change (keeps (relayed (so_rx sock) (so_tx sock)) (half_duplex fuel sock qp)).
  unfold half_duplex. apply keeps_bind; [tc_solve | apply silent_relayed, silent_kernel_call | intros _].
  apply keeps_bind; [tc_solve | apply silent_relayed, silent_alloc_kvec | intros [kvec ok]].
  apply keeps_bind; [tc_solve | |].
  - destruct ok; [apply duplex_loop_relayed | apply keeps_ret; tc_solve].
  - intros [rc |]; [| apply keeps_ret; tc_solve].
    apply keeps_bind; [tc_solve | apply silent_relayed, silent_free_kvec | intros; apply keeps_ret; tc_solve].
Qed.

(** ** Nothing is lost when every send is complete *)

(** A stretch of relaying that sends all it receives. *)
Definition relayed_all (i o : ptr) w w' : Prop := ∃ bytes,
  received i (log w') = received i (log w) ++ bytes ∧ sent o (log w') = sent o (log w) ++ bytes.

Lemma relayed_all_trans i o w1 w2 w3 :
  relayed_all i o w1 w2 → relayed_all i o w2 w3 → relayed_all i o w1 w3.
Proof.
  intros (b1 & R1 & S1) (b2 & R2 & S2). exists (b1 ++ b2).
  by rewrite R2, R1, S2, S1, !app_assoc.
Qed.

Lemma silent_relayed_all i o w w' : silent i o w w' → relayed_all i o w w'.
Proof. intros [R S]. exists []. by rewrite !app_nil_r. Qed.

Lemma duplex_step_complete sock qp w r w' :
  PAGE_SIZE * Z.of_nat VEC_SZ ≤ answer (S (tick w)) →
  duplex_step sock qp w = Ok (r, w') →
  relayed_all (so_rx sock) (so_tx sock) w w' ∧ (r = None → tick w' = (tick w + 3)%nat).
Proof.
  intros Hans Hr. unfold duplex_step in Hr. apply kbind_inv in Hr as ([rc b] & w1 & H1 & Hr).
  destruct (recvmsg_streams _ (so_tx sock) _ _ _ _ _ H1) as (R1 & S1 & Hnil & Hlen & T1).
  destruct (Z.leb_spec rc 0) as [Hrc | Hrc].
  - apply kbind_inv in Hr as (x & w2 & H2 & [= <- <-]).
    destruct (silent_put_qp (so_rx sock) (so_tx sock) _ _ _ _ H2) as [R2 S2].
    split; [| done]. exists b. rewrite R2, S2, R1, S1, (Hnil Hrc), !app_nil_r. done.
  - apply kbind_inv in Hr as (rc' & w2 & H2 & Hr).
    destruct (sendmsg_streams (so_rx sock) _ _ _ _ _ H2) as (n & R2 & S2 & Hnil' & T2 & Hfull).
    assert (Hb : take n b = b).
    { destruct (decide (b = [])) as [-> |]; [by destruct n |]. apply Hfull; [| done].
      rewrite T1. unfold PAGE_SIZE, VEC_SZ in *. lia. }
    assert (Hw : relayed_all (so_rx sock) (so_tx sock) w w2).
    { exists b. by rewrite R2, S2, R1, S1, Hb. }
    destruct (rc' <=? 0).
    + apply kbind_inv in Hr as (x & w3 & H3 & [= <- <-]). split; [| done].
      eapply relayed_all_trans; [exact Hw |]. eapply silent_relayed_all, silent_put_qp, H3.
    + unfold kthread_should_stop in Hr. rewrite kbind_assoc in Hr.
      kstep_in Hr (kernel_call_eq C_should_stop w2). injection Hr as <- <-.
      split; [exact Hw |]. intros _. simpl. lia.
Qed.

Lemma duplex_loop_complete sock qp fuel w rc w' :
  (∀ k, PAGE_SIZE * Z.of_nat VEC_SZ ≤ answer (S (tick w) + 3 * k)%nat) →
  duplex_loop fuel sock qp w = Ok (Some rc, w') →
  relayed_all (so_rx sock) (so_tx sock) w w'.
Proof.
  revert w. induction fuel as [| fuel IH]; intros w Hans Hr; [done |]. simpl in Hr.
  apply kbind_inv in Hr as (r & w1 & H1 & Hr).
  destruct (duplex_step_complete sock qp w r w1) as [Hw Ht]; [| done |].
  { specialize (Hans 0%nat). by rewrite Nat.mul_0_r, Nat.add_0_r in Hans. }
  destruct r as [rc' |]; [by injection Hr as <- <- |].
  eapply relayed_all_trans; [exact Hw |]. apply IH; [| done].
  intros k. rewrite Ht by done. specialize (Hans (S k)). by replace (S (tick w) + 3 * S k)%nat
    with (S (tick w + 3) + 3 * k)%nat in Hans by lia.
Qed.

Lemma alloc_kvec_tick call n w l w' :
  alloc_kvec call n w = Ok ((l, true), w') → tick w' = (tick w + n)%nat.
Proof.
  revert w l. induction n as [| n IH]; intros w l Hr; simpl in Hr.
  { injection Hr as _ <-. lia. }
  kstep_in Hr (kernel_call_eq call w). destruct (_ =? 0); [done |].
  apply kbind_inv in Hr as (a & w1 & [= <- <-] & Hr). rewrite kbind_modify in Hr.
  apply kbind_inv in Hr as ([l' ok] & w2 & H2 & Hr). injection Hr as <- -> <-.
  rewrite (IH _ _ H2). simpl. lia.
Qed.

(** C13. When every send takes all it is given, the relay that ends has sent
    exactly the bytes it received. *)
Theorem half_duplex_complete fuel sock qp w rc w' :
  (∀ k, PAGE_SIZE * Z.of_nat VEC_SZ ≤ answer (tick w + 18 + 3 * k)%nat) →
  half_duplex fuel sock qp w = Ok (Some rc, w') →
  relayed_all (so_rx sock) (so_tx sock) w w'.
Proof.
  intros Hans Hr. unfold half_duplex in Hr. kstep_in Hr (kernel_call_eq (C_setaffinity None) w).
  apply kbind_inv in Hr as ([l ok] & w1 & H1 & Hr). apply kbind_inv in Hr as (r & w2 & H2 & Hr).
  assert (S1 := silent_alloc_kvec (so_rx sock) (so_tx sock) _ _ _ _ _ H1).
  assert (Hw : relayed_all (so_rx sock) (so_tx sock) w w1) by (apply silent_relayed_all; exact S1).
  destruct r as [rc' |]; [| done]. apply kbind_inv in Hr as (x & w3 & H3 & [= <- <-]).
  assert (S3 := silent_free_kvec (so_rx sock) (so_tx sock) _ _ _ _ H3).
  eapply relayed_all_trans; [| by apply silent_relayed_all].
  eapply relayed_all_trans; [exact Hw |]. destruct ok.
  - eapply duplex_loop_complete; [| done]. intros k. rewrite (alloc_kvec_tick _ _ _ _ _ H1).
    specialize (Hans k). simpl tick. by replace (S (S (tick w) + VEC_SZ) + 3 * k)%nat
      with (tick w + 18 + 3 * k)%nat by (unfold VEC_SZ; lia).
  - injection H2 as _ <-. by apply silent_relayed_all.
Qed.
End relay_lemmas.

(** ** The relay ends *)

Section relay_ends.
Context `{Env} `{RbLib Z}.
Implicit Types w : world.
Variables a x y : Z.

(** The QP and both its sockets are live; the other threads, who hold a
    reference of their own, keep it so. *)
Definition alive w : Prop := ∃ q, qp_connected w a q x y.
Definition spares : Prop := ∀ n w, alive w → alive (others n w).

Lemma alive_interfere w : spares → alive w → alive (interfere w).
Proof. intros Hs Ha. destruct (Hs (tick w) w Ha) as [q Hq]. by exists q. Qed.

Lemma put_qp_total w : alive w → ∃ rc w', put_qp (PObj a) w = Ok (rc, w').
Proof.
  intros (q & Hq & Ht & Hr & Hne & [st Hst] & [sr Hsr]). unfold put_qp.
  kstep (load_qp_ok w a q Hq). cbv zeta. set (rc := s32 (ref_cnt q - 1)).
  kstep (store_qp_ok w a q (set_ref rc q) Hq). set (w1 := upd_qps _ w).
  rewrite Ht, Hr. cbn [IS_ERR_OR_NULL]. destruct (rc =? 0); kpure.
  - kstep (sock_release_ok w1 x st Hst). kpure.
    set (w2 := add_log _ (upd_socks (delete x) w1)).
    assert (Hs : socks w2 !! y = Some sr) by (simpl; by rewrite lookup_delete_ne).
    kstep (sock_release_ok w2 y sr Hs). kpure.
    set (w3 := add_log _ (upd_socks (delete y) w2)).
    assert (Hq3 : qps w3 !! a = Some (set_ref rc q)) by (simpl; by rewrite lookup_insert_eq).
    kstep (free_qp_ok w3 a _ Hq3). kpure. by eexists _, _.
  - kstep (kernel_sock_shutdown_ok w1 x st Hst).
    set (w2 := add_log _ _). assert (Hs : socks w2 !! y = Some sr) by (simpl; by rewrite lookup_insert_ne).
    kstep (kernel_sock_shutdown_ok w2 y sr Hs). by eexists _, _.
Qed.

(** A socket of the QP. *)
Definition is_sock (p : ptr) : Prop := p = PObj x ∨ p = PObj y.

Lemma is_sock_addr w p : alive w → is_sock p → ∃ s, sock_addr p w = Ok (s, w).
Proof.
  intros (q & _ & _ & _ & _ & [st Hst] & [sr Hsr]) [-> | ->];
    eexists; by eapply sock_addr_ok.
Qed.

Lemma recvmsg_total p len w :
  spares → alive w → is_sock p →
  ∃ rc b w', kernel_recvmsg p len w = Ok ((rc, b), w') ∧ alive w' ∧ tick w' = S (tick w) ∧
    (answer (tick w) ≤ 0 → rc ≤ 0).
Proof.
  intros Hs Ha Hp. unfold kernel_recvmsg. destruct (is_sock_addr w _ Ha Hp) as [s Hsa]. kstep Hsa. kpure.
  kstep (kernel_call_eq (C_recvmsg p len) w). pose proof (alive_interfere w Hs Ha).
  destruct (Z.leb_spec (answer (tick w)) 0); eexists _, _, _; (split_and!; [reflexivity | done | done | lia]).
Qed.

Lemma sendmsg_total p b w :
  spares → alive w → is_sock p →
  ∃ rc w', kernel_sendmsg p b w = Ok (rc, w') ∧ alive w' ∧ tick w' = S (tick w).
Proof.
  intros Hs Ha Hp. unfold kernel_sendmsg. destruct (is_sock_addr w _ Ha Hp) as [s Hsa]. kstep Hsa.
  kstep (kernel_call_eq (C_sendmsg p (Z.of_nat (length b))) w). pose proof (alive_interfere w Hs Ha).
  destruct (_ <=? 0); eexists _, _; (split_and!; [reflexivity | done | done]).
Qed.

Lemma duplex_step_total sock w :
  spares → alive w → is_sock (so_rx sock) → is_sock (so_tx sock) →
  ∃ r w', duplex_step sock (PObj a) w = Ok (r, w') ∧ (answer (tick w) ≤ 0 → is_Some r) ∧
    (r = None → alive w' ∧ tick w' = (tick w + 3)%nat).
Proof.
  intros Hs Ha Hi Ho. unfold duplex_step.
  destruct (recvmsg_total _ (PAGE_SIZE * Z.of_nat VEC_SZ) w Hs Ha Hi) as (rc & b & w1 & H1 & Ha1 & T1 & Hrc).
  kstep H1. destruct (Z.leb_spec rc 0) as [Hle | Hgt].
  { destruct (put_qp_total w1 Ha1) as (v & w' & Hp). kstep Hp. by eexists _, _. }
  destruct (sendmsg_total _ b w1 Hs Ha1 Ho) as (rc' & w2 & H2 & Ha2 & T2). kstep H2.
  destruct (rc' <=? 0).
  { destruct (put_qp_total w2 Ha2) as (v & w' & Hp). kstep Hp. by eexists _, _. }
  unfold kthread_should_stop. rewrite kbind_assoc. kstep (kernel_call_eq C_should_stop w2). kpure.
  eexists _, _. split_and!; [reflexivity | lia |].
  intros _. split; [by apply (alive_interfere w2) |]. simpl. lia.
Qed.

Lemma duplex_loop_total k fuel sock w :
  spares → alive w → is_sock (so_rx sock) → is_sock (so_tx sock) →
  (k < fuel)%nat → answer (tick w + 3 * k)%nat ≤ 0 →
  ∃ rc w', duplex_loop fuel sock (PObj a) w = Ok (Some rc, w').
Proof.
  intros Hs Ha Hi Ho. revert k w Ha. induction fuel as [| fuel IH]; intros k w Ha Hk Hans; [lia |].
  simpl. destruct (duplex_step_total sock w Hs Ha Hi Ho) as (r & w1 & H1 & Hstop & Hgo). kstep H1.
  destruct r as [rc |]; [by eexists _, _ |]. destruct (Hgo eq_refl) as [Ha1 Ht1].
  destruct k as [| k].
  - rewrite Nat.mul_0_r, Nat.add_0_r in Hans. by destruct (Hstop Hans).
  - apply (IH k w1); [done | lia |]. rewrite Ht1. by replace (tick w + 3 + 3 * k)%nat with (tick w + 3 * S k)%nat by lia.
Qed.

(** The pages in use, as the history tells. *)
Fixpoint held (l : list event) : gmultiset Z :=
  match l with
  | [] => ∅
  | E_alloc_page p :: l => {[+ p +]} ⊎ held l
  | E_free_page p :: l => held l ∖ {[+ p +]}
  | _ :: l => held l
  end.

Definition pages (kvec : list (option Z)) : gmultiset Z := list_to_set_disj (omap id kvec).

(** What other threads and an allocation leave true. *)
Definition undisturbed (P : world → Prop) : Prop :=
  ∀ w, P w → P (interfere w) ∧ (∀ e, P (add_log e w)) ∧ (∀ n, P (set_next n w)).

Lemma alloc_kvec_total P call n w :
  undisturbed P → P w → 0 < next w → (∀ i, (i < n)%nat → answer (tick w + i)%nat ≠ 0) →
  ∃ l w', alloc_kvec call n w = Ok ((l, true), w') ∧ P w' ∧ Forall (λ p, ∃ z, p = Some z ∧ z ≠ 0) l ∧
    held (log w') = pages l ⊎ held (log w).
Proof.
  intros Hs. revert w. induction n as [| n IH]; intros w Ha Hn Hans.
  { eexists [], w. split_and!; try done. unfold pages. simpl. multiset_solver. }
  simpl. kstep (kernel_call_eq call w).
  pose proof (Hans 0%nat ltac:(lia)) as Hnz. rewrite Nat.add_0_r in Hnz. apply Z.eqb_neq in Hnz. rewrite Hnz.
  set (w1 := add_log _ (interfere w)). kstep (eq_refl (fresh_addr w1)). kpure.
  assert (Hn1 : 0 < next w1) by (simpl; lia). set (p := next w1).
  destruct (IH (add_log (E_alloc_page p) (set_next (p + 1) w1))) as (l & w' & Hl & Ha' & Hall & Hh).
  { apply Hs, Hs, Hs, Hs, Ha. }
  { simpl. lia. }
  { intros i Hi. specialize (Hans (S i) ltac:(lia)). simpl. by rewrite Nat.add_succ_r in Hans. }
  kstep Hl. eexists _, _. split_and!; [reflexivity | done | |].
  - constructor; [| done]. exists p. split; [done | unfold p; lia].
  - rewrite Hh. change (held (log (add_log _ _))) with ({[+ p +]} ⊎ held (log w)).
    unfold pages. simpl. multiset_solver.
Qed.

Lemma free_page_some {B} z (f : unit → wproc B) w :
  z ≠ 0 → (free_page (Some z) ≫= f) w = f tt (add_log (E_free_page z) w).
Proof. intros Hz. unfold free_page. apply Z.eqb_neq in Hz. by rewrite Hz. Qed.

Lemma free_kvec_total l w m :
  Forall (λ p, ∃ z, p = Some z ∧ z ≠ 0) l → held (log w) = pages l ⊎ m →
  ∃ w', kforeach l free_page w = Ok (tt, w') ∧ held (log w') = m.
Proof.
  intros Hl. revert w. induction Hl as [| p l (z & -> & Hz) Hl IH]; intros w Hw.
  { exists w. split; [done |]. rewrite Hw. unfold pages. simpl. multiset_solver. }
  cbn [kforeach]. rewrite free_page_some by done.
  apply IH. change (held (log (add_log _ _))) with (held (log w) ∖ {[+ z +]}).
  rewrite Hw. unfold pages. simpl. multiset_solver.
Qed.

Lemma held_put_qp qp : keeps (λ w w', held (log w') = held (log w)) (put_qp qp).
Proof.
  assert (HR : Reflexive (λ w w', held (log w') = held (log w))) by done.
  assert (HT : Transitive (λ w w', held (log w') = held (log w))) by (intros ?????; congruence).
  unfold put_qp, load_qp, store_qp, free_qp, sock_release, kernel_sock_shutdown, sock_addr. kkeeps;
    apply keeps_modify; done.
Qed.

Lemma held_duplex_loop fuel sock qp : keeps (λ w w', held (log w') = held (log w)) (duplex_loop fuel sock qp).
Proof.
  assert (HR : Reflexive (λ w w', held (log w') = held (log w))) by done.
  assert (HT : Transitive (λ w w', held (log w') = held (log w))) by (intros ?????; congruence).
  pose proof (held_put_qp qp).
  assert (Hc : ∀ c, keeps (λ w w', held (log w') = held (log w)) (kernel_call c)) by (by intros c w r w' [= <- <-]).
  induction fuel; simpl; [kkeeps |]. apply keeps_bind; [done | | intros [rc |]; [kkeeps | done]].
  unfold duplex_step, kernel_recvmsg, kernel_sendmsg, kthread_should_stop, sock_addr.
  kkeeps; apply keeps_modify; done.
Qed.

Lemma alive_undisturbed : spares → undisturbed alive.
Proof. intros Hs w Ha. split; [by apply alive_interfere | done]. Qed.

(** C15. The peer hangs up, or a receive fails, at the [k]-th turn at the
    latest: with fuel beyond [k] the relay ends, and every page it allocated
    is freed exactly once. *)
Theorem half_duplex_ends k fuel sock w :
  spares → alive w → is_sock (so_rx sock) → is_sock (so_tx sock) → 0 < next w →
  (∀ i, (i < VEC_SZ)%nat → answer (S (tick w) + i)%nat ≠ 0) →
  (k < fuel)%nat → answer (tick w + 17 + 3 * k)%nat ≤ 0 →
  ∃ rc w', half_duplex fuel sock (PObj a) w = Ok (Some rc, w') ∧ held (log w') = held (log w).
Proof.
  intros Hs Ha Hi Ho Hn Hpages Hk Hans. unfold half_duplex.
  kstep (kernel_call_eq (C_setaffinity None) w). set (w1 := add_log _ _).
  destruct (alloc_kvec_total alive C_alloc_page VEC_SZ w1) as (l & w2 & Hl & Ha2 & Hall & Hh);
    [by apply alive_undisturbed | by apply (alive_interfere w) | simpl; lia | done |].
  kstep Hl.
  destruct (duplex_loop_total k fuel sock w2) as (rc & w3 & H3); try done.
  { rewrite (alloc_kvec_tick _ _ _ _ _ Hl). simpl tick.
    by replace (S (tick w) + VEC_SZ + 3 * k)%nat with (tick w + 17 + 3 * k)%nat by (unfold VEC_SZ; lia). }
  kstep H3. pose proof (held_duplex_loop _ _ _ _ _ _ H3) as Hh3.
  destruct (free_kvec_total l w3 (held (log w)) Hall) as (w4 & H4 & Hh4).
  { rewrite Hh3, Hh. done. }
  kstep H4. by eexists _, _.
Qed.

(** When a page is missing before the last one, entries of the vector
    that were never stored are handed to [free_page]. *)
Lemma half_duplex_wild_free i fuel sock w :
  (i < 15)%nat → 0 < next w → (∀ j, (j < i)%nat → answer (S (tick w) + j)%nat ≠ 0) →
  answer (S (tick w) + i)%nat = 0 → half_duplex fuel sock (PObj a) w = Oops WildFree.
Proof.
  intros Hi Hn Hok Hfail. unfold half_duplex.
  kstep (kernel_call_eq (C_setaffinity None) w). set (w1 := add_log _ _).
  assert (Hgen : ∀ n i v, (S i < n)%nat → 0 < next v → (∀ j, (j < i)%nat → answer (tick v + j)%nat ≠ 0) →
    answer (tick v + i)%nat = 0 →
    ∃ l v', alloc_kvec C_alloc_page n v = Ok ((l, false), v') ∧ ∀ u, kforeach l free_page u = Oops WildFree).
  { clear. induction n as [| n IH]; intros i v Hi Hn Hok Hfail; [lia |].
    simpl. kstep (kernel_call_eq C_alloc_page v). destruct (Z.eqb_spec (answer (tick v)) 0) as [E | E].
    - eexists _, _. split; [reflexivity |]. intros u. by destruct n; [lia |].
    - destruct i as [| i]; [by rewrite Nat.add_0_r in Hfail |].
      set (v1 := add_log _ (interfere v)). kstep (eq_refl (fresh_addr v1)). kpure.
      destruct (IH i (add_log (E_alloc_page (next v1)) (set_next (next v1 + 1) v1))) as (l & v' & Hl & Hw).
      + lia.
      + simpl. lia.
      + intros j Hj. specialize (Hok (S j) ltac:(lia)). simpl. by rewrite Nat.add_succ_r in Hok.
      + simpl. by rewrite Nat.add_succ_r in Hfail.
      + kstep Hl. eexists _, _. split; [reflexivity |]. intros u.
        cbn [kforeach]. rewrite free_page_some; [apply Hw | simpl; lia]. }
  destruct (Hgen VEC_SZ i w1) as (l & v' & Hl & Hw); [unfold VEC_SZ; lia | simpl; lia | done | done |].
  kstep Hl. kpure. unfold mbind, kproc_bind. by rewrite Hw.
Qed.
End relay_ends.

(** ** Concrete runs

    One turn of three bytes from socket 20 to socket 21, then the thread is
    asked to stop; and a peer that hangs up at once. *)

Definition one_turn : Env := calm
  (λ n, if (n =? 19)%nat then 1 else 65536) (λ _, [1; 2; 3]) (λ _, no_addr).
Definition hang_up : Env := calm
  (λ n, if (n =? 17)%nat then 0 else 1) (λ _, [1; 2; 3]) (λ _, no_addr).
Definition no_page : Env := calm (λ n, if (n =? 3)%nat then 0 else 1) (λ _, []) (λ _, no_addr).

Definition relay_world : world := upd_qps <[1 := joined_qp 2]>
  (upd_socks <[20 := S_open]> (upd_socks <[21 := S_open]> (empty_world 100))).
Definition rx_to_tx : sockets := MkSockets (PObj 20) (PObj 21) 0.

Definition after_turn : world :=
  match @half_duplex one_turn 1 rx_to_tx (PObj 1) relay_world with Ok (_, w') => w' | Oops _ => relay_world end.

Lemma one_turn_run : @half_duplex one_turn 1 rx_to_tx (PObj 1) relay_world = Ok (Some 3, after_turn).
Proof. vm_compute. reflexivity. Qed.

Lemma half_duplex_relays_witness :
  relayed (PObj 20) (PObj 21) relay_world after_turn ∧ sent (PObj 20) (log after_turn) = [] ∧
  received (PObj 20) (log after_turn) = [1; 2; 3].
Proof.
  destruct (@half_duplex_relays one_turn 1 rx_to_tx (PObj 1) _ _ _ one_turn_run) as [Hr Ho].
  split; [exact Hr |]. split; [| by vm_compute]. by apply (proj2 (Ho (PObj 20))).
Defined.

Lemma half_duplex_complete_witness : relayed_all (PObj 20) (PObj 21) relay_world after_turn.
Proof.
  refine (@half_duplex_complete one_turn 1 rx_to_tx (PObj 1) _ _ _ _ one_turn_run).
  intros k. cbn [answer one_turn calm tick relay_world upd_qps upd_socks empty_world].
  change (PAGE_SIZE * Z.of_nat VEC_SZ) with 65536.
  destruct (Nat.eqb_spec (0 + 18 + 3 * k) 19); lia.
Defined.

Lemma half_duplex_ends_witness :
  ∃ rc w', @half_duplex hang_up 1 rx_to_tx (PObj 1) relay_world = Ok (Some rc, w') ∧ held (log w') = ∅.
Proof.
  apply (@half_duplex_ends hang_up 1 21 20 0 1 rx_to_tx relay_world); try done.
  - by intros n w.
  - exists (joined_qp 2). split_and!; try done; by eexists.
  - by right.
  - by left.
  - intros i Hi. unfold VEC_SZ in Hi. cbn [answer hang_up calm].
    destruct (Nat.eqb_spec (S (tick relay_world) + i) 17) as [E | E]; [| done]. simpl in E. lia.
  - lia.
Defined.

Lemma half_duplex_wild_free_witness :
  @half_duplex no_page 1 rx_to_tx (PObj 1) relay_world = Oops WildFree.
Proof.
  apply (@half_duplex_wild_free no_page 1 2 1); try done; [lia |].
  intros j Hj. cbn [answer no_page calm].
  destruct (Nat.eqb_spec (S (tick relay_world) + j) 3) as [E | E]; [| done]. simpl in E. lia.
Defined.
