(* ===== verification/Hooks.v ===== *)
(** * Packet hooks and the probe (split.c, conn_pool.c)

    A SYN of a tenant with a listener makes the ingress hook schedule a probe:
    a copy of the SYN sent from port 4, with the client's port in the window
    field.  The egress hook catches the probe on its way out: when it leaves
    for another KTCP host (a gue device) the addresses of the connection ride
    behind its headers, to be read back from the encapsulated packet; when it
    does not, the second half of the connection starts here. *)

From stdpp Require Import base list gmap sets strings.
From Stdlib Require Import ZArith Lia.
From S2P Require Import Prelude RbTree Keys DataTree World.

Definition IPPROTO_IPIP : Z := 4.
Definition IPPROTO_TCP : Z := 6.
Definition IPPROTO_UDP : Z := 17.

(** An IP header, a transport header (a UDP header starts with the same two
    ports), and the words that follow it. *)
Record headers := MkHeaders { h_ip : iphdr; h_tcp : tcphdr; h_data : list ptr }.

(** The part of struct sk_buff the hooks look at. *)
Record sk_buff := MkSkb {
  skb_mark : Z;
  skb_headers : headers;
  dev_name : list Z;
  inner_protocol : Z;
  skb_inner : headers;
}.

Definition ip_hdr (skb : sk_buff) : iphdr := h_ip (skb_headers skb).
Definition skb_transport_header (skb : sk_buff) : tcphdr := h_tcp (skb_headers skb).

Inductive verdict := NF_ACCEPT | NF_DROP.

(** ** Port helpers *)

Definition udp_port (skb : sk_buff) : Z * Z :=
  let udphdr := skb_transport_header skb in (ntohs (th_source udphdr), ntohs (th_dest udphdr)).

Definition tcp_port (skb : sk_buff) : Z * Z :=
  let tcphdr := skb_transport_header skb in (ntohs (th_source tcphdr), ntohs (th_dest tcphdr)).

(** "gue" *)
Definition CBN_TUNNEL_PREFIX : list Z := [103; 117; 101].

Definition is_out_gue (skb : sk_buff) : bool :=
  bool_decide (take (length CBN_TUNNEL_PREFIX) (dev_name skb) = CBN_TUNNEL_PREFIX).

Definition is_cbn_probe (skb : sk_buff) : bool :=
  if inner_protocol skb =? IPPROTO_IPIP then
    if protocol (h_ip (skb_inner skb)) =? IPPROTO_TCP then
      ntohs (th_source (h_tcp (skb_inner skb))) =? CBP_PROBE_PORT
    else false
  else false.

(** cbn_common.h: a SYN of a marked packet. *)
Definition trace_iph (skb : sk_buff) : bool :=
  let rc :=
    if protocol (ip_hdr skb) =? 6 then
      th_syn (skb_transport_header skb) && negb (th_ack (skb_transport_header skb))
    else false in
  rc && negb (skb_mark skb =? 0).

Section hooks.
Context `{Env} `{RbLib Z}.

(** The fields that are not assigned hold what the slab object held. *)
Definition build_addresses (skb : sk_buff) : wproc ptr :=
  w ← kget;
  o ← slab_alloc;
  match o with
  | None => mret PNull
  | Some a =>
      let g := garbage_syn (tick w) in
      let iphdr := ip_hdr skb in
      let tcphdr := skb_transport_header skb in
      kmodify (upd_syns <[a := {|
        dest := {| sin_family := sin_family (dest g); sin_port := th_dest tcphdr; s_addr := daddr iphdr |};
        src := {| sin_family := sin_family (src g); sin_port := th_source tcphdr; s_addr := saddr iphdr |};
        sin_addr := sin_addr g;
        mark := s32 (skb_mark skb) |}]>) ;;
      mret (PObj a)
  end.

(** The word behind the inner TCP header; a packet without one is read past
    its end. *)
Definition get_cbn_probe (skb : sk_buff) : wproc ptr :=
  match h_data (skb_inner skb) with
  | p :: _ => mret p
  | [] => oops BadIndex
  end.

Definition set_cbn_probe (skb : sk_buff) (addresses : ptr) : sk_buff :=
  let h := skb_headers skb in
  MkSkb (skb_mark skb) (MkHeaders (h_ip h) (h_tcp h) (h_data h ++ [addresses])) (dev_name skb)
    (inner_protocol skb) (skb_inner skb).

Definition set_src_port (port : Z) (x : addresses) : addresses :=
  {| dest := dest x;
     src := {| sin_family := sin_family (src x); sin_port := port; s_addr := s_addr (src x) |};
     sin_addr := sin_addr x; mark := mark x |}.

Definition set_next_hop (ip : Z) (x : addresses) : addresses :=
  {| dest := dest x; src := src x; sin_addr := ip; mark := mark x |}.

Definition cbn_egress_hook (skb : sk_buff) : wproc (verdict * sk_buff) :=
  let iph := ip_hdr skb in
  if skb_mark skb =? 0 then mret (NF_ACCEPT, skb)
  else if protocol iph =? IPPROTO_TCP then
    let tcphdr := skb_transport_header skb in
    if ntohs (th_source tcphdr) =? CBP_PROBE_PORT then
      addresses ← build_addresses skb;
      if decide (addresses = PNull) then mret (NF_DROP, skb)
      else
        x ← load_syn addresses;
        let x := set_src_port (th_window tcphdr) x in
        store_syn addresses x ;;
        if is_out_gue skb then mret (NF_ACCEPT, set_cbn_probe skb addresses)
        else
          let cpu := addresses2cpu num_online_cpus x in
          pool_run T_start_new_connection_syn addresses 0 (Some cpu) ;;
          mret (NF_DROP, skb)
    else mret (NF_ACCEPT, skb)
  else if (protocol iph =? IPPROTO_UDP) && is_cbn_probe skb then
    addresses ← get_cbn_probe skb;
    if decide (addresses = PNull) then mret (NF_DROP, skb)
    else
      x ← load_syn addresses;
      let cpu := addresses2cpu num_online_cpus x in
      store_syn addresses (set_next_hop (daddr iph) x) ;;
      pool_run T_start_new_pre_connection_syn addresses 0 (Some cpu) ;;
      mret (NF_DROP, skb)
  else mret (NF_ACCEPT, skb).

(** [this->key] of a listener in the tree. *)
Definition listner_key (w : world) (a : Z) : Z := from_option l_key 0 (listners w !! a).

Definition search_listner (key : Z) : wproc (option Z) :=
  w ← kget;
  mret (search_rb_listner (listner_key w) (listner_root w) key).

Definition cbn_ingress_hook (priv : string) (skb : sk_buff) : wproc verdict :=
  if decide (priv ≠ "RX"%string) then mret NF_ACCEPT
  else if skb_mark skb =? 0 then mret NF_ACCEPT
  else
    listner ← search_listner (skb_mark skb);
    match listner with
    | None => mret NF_ACCEPT
    | Some listner =>
        if trace_iph skb then
          o ← slab_alloc;
          match o with
          | None => mret NF_ACCEPT
          | Some p =>
              kmodify (upd_probes <[p := {| p_iphdr := ip_hdr skb; p_tcphdr := skb_transport_header skb;
                                           p_listner := PObj listner |}]>) ;;
              pool_run T_start_probe_syn (PObj p) 0 None ;;
              mret NF_ACCEPT
          end
        else mret NF_ACCEPT
    end.

(** The hooks the module registers. *)
Definition CBN_PRIO_OFFSET : Z := 50.

Inductive hook_fn := H_cbn_egress_hook | H_cbn_ingress_hook.

Definition cbn_nf_hooks : list (nf_hook_ops hook_fn) := [
  MkHook H_cbn_egress_hook NF_INET_POST_ROUTING NF_IP_PRI_FIRST "TX";
  MkHook H_cbn_ingress_hook NF_INET_PRE_ROUTING (NF_IP_PRI_RAW + CBN_PRIO_OFFSET) "RX"].

(** What netfilter calls for one of them. *)
Definition run_hook (ops : nf_hook_ops hook_fn) (skb : sk_buff) : wproc (verdict * sk_buff) :=
  match hook ops with
  | H_cbn_egress_hook => cbn_egress_hook skb
  | H_cbn_ingress_hook => v ← cbn_ingress_hook (priv ops) skb; mret (v, skb)
  end.

(** conn_pool.c: the probe packet. *)
Definition probe_tcphdr (th : tcphdr) : tcphdr :=
  {| th_source := htons CBN_PROBE_PORT; th_dest := th_dest th; th_syn := th_syn th; th_ack := th_ack th;
     th_window := th_source th |}.

Definition start_probe_syn (arg : ptr) : wproc Z :=
  match arg with
  | PObj a =>
      probe ← kderef (λ w, probes w !! a) UseAfterFree;
      let th := probe_tcphdr (p_tcphdr probe) in
      kmodify (upd_probes <[a := {| p_iphdr := p_iphdr probe; p_tcphdr := th; p_listner := p_listner probe |}]>) ;;
      l ← load_listner (p_listner probe);
      _ ← sock_addr (l_raw l);
      rc ← kernel_call (C_sendmsg (l_raw l) 40);
      kmodify (add_log (E_send_raw (l_raw l) (p_iphdr probe) th (daddr (p_iphdr probe)))) ;;
      kmodify (upd_probes (delete a)) ;;
      mret rc
  | _ => oops NullDeref
  end.
End hooks.

(** ** What the hooks do *)

(** The four-tuple of a packet, as a QP key. *)
Definition syn_key (skb : sk_buff) : list Z :=
  mk_key (th_source (skb_transport_header skb)) (th_dest (skb_transport_header skb))
    (saddr (ip_hdr skb)) (daddr (ip_hdr skb)).

Definition addresses_key (x : addresses) : list Z :=
  mk_key (sin_port (src x)) (sin_port (dest x)) (s_addr (src x)) (s_addr (dest x)).

(** A probe of the SYN [syn] on its way out. *)
Definition is_probe_of (syn skb : sk_buff) : Prop :=
  ip_hdr skb = ip_hdr syn ∧ skb_transport_header skb = probe_tcphdr (skb_transport_header syn) ∧
  h_data (skb_headers skb) = [] ∧ skb_mark skb ≠ 0 ∧ protocol (ip_hdr syn) = IPPROTO_TCP.

Section hook_lemmas.
Context `{Env} `{RbLib Z}.
Implicit Types w : world.

(** Traffic without a mark passes untouched. *)
Lemma egress_unmarked skb w :
  skb_mark skb = 0 → cbn_egress_hook skb w = Ok ((NF_ACCEPT, skb), w).
Proof. intros Hm. unfold cbn_egress_hook. by rewrite Hm. Qed.

Lemma build_addresses_ok skb w :
  answer (tick w) ≠ 0 →
  ∃ a x w', build_addresses skb w = Ok (PObj a, w') ∧ next w ≤ a < next w' ∧ syns w' = <[a := x]> (syns (interfere w)) ∧
    addresses_key x = syn_key skb ∧ mark x = s32 (skb_mark skb) ∧
    log w' = E_call C_alloc (answer (tick w)) :: log w ∧ tick w' = S (tick w).
Proof.
  intros Ha. unfold build_addresses, slab_alloc. kpure. kstep (kernel_call_eq C_alloc w).
  apply Z.eqb_neq in Ha. rewrite Ha. rewrite kbind_assoc.
  match goal with |- context [(fresh_addr ≫= _) ?w1] => kstep (eq_refl (fresh_addr w1)) end.
  kpure. eexists _, _, _. split_and!; try reflexivity; simpl; lia.
Qed.

(** The hook on a probe: the record it makes of the connection. *)
Lemma egress_probe syn skb w :
  is_probe_of syn skb → answer (tick w) ≠ 0 →
  ∃ a x w', next w ≤ a < next w' ∧ syns w' = <[a := x]> (syns (interfere w)) ∧ addresses_key x = syn_key syn ∧
    mark x = s32 (skb_mark skb) ∧ log w' = E_call C_alloc (answer (tick w)) :: log w ∧ tick w' = S (tick w) ∧
    cbn_egress_hook skb w =
      (if is_out_gue skb then Ok ((NF_ACCEPT, set_cbn_probe skb (PObj a)), w')
       else Ok ((NF_DROP, skb),
         add_log (E_pool_run T_start_new_connection_syn (PObj a) 0 (Some (qp2cpu num_online_cpus (syn_key syn)))) w')).
Proof.
  intros (Hip & Htcp & _ & Hm & Hproto) Hans. apply Z.eqb_neq in Hm.
  destruct (build_addresses_ok skb w Hans) as (a & x & w1 & H1 & Hn & Hsyn & Hk & Hmk & Hl & Ht).
  assert (Hx : syns w1 !! a = Some x) by (by rewrite Hsyn, lookup_insert_eq).
  set (x' := set_src_port (th_window (skb_transport_header skb)) x).
  assert (Hk' : addresses_key x' = syn_key syn).
  { unfold addresses_key, syn_key, mk_key in *. unfold x'. rewrite Htcp. rewrite Hip, Htcp in Hk.
    apply app_inj_1 in Hk as [_ Hk]; [| by rewrite !length_le_bytes].
    cbn [set_src_port src dest sin_port s_addr probe_tcphdr th_window]. by rewrite Hk. }
  exists a, x', (upd_syns <[a := x']> w1). split; [exact Hn |]. split_and!; try done.
  { simpl. by rewrite Hsyn, insert_insert_eq. }
  unfold cbn_egress_hook. rewrite Hm, Hip, Hproto, Htcp.
  change (IPPROTO_TCP =? IPPROTO_TCP) with true.
  change (ntohs (th_source (probe_tcphdr (skb_transport_header syn))) =? CBP_PROBE_PORT) with true. cbv iota.
  kstep H1. rewrite decide_False by done. kstep (load_syn_ok w1 a x Hx). rewrite <- Htcp. cbv zeta.
  kstep (store_syn_ok w1 a x x' Hx). destruct (is_out_gue skb); [done |].
  rewrite <- Hk'. done.
Qed.

(** The hook on the encapsulated probe: the record comes back, with the next
    hop filled in. *)
Lemma egress_carried outer a x w :
  protocol (ip_hdr outer) = IPPROTO_UDP → skb_mark outer ≠ 0 → is_cbn_probe outer = true →
  head (h_data (skb_inner outer)) = Some (PObj a) → syns w !! a = Some x →
  cbn_egress_hook outer w =
    Ok ((NF_DROP, outer),
      add_log (E_pool_run T_start_new_pre_connection_syn (PObj a) 0
        (Some (qp2cpu num_online_cpus (addresses_key x))))
        (upd_syns <[a := set_next_hop (daddr (ip_hdr outer)) x]> w)).
Proof.
  intros Hp Hm Hprobe Hd Hx. apply Z.eqb_neq in Hm. unfold cbn_egress_hook.
  rewrite Hm, Hp, Hprobe. change (IPPROTO_UDP =? IPPROTO_TCP) with false.
  change (IPPROTO_UDP =? IPPROTO_UDP) with true. cbv iota. cbn [andb].
  unfold get_cbn_probe. destruct (h_data (skb_inner outer)) as [| p l]; [done |].
  injection Hd as ->. rewrite kbind_ret. rewrite decide_False by done.
  kstep (load_syn_ok w a x Hx). cbv zeta. by kstep (store_syn_ok w a x (set_next_hop (daddr (ip_hdr outer)) x) Hx).
Qed.

(** Whatever the packet, a marked TCP packet from the probe port is let
    out only on a gue device, and then with the record behind its headers. *)
Lemma egress_probe_contained skb w skb' w' :
  skb_mark skb ≠ 0 → protocol (ip_hdr skb) = IPPROTO_TCP →
  ntohs (th_source (skb_transport_header skb)) = CBP_PROBE_PORT →
  cbn_egress_hook skb w = Ok ((NF_ACCEPT, skb'), w') →
  is_out_gue skb = true ∧ ∃ a, skb' = set_cbn_probe skb (PObj a).
Proof.
  intros Hm Hp Hs. apply Z.eqb_neq in Hm. unfold cbn_egress_hook. rewrite Hm, Hp, Hs.
  change (IPPROTO_TCP =? IPPROTO_TCP) with true. change (CBP_PROBE_PORT =? CBP_PROBE_PORT) with true. cbv iota.
  intros Hr. apply kbind_inv in Hr as (p & w1 & _ & Hr). case_decide as Hn; [done |].
  apply kbind_inv in Hr as (x & w2 & Hx & Hr). apply kbind_inv in Hr as (u & w3 & _ & Hr).
  destruct (is_out_gue skb); [| done]. injection Hr as <- <-.
  destruct p as [| e | a]; [done | done |]. eauto.
Qed.

(** A SYN of a tenant with a listener: accepted, and one probe scheduled. *)
Lemma ingress_syn skb w l :
  trace_iph skb = true → search_rb_listner (listner_key w) (listner_root w) (skb_mark skb) = Some l →
  answer (tick w) ≠ 0 →
  ∃ p w', cbn_ingress_hook "RX" skb w = Ok (NF_ACCEPT, w') ∧
    probes w' = <[p := {| p_iphdr := ip_hdr skb; p_tcphdr := skb_transport_header skb; p_listner := PObj l |}]>
      (probes (interfere w)) ∧
    log w' = E_pool_run T_start_probe_syn (PObj p) 0 None :: E_call C_alloc (answer (tick w)) :: log w ∧
    tick w' = S (tick w).
Proof.
  intros Ht Hl Ha. unfold cbn_ingress_hook. rewrite decide_False by (by intros ?).
  assert (Hm : (skb_mark skb =? 0) = false).
  { unfold trace_iph in Ht. apply andb_true_iff in Ht as [_ Ht]. by apply negb_true_iff in Ht. }
  rewrite Hm. unfold search_listner. rewrite kbind_assoc. kpure. rewrite Hl, Ht.
  unfold slab_alloc. rewrite kbind_assoc. kstep (kernel_call_eq C_alloc w).
  apply Z.eqb_neq in Ha. rewrite Ha, kbind_assoc.
  match goal with |- context [(fresh_addr ≫= _) ?w1] => kstep (eq_refl (fresh_addr w1)) end.
  kpure. eexists _, _. split_and!; reflexivity.
Qed.

(** The hook never drops, and only a SYN of a known tenant schedules work. *)
Lemma ingress_never_drops priv skb w v w' :
  cbn_ingress_hook priv skb w = Ok (v, w') →
  v = NF_ACCEPT ∧
  (log w' = log w ∨ log w' = E_call C_alloc 0 :: log w ∨
   (trace_iph skb = true ∧ priv = "RX"%string ∧ ∃ l p r,
      search_rb_listner (listner_key w) (listner_root w) (skb_mark skb) = Some l ∧
      log w' = E_pool_run T_start_probe_syn (PObj p) 0 None :: E_call C_alloc r :: log w)).
Proof.
  unfold cbn_ingress_hook, search_listner, slab_alloc. intros Hr.
  case_decide as Hp; [injection Hr as <- <-; by auto |].
  destruct (skb_mark skb =? 0); [injection Hr as <- <-; by auto |].
  rewrite kbind_assoc, kbind_get in Hr. rewrite kbind_ret in Hr.
  destruct (search_rb_listner _ _ _) as [l |] eqn:El; [| injection Hr as <- <-; by auto].
  destruct (trace_iph skb); [| injection Hr as <- <-; by auto].
  rewrite kbind_assoc in Hr. kstep_in Hr (kernel_call_eq C_alloc w).
  destruct (Z.eqb_spec (answer (tick w)) 0) as [E | E].
  - injection Hr as <- <-. split; [done |]. right; left. simpl. by rewrite E.
  - injection Hr as <- <-. split; [done |]. right; right. split; [done |].
    split; [by destruct (decide (priv = "RX"%string)) |]. by eexists _, _, _.
Qed.

(** The probe goes out on the listener's raw socket, and its memory is
    released. *)
Lemma start_probe_sends w a pr l lst r st :
  probes w !! a = Some pr → p_listner pr = PObj l → listners w !! l = Some lst →
  l_raw lst = PObj r → socks w !! r = Some st →
  ∃ w', start_probe_syn (PObj a) w = Ok (answer (tick w), w') ∧ probes w' !! a = None ∧
    log w' = E_send_raw (PObj r) (p_iphdr pr) (probe_tcphdr (p_tcphdr pr)) (daddr (p_iphdr pr))
      :: E_call (C_sendmsg (PObj r) 40) (answer (tick w)) :: log w ∧ tick w' = S (tick w).
Proof.
  intros Hpr Hl Hlst Hraw Hst. unfold start_probe_syn.
  erewrite kbind_deref by exact Hpr. cbv beta zeta. rewrite kbind_modify. set (w1 := upd_probes _ w).
  rewrite Hl. kstep (load_listner_ok w1 l lst Hlst). rewrite Hraw.
  kstep (sock_addr_ok w1 r st Hst). kstep (kernel_call_eq (C_sendmsg (PObj r) 40) w1). kpure.
  eexists. split_and!; [reflexivity | | reflexivity | reflexivity]. simpl. apply lookup_delete_eq.
Qed.

(** C23. A SYN, from the wire to the thread that will make the second half:
    the ingress hook accepts it and schedules a probe; the probe is sent on
    the raw socket of the listener; the egress hook, meeting it on a device
    that is not a gue tunnel, schedules [start_new_connection_syn] with the
    SYN's own four-tuple, on the core this four-tuple selects. *)
Theorem syn_starts_second_half syn w0 l :
  trace_iph syn = true → search_rb_listner (listner_key w0) (listner_root w0) (skb_mark syn) = Some l →
  answer (tick w0) ≠ 0 →
  ∃ p w1 pr, cbn_ingress_hook "RX" syn w0 = Ok (NF_ACCEPT, w1) ∧
    head (log w1) = Some (E_pool_run T_start_probe_syn (PObj p) 0 None) ∧ probes w1 !! p = Some pr ∧
  ∀ w lst r st, probes w !! p = Some pr → listners w !! l = Some lst → l_raw lst = PObj r →
    socks w !! r = Some st →
  ∃ w2 ip th d, start_probe_syn (PObj p) w = Ok (answer (tick w), w2) ∧
    head (log w2) = Some (E_send_raw (PObj r) ip th d) ∧
  ∀ skb w3, skb_headers skb = MkHeaders ip th [] → skb_mark skb = skb_mark syn → is_out_gue skb = false →
    answer (tick w3) ≠ 0 →
  ∃ b x w', cbn_egress_hook skb w3 = Ok ((NF_DROP, skb), w') ∧
    syns w' !! b = Some x ∧ addresses_key x = syn_key syn ∧ mark x = s32 (skb_mark syn) ∧
    head (log w') = Some (E_pool_run T_start_new_connection_syn (PObj b) 0
      (Some (qp2cpu num_online_cpus (syn_key syn)))).
Proof.
  intros Ht Hl Ha0. destruct (ingress_syn syn w0 l Ht Hl Ha0) as (p & w1 & Hin & Hpr & Hlog & _).
  eexists p, w1, _. split_and!; [done | by rewrite Hlog | by rewrite Hpr, lookup_insert_eq |].
  intros w lst r st Hp Hlst Hraw Hst.
  destruct (start_probe_sends w p _ l lst r st Hp eq_refl Hlst Hraw Hst) as (w2 & Hrun & _ & Hlog2 & _).
  eexists w2, _, _, _. split_and!; [done | by rewrite Hlog2 |].
  intros skb w3 Hskb Hmark Hgue Hans.
  assert (Hof : is_probe_of syn skb).
  { unfold trace_iph in Ht. apply andb_true_iff in Ht as [Ht Hm].
    destruct (Z.eqb_spec (protocol (ip_hdr syn)) 6) as [Hproto |]; [| done].
    apply negb_true_iff, Z.eqb_neq in Hm.
    unfold is_probe_of, ip_hdr at 1, skb_transport_header at 1. rewrite Hskb, Hmark. by split_and!. }
  destruct (egress_probe syn skb w3 Hof Hans) as (b & x & w' & _ & Hs & Hk & Hmk & _ & _ & ->).
  rewrite Hgue. eexists b, x, _. split; [reflexivity |]. split_and!; try done.
  - simpl. by rewrite Hs, lookup_insert_eq.
  - by rewrite Hmk, Hmark.
Qed.
End hook_lemmas.

(** ** Through the tunnel *)

Section tunnel.
Context `{Env} `{RbLib Z}.

(** What the tunnel devices of the kernel do to a packet: IP in IP in UDP, the
    mark kept. *)
Variable encap : sk_buff → sk_buff.
Hypothesis encap_udp : ∀ skb, protocol (ip_hdr (encap skb)) = IPPROTO_UDP.
Hypothesis encap_ipip : ∀ skb, inner_protocol (encap skb) = IPPROTO_IPIP.
Hypothesis encap_inner : ∀ skb, skb_inner (encap skb) = skb_headers skb.
Hypothesis encap_mark : ∀ skb, skb_mark (encap skb) = skb_mark skb.

(** C24. The record put behind the probe's headers on a gue device is the one
    read back from the tunnel packet, wherever the record still lives: the
    pre-connected half starts with the SYN's four-tuple, the tunnel's
    destination as next hop, and on the same core. *)
Theorem probe_through_tunnel syn skb w w2 :
  is_probe_of syn skb → is_out_gue skb = true → answer (tick w) ≠ 0 →
  ∃ a x skb' w', cbn_egress_hook skb w = Ok ((NF_ACCEPT, skb'), w') ∧
    syns w' !! a = Some x ∧ addresses_key x = syn_key syn ∧
    (syns w2 !! a = Some x →
     cbn_egress_hook (encap skb') w2 =
       Ok ((NF_DROP, encap skb'),
         add_log (E_pool_run T_start_new_pre_connection_syn (PObj a) 0
           (Some (qp2cpu num_online_cpus (syn_key syn))))
           (upd_syns <[a := set_next_hop (daddr (ip_hdr (encap skb'))) x]> w2))).
Proof.
  intros Hof Hgue Hans.
  destruct (egress_probe syn skb w Hof Hans) as (a & x & w' & _ & Hs & Hk & _ & _ & _ & ->). rewrite Hgue.
  eexists a, x, _, _. split; [reflexivity |]. split_and!; [by rewrite Hs, lookup_insert_eq | done |].
  intros Hx. destruct Hof as (Hip & Htcp & Hd & Hm & Hproto). rewrite <- Hk. apply egress_carried; try done.
  - by rewrite encap_mark.
  - unfold is_cbn_probe. rewrite encap_ipip, encap_inner. simpl. fold (ip_hdr skb). rewrite Hip, Hproto.
    simpl. fold (skb_transport_header skb). by rewrite Htcp.
  - rewrite encap_inner. simpl. by rewrite Hd.
Qed.
End tunnel.

(** ** Concrete packets *)

Definition no_headers : headers :=
  {| h_ip := {| protocol := 0; saddr := 0; daddr := 0 |};
     h_tcp := {| th_source := 0; th_dest := 0; th_syn := false; th_ack := false; th_window := 0 |};
     h_data := [] |}.

(** A TCP packet on eth0, its ports in network order. *)
Definition tcp_packet (mark src dst sport dport : Z) (syn : bool) : sk_buff := {|
  skb_mark := mark;
  skb_headers := {|
    h_ip := {| protocol := IPPROTO_TCP; saddr := src; daddr := dst |};
    h_tcp := {| th_source := sport; th_dest := dport; th_syn := syn; th_ack := negb syn; th_window := 512 |};
    h_data := [] |};
  dev_name := [101; 116; 104; 48];
  inner_protocol := 0;
  skb_inner := no_headers;
|}.

(** The SYN of a client of tenant 7, and its listener 9 with raw socket 31. *)
Definition some_syn : sk_buff := tcp_packet 7 16909060 84281096 4660 20480 true.
Definition tenant_world : world :=
  upd_socks <[31 := S_open]> (upd_listners <[9 := MkListner 7 80 6 (PObj 30) (PObj 31)]>
    (set_listner_root (Node Leaf 9 Leaf) (empty_world 100))).

(** The probe as the stack sends it out on a device. *)
Definition probe_packet (dev : list Z) (ip : iphdr) (th : tcphdr) : sk_buff :=
  MkSkb 7 (MkHeaders ip th []) dev 0 no_headers.

Lemma syn_starts_second_half_witness :
  ∃ p w1 w w2 ip th d b x w',
    @cbn_ingress_hook (always 1) "RX" some_syn tenant_world = Ok (NF_ACCEPT, w1) ∧
    @start_probe_syn (always 1) (PObj p) w = Ok (1, w2) ∧ head (log w2) = Some (E_send_raw (PObj 31) ip th d) ∧
    @cbn_egress_hook (always 1) (probe_packet [] ip th) w2 = Ok ((NF_DROP, probe_packet [] ip th), w') ∧
    syns w' !! b = Some x ∧ addresses_key x = syn_key some_syn.
Proof.
  destruct (@syn_starts_second_half (always 1) some_syn tenant_world 9) as (p & w1 & pr & H1 & _ & Hpr & Hnext);
    [done | by vm_compute | done |].
  destruct (Hnext (upd_probes (λ _, probes w1) tenant_world) (MkListner 7 80 6 (PObj 30) (PObj 31)) 31 S_open)
    as (w2 & ip & th & d & H2 & Hl & Hlast); [exact Hpr | done | done | done |].
  destruct (Hlast (probe_packet [] ip th) w2) as (b & x & w' & H3 & Hb & Hx & _); [done | done | done | done |].
  by exists p, w1, (upd_probes (λ _, probes w1) tenant_world), w2, ip, th, d, b, x, w'.
Defined.

(** A tunnel that wraps a packet for the next hop. *)
Definition gue_encap (skb : sk_buff) : sk_buff := MkSkb (skb_mark skb)
  (MkHeaders {| protocol := IPPROTO_UDP; saddr := 1; daddr := 2 |} (h_tcp no_headers) [])
  (dev_name skb) IPPROTO_IPIP (skb_headers skb).

Definition gue_probe : sk_buff :=
  probe_packet [103; 117; 101; 49] (ip_hdr some_syn) (probe_tcphdr (skb_transport_header some_syn)).

Definition after_probe : world :=
  match @cbn_egress_hook (always 1) gue_probe tenant_world with Ok (_, w) => w | Oops _ => tenant_world end.

Lemma probe_through_tunnel_witness :
  ∃ skb' w'', @cbn_egress_hook (always 1) gue_probe tenant_world = Ok ((NF_ACCEPT, skb'), after_probe) ∧
    @cbn_egress_hook (always 1) (gue_encap skb') after_probe = Ok ((NF_DROP, gue_encap skb'), w'').
Proof.
  destruct (@probe_through_tunnel (always 1) gue_encap) with (syn := some_syn) (skb := gue_probe)
    (w := tenant_world) (w2 := after_probe) as (a & x & skb' & w' & Hrun & Hs & _ & Hcar); try done.
  assert (E : after_probe = w') by (unfold after_probe; by rewrite Hrun).
  rewrite <- E in Hrun, Hs. eexists skb', _. split; [exact Hrun | exact (Hcar Hs)].
Defined.

Lemma egress_probe_contained_witness :
  ∃ a skb' w', @cbn_egress_hook (always 1) gue_probe tenant_world = Ok ((NF_ACCEPT, skb'), w') ∧
    is_out_gue gue_probe = true ∧ skb' = set_cbn_probe gue_probe (PObj a).
Proof.
  destruct (@cbn_egress_hook (always 1) gue_probe tenant_world) as [[[v skb'] w'] | e] eqn:E; [| by vm_compute in E].
  assert (v = NF_ACCEPT) as -> by (vm_compute in E; congruence).
  destruct (@egress_probe_contained (always 1) gue_probe tenant_world skb' w') as [Hg [a Ha]]; try done.
  by exists a, skb', w'.
Defined.
