(* ===== verification/Connect.v ===== *)
(** * The two halves of a split connection (split.c)

    [start_new_connection] serves the client side: it has the accepted socket,
    learns the four-tuple from it, moves to the core the four-tuple selects and
    meets the other half in the tree of that core.
    [start_new_connection_syn], started by the probe on the same core, makes
    the socket to the server. *)

From stdpp Require Import base list gmap sets.
From Stdlib Require Import ZArith Lia.
From S2P Require Import Prelude RbTree Keys DataTree World Qp Relay Hooks.

Definition AF_INET : Z := 2.

Section connect.
Context `{Env} `{RbLib Z}.

(** A new QP for the addresses of a SYN, its server side in progress. *)
Definition syn_qp (x : addresses) (listner : ptr) : cbn_qp :=
  MkQp (addresses_key x) 0 listner (PErr EINVAL) PNull.

(** [addresses->src] prepared for a transparent bind. *)
Definition bind_any_port (x : addresses) : addresses :=
  {| dest := dest x; src := {| sin_family := AF_INET; sin_port := 0; s_addr := s_addr (src x) |};
     sin_addr := sin_addr x; mark := mark x |}.

(** Lines 638-655: with [ip_transparent] set, bind to the client's address. *)
Definition bind_transparent (arg tx : ptr) : wproc Z :=
  w ← kget;
  if ip_transparent w =? 0 then mret 0
  else
    rc ← kernel_setsockopt tx O_IP_TRANSPARENT 1;
    if negb (rc =? 0) then mret rc
    else
      x ← load_syn arg;
      store_syn arg (bind_any_port x) ;;
      kernel_bind tx 0 (s_addr (src x)).

(** Lines 628-661: the first request that fails decides the result. *)
Definition syn_connect (arg tx : ptr) : wproc Z :=
  x ← load_syn arg;
  rc ← kernel_setsockopt tx O_TCP_NODELAY 1;
  if rc <? 0 then mret rc
  else
    rc ← kernel_setsockopt tx O_SO_MARK (mark x);
    if rc <? 0 then mret rc
    else
      rc ← bind_transparent arg tx;
      if negb (rc =? 0) then mret rc
      else kernel_connect tx (sin_port (dest x)) (s_addr (dest x)).

(** The label [connect_fail]. *)
Definition connect_fail (tx : ptr) (rc : Z) : wproc (option Z) :=
  (if IS_ERR_OR_NULL tx then mret tt else sock_release tx) ;; mret (Some rc).

(** Lines 668-681. *)
Definition syn_relay (fuel : nat) (cpu : Z) (qp : ptr) (rc : Z) : wproc (option Z) :=
  err ← wait_qp_ready cpu qp TX_QP;
  if negb (err =? 0) then connect_fail PNull rc
  else
    q ← load_qp qp;
    if IS_ERR_OR_NULL (q_rx q) || IS_ERR_OR_NULL (q_tx q) then
      _ ← put_qp qp;
      connect_fail PNull rc
    else
      r ← half_duplex fuel (MkSockets (q_tx q) (q_rx q) 1) qp;
      match r with
      | Some rc => connect_fail PNull rc
      | None => mret None
      end.

(** Lines 608-690: from the tree on. *)
Definition syn_half (fuel : nat) (cpu : Z) (arg pqp : ptr) : wproc (option Z) :=
  qp ← qp_exists cpu pqp TX_QP;
  if decide (qp = PNull) then free_syn arg ;; mret (Some 0)
  else
    '(rc, tx) ← sock_create_kern;
    if negb (rc =? 0) then connect_fail tx rc
    else
      rc ← syn_connect arg tx;
      if negb (rc =? 0) then connect_fail tx rc
      else
        q ← load_qp qp;
        store_qp qp (set_qp_dir TX_QP tx q) ;;
        free_syn arg ;;
        syn_relay fuel cpu qp rc.

Definition start_new_connection_syn (fuel : nat) (cpu : Z) (arg : ptr) : wproc (option Z) :=
  x ← load_syn arg;
  pqp ← alloc_qp;
  _ ← load_qp pqp;
  listner ← search_listner (mark x);
  store_qp pqp (syn_qp x (ptr_of listner)) ;;
  syn_half fuel cpu arg pqp.

(** The label [create_fail] of [start_new_connection]. *)
Definition create_fail (rx : ptr) (rc : Z) : wproc (option Z) :=
  (if decide (rx = PNull) then mret tt else sock_release rx) ;; mret (Some rc).

(** Lines 779-800: meet the other half on this core and relay. *)
Definition client_relay (fuel : nat) (cpu : Z) (arg : ptr) : wproc (option Z) :=
  qp ← qp_exists cpu arg RX_QP;
  err ← wait_qp_ready cpu qp RX_QP;
  if negb (err =? 0) then create_fail PNull 0
  else
    q ← load_qp qp;
    if IS_ERR_OR_NULL (q_rx q) || IS_ERR_OR_NULL (q_tx q) then create_fail PNull 0
    else
      r ← half_duplex fuel (MkSockets (q_rx q) (q_tx q) 0) qp;
      match r with
      | Some _ => create_fail PNull 0
      | None => mret None
      end.

Definition start_new_connection (fuel : nat) (arg : ptr) : wproc (option Z) :=
  q ← load_qp arg;
  let rx := q_rx q in
  let mark := key_tid (q_key q) in
  rc ← kernel_setsockopt rx O_SO_MARK mark;
  if rc <? 0 then create_fail rx rc
  else
    '(rc, addr) ← kernel_query (C_getsockopt rx O_SO_ORIGINAL_DST) rx;
    if negb (rc =? 0) then create_fail rx rc
    else
      rc ← kernel_setsockopt rx O_TCP_NODELAY 1;
      if rc <? 0 then create_fail rx rc
      else
        '(rc, cli_addr) ← kernel_query (C_getpeername rx) rx;
        if negb (rc =? 0) then create_fail rx rc
        else
          let key := mk_key (sin_port cli_addr) (sin_port addr) (s_addr cli_addr) (s_addr addr) in
          let cpu := qp2cpu num_online_cpus key in
          store_qp arg (set_key key q) ;;
          rc ← kernel_call (C_setaffinity (Some cpu));
          if negb (rc =? 0) then create_fail rx rc
          else
            preempt ;;
            q ← load_qp arg;
            store_qp arg (set_qp_dir TX_QP PNull q) ;;
            client_relay fuel cpu arg.
End connect.

Section connect_lemmas.
Context `{Quiet} `{RbLaws Z}.
Implicit Types w : world.

(** Everything but the clock, the history and the pending SYNs. *)
Definition same_objects w w' : Prop :=
  qps w' = qps w ∧ listners w' = listners w ∧ listner_root w' = listner_root w ∧ roots w' = roots w ∧
  socks w' = socks w ∧ next w' = next w ∧ rest w' = rest w ∧ same_wakes w w'.

(** The requests that make the connection, latest first: the tenant's mark on
    the socket, the client's address bound if the proxy is transparent, and the
    server the SYN was for. *)
Definition bind_requests (transparent k : Z) (x : addresses) : list event :=
  if transparent =? 0 then []
  else [E_call (C_bind (PObj k) 0 (s_addr (src x))) 0; E_call (C_setsockopt (PObj k) O_IP_TRANSPARENT 1) 0].

Definition server_requests (transparent k : Z) (x : addresses) : list event :=
  E_call (C_connect (PObj k) (sin_port (dest x)) (s_addr (dest x))) 0 :: bind_requests transparent k x ++
  [E_call (C_setsockopt (PObj k) O_SO_MARK (mark x)) 0; E_call (C_setsockopt (PObj k) O_TCP_NODELAY 1) 0].

Lemma bind_transparent_total w s k x st :
  syns w !! s = Some x → socks w !! k = Some st →
  ∃ rc w', bind_transparent (PObj s) (PObj k) w = Ok (rc, w') ∧ same_objects w w' ∧
    (∃ y, syns w' = <[s := y]> (syns w)) ∧
    (answer (tick w) = 0 → answer (S (tick w)) = 0 →
      rc = 0 ∧ log w' = bind_requests (ip_transparent w) k x ++ log w) ∧
    (tick w ≤ tick w' ≤ tick w + 2)%nat ∧ (ip_transparent w = 0 → rc = 0 ∧ tick w' = tick w).
Proof.
  intros Hx Hs. unfold bind_transparent, bind_requests. kpure. destruct (Z.eqb_spec (ip_transparent w) 0) as [E | E].
  { eexists _, _. split_and!; try done; try lia. exists x. by rewrite insert_id. }
  kstep (setsockopt_quiet w k st O_IP_TRANSPARENT 1 Hs). set (w1 := ticked _ w).
  destruct (Z.eqb_spec (answer (tick w)) 0) as [Ea | Ea]; cbn [negb].
  - kstep (load_syn_ok w1 s x Hx). kstep (store_syn_ok w1 s x (bind_any_port x) Hx).
    set (w2 := upd_syns _ w1). eexists _, _.
    split; [exact (bind_quiet w2 k st 0 (s_addr (src x)) Hs) |]. split_and!; try done; try (simpl; lia); [by eexists |].
    intros _ Eb. split; [done |]. simpl. by rewrite Eb, Ea.
  - eexists _, _. split; [reflexivity |]. split_and!; try done; try (simpl; lia).
    exists x. by rewrite insert_id.
Qed.

(** Making the server side's connection touches no shared object, and
    succeeds exactly when every request does. *)
Lemma syn_connect_total w s k x st :
  syns w !! s = Some x → socks w !! k = Some st →
  ∃ rc w', syn_connect (PObj s) (PObj k) w = Ok (rc, w') ∧ same_objects w w' ∧
    (∃ y, syns w' = <[s := y]> (syns w)) ∧
    ((∀ i, (i < 5)%nat → answer (tick w + i)%nat = 0) →
      rc = 0 ∧ log w' = server_requests (ip_transparent w) k x ++ log w) ∧
    (answer (tick w) < 0 → rc = answer (tick w)) ∧
    (ip_transparent w = 0 → 0 ≤ answer (tick w) → 0 ≤ answer (S (tick w)) → rc = answer (S (S (tick w)))).
Proof.
  intros Hx Hs. unfold syn_connect, server_requests. kstep (load_syn_ok w s x Hx).
  kstep (setsockopt_quiet w k st O_TCP_NODELAY 1 Hs). set (w1 := ticked _ w).
  destruct (Z.ltb_spec (answer (tick w)) 0) as [E0 | E0].
  { eexists _, _. split; [reflexivity |]. split_and!; try done; [by exists x; rewrite insert_id | | lia].
    intros Hall. specialize (Hall 0%nat). rewrite Nat.add_0_r in Hall. lia. }
  kstep (setsockopt_quiet w1 k st O_SO_MARK (mark x) Hs). set (w2 := ticked _ w1).
  change (tick w1) with (S (tick w)).
  destruct (Z.ltb_spec (answer (S (tick w))) 0) as [E1 | E1].
  { eexists _, _. split; [reflexivity |]. split_and!; try done; [by exists x; rewrite insert_id | | lia | lia].
    intros Hall. specialize (Hall 1%nat). rewrite Nat.add_1_r in Hall. lia. }
  destruct (bind_transparent_total w2 s k x st Hx Hs) as (rc & w3 & Hb & Hsame & [y Hy] & Hok & Ht & Htr).
  kstep Hb. change (tick w2) with (S (S (tick w))) in *. change (ip_transparent w2) with (ip_transparent w) in *.
  assert (Hok' : (∀ i, (i < 5)%nat → answer (tick w + i)%nat = 0) → rc = 0 ∧ log w3 = bind_requests (ip_transparent w) k x ++ log w2).
  { intros Hall. apply Hok; [specialize (Hall 2%nat ltac:(lia)) | specialize (Hall 3%nat ltac:(lia))];
      revert Hall; rewrite Nat.add_comm; done. }
  destruct (Z.eqb_spec rc 0) as [E2 | E2]; cbn [negb].
  - assert (Hs3 : socks w3 !! k = Some st) by (destruct Hsame as (_ & _ & _ & _ & -> & _); exact Hs).
    eexists _, _. split; [exact (connect_quiet w3 k st _ _ Hs3) |].
    split_and!; [exact Hsame | exists y; exact Hy | | lia |].
    + intros Hall. destruct (Hok' Hall) as [_ Hlog]. pose proof (Hall 0%nat ltac:(lia)) as A0.
      pose proof (Hall 1%nat ltac:(lia)) as A1. specialize (Hall (tick w3 - tick w)%nat ltac:(lia)).
      replace (tick w + (tick w3 - tick w))%nat with (tick w3) in Hall by lia.
      rewrite Nat.add_0_r in A0. rewrite Nat.add_1_r in A1. split; [done |]. simpl. rewrite Hall, Hlog, <- app_assoc. simpl.
      by rewrite A0, A1.
    + intros Hz _ _. by destruct (Htr Hz) as [_ ->].
  - eexists _, _. split; [reflexivity |].
    split_and!; [exact Hsame | exists y; exact Hy | | lia | by intros Hz; destruct (Htr Hz)].
    intros Hall. by destruct (Hok' Hall).
Qed.

(** The QP a server-side half starts with. *)
Definition syn_world w (x : addresses) (l : Z) : world :=
  upd_qps <[next w := syn_qp x (PObj l)]>
    (upd_qps <[next w := garbage (tick w)]> (set_next (next w + 1) (ticked C_alloc w))).

(** A SYN of a tenant whose listener is [l], its tree [t] on this core. *)
Definition syn_ready w s (x : addresses) l cpu t : Prop :=
  syns w !! s = Some x ∧ search_rb_listner (listner_key w) (listner_root w) (mark x) = Some l ∧
  has_root w l cpu t ∧ root_ok w t ∧ qps w !! next w = None ∧ socks w !! (next w + 1) = None ∧
  answer (tick w) ≠ 0.

(** The start of the server-side half, up to the tree. *)
Lemma syn_starts fuel cpu w s x l t :
  syn_ready w s x l cpu t →
  qp_fresh (syn_world w x l) (next w) (syn_qp x (PObj l)) l cpu t ∧
  start_new_connection_syn fuel cpu (PObj s) w =
    syn_half fuel cpu (PObj s) (PObj (next w)) (syn_world w x l).
Proof.
  intros (Hx & Hl & Hr & Hok & Hfresh & _ & Ha).
  assert (Hn : next w ∉ inorder t).
  { intros Hin. destruct (proj2 Hok _ Hin) as [q Hq]. by rewrite Hfresh in Hq. }
  split.
  - split_and!; try done; [simpl; apply lookup_insert_eq | | apply mk_key_good].
    eapply root_ok_ext; [| exact Hok]. intros y Hy. destruct (proj2 Hok y Hy) as [q Hq].
    assert (y ≠ next w) by (intros ->; done). unfold node_key. simpl.
    rewrite !lookup_insert_ne by done. by rewrite Hq.
  - unfold start_new_connection_syn. kstep (load_syn_ok w s x Hx). kstep (alloc_qp_quiet w Ha).
    set (w1 := upd_qps _ (set_next _ _)).
    assert (Hq1 : qps w1 !! next w = Some (garbage (tick w))) by (simpl; apply lookup_insert_eq).
    kstep (load_qp_ok w1 _ _ Hq1). unfold search_listner. rewrite kbind_assoc. kpure.
    change (search_rb_listner (listner_key w1) (listner_root w1) (mark x))
      with (search_rb_listner (listner_key w) (listner_root w) (mark x)). rewrite Hl.
    by kstep (store_qp_ok w1 _ _ (syn_qp x (PObj l)) Hq1).
Qed.

(** The end of the server-side half, once its socket is connected and its
    peer is there. *)
Lemma syn_relay_peer fuel w a q l cpu t tx rx rc :
  qp_half w a q l cpu t TX_QP tx → ref_cnt q = 1 → q_rx q = PObj rx →
  syn_relay fuel cpu (PObj a) rc w =
    half_duplex fuel (MkSockets (PObj tx) (PObj rx) 1) (PObj a)
      (add_log (E_wake a) (upd_roots <[(l, cpu) := de_tree_qp a t]> (upd_qps <[a := set_ref 2 q]> w))).
Proof.
  intros Hh Href Hrx. pose proof Hh as (Hq & _ & _ & _ & Htx & _). change (q_tx q = PObj tx) in Htx.
  unfold syn_relay. kstep (wait_qp_ready_peer w a q l cpu t TX_QP tx rx Hh Href Hrx).
  change (negb (0 =? 0)) with false. cbv iota. set (w1 := add_log _ _).
  assert (Hq1 : qps w1 !! a = Some (set_ref 2 q)) by (simpl; apply lookup_insert_eq).
  kstep (load_qp_ok w1 a _ Hq1). change (q_rx (set_ref 2 q)) with (q_rx q).
  change (q_tx (set_ref 2 q)) with (q_tx q). rewrite Htx, Hrx. cbn [IS_ERR_OR_NULL orb].
  unfold mbind, kproc_bind. by destruct (half_duplex _ _ _ w1) as [[[r |] w2] |].
Qed.

(** C11. The client side waits in the tree and the kernel grants every
    request: the server-side half joins its QP, makes a socket, gives it the
    tenant's mark, binds it to the client's address if the proxy is
    transparent, connects it to the server the SYN was for, takes the QP out
    of the tree with both references counted, releases the SYN record, wakes
    the client side, and relays from the new socket to the client's; it makes
    no other request. *)
Theorem second_half_relays fuel cpu w s x l t b q rx :
  syn_ready w s x l cpu t →
  b ∈ inorder t → qps w !! b = Some q → same_cstr w b (addresses_key x) →
  ref_cnt q = 1 → q_listner q = PObj l → q_tx q = PNull → q_rx q = PObj rx →
  (∀ i, (1 ≤ i ≤ 6)%nat → answer (tick w + i)%nat = 0) →
  let tx := next w + 1 in
  ∃ w', start_new_connection_syn fuel cpu (PObj s) w
      = half_duplex fuel (MkSockets (PObj tx) (PObj rx) 1) (PObj b) w' ∧
    qps w' !! b = Some (MkQp (q_key q) 2 (PObj l) (PObj tx) (PObj rx)) ∧
    (∀ y, y ≠ b → qps w' !! y = qps w !! y) ∧
    roots w' !! (l, cpu) = Some (de_tree_qp b t) ∧
    syns w' !! s = None ∧ socks w' = <[tx := S_open]> (socks w) ∧
    log w' = E_wake b :: server_requests (ip_transparent w) tx x ++
      E_call C_sock_create 0 :: E_free_qp (next w) :: E_call C_alloc (answer (tick w)) :: log w.
Proof.
  intros Hready Hb Hqb Hcs Href Hlb Htx Hrx Hans tx.
  destruct (syn_starts fuel cpu w s x l t Hready) as [Hfr ->]. unfold syn_half.
  destruct Hready as (Hx & _ & [Hl Hr] & Hok & Hfresh & Hsock & Ha).
  assert (Hbn : b ≠ next w) by (intros ->; by rewrite Hfresh in Hqb).
  set (w1 := syn_world w x l) in *.
  assert (Hqb1 : qps w1 !! b = Some q) by (simpl; by rewrite !lookup_insert_ne).
  assert (Hcs1 : same_cstr w1 b (addresses_key x)).
  { unfold same_cstr, node_key in *. rewrite Hqb in Hcs. by rewrite Hqb1. }
  kstep (qp_exists_join w1 cpu (next w) _ l t TX_QP b q Hfr Hb Hqb1 Hcs1 Htx).
  rewrite decide_False by done. set (w2 := add_log _ _).
  assert (Ha2 : answer (tick w2) = 0) by (specialize (Hans 1%nat ltac:(lia)); by rewrite Nat.add_1_r in Hans).
  kstep (sock_create_quiet w2 Ha2). change (negb (0 =? 0)) with false. cbv iota.
  change (next w2) with tx. set (w3 := upd_socks _ _).
  assert (Hs3 : socks w3 !! tx = Some S_open) by (simpl; apply lookup_insert_eq).
  destruct (syn_connect_total w3 s tx x S_open Hx Hs3)
    as (rc & w4 & Hc & (Eq & El & _ & Er & Es & _) & [y Ey] & Hok4 & _).
  destruct Hok4 as [-> Hlog4].
  { intros i Hi. specialize (Hans (S (S i)) ltac:(lia)). simpl tick. by rewrite !Nat.add_succ_r in Hans. }
  kstep Hc. change (negb (0 =? 0)) with false. cbv iota.
  set (q4 := set_qp_dir TX_QP (PErr EINVAL) q) in *.
  assert (Hq4 : qps w4 !! b = Some q4).
  { rewrite Eq. simpl. rewrite lookup_delete_ne, lookup_insert_eq; done. }
  kstep (load_qp_ok w4 b q4 Hq4). set (q5 := set_qp_dir TX_QP (PObj tx) q4).
  kstep (store_qp_ok w4 b q4 q5 Hq4). set (w5 := upd_qps _ w4).
  assert (Hs5 : syns w5 !! s = Some y) by (simpl; rewrite Ey; apply lookup_insert_eq).
  kstep (free_syn_ok w5 s y Hs5). set (w6 := upd_syns _ w5).
  assert (Hhalf : qp_half w6 b q5 l cpu t TX_QP tx).
  { split_and!; try done; [simpl; apply lookup_insert_eq | split | simpl; by rewrite Es, Hs3].
    - simpl. by rewrite El.
    - simpl. rewrite Er. simpl. apply lookup_insert_eq. }
  rewrite (syn_relay_peer fuel w6 b q5 l cpu t tx rx 0 Hhalf Href Hrx).
  eexists. split; [reflexivity |]. split_and!.
  - simpl. rewrite lookup_insert_eq. f_equal. unfold q5, q4. clear -Hlb Hrx. destruct q; simpl in *; subst; done.
  - intros z Hz. simpl. rewrite !lookup_insert_ne, Eq by done. simpl.
    destruct (decide (z = next w)) as [-> |]; [by rewrite lookup_delete_eq |].
    by rewrite lookup_delete_ne, !lookup_insert_ne by done.
  - simpl. apply lookup_insert_eq.
  - simpl. rewrite Ey. apply lookup_delete_eq.
  - simpl. by rewrite Es.
  - change (answer (S (tick w)) = 0) in Ha2. simpl. rewrite Hlog4. unfold w3. simpl. by rewrite Ha2.
Qed.

(** The server refuses: the socket is released, but the half's QP stays
    in the tree, its server side marked in progress for ever, and the SYN
    record is never freed. *)
Lemma connect_refused_leaks fuel cpu w s x l t :
  syn_ready w s x l cpu t → (∀ y, y ∈ inorder t → ¬ same_cstr w y (addresses_key x)) →
  ip_transparent w = 0 → answer (tick w + 1)%nat = 0 → 0 ≤ answer (tick w + 2)%nat →
  0 ≤ answer (tick w + 3)%nat → answer (tick w + 4)%nat ≠ 0 →
  ∃ w' t', start_new_connection_syn fuel cpu (PObj s) w = Ok (Some (answer (tick w + 4)%nat), w') ∧
    socks w' = socks w ∧ roots w' !! (l, cpu) = Some t' ∧ next w ∈ inorder t' ∧
    qps w' !! next w = Some (syn_qp x (PObj l)) ∧ is_Some (syns w' !! s).
Proof.
  intros Hready Hne Htr A1 A2 A3 A4.
  destruct (syn_starts fuel cpu w s x l t Hready) as [Hfr ->]. unfold syn_half.
  destruct Hready as (Hx & _ & _ & Hok & Hfresh & Hsock & _). set (w1 := syn_world w x l) in *.
  assert (Hne1 : ∀ y, y ∈ inorder t → ¬ same_cstr w1 y (q_key (syn_qp x (PObj l)))).
  { intros y Hy Hc. apply (Hne y Hy). destruct (proj2 Hok y Hy) as [q Hq].
    assert (y ≠ next w) by (intros ->; congruence).
    assert (E : node_key w1 y = node_key w y) by (unfold node_key; simpl; by rewrite !lookup_insert_ne).
    unfold same_cstr in *. by rewrite E in Hc. }
  destruct (qp_exists_new w1 cpu (next w) _ l t TX_QP Hfr Hne1) as (t' & He & Hp & _). kstep He.
  rewrite decide_False by done. set (w2 := upd_roots _ w1).
  rewrite Nat.add_1_r in A1. kstep (sock_create_quiet w2 A1). change (negb (0 =? 0)) with false. cbv iota.
  set (tx := next w2). set (w3 := upd_socks _ _).
  assert (Hs3 : socks w3 !! tx = Some S_open) by (simpl; apply lookup_insert_eq).
  destruct (syn_connect_total w3 s tx x S_open Hx Hs3)
    as (rc & w4 & Hc & (Eq & El & _ & Er & Es & _) & [y Ey] & _ & _ & Hrc).
  kstep Hc. rewrite !Nat.add_succ_r, Nat.add_0_r in *.
  specialize (Hrc Htr A2 A3). change (tick w3) with (S (S (tick w))) in Hrc. rewrite Hrc.
  rewrite (proj2 (Z.eqb_neq _ 0) A4). cbn [negb]. unfold connect_fail. cbn [IS_ERR_OR_NULL].
  assert (Hs4 : socks w4 !! tx = Some S_open) by (by rewrite Es).
  kstep (sock_release_ok w4 tx S_open Hs4). eexists _, t'. split; [reflexivity |]. split_and!.
  - simpl. rewrite Es. simpl. by apply delete_insert_id.
  - simpl. rewrite Er. simpl. apply lookup_insert_eq.
  - rewrite Hp. by left.
  - simpl. rewrite Eq. simpl. apply lookup_insert_eq.
  - simpl. rewrite Ey, lookup_insert_eq. by eexists.
Qed.

(** A SYN whose connection has its server side, in place or in progress: the
    half that is started again makes no socket and ends; its QP stays behind. *)
Lemma double_syn_dropped fuel cpu w s x l t b q :
  syn_ready w s x l cpu t →
  b ∈ inorder t → qps w !! b = Some q → same_cstr w b (addresses_key x) → q_tx q ≠ PNull →
  ∃ w', start_new_connection_syn fuel cpu (PObj s) w = Ok (Some 0, w') ∧
    socks w' = socks w ∧ syns w' = delete s (syns w) ∧ roots w' !! (l, cpu) = Some t ∧
    qps w' = <[next w := syn_qp x (PObj l)]> (qps w).
Proof.
  intros Hready Hb Hqb Hcs Htx.
  destruct (syn_starts fuel cpu w s x l t Hready) as [Hfr ->]. unfold syn_half.
  destruct Hready as (Hx & _ & _ & _ & Hfresh & _). set (w1 := syn_world w x l) in *.
  assert (Hbn : b ≠ next w) by (intros ->; congruence).
  assert (Hqb1 : qps w1 !! b = Some q) by (simpl; by rewrite !lookup_insert_ne).
  assert (Hcs1 : same_cstr w1 b (addresses_key x)).
  { unfold same_cstr, node_key in *. rewrite Hqb in Hcs. by rewrite Hqb1. }
  kstep (qp_exists_taken w1 cpu (next w) _ l t TX_QP b q Hfr Hb Hqb1 Hcs1 Htx).
  rewrite decide_True by done. set (w2 := upd_roots _ w1).
  assert (Hx2 : syns w2 !! s = Some x) by done. kstep (free_syn_ok w2 s x Hx2).
  eexists. split; [reflexivity |]. split_and!; try done; [simpl; apply lookup_insert_eq |].
  simpl. by rewrite insert_insert_eq.
Qed.

(** ** The client side *)

(** The QP with which [start_new_connection] is called, the names of its
    socket, and the requests granted. *)
Definition client_ready w a (q : cbn_qp) rx l key : Prop :=
  qps w !! a = Some q ∧ q_rx q = PObj rx ∧ q_listner q = PObj l ∧ ref_cnt q = 0 ∧ is_Some (socks w !! rx) ∧
  (∀ i, (i < 5)%nat → answer (tick w + i)%nat = 0) ∧
  key = mk_key (sin_port (name (tick w + 3)%nat)) (sin_port (name (tick w + 1)%nat))
          (s_addr (name (tick w + 3)%nat)) (s_addr (name (tick w + 1)%nat)).

(** The client side up to the tree: it runs on the core of its four-tuple,
    with the four-tuple as its key. *)
Lemma client_starts fuel w a q rx l key :
  client_ready w a q rx l key →
  ∃ w', start_new_connection fuel (PObj a) w
      = client_relay fuel (qp2cpu num_online_cpus key) (PObj a) w' ∧
    qps w' = <[a := MkQp key 0 (PObj l) PNull (PObj rx)]> (qps w) ∧
    listners w' = listners w ∧ roots w' = roots w ∧ socks w' = socks w ∧ next w' = next w ∧ syns w' = syns w ∧
    same_wakes w w'.
Proof.
  intros (Hq & Hrx & Hl & Href & [st Hst] & Hans & ->).
  assert (H0' := Hans 0%nat ltac:(lia)). assert (H1' := Hans 1%nat ltac:(lia)).
  assert (H2' := Hans 2%nat ltac:(lia)). assert (H3' := Hans 3%nat ltac:(lia)).
  assert (H4' := Hans 4%nat ltac:(lia)). rewrite !Nat.add_succ_r, Nat.add_0_r in *.
  unfold start_new_connection. kstep (load_qp_ok w a q Hq). rewrite Hrx. cbv zeta.
  kstep (setsockopt_quiet w rx st O_SO_MARK (key_tid (q_key q)) Hst). rewrite H0'. change (0 <? 0) with false. cbv iota.
  set (w1 := ticked _ w).
  kstep (query_quiet w1 rx st (C_getsockopt (PObj rx) O_SO_ORIGINAL_DST) Hst).
  change (tick w1) with (S (tick w)). rewrite H1'. change (negb (0 =? 0)) with false. cbv iota. set (w2 := ticked _ w1).
  kstep (setsockopt_quiet w2 rx st O_TCP_NODELAY 1 Hst). change (tick w2) with (S (S (tick w))).
  rewrite H2'. change (0 <? 0) with false. cbv iota. set (w3 := ticked _ w2).
  kstep (query_quiet w3 rx st (C_getpeername (PObj rx)) Hst). change (tick w3) with (S (S (S (tick w)))).
  rewrite H3'. change (negb (0 =? 0)) with false. cbv iota. set (w4 := ticked _ w3).
  set (key := mk_key _ _ _ _).
  assert (Hq4 : qps w4 !! a = Some q) by done. kstep (store_qp_ok w4 a q (set_key key q) Hq4).
  set (w5 := upd_qps _ w4). kstep (kernel_call_quiet (C_setaffinity (Some (qp2cpu num_online_cpus key))) w5).
  change (tick w5) with (S (S (S (S (tick w))))). rewrite H4'. change (negb (0 =? 0)) with false. cbv iota.
  set (w6 := ticked _ w5). unfold preempt. kpure. rewrite interfere_quiet. set (w7 := set_tick _ w6).
  assert (Hq7 : qps w7 !! a = Some (set_key key q)) by (simpl; apply lookup_insert_eq).
  kstep (load_qp_ok w7 a _ Hq7). kstep (store_qp_ok w7 a _ (set_qp_dir TX_QP PNull (set_key key q)) Hq7).
  eexists. split; [reflexivity |]. split_and!; try done. simpl. rewrite insert_insert_eq.
  f_equal. destruct q; simpl in *; by subst.
Qed.

(** C12. The server side waits in the tree of the core the four-tuple selects:
    the client side joins its QP and relays from the client's socket to the
    server's. *)
Theorem client_joins fuel w a q rx l key t b qb tx :
  client_ready w a q rx l key → a ∉ inorder t → good_key key →
  let cpu := qp2cpu num_online_cpus key in
  has_root w l cpu t → root_ok w t →
  b ∈ inorder t → qps w !! b = Some qb → same_cstr w b key →
  ref_cnt qb = 1 → q_listner qb = PObj l → q_rx qb = PNull → q_tx qb = PObj tx →
  ∃ w', match half_duplex fuel (MkSockets (PObj rx) (PObj tx) 0) (PObj b) w' with
        | Ok (Some _, w2) => start_new_connection fuel (PObj a) w = Ok (Some 0, w2)
        | Ok (None, w2) => start_new_connection fuel (PObj a) w = Ok (None, w2)
        | Oops e => start_new_connection fuel (PObj a) w = Oops e
        end ∧
    qps w' !! b = Some (MkQp (q_key qb) 2 (PObj l) (PObj tx) (PObj rx)) ∧ qps w' !! a = None ∧
    roots w' !! (l, cpu) = Some (de_tree_qp b t) ∧ socks w' = socks w.
Proof.
  intros Hready Hna Hg cpu [Hl Hr] Hok Hb Hqb Hcs Href Hlb Hrxb Htxb.
  destruct (client_starts fuel w a q rx l key Hready) as (w1 & -> & Eq & El & Er & Es & _).
  fold cpu. assert (Hba : b ≠ a) by (intros ->; done). set (pq := MkQp key 0 (PObj l) PNull (PObj rx)) in *.
  assert (Hfr : qp_fresh w1 a pq l cpu t).
  { split_and!; try done; [by rewrite Eq, lookup_insert_eq | by split; [rewrite El | rewrite Er] |].
    eapply root_ok_ext; [| exact Hok]. intros y Hy. destruct (proj2 Hok y Hy) as [z Hz].
    assert (y ≠ a) by (intros ->; done). unfold node_key. rewrite Eq, lookup_insert_ne by done. by rewrite Hz. }
  assert (Hqb1 : qps w1 !! b = Some qb) by (by rewrite Eq, lookup_insert_ne).
  assert (Hcs1 : same_cstr w1 b key).
  { unfold same_cstr, node_key in *. rewrite Hqb in Hcs. by rewrite Hqb1. }
  unfold client_relay. kstep (qp_exists_join w1 cpu a pq l t RX_QP b qb Hfr Hb Hqb1 Hcs1 Hrxb).
  set (w2 := add_log _ _). set (q2 := set_qp_dir RX_QP (PObj rx) qb).
  assert (Hhalf : qp_half w2 b q2 l cpu t RX_QP rx).
  { split_and!; try done; [| | simpl; rewrite Es; by destruct Hready as (_ & _ & _ & _ & ? & _)].
    - simpl. by rewrite lookup_delete_ne, lookup_insert_eq.
    - split; [simpl; by rewrite El | simpl; apply lookup_insert_eq]. }
  kstep (wait_qp_ready_peer w2 b q2 l cpu t RX_QP rx tx Hhalf Href Htxb).
  change (negb (0 =? 0)) with false. cbv iota. set (w3 := add_log _ _).
  assert (Hq3 : qps w3 !! b = Some (set_ref 2 q2)) by (simpl; apply lookup_insert_eq).
  kstep (load_qp_ok w3 b _ Hq3). change (q_tx (set_ref 2 q2)) with (q_tx qb). rewrite Htxb.
  change (q_rx (set_ref 2 q2)) with (PObj rx). cbn [IS_ERR_OR_NULL orb].
  exists w3. split; [unfold mbind, kproc_bind; by destruct (half_duplex _ _ _ w3) as [[[r |] w4] |] |].
  split_and!.
  - rewrite Hq3. f_equal. unfold q2. clear -Hlb Htxb. destruct qb; simpl in *; by subst.
  - simpl. rewrite lookup_insert_ne by done. apply lookup_delete_eq.
  - simpl. apply lookup_insert_eq.
  - simpl. exact Es.
Qed.

(** A second client half with the four-tuple of one in progress: the
    caller does not look at what [qp_exists] returned, and dereferences NULL. *)
Lemma client_double_syn fuel cpu w a pq l t b q :
  qp_fresh w a pq l cpu t → b ∈ inorder t → qps w !! b = Some q → same_cstr w b (q_key pq) →
  q_rx q ≠ PNull → client_relay fuel cpu (PObj a) w = Oops NullDeref.
Proof.
  intros Hfr Hb Hq Hcs Hrx. unfold client_relay.
  by kstep (qp_exists_taken w cpu a pq l t RX_QP b q Hfr Hb Hq Hcs Hrx).
Qed.
End connect_lemmas.

(** ** Concrete runs

    The four-tuple [some_key] selects core 0; the listener of tenant 7 is 9. *)

Definition some_addresses : addresses := {|
  dest := {| sin_family := AF_INET; sin_port := 82; s_addr := 84281096 |};
  src := {| sin_family := AF_INET; sin_port := 4660; s_addr := 16909060 |};
  sin_addr := 0; mark := 7 |}.

(** The client half waits in the tree; the SYN's record is 50. *)
Definition waiting_client : cbn_qp := set_ref 1 client_qp.
Definition syn_arrives : world :=
  upd_syns <[50 := some_addresses]> (upd_qps <[1 := waiting_client]> (listening (Node Leaf 1 Leaf) (empty_world 100))).

Definition granted : Env := calm (λ n, match n with O => 1 | _ => 0 end) (λ _, []) (λ _, no_addr).

Lemma waiting_root_ok : root_ok syn_arrives (Node Leaf 1 Leaf).
Proof. apply (root_ok_single _ _ waiting_client); [done | apply mk_key_good]. Qed.

Lemma second_half_relays_witness :
  ∃ w', @start_new_connection_syn granted spine_lib 5 0 (PObj 50) syn_arrives =
      @half_duplex granted 5 (MkSockets (PObj 101) (PObj 20) 1) (PObj 1) w' ∧
    qps w' !! 1 = Some (MkQp some_key 2 (PObj 9) (PObj 101) (PObj 20)) ∧ syns w' !! 50 = None ∧
    E_call (C_connect (PObj 101) 82 84281096) 0 ∈ log w'.
Proof.
  destruct (@second_half_relays granted (calm_quiet _ _ _) spine_lib spine_laws 5 0 syn_arrives 50 some_addresses 9
    (Node Leaf 1 Leaf) 1 waiting_client 20) as (w' & Hr & Hq & _ & _ & Hs & _ & Hl); try done.
  - split_and!; try done. apply waiting_root_ok.
  - by left.
  - intros [| i] Hi; [lia | done].
  - exists w'. split_and!; [exact Hr | exact Hq | exact Hs |]. rewrite Hl. simpl. by right; left.
Defined.

(** Nobody waits, and the server refuses the connection. *)
Definition refused : Env := calm (λ n, match n with O => 1 | 4%nat => -111 | _ => 0 end) (λ _, []) (λ _, no_addr).
Definition syn_alone : world :=
  upd_syns <[50 := some_addresses]> (set_transparent 0 (listening Leaf (empty_world 100))).

Lemma connect_refused_leaks_witness :
  ∃ w' t', @start_new_connection_syn refused spine_lib 5 0 (PObj 50) syn_alone = Ok (Some (-111), w') ∧
    roots w' !! (9, 0) = Some t' ∧ 100 ∈ inorder t' ∧ is_Some (syns w' !! 50).
Proof.
  destruct (@connect_refused_leaks refused (calm_quiet _ _ _) spine_lib spine_laws 5 0 syn_alone 50 some_addresses 9 Leaf)
    as (w' & t' & Hr & _ & Ht & Hin & _ & Hs); try done.
  - split_and!; try done. apply root_ok_Leaf.
  - by exists w', t'.
Defined.

(** The server half waits; the client's QP is 2. *)
Definition waiting_server : cbn_qp := MkQp some_key 1 (PObj 9) (PObj 21) PNull.
Definition accepted_qp : cbn_qp := MkQp (key_set_tid 7 (replicate 12 0)) 0 (PObj 9) PNull (PObj 20).
Definition client_arrives : world :=
  upd_socks <[20 := S_open]> (upd_qps <[2 := accepted_qp]> (upd_qps <[1 := waiting_server]>
    (listening (Node Leaf 1 Leaf) (empty_world 100)))).
Definition names : Env := calm (λ _, 0) (λ _, [])
  (λ n, if (n =? 1)%nat then dest some_addresses else src some_addresses).

Lemma client_joins_witness :
  ∃ w', qps w' !! 1 = Some (MkQp some_key 2 (PObj 9) (PObj 21) (PObj 20)) ∧ qps w' !! 2 = None ∧
    match @half_duplex names 0 (MkSockets (PObj 20) (PObj 21) 0) (PObj 1) w' with
    | Ok (r, w2) => @start_new_connection names spine_lib 0 (PObj 2) client_arrives = Ok ((λ _, 0) <$> r, w2)
    | Oops e => @start_new_connection names spine_lib 0 (PObj 2) client_arrives = Oops e
    end.
Proof.
  destruct (@client_joins names (calm_quiet _ _ _) spine_lib spine_laws 0 client_arrives 2 accepted_qp 20 9 some_key
    (Node Leaf 1 Leaf) 1 waiting_server 21) as (w' & Hr & Hb & Ha & _); try done.
  - simpl. rewrite list_elem_of_singleton. lia.
  - apply mk_key_good.
  - apply (root_ok_single _ _ waiting_server); [done | apply mk_key_good].
  - by left.
  - exists w'. split_and!; [done | done |].
    destruct (half_duplex 0 _ _ w') as [[[r |] w2] | e]; exact Hr.
Defined.

(** A second client QP with the four-tuple of one that waits. *)
Lemma client_double_syn_witness :
  @client_relay (always 0) spine_lib 5 0 (PObj 2)
    (upd_qps <[2 := client_qp]> (upd_qps <[1 := waiting_client]> (listening (Node Leaf 1 Leaf) (empty_world 100)))) =
  Oops NullDeref.
Proof.
  apply (@client_double_syn (always 0) spine_lib spine_laws 5 0 _ 2 client_qp 9 (Node Leaf 1 Leaf) 1 waiting_client);
    try done; [| by left].
  split_and!; try done.
  - apply (root_ok_single _ _ waiting_client); [done | apply mk_key_good].
  - apply mk_key_good.
  - simpl. rewrite list_elem_of_singleton. lia.
Defined.
