(* ===== verification/Pairing.v ===== *)
(** * The two halves of a connection, interleaved (split.c, qp.c)

    [start_new_connection_syn] and [start_new_connection] of one four-tuple run
    as two threads on one core and share the QP they meet in.  Here their code
    from [qp_exists] on is cut into the lines between which the other thread
    may run: an access to the tree under its lock, a look at the shared QP, a
    step of its count, [put_qp] under the QP's lock, a call into the kernel.
    The two halves take their lines in any order.  A half that waits for its
    peer is on the QP's wait queue, and once asleep runs again only after a
    [wake_up] of that queue. *)

From stdpp Require Import base list gmap sets.
From Stdlib Require Import ZArith Lia.
From S2P Require Import Prelude RbTree Keys DataTree World Qp Relay Hooks Connect.

(** Where a half stands.  [wake]: it has seen its peer's socket and will wake
    it.  [n]: the wake-ups of the queue before it was put on it.  [held] of the
    last two: it left without [put_qp]. *)
Inductive half_pc :=
  | HMeet (pqp : ptr)
  | HFound (pqp qp : ptr)
  | HAdopt (pqp qp : ptr)
  | HSocket (qp : ptr)
  | HConnect (qp tx : ptr)
  | HStore (qp tx : ptr)
  | HCheck (qp : ptr)
  | HGet (wake : bool) (qp : ptr)
  | HFin (wake : bool) (qp : ptr)
  | HWake (qp : ptr)
  | HWait (qp : ptr)
  | HQueue (qp : ptr)
  | HQueued (qp : ptr) (n : nat)
  | HSleep (qp : ptr) (n : nat)
  | HTimeout (qp : ptr)
  | HLoad (qp : ptr)
  | HPages (sock : sockets) (qp : ptr)
  | HRecv (sock : sockets) (qp : ptr) (kvec : list (option Z))
  | HSend (sock : sockets) (qp : ptr) (kvec : list (option Z)) (bytes : list Z)
  | HStop (sock : sockets) (qp : ptr) (kvec : list (option Z)) (rc : Z)
  | HPut (qp : ptr) (kvec : list (option Z)) (rc : Z)
  | HFree (held : bool) (kvec : list (option Z)) (rc : Z)
  | HEnd (held : bool) (rc : Z)
  | HFailed (rc : Z).

Section pairing.
Context `{Env} `{RbLib Z}.

(** The sockets of [half_duplex] for the half of a direction. *)
Definition half_sockets (dir : Z) (q : cbn_qp) : sockets :=
  if dir =? TX_QP then MkSockets (q_tx q) (q_rx q) 1 else MkSockets (q_rx q) (q_tx q) 0.

(** The line a half stands at once it has its QP, and once it has its
    reference. *)
Definition after_meet (dir : Z) (qp : ptr) : half_pc := if dir =? TX_QP then HSocket qp else HCheck qp.
Definition after_get (wake : bool) (qp : ptr) : half_pc := if wake then HWake qp else HWait qp.

(** The wake-ups of a QP's queue so far. *)
Definition queue_wakes (qp : ptr) : wproc nat :=
  w ← kget; mret (match qp with PObj a => wakes a (log w) | _ => O end).

(** One line of the half of direction [dir] on core [cpu]; [arg] is the SYN
    record of the server-side half. *)
Definition half_line (dir cpu : Z) (arg : ptr) (pc : half_pc) : wproc half_pc :=
  match pc with
  | HMeet pqp =>
      found ← qp_insert cpu pqp;
      mret (match found with Some this => HFound pqp (PObj this) | None => after_meet dir pqp end)
  | HFound pqp qp =>
      q ← load_qp qp;
      if decide (qp_dir q dir ≠ PNull) then
        if dir =? TX_QP then free_syn arg ;; mret (HFailed 0) else mret (HCheck PNull)
      else mret (HAdopt pqp qp)
  | HAdopt pqp qp => qp_adopt pqp qp dir ;; mret (after_meet dir qp)
  | HSocket qp =>
      '(rc, tx) ← sock_create_kern;
      if negb (rc =? 0) then _ ← connect_fail tx rc; mret (HFailed rc) else mret (HConnect qp tx)
  | HConnect qp tx =>
      rc ← syn_connect arg tx;
      if negb (rc =? 0) then _ ← connect_fail tx rc; mret (HFailed rc) else mret (HStore qp tx)
  | HStore qp tx =>
      q ← load_qp qp;
      store_qp qp (set_qp_dir TX_QP tx q) ;;
      free_syn arg ;;
      mret (HCheck qp)
  | HCheck qp =>
      peer ← read_dir qp (Z.lxor dir 1);
      mret (HGet (negb (IS_ERR_OR_NULL peer)) qp)
  | HGet wake qp =>
      rc ← inc_ref qp;
      mret (if rc =? 2 then HFin wake qp else after_get wake qp)
  | HFin wake qp => fin_connected_qp cpu qp ;; mret (after_get wake qp)
  | HWake qp => wake_up_qp qp ;; mret (HLoad qp)
  | HWait qp =>
      peer ← read_dir qp (Z.lxor dir 1);
      mret (if negb (IS_ERR_OR_NULL peer) then HLoad qp else HQueue qp)
  | HQueue qp => n ← queue_wakes qp; mret (HQueued qp n)
  | HQueued qp n =>
      peer ← read_dir qp (Z.lxor dir 1);
      mret (if negb (IS_ERR_OR_NULL peer) then HLoad qp else HSleep qp n)
  | HSleep qp n =>
      rc ← wait_sleep qp dir;
      mret (if rc =? 0 then HTimeout qp else HLoad qp)
  | HTimeout qp => wait_timeout cpu qp ;; mret (HFailed 0)
  | HLoad qp =>
      q ← load_qp qp;
      if IS_ERR_OR_NULL (q_rx q) || IS_ERR_OR_NULL (q_tx q) then
        if dir =? TX_QP then _ ← put_qp qp; mret (HFailed 0) else mret (HFailed 0)
      else mret (HPages (half_sockets dir q) qp)
  | HPages sock qp =>
      _ ← kernel_call (C_setaffinity None);
      '(kvec, ok) ← alloc_kvec C_alloc_page VEC_SZ;
      mret (if ok : bool then HRecv sock qp kvec else HFree true kvec (- ENOMEM))
  | HRecv sock qp kvec =>
      '(rc, bytes) ← kernel_recvmsg (so_rx sock) (PAGE_SIZE * Z.of_nat VEC_SZ);
      mret (if rc <=? 0 then HPut qp kvec rc else HSend sock qp kvec bytes)
  | HSend sock qp kvec bytes =>
      rc ← kernel_sendmsg (so_tx sock) bytes;
      mret (if rc <=? 0 then HPut qp kvec rc else HStop sock qp kvec rc)
  | HStop sock qp kvec rc =>
      stop ← kthread_should_stop;
      mret (if stop : bool then HFree true kvec rc else HRecv sock qp kvec)
  | HPut qp kvec rc => _ ← put_qp qp; mret (HFree false kvec rc)
  | HFree held kvec rc => kforeach kvec free_page ;; mret (HEnd held rc)
  | HEnd _ _ | HFailed _ => mret pc
  end.

(** What the half's function returns once it has ended. *)
Definition half_result (dir : Z) (pc : half_pc) : option Z :=
  match pc with
  | HEnd _ rc | HFailed rc => Some (if dir =? TX_QP then rc else 0)
  | _ => None
  end.

(** A run of lines of one half alone. *)
Inductive lines (dir cpu : Z) (arg : ptr) : half_pc → world → outcome (half_pc * world) → Prop :=
  | lines_done pc w : lines dir cpu arg pc w (Ok (pc, w))
  | lines_go pc w pc' w' o :
      half_line dir cpu arg pc w = Ok (pc', w') → lines dir cpu arg pc' w' o → lines dir cpu arg pc w o
  | lines_oops pc w e : half_line dir cpu arg pc w = Oops e → lines dir cpu arg pc w (Oops e).

(** ** The two halves *)

Record pair_sys := PairSys { at_rx : half_pc; at_tx : half_pc; shared : world }.

Definition pc_of (dir : Z) (s : pair_sys) : half_pc := if dir =? TX_QP then at_tx s else at_rx s.
Definition set_pc (dir : Z) (pc : half_pc) (w : world) (s : pair_sys) : pair_sys :=
  if dir =? TX_QP then PairSys (at_rx s) pc w else PairSys pc (at_tx s) w.

(** The half of direction [dir] takes a line. *)
Definition pair_line (dir cpu : Z) (arg : ptr) (s : pair_sys) : outcome pair_sys :=
  match half_line dir cpu arg (pc_of dir s) (shared s) with
  | Ok (pc, w) => Ok (set_pc dir pc w s)
  | Oops e => Oops e
  end.

(** The halves take their lines in the order of a schedule. *)
Fixpoint pair_run (cpu : Z) (arg : ptr) (schedule : list Z) (s : pair_sys) : outcome pair_sys :=
  match schedule with
  | [] => Ok s
  | dir :: schedule =>
      match pair_line dir cpu arg s with
      | Ok s => pair_run cpu arg schedule s
      | Oops e => Oops e
      end
  end.

(** A half asleep on the QP's queue runs again once the queue was woken. *)
Definition awake (w : world) (pc : half_pc) : bool :=
  match pc with
  | HSleep (PObj a) n => (n <? wakes a (log w))%nat
  | _ => true
  end.

(** Every interleaving in which no wait times out or is interrupted. *)
Inductive pair_reach (cpu : Z) (arg : ptr) (s0 : pair_sys) : pair_sys → Prop :=
  | reach_start : pair_reach cpu arg s0 s0
  | reach_line s s' dir :
      pair_reach cpu arg s0 s → is_dir dir → awake (shared s) (pc_of dir s) = true →
      pair_line dir cpu arg s = Ok s' → pair_reach cpu arg s0 s'.

(** No half of the schedule runs in its sleep. *)
Fixpoint patient (cpu : Z) (arg : ptr) (schedule : list Z) (s : pair_sys) : bool :=
  match schedule with
  | [] => true
  | dir :: schedule =>
      bool_decide (is_dir dir) && awake (shared s) (pc_of dir s) &&
      match pair_line dir cpu arg s with
      | Ok s => patient cpu arg schedule s
      | Oops _ => true
      end
  end.

Lemma pair_run_reach cpu arg schedule s0 s s' :
  pair_reach cpu arg s0 s → patient cpu arg schedule s = true → pair_run cpu arg schedule s = Ok s' →
  pair_reach cpu arg s0 s'.
Proof.
  revert s. induction schedule as [| d sch IH]; intros s Hr Hp Hs; simpl in *; [by injection Hs as <- |].
  apply andb_true_iff in Hp as [[Hd%bool_decide_eq_true Haw]%andb_true_iff Hp].
  destruct (pair_line d cpu arg s) as [s1 |] eqn:E; [| done].
  apply (IH s1); [| done | done]. by eapply reach_line.
Qed.
End pairing.

(** ** The functions are runs of their lines *)

(** Case analysis through the code of both sides. *)
Ltac sim_case := intros w; cbn [half_line]; kunfold; repeat (case_match; simplify_eq; try done); try congruence.

Section simulation.
Context `{Env} `{RbLib Z}.
Variables (dir cpu : Z) (arg : ptr).

(** A run of [m] that returns or faults is a run of lines from [pc]. *)
Definition sim (m : wproc (option Z)) (pc : half_pc) : Prop := ∀ w,
  match m w with
  | Ok (Some rc, w') => ∃ pc', half_result dir pc' = Some rc ∧ lines dir cpu arg pc w (Ok (pc', w'))
  | Ok (None, _) => True
  | Oops e => lines dir cpu arg pc w (Oops e)
  end.

Lemma sim_ext m m' pc : (∀ w, m w = m' w) → sim m' pc → sim m pc.
Proof. intros E Hs w. rewrite E. apply Hs. Qed.

Lemma sim_ret rc pc : half_result dir pc = Some rc → sim (mret (Some rc)) pc.
Proof. intros Hr w. exists pc. split; [done | constructor]. Qed.

Lemma sim_none pc : sim (mret None) pc.
Proof. by intros w. Qed.

(** The first line, and then the rest. *)
Lemma sim_bind_ok {A} (m : wproc A) (f : A → wproc (option Z)) (k : A → half_pc) pc :
  (∀ w, half_line dir cpu arg pc w = (x ← m; mret (k x)) w) →
  (∀ x w w', m w = Ok (x, w') → sim (f x) (k x)) → sim (x ← m; f x) pc.
Proof.
  intros Hl Hf w. specialize (Hl w). specialize (λ x, Hf x w). unfold mbind, kproc_bind in *.
  destruct (m w) as [[x w1] | e].
  - specialize (Hf x w1 eq_refl w1). destruct (f x w1) as [[[rc |] w2] | e]; [| done |].
    + destruct Hf as (pc' & Hr & Hs). exists pc'. split; [done | by eapply lines_go].
    + by eapply lines_go.
  - by apply lines_oops.
Qed.

Lemma sim_bind {A} (m : wproc A) (f : A → wproc (option Z)) (k : A → half_pc) pc :
  (∀ w, half_line dir cpu arg pc w = (x ← m; mret (k x)) w) → (∀ x, sim (f x) (k x)) →
  sim (x ← m; f x) pc.
Proof. intros Hl Hf. apply (sim_bind_ok _ _ k); [done | by intros x _ _ _]. Qed.

Definition relay_end (r : option Z) : wproc (option Z) :=
  match r with
  | Some rc => mret (Some (if dir =? TX_QP then rc else 0))
  | None => mret None
  end.

Definition pages_end (kvec : list (option Z)) (r : option Z) : wproc (option Z) :=
  match r with
  | Some rc => kforeach kvec free_page ;; mret (Some (if dir =? TX_QP then rc else 0))
  | None => mret None
  end.

Lemma sim_pages held kvec rc : sim (pages_end kvec (Some rc)) (HFree held kvec rc).
Proof. apply (sim_bind _ _ (λ _, HEnd held rc)); [done |]. intros _. by apply sim_ret. Qed.

Lemma sim_loop fuel sock qp kvec :
  sim (r ← duplex_loop fuel sock qp; pages_end kvec r) (HRecv sock qp kvec).
Proof.
  induction fuel as [| fuel IH]; [apply (sim_ext _ (mret None : wproc (option Z))); [done | apply sim_none] |].
  set (put rc := (_ ← put_qp qp; pages_end kvec (Some rc)) : wproc (option Z)).
  assert (Hput : ∀ rc, sim (put rc) (HPut qp kvec rc)).
  { intros rc. apply (sim_bind _ _ (λ _, HFree false kvec rc)); [done |]. intros _. apply sim_pages. }
  apply (sim_ext _ ('(rc, bytes) ← kernel_recvmsg (so_rx sock) (PAGE_SIZE * Z.of_nat VEC_SZ);
    if rc <=? 0 then put rc
    else rc ← kernel_sendmsg (so_tx sock) bytes;
         if rc <=? 0 then put rc
         else stop ← kthread_should_stop;
              if (stop : bool) then pages_end kvec (Some rc)
              else r ← duplex_loop fuel sock qp; pages_end kvec r)).
  { cbn [duplex_loop]. unfold duplex_step, put. sim_case. }
  eapply (sim_bind _ _ (λ '(rc, bytes), if rc <=? 0 then HPut qp kvec rc else HSend sock qp kvec bytes)).
  { sim_case. }
  intros [rc bytes]. destruct (rc <=? 0); [apply Hput |].
  apply (sim_bind _ _ (λ rc, if rc <=? 0 then HPut qp kvec rc else HStop sock qp kvec rc)); [done |].
  intros rc'. destruct (rc' <=? 0); [apply Hput |].
  apply (sim_bind _ _ (λ stop : bool, if stop then HFree true kvec rc' else HRecv sock qp kvec)); [done |].
  intros [|]; [apply sim_pages | apply IH].
Qed.

Lemma sim_duplex fuel sock qp :
  sim (r ← half_duplex fuel sock qp; relay_end r) (HPages sock qp).
Proof.
  apply (sim_ext _ (_ ← kernel_call (C_setaffinity None); '(kvec, ok) ← alloc_kvec C_alloc_page VEC_SZ;
    if ok : bool then r ← duplex_loop fuel sock qp; pages_end kvec r else pages_end kvec (Some (- ENOMEM)))).
  { unfold half_duplex, relay_end, pages_end. intros w. kpure. unfold mbind, kproc_bind, mret, kproc_ret.
    cbn [kernel_call]. destruct (alloc_kvec _ _ _) as [[[kvec ok] w1] |]; [| done].
    destruct ok; [destruct (duplex_loop _ _ _ _) as [[[rc |] w2] |]; try done |];
      by destruct (kforeach _ _ _) as [[? ?] |]. }
  apply (sim_ext _ ('(kvec, ok) ← (_ ← kernel_call (C_setaffinity None); alloc_kvec C_alloc_page VEC_SZ);
    if ok : bool then r ← duplex_loop fuel sock qp; pages_end kvec r else pages_end kvec (Some (- ENOMEM)))).
  { intros w. by rewrite kbind_assoc. }
  apply (sim_bind _ _ (λ '(kvec, ok), if ok : bool then HRecv sock qp kvec else HFree true kvec (- ENOMEM))).
  { sim_case. }
  intros [kvec [|]]; [apply sim_loop | apply sim_pages].
Qed.

(** The wait, and then what the half does with its result. *)
Lemma sim_wait_peer qp (f : Z → wproc (option Z)) :
  (∀ rc, rc ≠ 0 → sim (f rc) (HLoad qp)) → sim (f 0) (HTimeout qp) → sim (rc ← wait_peer qp dir; f rc) (HWait qp).
Proof.
  intros H1' H0'. set (present (peer : ptr) := negb (IS_ERR_OR_NULL peer)).
  apply (sim_ext _ (peer ← read_dir qp (Z.lxor dir 1);
    if present peer then f 1
    else _ ← queue_wakes qp;
      peer ← read_dir qp (Z.lxor dir 1);
      if present peer then f 1 else rc ← wait_sleep qp dir; f rc)).
  { unfold wait_peer, queue_wakes, present. sim_case. }
  apply (sim_bind _ _ (λ peer, if present peer then HLoad qp else HQueue qp)); [done | intros peer].
  destruct (present peer); [by apply H1' |].
  apply (sim_bind _ _ (HQueued qp)); [done | intros n].
  apply (sim_bind _ _ (λ peer, if present peer then HLoad qp else HSleep qp n)); [done | intros peer'].
  destruct (present peer'); [by apply H1' |].
  apply (sim_bind _ _ (λ rc, if rc =? 0 then HTimeout qp else HLoad qp)); [done | intros rc].
  destruct (Z.eqb_spec rc 0) as [-> |]; [done | by apply H1'].
Qed.

(** A reference, and then what follows it. *)
Lemma sim_get wake qp (m : wproc (option Z)) :
  sim m (after_get wake qp) → sim (get_qp cpu qp ;; m) (HGet wake qp).
Proof.
  intros Hm. apply (sim_ext _ (rc ← inc_ref qp; if rc =? 2 then fin_connected_qp cpu qp ;; m else m)).
  { unfold get_qp. sim_case. }
  apply (sim_bind _ _ (λ rc, if rc =? 2 then HFin wake qp else after_get wake qp)); [done | intros rc].
  destruct (rc =? 2); [| done]. by apply (sim_bind _ _ (λ _, after_get wake qp)).
Qed.

(** The pairing, and then what the half does with its result. *)
Lemma sim_wait qp (f : Z → wproc (option Z)) :
  sim (f 0) (HLoad qp) → sim (f 1) (HFailed 0) →
  sim (err ← wait_qp_ready cpu qp dir; f err) (HCheck qp).
Proof.
  intros H0' H1'.
  apply (sim_ext _ (peer ← read_dir qp (Z.lxor dir 1);
    if IS_ERR_OR_NULL peer then
      get_qp cpu qp ;;
      rc ← wait_peer qp dir;
      if rc =? 0 then wait_timeout cpu qp ;; f 1 else f 0
    else get_qp cpu qp ;; wake_up_qp qp ;; f 0)).
  { unfold wait_qp_ready. sim_case. }
  apply (sim_bind _ _ (λ peer, HGet (negb (IS_ERR_OR_NULL peer)) qp)); [done |].
  intros peer. destruct (IS_ERR_OR_NULL peer); apply sim_get.
  - apply sim_wait_peer; [intros rc Hrc; by apply Z.eqb_neq in Hrc as -> |].
    by apply (sim_bind _ _ (λ _, HFailed 0)).
  - by apply (sim_bind _ _ (λ _, HLoad qp)).
Qed.

(** A QP that was found, and then what the half does with it. *)
Lemma sim_found pqp this (f : ptr → wproc (option Z)) :
  sim (f (PObj this)) (after_meet dir (PObj this)) →
  (if dir =? TX_QP then ∀ w, f PNull w = (free_syn arg ;; mret (Some 0)) w else sim (f PNull) (HCheck PNull)) →
  sim (q ← load_qp (PObj this);
    if decide (qp_dir q dir ≠ PNull) then f PNull else qp_adopt pqp (PObj this) dir ;; f (PObj this))
    (HFound pqp (PObj this)).
Proof.
  intros Hf Hnull. set (taken q := bool_decide (qp_dir q dir ≠ PNull)).
  apply (sim_ext _ (b ← (q ← load_qp (PObj this);
      (if taken q && (dir =? TX_QP) then free_syn arg else mret tt) ;; mret (taken q));
    if (b : bool) then (if dir =? TX_QP then mret (Some 0) else f PNull)
    else qp_adopt pqp (PObj this) dir ;; f (PObj this))).
  { intros w. rewrite kbind_assoc. apply kbind_ext. intros q w' _.
    unfold taken. case_decide as Hc; [rewrite (bool_decide_eq_true_2 _ Hc) | by rewrite (bool_decide_eq_false_2 _ (λ Hn, Hn Hc))].
    cbn [andb]. destruct (dir =? TX_QP); [| done]. by rewrite Hnull, kbind_assoc. }
  apply (sim_bind _ _ (λ b : bool, if b then (if dir =? TX_QP then HFailed 0 else HCheck PNull) else HAdopt pqp (PObj this))).
  { unfold taken. intros w. cbn [half_line]. rewrite kbind_assoc. apply kbind_ext. intros q w' _.
    case_decide as Hc; [rewrite (bool_decide_eq_true_2 _ Hc) | by rewrite (bool_decide_eq_false_2 _ (λ Hn, Hn Hc))].
    cbn [andb]. destruct (dir =? TX_QP); [kunfold; by destruct (free_syn arg w') as [[? ?] |] | done]. }
  intros [|]; [| by apply (sim_bind _ _ (λ _, after_meet dir (PObj this)))].
  destruct (dir =? TX_QP) eqn:E; [apply sim_ret; simpl; by rewrite E | done].
Qed.

(** The tree, and then what the half does with the QP it got. *)
Lemma sim_meet pqp (f : ptr → wproc (option Z)) :
  (∀ a, sim (f (PObj a)) (after_meet dir (PObj a))) →
  (if dir =? TX_QP then ∀ w, f PNull w = (free_syn arg ;; mret (Some 0)) w else sim (f PNull) (HCheck PNull)) →
  sim (qp ← qp_exists cpu pqp dir; f qp) (HMeet pqp).
Proof.
  intros Hf Hnull.
  apply (sim_ext _ (found ← qp_insert cpu pqp;
    match found with
    | Some this =>
        q ← load_qp (PObj this);
        if decide (qp_dir q dir ≠ PNull) then f PNull else qp_adopt pqp (PObj this) dir ;; f (PObj this)
    | None => f pqp
    end)).
  { unfold qp_exists. intros w. rewrite kbind_assoc. apply kbind_ext. intros [this |] w' _; [| done].
    rewrite kbind_assoc. apply kbind_ext. intros q w'' _. case_decide; [done |]. by rewrite kbind_assoc. }
  apply (sim_bind_ok _ _ (λ found, match found with Some this => HFound pqp (PObj this) | None => after_meet dir pqp end));
    [done |]. intros [this |] w w' Hi; [by apply sim_found |].
  destruct pqp as [| e | a]; [done | done | apply Hf].
Qed.
End simulation.

Section functions.
Context `{Env} `{RbLib Z}.

(** The client side, from the tree on, is a run of its lines. *)
Lemma client_relay_lines fuel cpu arg syn w :
  match client_relay fuel cpu arg w with
  | Ok (Some rc, w') => ∃ pc, half_result RX_QP pc = Some rc ∧ lines RX_QP cpu syn (HMeet arg) w (Ok (pc, w'))
  | Ok (None, _) => True
  | Oops e => lines RX_QP cpu syn (HMeet arg) w (Oops e)
  end.
Proof.
  revert w. change (sim RX_QP cpu syn (client_relay fuel cpu arg) (HMeet arg)).
  assert (Hwait : ∀ qp, sim RX_QP cpu syn (err ← wait_qp_ready cpu qp RX_QP;
    if negb (err =? 0) then create_fail PNull 0
    else
      q ← load_qp qp;
      if IS_ERR_OR_NULL (q_rx q) || IS_ERR_OR_NULL (q_tx q) then create_fail PNull 0
      else
        r ← half_duplex fuel (MkSockets (q_rx q) (q_tx q) 0) qp;
        match r with Some _ => create_fail PNull 0 | None => mret None end) (HCheck qp));
    [| apply sim_meet; [intros a; apply Hwait | apply Hwait]].
  intros qp. apply sim_wait; [| by apply sim_ret]. change (negb (0 =? 0)) with false. cbv iota.
  apply (sim_bind _ _ _ _ _ (λ q, if IS_ERR_OR_NULL (q_rx q) || IS_ERR_OR_NULL (q_tx q) then HFailed 0
    else HPages (half_sockets RX_QP q) qp)); [sim_case |].
  intros q. destruct (_ || _); [by apply sim_ret |]. apply sim_duplex.
Qed.

(** The server side, from the tree on, is a run of its lines. *)
Lemma syn_half_lines fuel cpu arg pqp w :
  match syn_half fuel cpu arg pqp w with
  | Ok (Some rc, w') => ∃ pc, half_result TX_QP pc = Some rc ∧ lines TX_QP cpu arg (HMeet pqp) w (Ok (pc, w'))
  | Ok (None, _) => True
  | Oops e => lines TX_QP cpu arg (HMeet pqp) w (Oops e)
  end.
Proof.
  revert w. change (sim TX_QP cpu arg (syn_half fuel cpu arg pqp) (HMeet pqp)).
  unfold syn_half. apply (sim_meet _ _ _ pqp (λ qp, if decide (qp = PNull) then free_syn arg ;; mret (Some 0) else _));
    [| by intros w'; rewrite decide_True].
  intros a. rewrite decide_False by done. set (qp := PObj a). change (after_meet TX_QP qp) with (HSocket qp).
  set (store tx := (q ← load_qp qp; store_qp qp (set_qp_dir TX_QP tx q) ;; free_syn arg) : wproc unit).
  apply (sim_ext _ _ _ _ ('(rc, tx) ← ('(rc, tx) ← sock_create_kern;
      (if negb (rc =? 0) then _ ← connect_fail tx rc; mret tt else mret tt) ;; mret (rc, tx));
    if negb (rc =? 0) then mret (Some rc)
    else
      rc ← (rc ← syn_connect arg tx;
        (if negb (rc =? 0) then _ ← connect_fail tx rc; mret tt else mret tt) ;; mret rc);
      if negb (rc =? 0) then mret (Some rc)
      else store tx ;; syn_relay fuel cpu qp rc)).
  { unfold store, connect_fail. sim_case. }
  apply (sim_bind _ _ _ _ _ (λ '(rc, tx), if negb (rc =? 0) then HFailed rc else HConnect qp tx)); [sim_case |].
  intros [rc tx]. destruct (negb _); [by apply sim_ret |].
  apply (sim_bind _ _ _ _ _ (λ rc, if negb (rc =? 0) then HFailed rc else HStore qp tx)); [sim_case |].
  intros rc'. destruct (Z.eqb_spec rc' 0) as [-> |]; cbn [negb]; [| by apply sim_ret].
  apply (sim_bind _ _ _ _ _ (λ _, HCheck qp)); [unfold store; sim_case |]. intros _.
  unfold syn_relay. apply sim_wait; [| by apply sim_ret].
  change (negb (0 =? 0)) with false. cbv iota.
  apply (sim_ext _ _ _ _ (q ← (q ← load_qp qp;
      (if IS_ERR_OR_NULL (q_rx q) || IS_ERR_OR_NULL (q_tx q) then _ ← put_qp qp; mret tt else mret tt) ;; mret q);
    if IS_ERR_OR_NULL (q_rx q) || IS_ERR_OR_NULL (q_tx q) then mret (Some 0)
    else r ← half_duplex fuel (MkSockets (q_tx q) (q_rx q) 1) qp; relay_end TX_QP r)).
  { unfold connect_fail, relay_end. sim_case. }
  apply (sim_bind _ _ _ _ _ (λ q, if IS_ERR_OR_NULL (q_rx q) || IS_ERR_OR_NULL (q_tx q) then HFailed 0
    else HPages (half_sockets TX_QP q) qp)); [sim_case |].
  intros q. destruct (_ || _); [by apply sim_ret |]. apply sim_duplex.
Qed.

(** C10. Both functions are runs of the lines that interleave: from the tree
    on, what the server side and the client side do, return or fault with, a
    run of their lines does. *)
Theorem halves_are_lines fuel cpu arg syn pqp w :
  match syn_half fuel cpu syn pqp w with
  | Ok (Some rc, w') => ∃ pc, half_result TX_QP pc = Some rc ∧ lines TX_QP cpu syn (HMeet pqp) w (Ok (pc, w'))
  | Ok (None, _) => True
  | Oops e => lines TX_QP cpu syn (HMeet pqp) w (Oops e)
  end ∧
  match client_relay fuel cpu arg w with
  | Ok (Some rc, w') => ∃ pc, half_result RX_QP pc = Some rc ∧ lines RX_QP cpu syn (HMeet arg) w (Ok (pc, w'))
  | Ok (None, _) => True
  | Oops e => lines RX_QP cpu syn (HMeet arg) w (Oops e)
  end.
Proof. split; [apply syn_half_lines | apply client_relay_lines]. Qed.
End functions.

(** ** Every interleaving *)

(** The half has its QP, has its socket in it, has counted its reference, has
    given it back, and has seen its peer's socket. *)
Definition met (pc : half_pc) : bool := match pc with HMeet _ | HFound _ _ | HAdopt _ _ => false | _ => true end.
Definition stored (pc : half_pc) : bool :=
  match pc with
  | HMeet _ | HFound _ _ | HAdopt _ _ | HSocket _ | HConnect _ _ | HStore _ _ | HTimeout _ | HFailed _ => false
  | _ => true
  end.
Definition took (pc : half_pc) : bool := match pc with HCheck _ | HGet _ _ => false | _ => stored pc end.
Definition gone (pc : half_pc) : bool :=
  match pc with HFree held _ _ | HEnd held _ => negb held | _ => false end.
Definition holds (pc : half_pc) : bool := took pc && negb (gone pc).

(** Its was the second reference, and the QP is still in the tree. *)
Definition fin (pc : half_pc) : bool := match pc with HFin _ _ => true | _ => false end.

(** It has not seen its peer's socket and will wait, is on the queue, asleep;
    it has seen it, and has woken its peer. *)
Definition waits (pc : half_pc) : bool :=
  match pc with
  | HGet wake _ | HFin wake _ => negb wake
  | HWait _ | HQueue _ | HQueued _ _ | HSleep _ _ => true
  | _ => false
  end.
Definition queued (pc : half_pc) : option nat :=
  match pc with HQueued _ n | HSleep _ n => Some n | _ => None end.
Definition asleep (pc : half_pc) : bool := match pc with HSleep _ _ => true | _ => false end.
Definition sees (pc : half_pc) : bool := match pc with HCheck _ => false | _ => stored pc && negb (waits pc) end.
Definition woke (pc : half_pc) : bool :=
  match pc with
  | HLoad _ | HPages _ _ | HRecv _ _ _ | HSend _ _ _ _ | HStop _ _ _ _ | HPut _ _ _ | HFree _ _ _ | HEnd _ _ => true
  | _ => false
  end.

(** Before its reference, with its socket in the QP at [g]. *)
Definition late (g : Z) (pc : half_pc) : Prop := pc = HCheck (PObj g) ∨ ∃ wake, pc = HGet wake (PObj g).

(** ** The wait queue *)

(** A half on the queue, which was woken [W] times: it was woken only after its
    peer had stored its socket, and a half asleep has been woken if its peer is
    past the wake-up. *)
Definition rests (p p' : half_pc) (W : nat) : Prop := ∀ n, queued p = Some n →
  (n ≤ W ∧ (n < W → stored p' = true) ∧ (asleep p = true → woke p' = true → n < W))%nat.

(** At most one of the halves waits. *)
Record sleepers (p p' : half_pc) (W : nat) : Prop := {
  sl_one : waits p = true → waits p' = false;
  sl_this : rests p p' W;
  sl_that : rests p' p W;
}.

Lemma queued_waits p n : queued p = Some n → waits p = true.
Proof. by destruct p. Qed.

Lemma sleepers_sym p p' W : sleepers p p' W → sleepers p' p W.
Proof.
  intros [H1 H2 H3]. split; [| done | done]. intros Hw. destruct (waits p); [| done]. by rewrite H1 in Hw.
Qed.

(** A line that neither queues its half nor wakes the other. *)
Lemma sleepers_move p p1 p' W :
  sleepers p p' W → queued p1 = None → (waits p1 = true → waits p = true) → (stored p = true → stored p1 = true) →
  (woke p1 = true → woke p = true ∨ waits p = true) → sleepers p1 p' W.
Proof.
  intros [H1 H2 H3] Hq Hw Hs Hk. split; [auto | by intros n; rewrite Hq |].
  intros n Hn. destruct (H3 n Hn) as (? & ? & Ha). split_and!; [done | auto |].
  intros Hsl Hk1. destruct (Hk Hk1) as [| Hwp]; [auto |]. apply H1 in Hwp. apply queued_waits in Hn. congruence.
Qed.

(** The lines for which that is plain. *)
Ltac still :=
  eapply sleepers_move; first [eassumption | reflexivity | done | intros _; by left | intros _; by right].

(** A half starts to wait: its peer has no socket in the QP yet. *)
Lemma sleepers_wait p p1 p' W :
  sleepers p p' W → queued p1 = None → woke p1 = false → waits p = false → stored p = true → stored p1 = true →
  stored p' = false → sleepers p1 p' W.
Proof.
  intros [H1 H2 H3] Hq Hk Hw Hs Hs1 Hs'. split; [| by intros n; rewrite Hq |].
  - intros _. destruct p' as [| | | | | | | [] | [] | | | | | | | | | | | | | | |]; done.
  - intros n Hn. destruct (H3 n Hn) as (? & ? & Ha). split_and!; [done | auto |]. by rewrite Hk.
Qed.

(** A half wakes its peer. *)
Lemma sleepers_wake p p1 p' W :
  sleepers p p' W → queued p1 = None → waits p1 = false → stored p1 = true → sleepers p1 p' (S W).
Proof.
  intros [H1 H2 H3] Hq Hw Hs. split; [by rewrite Hw | by intros n; rewrite Hq |].
  intros n Hn. destruct (H3 n Hn) as (? & ? & Ha). split_and!; [lia | done | lia].
Qed.

(** A half is put on the queue, and falls asleep when its peer's socket is not
    there. *)
Lemma sleepers_queue qp p' W : sleepers (HQueue qp) p' W → sleepers (HQueued qp W) p' W.
Proof.
  intros [H1 H2 H3]. split; [done | intros n [= <-]; split_and!; [done | lia | done] |].
  intros n Hn. apply queued_waits in Hn. by rewrite H1 in Hn.
Qed.

Lemma sleepers_sleep qp n p' W :
  sleepers (HQueued qp n) p' W → stored p' = false → sleepers (HSleep qp n) p' W.
Proof.
  intros [H1 H2 H3] Hs. split; [done | | intros m Hm; apply queued_waits in Hm; by rewrite H1 in Hm].
  intros m [= <-]. destruct (H2 n eq_refl) as (? & ? & _). split_and!; [done | done |].
  intros _ Hk. by destruct p'.
Qed.

Lemma qp_dir_set d v q : qp_dir (set_qp_dir d v q) d = v.
Proof. unfold qp_dir, set_qp_dir. by destruct (d =? TX_QP). Qed.

Lemma qp_dir_set_other d v q : is_dir d → qp_dir (set_qp_dir d v q) (Z.lxor d 1) = qp_dir q (Z.lxor d 1).
Proof. by intros [-> | ->]. Qed.

Lemma is_dir_other d : is_dir d → is_dir (Z.lxor d 1).
Proof. intros [-> | ->]; [by right | by left]. Qed.

Lemma other_other d : is_dir d → Z.lxor (Z.lxor d 1) 1 = d.
Proof. by intros [-> | ->]. Qed.

Lemma other_ne d : is_dir d → Z.lxor d 1 ≠ d.
Proof. by intros [-> | ->]. Qed.

Lemma half_sockets_eq d q :
  is_dir d → half_sockets d q = MkSockets (qp_dir q d) (qp_dir q (Z.lxor d 1)) (if d =? TX_QP then 1 else 0).
Proof. by intros [-> | ->]. Qed.

(** What the lines of the relay leave alone. *)
Record same_core w w' : Prop := {
  sc_qps : qps w' = qps w;
  sc_listners : listners w' = listners w;
  sc_roots : roots w' = roots w;
  sc_syns : syns w' = syns w;
  sc_socks : socks w' = socks w;
  sc_rest : rest w' = rest w;
  sc_wakes : same_wakes w w';
  sc_next : next w ≤ next w';
}.

#[export] Instance same_core_refl : Reflexive same_core.
Proof. by intros w. Qed.

#[export] Instance same_core_trans : Transitive same_core.
Proof.
  intros w1 w2 w3 [] []. split; first [congruence | lia | by etransitivity].
Qed.

Lemma free_pages_core kvec w :
  match kforeach kvec free_page w with
  | Ok (_, w') => same_core w w'
  | Oops e => e = WildFree
  end.
Proof.
  revert w. induction kvec as [| [p |] kvec IH]; intros w; [by apply same_core_refl | | done].
  cbn [kforeach]. unfold free_page. destruct (p =? 0); kpure; [apply IH |].
  specialize (IH (add_log (E_free_page p) w)). destruct (kforeach _ _ _) as [[? w'] |]; [| done].
  etransitivity; [| exact IH]. by split.
Qed.

(** [put_qp] touches the QP and its sockets only. *)
Definition put_frame w w' : Prop :=
  listners w' = listners w ∧ roots w' = roots w ∧ syns w' = syns w ∧ next w' = next w ∧ rest w' = rest w ∧ same_wakes w w'.

Lemma put_qp_frame qp : keeps put_frame (put_qp qp).
Proof.
  assert (Reflexive put_frame) by (intros w; by split_and!).
  assert (Transitive put_frame).
  { intros w1 w2 w3 (? & ? & ? & ? & ? & ?) (? & ? & ? & ? & ? & ?). split_and!; congruence. }
  unfold put_qp, load_qp, store_qp, free_qp, sock_release, kernel_sock_shutdown, sock_addr.
  kkeeps; apply keeps_modify; intros w; by split_and!.
Qed.

Section pages.
Context `{Quiet}.

Lemma alloc_kvec_core call n w : ∃ l ok w', alloc_kvec call n w = Ok ((l, ok), w') ∧ same_core w w'.
Proof.
  revert w. induction n as [| n IH]; intros w; [by eexists _, _, _ |]. cbn [alloc_kvec].
  kstep (kernel_call_quiet call w). destruct (_ =? 0); [by eexists _, _, _ |].
  set (w1 := ticked _ w). kstep (eq_refl (fresh_addr w1)). kpure. set (w2 := add_log _ _).
  destruct (IH w2) as (l & ok & w3 & Hl & Hc). kstep Hl. eexists _, _, _. split; [done |].
  etransitivity; [| exact Hc]. split; try done. simpl. lia.
Qed.

Lemma recvmsg_core w z st n :
  socks w !! z = Some st → ∃ rc bytes w', kernel_recvmsg (PObj z) n w = Ok ((rc, bytes), w') ∧ same_core w w'.
Proof.
  intros Hst. unfold kernel_recvmsg. kstep (sock_addr_ok w z st Hst). kpure.
  kstep (kernel_call_quiet (C_recvmsg (PObj z) n) w).
  destruct (_ <=? 0); eexists _, _, _; (split; [done | by split]).
Qed.

Lemma sendmsg_core w z st bytes :
  socks w !! z = Some st → ∃ rc w', kernel_sendmsg (PObj z) bytes w = Ok (rc, w') ∧ same_core w w'.
Proof.
  intros Hst. unfold kernel_sendmsg. kstep (sock_addr_ok w z st Hst).
  kstep (kernel_call_quiet (C_sendmsg (PObj z) (Z.of_nat (length bytes))) w).
  destruct (_ <=? 0); eexists _, _; (split; [done | by split]).
Qed.
End pages.

(** What the two halves of a connection leave alone: the other QPs, SYN
    records and trees, what the others have in the same tree, the sockets [S0]
    of the others, the queues of other QPs, and the state no half uses. *)
Record pair_frame (l cpu s a b : Z) (S0 : gset Z) (w w' : world) : Prop := {
  pf_listners : listners w' = listners w;
  pf_qps y : y ≠ a → y ≠ b → qps w' !! y = qps w !! y;
  pf_syns y : y ≠ s → syns w' !! y = syns w !! y;
  pf_roots r : r ≠ (l, cpu) → roots w' !! r = roots w !! r;
  pf_tree t' : roots w' !! (l, cpu) = Some t' →
    ∃ t, roots w !! (l, cpu) = Some t ∧ ∀ y, y ≠ a → y ≠ b → y ∈ inorder t' ↔ y ∈ inorder t;
  pf_socks z : z ∈ S0 → socks w' !! z = socks w !! z;
  pf_wakes y : y ≠ a → y ≠ b → wakes y (log w') = wakes y (log w);
  pf_rest : rest w' = rest w;
  pf_next : next w ≤ next w';
}.

#[export] Instance pair_frame_refl l cpu s a b S0 : Reflexive (pair_frame l cpu s a b S0).
Proof. intros w. split; try done. intros t Ht. by exists t. Qed.

#[export] Instance pair_frame_trans l cpu s a b S0 : Transitive (pair_frame l cpu s a b S0).
Proof.
  intros w1 w2 w3 [El Eq Ey Er Et Es Ew Eo En] [El' Eq' Ey' Er' Et' Es' Ew' Eo' En']. split; [.. | lia].
  - congruence.
  - intros y ??. by rewrite Eq', Eq.
  - intros y ?. by rewrite Ey', Ey.
  - intros r ?. by rewrite Er', Er.
  - intros t3 (t2 & (t1 & H1 & Hi)%Et & Hi')%Et'. exists t1. split; [done |]. intros y ??. by rewrite Hi', Hi.
  - intros z ?. by rewrite Es', Es.
  - intros y ??. by rewrite Ew', Ew.
  - congruence.
Qed.

(** A step that leaves the trees as they are. *)
Lemma pair_frame_step l cpu s a b (S0 : gset Z) w w' :
  listners w' = listners w → roots w' = roots w → (∀ y, y ≠ a → y ≠ b → qps w' !! y = qps w !! y) →
  (∀ y, y ≠ s → syns w' !! y = syns w !! y) → (∀ z, z ∈ S0 → socks w' !! z = socks w !! z) →
  (∀ y, y ≠ a → y ≠ b → wakes y (log w') = wakes y (log w)) → rest w' = rest w → next w ≤ next w' →
  pair_frame l cpu s a b S0 w w'.
Proof. intros El Er Eq Ey Es Ew Eo En. split; rewrite ?Er; try done. intros t Ht. by exists t. Qed.

(** One that puts another tree in the place of ours. *)
Lemma pair_frame_root l cpu s a b (S0 : gset Z) w w' t t' :
  listners w' = listners w → roots w !! (l, cpu) = Some t → roots w' = <[(l, cpu) := t']> (roots w) →
  (∀ y, y ≠ a → y ≠ b → y ∈ inorder t' ↔ y ∈ inorder t) →
  (∀ y, y ≠ a → y ≠ b → qps w' !! y = qps w !! y) → (∀ y, y ≠ s → syns w' !! y = syns w !! y) →
  (∀ z, z ∈ S0 → socks w' !! z = socks w !! z) →
  (∀ y, y ≠ a → y ≠ b → wakes y (log w') = wakes y (log w)) → rest w' = rest w →
  next w ≤ next w' → pair_frame l cpu s a b S0 w w'.
Proof.
  intros El Ht Er Hi Eq Ey Es Ew Eo En. split; try done; rewrite Er.
  - intros r Hr. by rewrite lookup_insert_ne.
  - intros u. rewrite lookup_insert_eq. intros [= <-]. by exists t.
Qed.

(** The code of the relay, and a world that differs in nothing. *)
Lemma pair_frame_core l cpu s a b S0 w w' : same_core w w' → pair_frame l cpu s a b S0 w w'.
Proof. intros []. apply pair_frame_step; try done; congruence. Qed.

Section invariant.
Variables (l cpu s a b sx : Z) (k : list Z) (S0 : gset Z) (w0 : world).
Implicit Types w : world.

(** The QP each half comes with: [a] of the client side, whose socket is [sx],
    and [b] of the server side, with no socket yet. *)
Definition own (d : Z) : Z := if d =? TX_QP then b else a.
Definition own_qp (d : Z) : cbn_qp :=
  if d =? TX_QP then MkQp k 0 (PObj l) (PErr EINVAL) PNull else MkQp k 0 (PObj l) PNull (PObj sx).
Definition own_socks (d : Z) : gset Z := if d =? TX_QP then ∅ else {[sx]}.

(** A half that has not joined the QP [q] at [g] of its peer. *)
Definition outside (d g : Z) (q : cbn_qp) (t : tree Z) w (O : gset Z) : Prop :=
  own d ≠ g ∧ own d ∉ inorder t ∧ qps w !! own d = Some (own_qp d) ∧ qp_dir q d = PNull ∧ O = own_socks d ∧
  (d = TX_QP → is_Some (syns w !! s)).

(** One half's side of the QP [q] at [g], in the tree [t] or not: what the
    half holds pointers to, and the sockets [O] it has open. *)
Definition side (d g : Z) (pc : half_pc) (q : cbn_qp) (t : tree Z) w (O : gset Z) : Prop :=
  match pc with
  | HMeet p => p = PObj (own d) ∧ outside d g q t w O
  | HFound p p' | HAdopt p p' => p = PObj (own d) ∧ p' = PObj g ∧ outside d g q t w O
  | HSocket p => p = PObj g ∧ d = TX_QP ∧ qp_dir q d = PErr EINVAL ∧ O = ∅ ∧ is_Some (syns w !! s)
  | HConnect p tx | HStore p tx => p = PObj g ∧ d = TX_QP ∧ qp_dir q d = PErr EINVAL ∧
      is_Some (syns w !! s) ∧ ∃ z, tx = PObj z ∧ O = {[z]}
  | HFailed _ => d = TX_QP ∧ qp_dir q d = PErr EINVAL ∧ O = ∅
  | HTimeout _ => False
  | HCheck p | HGet _ p | HFin _ p | HWake p | HWait p | HQueue p | HQueued p _ | HSleep p _ | HLoad p | HPut p _ _ =>
      p = PObj g ∧ ∃ z, qp_dir q d = PObj z ∧ O = {[z]}
  | HPages sock p | HRecv sock p _ | HSend sock p _ _ | HStop sock p _ _ =>
      p = PObj g ∧ sock = half_sockets d q ∧ ∃ z, qp_dir q d = PObj z ∧ O = {[z]}
  | HFree _ _ _ | HEnd _ _ => ∃ z, qp_dir q d = PObj z ∧ O = {[z]}
  end.

(** The own QP of a half that has been to the tree is the shared one or freed. *)
Definition clean (d g : Z) (pc : half_pc) w : Prop := met pc = true → own d = g ∨ qps w !! own d = None.

(** The server side frees its SYN record once its socket is in the QP. *)
Definition syn_freed (d : Z) (pc : half_pc) w : Prop := d = TX_QP → stored pc = true → syns w !! s = None.

(** The QP is out of the tree once both references are counted and the second
    half has come back from [fin_connected_qp]. *)
Definition out (p p' : half_pc) : bool := took p && took p' && negb (fin p || fin p').

(** The QP is live and shared. *)
Record linked (g d : Z) (p p' : half_pc) w (q : cbn_qp) (t : tree Z) (O O' : gset Z) : Prop := {
  lk_g : g = own d ∨ g = own (Z.lxor d 1);
  lk_qp : qps w !! g = Some q;
  lk_key : q_key q = k;
  lk_listner : q_listner q = PObj l;
  lk_root : has_root w l cpu t;
  lk_tree : root_ok w t;
  lk_in : out p p' = false → g ∈ inorder t;
  lk_out : out p p' = true → g ∉ inorder t;
  lk_fin : fin p = true → took p' = true ∧ fin p' = false;
  lk_fin' : fin p' = true → took p = true ∧ fin p = false;
  lk_ref : ref_cnt q = Z.b2z (holds p) + Z.b2z (holds p');
  lk_side : side d g p q t w O;
  lk_side' : side (Z.lxor d 1) g p' q t w O';
  lk_sleep : sleepers p p' (wakes g (log w));
  lk_sees : sees p = true → stored p' = true;
  lk_sees' : sees p' = true → stored p = true;
  lk_gone : gone p = true → holds p' = true;
  lk_gone' : gone p' = true → holds p = true;
  lk_socks : dom (socks w) = S0 ∪ O ∪ O';
  lk_disj : O ## O' ∧ O ## S0 ∧ O' ## S0;
  lk_next : ∀ z, z ∈ S0 ∪ O ∪ O' → z < next w;
  lk_clean : clean d g p w;
  lk_clean' : clean (Z.lxor d 1) g p' w;
  lk_syn : syn_freed d p w;
  lk_syn' : syn_freed (Z.lxor d 1) p' w;
  lk_frame : pair_frame l cpu s a b S0 w0 w;
}.

Definition joined (g d : Z) (p p' : half_pc) w : Prop := ∃ q t O O', linked g d p p' w q t O O'.

(** Neither half has been to the tree. *)
Record apart (d : Z) (p p' : half_pc) w (t : tree Z) : Prop := {
  ap_pc : p = HMeet (PObj (own d));
  ap_pc' : p' = HMeet (PObj (own (Z.lxor d 1)));
  ap_qp : qps w !! own d = Some (own_qp d);
  ap_qp' : qps w !! own (Z.lxor d 1) = Some (own_qp (Z.lxor d 1));
  ap_root : has_root w l cpu t;
  ap_tree : root_ok w t;
  ap_out : own d ∉ inorder t;
  ap_out' : own (Z.lxor d 1) ∉ inorder t;
  ap_new : ∀ y, y ∈ inorder t → ¬ same_cstr w y k;
  ap_syn : is_Some (syns w !! s);
  ap_socks : dom (socks w) = S0 ∪ {[sx]};
  ap_sx : sx ∉ S0;
  ap_next : ∀ z, z ∈ S0 ∪ {[sx]} → z < next w;
}.

(** The QP has been freed: both halves have put it, or one has and the other
    comes too late. *)
Record freed (g d : Z) (p p' : half_pc) w : Prop := {
  fr_g : g = own d ∨ g = own (Z.lxor d 1);
  fr_qp : qps w !! g = None;
  fr_some : gone p = true ∨ gone p' = true;
  fr_pc : gone p = true ∨ late g p;
  fr_pc' : gone p' = true ∨ late g p';
  fr_tree : took p && took p' = true → ∃ t, has_root w l cpu t ∧ root_ok w t;
  fr_socks : dom (socks w) = S0;
  fr_next : ∀ z, z ∈ S0 → z < next w;
  fr_clean : clean d g p w;
  fr_clean' : clean (Z.lxor d 1) g p' w;
  fr_syn : syn_freed d p w;
  fr_syn' : syn_freed (Z.lxor d 1) p' w;
  fr_frame : pair_frame l cpu s a b S0 w0 w;
}.

Definition pair_inv (d : Z) (p p' : half_pc) w : Prop :=
  (∃ t, apart d p p' w t ∧ pair_frame l cpu s a b S0 w0 w) ∨ ∃ g, joined g d p p' w ∨ freed g d p p' w.

(** The invariant does not care which half is named first. *)
Lemma pair_inv_sym d p p' w : is_dir d → pair_inv d p p' w → pair_inv (Z.lxor d 1) p' p w.
Proof.
  intros Hd [(t & [] & Hfr) | (g & [(q & t & O & O' & []) | []])].
  - left. exists t. split; [| done]. split; rewrite ?other_other by done; done.
  - assert (Eo : out p' p = out p p') by (unfold out; by rewrite (andb_comm (took p')), (orb_comm (fin p'))).
    right. exists g. left. exists q, t, O', O. split; rewrite ?other_other, ?Eo by done; try done; try tauto;
      [lia | by apply sleepers_sym | rewrite lk_socks0; clear; set_solver | by destruct lk_disj0 as (? & ? & ?); split_and!
      | intros z Hz; apply lk_next0; clear -Hz; set_solver].
  - right. exists g. right. split; rewrite ?other_other by done; try done; try tauto.
    by rewrite andb_comm.
Qed.

Lemma side_frame d g pc q q' t t' w w' O :
  side d g pc q t w O → qp_dir q' d = qp_dir q d →
  (sees pc = true → half_sockets d q' = half_sockets d q) →
  (met pc = false → own d ∉ inorder t' ∧ qps w' !! own d = qps w !! own d) →
  (d = TX_QP → is_Some (syns w !! s) → is_Some (syns w' !! s)) → side d g pc q' t' w' O.
Proof.
  intros Hs Hq Hso Hm Hy. destruct pc; simpl in *; rewrite ?Hq, ?Hso by done; try done.
  - destruct (Hm eq_refl) as [? E]. unfold outside in *. rewrite E, Hq. naive_solver.
  - destruct (Hm eq_refl) as [? E]. unfold outside in *. rewrite E, Hq. naive_solver.
  - destruct (Hm eq_refl) as [? E]. unfold outside in *. rewrite E, Hq. naive_solver.
  - naive_solver.
  - naive_solver.
  - naive_solver.
Qed.

(** The socket of a half that has stored one. *)
Lemma side_stored d g pc q t w O :
  side d g pc q t w O → stored pc = true → ∃ z, qp_dir q d = PObj z ∧ O = {[z]}.
Proof. destruct pc; simpl; intros; naive_solver. Qed.

Lemma side_not_stored d g pc q t w O :
  side d g pc q t w O → IS_ERR_OR_NULL (qp_dir q d) = false → stored pc = true.
Proof.
  destruct pc; simpl; try done; unfold outside; intros Hs Hp; destruct_and?;
    match goal with E : qp_dir q d = _ |- _ => by rewrite E in Hp end.
Qed.

Lemma side_absent d g pc q t w O :
  side d g pc q t w O → IS_ERR_OR_NULL (qp_dir q d) = true → stored pc = false.
Proof.
  intros Hs Hp. destruct (stored pc) eqn:E; [| done]. destruct (side_stored _ _ _ _ _ _ _ Hs E) as (z & Ez & _).
  by rewrite Ez in Hp.
Qed.

Lemma side_unmet d g pc q t w O : side d g pc q t w O → met pc = false → outside d g q t w O.
Proof. destruct pc; simpl; try done; tauto. Qed.

Lemma side_late d g pc q t w O : side d g pc q t w O → stored pc = true → took pc = false → late g pc.
Proof. unfold late. destruct pc; simpl; try done; naive_solver. Qed.
End invariant.

Section steps.
Context `{Quiet} `{RbLaws Z}.
Variables (l cpu s a b sx : Z) (k : list Z) (S0 : gset Z) (w0 : world).
Hypothesis own_ne : a ≠ b.
Hypothesis key_ok : good_key k.
Implicit Types w : world.

Abbreviation linked := (linked l cpu s a b sx k S0 w0).
Abbreviation joined := (joined l cpu s a b sx k S0 w0).
Abbreviation freed := (freed l cpu s a b S0 w0).
Abbreviation framed := (pair_frame l cpu s a b S0).
Abbreviation apart := (apart l cpu s a b sx k S0).
Abbreviation syn_freed := (syn_freed s).
Abbreviation side := (side l s a b sx k).
Abbreviation own := (own a b).
Abbreviation own_qp := (own_qp l sx k).
Abbreviation pair_inv := (pair_inv l cpu s a b sx k S0 w0).

Lemma own_other d : is_dir d → own (Z.lxor d 1) ≠ own d.
Proof. unfold own. by intros [-> | ->]; simpl. Qed.

Lemma root_ok_qps w w' t : qps w' = qps w → root_ok w t → root_ok w' t.
Proof.
  intros Eq Hok. eapply root_ok_ext; [| done]. intros x Hx. unfold node_key. rewrite Eq. split; [by apply Hok | done].
Qed.

Lemma own_cases d : own d = a ∨ own d = b.
Proof. unfold own. destruct (d =? TX_QP); auto. Qed.

(** The shared QP is one of the two. *)
Lemma own_neq g d y : g = own d ∨ g = own (Z.lxor d 1) → y ≠ a → y ≠ b → y ≠ g.
Proof.
  intros [-> | ->]; [destruct (own_cases d) as [-> | ->] | destruct (own_cases (Z.lxor d 1)) as [-> | ->]]; auto.
Qed.

(** A half that moves on with its reference as it was, and the QP too; it may
    wake the queue. *)
Lemma linked_move g d p p' p1 w w1 q t O O' O1 :
  linked g d p p' w q t O O' →
  qps w1 = qps w ∧ listners w1 = listners w ∧ roots w1 = roots w ∧ rest w1 = rest w ∧ next w ≤ next w1 →
  (∀ y, y ≠ s ∨ stored p = true ∨ d = RX_QP → syns w1 !! y = syns w !! y) → (∀ z, z ∈ S0 → socks w1 !! z = socks w !! z) →
  (∀ y, y ≠ g → wakes y (log w1) = wakes y (log w)) → is_dir d → side d g p1 q t w1 O1 →
  took p1 = took p → gone p1 = gone p → met p1 = met p → fin p1 = fin p → stored p1 = stored p →
  (sees p1 = true → stored p' = true) → sleepers p1 p' (wakes g (log w1)) →
  dom (socks w1) = S0 ∪ O1 ∪ O' → O1 ## O' → O1 ## S0 → (∀ z, z ∈ O1 → z < next w1) →
  linked g d p1 p' w1 q t O1 O'.
Proof.
  intros [] (Eq & El & Er & Eo & En) Ey Ez Ew Hd Hside Et Eg Em Ef Est Hsees Hsl Hdom Hdis1 Hdis2 Hnext.
  split; unfold holds, clean, syn_freed, has_root, out in *; rewrite ?Et, ?Eg, ?Em, ?Ef, ?Est, ?Eq, ?El, ?Er; try done.
  - by eapply root_ok_qps.
  - eapply side_frame; try done; rewrite ?Eq; [| destruct Hd as [-> | ->]; [done | rewrite Ey; auto]].
    intros Hm. split; [| done]. by destruct (side_unmet _ _ _ _ _ _ _ _ _ _ _ _ _ lk_side'0 Hm) as (_ & ? & _).
  - split_and!; try done. apply lk_disj0.
  - intros z. rewrite !elem_of_union. intros [[Hz | Hz] | Hz]; [| by apply Hnext |];
      (apply (Z.lt_le_trans _ (next w)); [apply lk_next0; set_solver | done]).
  - intros. rewrite Ey by auto. auto.
  - intros. rewrite Ey by (destruct Hd as [-> | ->]; auto). auto.
  - etransitivity; [done |]. apply pair_frame_step; [done | done | by rewrite Eq | auto | done | | done | done].
    intros y Hya Hyb. apply Ew. by eapply own_neq.
Qed.

(** One that changes nothing shared. *)
Lemma joined_core g d p p' p1 w w1 :
  joined g d p p' w → same_core w w1 → is_dir d →
  (∀ q t O, side d g p q t w O → side d g p1 q t w1 O) →
  took p1 = took p → gone p1 = gone p → met p1 = met p → fin p1 = fin p → stored p1 = stored p →
  (sees p1 = true → stored p' = true) →
  (sleepers p p' (wakes g (log w)) → sleepers p1 p' (wakes g (log w))) → joined g d p1 p' w1.
Proof.
  intros (q & t & O & O' & Hlk) [Eq El Er Ey Es Eo Ew En] Hd Hside Et Eg Em Ef Est Hsees Hsl.
  exists q, t, O, O'. eapply linked_move; try done; destruct Hlk.
  - intros y _. by rewrite Ey.
  - by rewrite Es.
  - by apply Hside.
  - rewrite Ew. by apply Hsl.
  - by rewrite Es.
  - apply lk_disj0.
  - apply lk_disj0.
  - intros z Hz. specialize (lk_next0 z). set_solver by lia.
Qed.

Lemma own_qp_dirs d :
  is_dir d → q_key (own_qp d) = k ∧ q_listner (own_qp d) = PObj l ∧ ref_cnt (own_qp d) = 0 ∧
  qp_dir (own_qp d) (Z.lxor d 1) = PNull.
Proof. by intros [-> | ->]. Qed.

(** The side of a half that has just got its QP. *)
Lemma side_after_meet d g q t w :
  is_dir d → qp_dir q d = qp_dir (own_qp d) d → (d = TX_QP → is_Some (syns w !! s)) →
  side d g (after_meet d (PObj g)) q t w (own_socks sx d).
Proof. intros [-> | ->] Hq Hs; simpl in *; rewrite Hq; [by split_and!; auto | split; [done | by eexists]]. Qed.

Lemma after_meet_bits d qp :
  is_dir d → (met (after_meet d qp) = true ∧ took (after_meet d qp) = false ∧ gone (after_meet d qp) = false ∧
  sees (after_meet d qp) = false ∧ fin (after_meet d qp) = false) ∧
  waits (after_meet d qp) = false ∧ queued (after_meet d qp) = None ∧ woke (after_meet d qp) = false.
Proof. by intros [-> | ->]. Qed.

(** The first half inserts its own QP. *)
Lemma apart_meet d p p' w t :
  is_dir d → apart d p p' w t → framed w0 w →
  ∃ t', half_line d cpu (PObj s) p w = Ok (after_meet d (PObj (own d)), upd_roots <[(l, cpu) := t']> w) ∧
    joined (own d) d (after_meet d (PObj (own d))) p' (upd_roots <[(l, cpu) := t']> w).
Proof.
  intros Hd [] Hfr. subst p p'. destruct (own_qp_dirs d Hd) as (Ek & El & Er & Ed).
  destruct (qp_insert_new w cpu (own d) (own_qp d) l t) as (t' & He & Hp & Hok).
  { split_and!; try done. by rewrite Ek. }
  { intros y Hy. rewrite Ek. by apply ap_new0. }
  exists t'. split; [cbn [half_line]; by kstep He |].
  destruct (after_meet_bits d (PObj (own d)) Hd) as ((Em & Et & Eg & Es & Ef) & Ew & Eq & Ek').
  assert (Hno := own_other d Hd). pose proof ap_root0 as [Hl Ht].
  exists (own_qp d), t', (own_socks sx d), (own_socks sx (Z.lxor d 1)).
  split; unfold clean, syn_freed, holds, out in *; rewrite ?Em, ?Et, ?Eg, ?Es, ?Ef; try done; try by left.
  - split; [done | apply lookup_insert_eq].
  - intros _. rewrite Hp. by left.
  - by apply side_after_meet.
  - simpl. split; [done |]. split_and!; try done. rewrite Hp, elem_of_cons. tauto.
  - split; [by rewrite Ew | intros n; by rewrite Eq | done].
  - simpl. rewrite ap_socks0. destruct Hd as [-> | ->]; simpl; set_solver.
  - destruct Hd as [-> | ->]; simpl; set_solver.
  - intros z Hz. apply ap_next0. destruct Hd as [-> | ->]; simpl in Hz; set_solver.
  - by intros ->.
  - etransitivity; [exact Hfr |]. apply (pair_frame_root _ _ _ _ _ _ _ _ t t'); try done; idtac.
    intros y Hya Hyb. rewrite Hp, elem_of_cons. destruct (own_cases d) as [-> | ->]; tauto.
Qed.

Lemma own_insert g d (m : gmap Z cbn_qp) q y :
  g = own d ∨ g = own (Z.lxor d 1) → y ≠ a → y ≠ b → <[g := q]> m !! y = m !! y ∧ delete g m !! y = m !! y.
Proof.
  intros Hg Ha Hb. assert (y ≠ g) by by eapply own_neq. by rewrite lookup_insert_ne, lookup_delete_ne.
Qed.

(** The second half finds the QP of the first, with no socket on its side. *)
Lemma joined_meet g d c p' w :
  is_dir d → joined g d (HMeet c) p' w →
  ∃ p1 w', half_line d cpu (PObj s) (HMeet c) w = Ok (p1, w') ∧ joined g d p1 p' w'.
Proof.
  intros Hd Hj. pose proof Hj as (q & t & O & O' & []). destruct lk_side0 as (-> & Hne & Hout & Hown & Hq & -> & Hsyn).
  destruct (own_qp_dirs d Hd) as (Ek & El & Er & Ed). assert (Hin : g ∈ inorder t) by (by apply lk_in0).
  assert (He := qp_insert_found w cpu (own d) (own_qp d) l t g). rewrite Ek in He.
  specialize (He ltac:(by split_and!; rewrite ?Ek) Hin).
  unfold same_cstr, node_key in He. rewrite lk_qp0 in He. simpl in He. rewrite lk_key0 in He. specialize (He eq_refl).
  cbn [half_line]. kstep He. eexists _, _. split; [done |]. eapply joined_core; try done.
  - split; try done. simpl. by apply insert_id, lk_root0.
  - intros ???. simpl. tauto.
  - intros. still.
Qed.

Lemma joined_found g d c c' p' w :
  is_dir d → joined g d (HFound c c') p' w →
  ∃ p1 w', half_line d cpu (PObj s) (HFound c c') w = Ok (p1, w') ∧ joined g d p1 p' w'.
Proof.
  intros Hd Hj. pose proof Hj as (q & t & O & O' & []). destruct lk_side0 as (-> & -> & _ & _ & _ & Hq & _).
  cbn [half_line]. kstep (load_qp_ok w g q lk_qp0). rewrite decide_False by tauto.
  eexists _, _. split; [done |]. eapply joined_core; try done. intros. still.
Qed.

(** It joins that QP. *)
Lemma joined_adopt g d c c' p' w :
  is_dir d → joined g d (HAdopt c c') p' w →
  ∃ p1 w', half_line d cpu (PObj s) (HAdopt c c') w = Ok (p1, w') ∧ joined g d p1 p' w'.
Proof.
  intros Hd (q & t & O & O' & []). destruct lk_side0 as (-> & -> & Hne & Hout & Hown & Hq & -> & Hsyn).
  cbn [half_line]. kstep (qp_adopt_ok w (own d) g (own_qp d) q d Hown lk_qp0 Hne).
  set (q1 := set_qp_dir d _ q) in *. set (w1 := add_log _ _) in *. eexists _, w1. split; [done |].
  destruct (after_meet_bits d (PObj g) Hd) as ((Em & Et & Eg & Es & Ef) & Ew & Equ & Ek').
  assert (Hgo : own (Z.lxor d 1) = g) by (destruct lk_g0; congruence).
  assert (Eq : qps w1 !! g = Some q1) by (simpl; by rewrite lookup_delete_ne, lookup_insert_eq).
  assert (Ek1 : q_key q1 = k ∧ q_listner q1 = PObj l ∧ ref_cnt q1 = ref_cnt q)
    by (unfold q1, set_qp_dir; by destruct (d =? TX_QP)).
  destruct Ek1 as (Ek1 & El1 & Er1). exists q1, t, (own_socks sx d), O'.
  split; unfold clean, syn_freed, holds, out in *; rewrite ?Em, ?Et, ?Eg, ?Es, ?Ef; try done.
  - eapply root_ok_ext; [| done]. intros x Hx. unfold node_key.
    destruct (decide (x = g)) as [-> |]; [rewrite Eq, lk_qp0; split; [by eexists | simpl; congruence] |].
    assert (x ≠ own d) by (by intros ->). simpl. rewrite lookup_delete_ne, lookup_insert_ne by done.
    split; [by apply lk_tree0 | done].
  - by rewrite Er1, lk_ref0.
  - apply side_after_meet; [done | apply qp_dir_set | done].
  - eapply side_frame; try done; [by apply qp_dir_set_other | by intros ?%lk_sees'0 |].
    intros Hm. by destruct (side_unmet _ _ _ _ _ _ _ _ _ _ _ _ _ lk_side'0 Hm) as (? & _).
  - eapply sleepers_move; [done | done | by rewrite Ew | done | by rewrite Ek'].
  - by intros ?%lk_sees'0.
  - intros _. right. simpl. apply lookup_delete_eq.
  - intros _. by left.
  - by intros ->.
  - etransitivity; [done |]. apply pair_frame_step; try done.
    intros y Hya Hyb. simpl. rewrite (proj2 (own_insert (own d) d _ q y (or_introl eq_refl) Hya Hyb)).
    by apply (own_insert g d).
Qed.

(** The server side makes its socket, or fails to. *)
Lemma joined_socket g d c p' w :
  is_dir d → joined g d (HSocket c) p' w →
  ∃ p1 w', half_line d cpu (PObj s) (HSocket c) w = Ok (p1, w') ∧ joined g d p1 p' w'.
Proof.
  intros Hd (q & t & O & O' & Hlk). pose proof Hlk as []. destruct lk_side0 as (-> & -> & Hq & -> & Hsyn). cbn [half_line].
  destruct (decide (answer (tick w) = 0)) as [Ha | Ha].
  - kstep (sock_create_quiet w Ha). change (negb (0 =? 0)) with false. cbv iota.
    assert (Hnew : next w ∉ S0 ∪ ∅ ∪ O') by (intros Hz%Hlk; lia).
    eexists _, _. split; [done |]. exists q, t, {[next w]}, O'. eapply linked_move; try done.
    + simpl. split_and!; try done. lia.
    + intros z Hz. simpl. apply lookup_insert_ne. intros <-. apply Hnew. clear -Hz. set_solver.
    + simpl. split_and!; try done. by eexists.
    + still.
    + simpl. rewrite dom_insert_L, lk_socks0. set_solver.
    + set_solver.
    + set_solver.
    + simpl. intros z ->%elem_of_singleton. lia.
  - kstep (sock_create_fails w Ha). apply Z.eqb_neq in Ha. rewrite Ha. cbn [negb].
    eexists _, _. split; [done |]. exists q, t, ∅, O'. eapply linked_move; try done. still.
Qed.

(** It connects, or releases the socket. *)
Lemma joined_connect g d c tx p' w :
  is_dir d → joined g d (HConnect c tx) p' w →
  ∃ p1 w', half_line d cpu (PObj s) (HConnect c tx) w = Ok (p1, w') ∧ joined g d p1 p' w'.
Proof.
  intros Hd (q & t & O & O' & Hlk). pose proof Hlk as [].
  destruct lk_side0 as (-> & -> & Hq & [x Hx] & z & -> & ->). cbn [half_line].
  assert (Hz : z ∈ dom (socks w)) by (rewrite lk_socks0; set_solver).
  apply elem_of_dom in Hz as [st Hst].
  destruct (syn_connect_total w s z x st Hx Hst) as (rc & w1 & Hc & (Eq & El & _ & Er & Es & En & Eo & Ew) & [y Ey] & _).
  kstep Hc. destruct (Z.eqb_spec rc 0) as [-> |]; cbn [negb].
  - eexists _, _. split; [done |]. exists q, t, {[z]}, O'. eapply linked_move; try done.
    + split_and!; try done. lia.
    + intros y' [Hy | [[=] | [=]]]. by rewrite Ey, lookup_insert_ne.
    + by rewrite Es.
    + simpl. split_and!; try done; [rewrite Ey, lookup_insert_eq; by eexists | by eexists].
    + rewrite Ew. still.
    + by rewrite Es.
    + apply lk_disj0.
    + apply lk_disj0.
    + intros u Hu. rewrite En. apply lk_next0. set_solver.
  - unfold connect_fail. cbn [IS_ERR_OR_NULL]. rewrite kbind_assoc. rewrite <- Es in Hst.
    kstep (sock_release_ok w1 z st Hst). kpure.
    eexists _, _. split; [done |]. exists q, t, ∅, O'. eapply linked_move; try done.
    + simpl. split_and!; try done. lia.
    + intros y' [Hy | [[=] | [=]]]. simpl. by rewrite Ey, lookup_insert_ne.
    + intros u Hu. simpl. rewrite Es. apply lookup_delete_ne. intros <-. set_solver.
    + intros u _. exact (Ew u).
    + change (sleepers (HFailed rc) p' (wakes g (log w1))). rewrite Ew. still.
    + simpl. rewrite dom_delete_L, Es, lk_socks0. destruct lk_disj0. set_solver.
Qed.

(** A half that changes its side of the QP or its reference, and perhaps
    takes the QP out of the tree. *)
Lemma linked_qp g d p p' p1 w w1 q q1 t t1 O O' :
  linked g d p p' w q t O O' → is_dir d →
  qps w1 = <[g := q1]> (qps w) ∧ next w1 = next w ∧ dom (socks w1) = dom (socks w) →
  has_root w1 l cpu t1 ∧ root_ok w t1 ∧ (∀ x, x ∈ inorder t1 → x ∈ inorder t) →
  (out p1 p' = false → g ∈ inorder t1) → (out p1 p' = true → g ∉ inorder t1) →
  (fin p1 = true → took p' = true ∧ fin p' = false) → (fin p' = true → took p1 = true ∧ fin p1 = false) →
  (d = RX_QP → syns w1 = syns w) → syn_freed d p1 w1 → framed w w1 →
  q_key q1 = q_key q ∧ q_listner q1 = q_listner q ∧ qp_dir q1 (Z.lxor d 1) = qp_dir q (Z.lxor d 1) →
  (sees p' = true → qp_dir q1 d = qp_dir q d) →
  ref_cnt q1 = Z.b2z (holds p1) + Z.b2z (holds p') → met p = true → stored p1 = true →
  sleepers p1 p' (wakes g (log w1)) →
  (sees p1 = true → stored p' = true) → (gone p1 = true → holds p' = true) → (gone p' = true → holds p1 = true) →
  side d g p1 q1 t1 w1 O → linked g d p1 p' w1 q1 t1 O O'.
Proof.
  intros [] Hd (Eq & En & Es) (Hr & Hok & Hsub) Hin Hout Hf Hf' Ey Hsy Hfr (Ek & Els & Ed) Hsd Href Hm Est Hsl Hsees Hg Hg' Hside.
  split; unfold clean; rewrite ?Ek, ?Els, ?Es, ?En, ?Eq; try done.
  - apply lookup_insert_eq.
  - eapply root_ok_ext; [| done]. intros x Hx. unfold node_key. rewrite Eq.
    destruct (decide (x = g)) as [-> |]; [rewrite lookup_insert_eq, lk_qp0; split; [by eexists | simpl; congruence] |].
    rewrite lookup_insert_ne by done. split; [by apply Hok | done].
  - eapply side_frame; try done; [| | by destruct Hd as [-> | ->]; [| rewrite Ey]].
    + intros Hs. rewrite !half_sockets_eq, other_other by auto using is_dir_other. by rewrite Ed, Hsd.
    + intros Hm'. destruct (side_unmet _ _ _ _ _ _ _ _ _ _ _ _ _ lk_side'0 Hm') as (? & Hno & _).
      split; [by intros ?%Hsub |]. by rewrite Eq, lookup_insert_ne.
  - intros _. destruct (decide (own d = g)); [by left | right]. rewrite lookup_insert_ne by done.
    by destruct (lk_clean0 Hm).
  - intros Hm'. destruct (decide (own (Z.lxor d 1) = g)); [by left | right]. rewrite lookup_insert_ne by done.
    by destruct (lk_clean'0 Hm').
  - intros Hd'. destruct Hd as [-> | ->]; [done | rewrite Ey by done; auto].
  - by etransitivity.
Qed.

(** The server side stores its socket. *)
Lemma joined_store g d c tx p' w :
  is_dir d → joined g d (HStore c tx) p' w →
  ∃ p1 w', half_line d cpu (PObj s) (HStore c tx) w = Ok (p1, w') ∧ joined g d p1 p' w'.
Proof.
  intros Hd (q & t & O & O' & Hlk). pose proof Hlk as [].
  destruct lk_side0 as (-> & -> & Hq & [x Hx] & z & -> & ->). cbn [half_line].
  kstep (load_qp_ok w g q lk_qp0). set (q1 := set_qp_dir TX_QP (PObj z) q). kstep (store_qp_ok w g q q1 lk_qp0).
  set (w1 := upd_qps _ w). assert (Hx1 : syns w1 !! s = Some x) by done. kstep (free_syn_ok w1 s x Hx1).
  eexists _, _. split; [done |]. exists q1, t, {[z]}, O'. eapply (linked_qp _ _ _ _ _ _ _ q); try done.
  - intros _ _. apply lookup_delete_eq.
  - apply pair_frame_step; try done; intros y Hy; [intros Hy'; by apply (own_insert g TX_QP) |].
    simpl. by rewrite lookup_delete_ne.
  - by intros ?%lk_sees'0.
  - still.
  - split; [done |]. by eexists.
Qed.

(** A half looks for its peer's socket. *)
Lemma joined_check g d c p' w :
  is_dir d → joined g d (HCheck c) p' w →
  ∃ p1 w', half_line d cpu (PObj s) (HCheck c) w = Ok (p1, w') ∧ joined g d p1 p' w'.
Proof.
  intros Hd Hj. pose proof Hj as (q & t & O & O' & []). destruct lk_side0 as (-> & z & Hz). cbn [half_line].
  kstep (read_dir_ok w g q (Z.lxor d 1) lk_qp0). eexists _, _. split; [done |].
  destruct (IS_ERR_OR_NULL _) eqn:E; eapply joined_core; try done.
  - intros. eapply sleepers_wait; try done. by eapply side_absent.
  - intros _. by eapply side_not_stored.
  - intros. still.
Qed.

(** It counts its reference. *)
Lemma joined_get g d wake c p' w :
  is_dir d → joined g d (HGet wake c) p' w →
  ∃ p1 w', half_line d cpu (PObj s) (HGet wake c) w = Ok (p1, w') ∧ joined g d p1 p' w'.
Proof.
  intros Hd (q & t & O & O' & Hlk). pose proof Hlk as []. pose proof lk_side0 as (-> & Hz). cbn [half_line].
  assert (Hf' : fin p' = false) by (destruct (fin p'); [by destruct (lk_fin'0 eq_refl) | done]).
  assert (Hg' : gone p' = false) by (destruct (gone p'); [by specialize (lk_gone'0 eq_refl) | done]).
  unfold holds in lk_ref0. rewrite Hg', andb_true_r in lk_ref0. simpl in lk_ref0.
  set (p1 := if took p' then HFin wake (PObj g) else after_get wake (PObj g)).
  assert (Hb : took p1 = true ∧ gone p1 = false ∧ stored p1 = true ∧ fin p1 = took p' ∧ sees p1 = wake ∧
    queued p1 = None ∧ waits p1 = negb wake ∧ woke p1 = false) by (unfold p1; by destruct (took p'), wake).
  destruct Hb as (Et & Eg & Est & Ef & Es & Eqd & Ew & Ek).
  kstep (inc_ref_ok w g q lk_qp0). set (rc := s32 _).
  assert (Erc : (if rc =? 2 then HFin wake (PObj g) else after_get wake (PObj g)) = p1)
    by (unfold rc, p1; rewrite lk_ref0; by destruct (took p')).
  rewrite Erc. eexists _, _. split; [done |].
  exists (set_ref rc q), t, O, O'. eapply (linked_qp _ _ _ _ _ _ _ q _ t); try done; unfold holds, out;
    rewrite ?Et, ?Eg, ?Ef, ?Hf', ?Hg', ?Es; try done.
  - intros _. by apply lk_in0.
  - by destruct (took p').
  - intros ??. by apply lk_syn0.
  - apply pair_frame_step; try done. intros y Hya Hyb. by apply (own_insert g d).
  - unfold rc. simpl. rewrite lk_ref0. by destruct (took p').
  - eapply sleepers_move; [done | done | by rewrite Ew | done | by rewrite Ek].
  - intros ->. by apply lk_sees0.
  - unfold p1. by destruct (took p'), wake.
Qed.

(** The second reference takes the QP out of the tree. *)
Lemma joined_fin g d wake c p' w :
  is_dir d → joined g d (HFin wake c) p' w →
  ∃ p1 w', half_line d cpu (PObj s) (HFin wake c) w = Ok (p1, w') ∧ joined g d p1 p' w'.
Proof.
  intros Hd (q & t & O & O' & Hlk). pose proof Hlk as []. pose proof lk_side0 as (-> & Hz). cbn [half_line].
  destruct (lk_fin0 eq_refl) as [Et' Ef'].
  assert (Hin : g ∈ inorder t) by (apply lk_in0; unfold out; by rewrite Et').
  destruct (de_tree_qp_spec (node_key w) t g (proj1 lk_tree0) Hin) as [Hord Hp].
  assert (Hnd : NoDup (inorder t)) by (eapply (ordered_NoDup (node_key w) _ good_key), lk_tree0).
  rewrite Hp in Hnd. apply NoDup_cons in Hnd as [Hout _].
  assert (Hsub : ∀ x, x ∈ inorder (de_tree_qp g t) → x ∈ inorder t) by (intros x Hx; rewrite Hp; by right).
  set (p1 := after_get wake (PObj g)).
  assert (Hb : took p1 = true ∧ gone p1 = false ∧ stored p1 = true ∧ fin p1 = false ∧ sees p1 = wake ∧
    queued p1 = None ∧ waits p1 = negb wake ∧ woke p1 = false) by (unfold p1; by destruct wake).
  destruct Hb as (Et & Eg & Est & Ef & Es & Eqd & Ew & Ek).
  kstep (fin_connected_qp_ok w g q l cpu t lk_qp0 lk_listner0 lk_root0 Hin). exists p1. eexists. split; [done |].
  exists q, (de_tree_qp g t), O, O'. eapply (linked_qp _ _ _ _ _ _ _ q q t); try done; unfold holds, out;
    rewrite ?Et, ?Eg, ?Ef, ?Et', ?Ef', ?Es; try done.
  - simpl. by rewrite insert_id.
  - split_and!; try done; [split; [apply lk_root0 | apply lookup_insert_eq] |].
    split; [done |]. intros x Hx. by apply lk_tree0, Hsub.
  - intros ??. by apply lk_syn0.
  - apply (pair_frame_root _ _ _ _ _ _ _ _ t (de_tree_qp g t)); try done; [apply lk_root0 |].
    intros y Hya Hyb. rewrite Hp, elem_of_cons. assert (y ≠ g) by by apply (own_neq g d). tauto.
  - unfold holds in lk_ref0. by rewrite Et' in lk_ref0.
  - eapply sleepers_move; [done | done | by rewrite Ew | done | by rewrite Ek].
  - intros ->. by apply lk_sees0.
  - unfold p1. by destruct wake.
Qed.

(** A half wakes the queue of its QP. *)
Lemma joined_wake g d c p' w :
  is_dir d → joined g d (HWake c) p' w →
  ∃ p1 w', half_line d cpu (PObj s) (HWake c) w = Ok (p1, w') ∧ joined g d p1 p' w'.
Proof.
  intros Hd (q & t & O & O' & Hlk). pose proof Hlk as []. pose proof lk_side0 as (-> & Hz).
  eexists _, _. split; [done |]. exists q, t, O, O'. eapply linked_move; try done.
  - intros y Hy. simpl. by rewrite (proj2 (Z.eqb_neq _ _)).
  - simpl. rewrite Z.eqb_refl. by eapply sleepers_wake.
  - apply lk_disj0.
  - apply lk_disj0.
  - intros z Hz'. apply lk_next0. clear -Hz'. set_solver.
Qed.

(** One that saw no socket looks again, is put on the queue, and looks once
    more. *)
Lemma joined_wait g d c p' w :
  is_dir d → joined g d (HWait c) p' w →
  ∃ p1 w', half_line d cpu (PObj s) (HWait c) w = Ok (p1, w') ∧ joined g d p1 p' w'.
Proof.
  intros Hd Hj. pose proof Hj as (q & t & O & O' & []). destruct lk_side0 as (-> & z & Hz). cbn [half_line].
  kstep (read_dir_ok w g q (Z.lxor d 1) lk_qp0). eexists _, _. split; [done |].
  destruct (IS_ERR_OR_NULL _) eqn:E; eapply joined_core; try done; try (intros; by still).
  intros _. by eapply side_not_stored.
Qed.

Lemma joined_queue g d c p' w :
  is_dir d → joined g d (HQueue c) p' w →
  ∃ p1 w', half_line d cpu (PObj s) (HQueue c) w = Ok (p1, w') ∧ joined g d p1 p' w'.
Proof.
  intros Hd Hj. pose proof Hj as (q & t & O & O' & []). destruct lk_side0 as (-> & z & Hz).
  eexists _, _. split; [done |]. eapply joined_core; try done. apply sleepers_queue.
Qed.

Lemma joined_queued g d c n p' w :
  is_dir d → joined g d (HQueued c n) p' w →
  ∃ p1 w', half_line d cpu (PObj s) (HQueued c n) w = Ok (p1, w') ∧ joined g d p1 p' w'.
Proof.
  intros Hd Hj. pose proof Hj as (q & t & O & O' & []). destruct lk_side0 as (-> & z & Hz). cbn [half_line].
  kstep (read_dir_ok w g q (Z.lxor d 1) lk_qp0). eexists _, _. split; [done |].
  destruct (IS_ERR_OR_NULL _) eqn:E; eapply joined_core; try done.
  - intros. apply sleepers_sleep; [done |]. by eapply side_absent.
  - intros _. by eapply side_not_stored.
  - intros. still.
Qed.

(** A half asleep that was woken finds its peer's socket. *)
Lemma sleep_wakes g d c n p' w :
  is_dir d → joined g d (HSleep c n) p' w → awake w (HSleep c n) = true →
  ∃ w', half_line d cpu (PObj s) (HSleep c n) w = Ok (HLoad (PObj g), w') ∧ joined g d (HLoad (PObj g)) p' w'.
Proof.
  intros Hd Hj Haw. pose proof Hj as (q & t & O & O' & []). destruct lk_side0 as (-> & z & Hz). cbn [half_line].
  apply Nat.ltb_lt in Haw. destruct (sl_this _ _ _ lk_sleep0 n eq_refl) as (_ & Hst & _). specialize (Hst Haw).
  destruct (side_stored _ _ _ _ _ _ _ _ _ _ _ _ _ lk_side'0 Hst) as (z' & Hz' & _).
  unfold wait_sleep. rewrite kbind_assoc. kstep (kernel_call_quiet C_wait w). rewrite kbind_assoc.
  set (w1 := ticked _ w). assert (Hq1 : qps w1 !! g = Some q) by done.
  kstep (read_dir_ok w1 g q (Z.lxor d 1) Hq1). rewrite Hz'. cbn [IS_ERR_OR_NULL negb]. kpure.
  rewrite (proj2 (Z.eqb_neq _ 0)) by lia. eexists. split; [done |].
  eapply joined_core; try done. intros. still.
Qed.

Lemma joined_sleep g d c n p' w :
  is_dir d → joined g d (HSleep c n) p' w → awake w (HSleep c n) = true →
  ∃ p1 w', half_line d cpu (PObj s) (HSleep c n) w = Ok (p1, w') ∧ joined g d p1 p' w'.
Proof. intros Hd Hj Haw. destruct (sleep_wakes _ _ _ _ _ _ Hd Hj Haw) as (w' & ? & ?). by eexists _, _. Qed.

(** Both sockets are there. *)
Lemma joined_load g d c p' w :
  is_dir d → joined g d (HLoad c) p' w →
  ∃ p1 w', half_line d cpu (PObj s) (HLoad c) w = Ok (p1, w') ∧ joined g d p1 p' w'.
Proof.
  intros Hd Hj. pose proof Hj as (q & t & O & O' & Hlk). pose proof Hlk as [].
  destruct lk_side0 as (-> & z & Hz & ->). cbn [half_line].
  kstep (load_qp_ok w g q lk_qp0). destruct (side_stored _ _ _ _ _ _ _ _ _ _ _ _ _ lk_side'0) as (z' & Hz' & _);
    [by apply lk_sees0 |].
  assert (E : IS_ERR_OR_NULL (q_rx q) || IS_ERR_OR_NULL (q_tx q) = false).
  { destruct Hd as [-> | ->]; [change (q_tx q = PObj z) in Hz; change (q_rx q = PObj z') in Hz'
    | change (q_rx q = PObj z) in Hz; change (q_tx q = PObj z') in Hz']; by rewrite Hz, Hz'. }
  rewrite E. eexists _, _. split; [done |]. exists q, t, {[z]}, O'. eapply linked_move; try done.
  - split; [done |]. split; [done |]. by eexists.
  - still.
  - apply lk_disj0.
  - apply lk_disj0.
  - intros u Hu. apply lk_next0. set_solver.
Qed.

Lemma woke_bits pc :
  woke pc = true → met pc = true ∧ stored pc = true ∧ took pc = true ∧ fin pc = false ∧ waits pc = false ∧
  queued pc = None ∧ sees pc = true.
Proof. by destruct pc. Qed.

(** The relay touches nothing that is shared. *)
Lemma joined_relay g d p p' w :
  is_dir d → joined g d p p' w →
  match p with HPages _ _ | HRecv _ _ _ | HSend _ _ _ _ | HStop _ _ _ _ => True | _ => False end →
  ∃ p1 w', half_line d cpu (PObj s) p w = Ok (p1, w') ∧ joined g d p1 p' w'.
Proof.
  intros Hd Hj Hp. pose proof Hj as (q & t & O & O' & []). assert (Hwk : woke p = true) by by destruct p.
  destruct (woke_bits _ Hwk) as (Hm & Hs & Ht & Hf & Hw & Hq & Hse). specialize (lk_sees0 Hse).
  destruct (side_stored _ _ _ _ _ _ _ _ _ _ _ _ _ lk_side'0 lk_sees0) as (z' & Hz' & ->).
  destruct (side_stored _ _ _ _ _ _ _ _ _ _ _ _ _ lk_side0 Hs) as (z & Hz & ->).
  assert (Hst : ∃ st, socks w !! z = Some st) by (apply elem_of_dom; rewrite lk_socks0; set_solver).
  assert (Hst' : ∃ st, socks w !! z' = Some st) by (apply elem_of_dom; rewrite lk_socks0; set_solver).
  destruct Hst as [st Hst], Hst' as [st' Hst'].
  assert (E : half_sockets d q = MkSockets (PObj z) (PObj z') (if d =? TX_QP then 1 else 0))
    by (by rewrite half_sockets_eq, Hz, Hz').
  assert (Hgo : ∀ p1 w1, same_core w w1 → (∀ q t O, side d g p q t w O → side d g p1 q t w1 O) →
    woke p1 = true → gone p1 = gone p → joined g d p1 p' w1).
  { intros p1 w1 ?? Hwk1 ?. destruct (woke_bits _ Hwk1) as (? & ? & ? & ? & Hw1 & ? & ?).
    eapply joined_core; try done; try congruence. intros.
    eapply sleepers_move; [done | done | by rewrite Hw1 | done | intros _; by left]. }
  destruct p; try done; destruct lk_side0 as (-> & -> & _); rewrite ?E; cbn [half_line so_rx so_tx].
  - kstep (kernel_call_quiet (C_setaffinity None) w). set (w1 := ticked _ w).
    destruct (alloc_kvec_core C_alloc_page VEC_SZ w1) as (kv & ok & w2 & Hk & Hc). kstep Hk.
    assert (Hc' : same_core w w2) by (etransitivity; [| exact Hc]; by split).
    eexists _, _. split; [done |]. destruct ok; apply Hgo; try done; simpl; rewrite <- ?E; tauto.
  - destruct (recvmsg_core w z st (PAGE_SIZE * Z.of_nat VEC_SZ) Hst) as (rc & bytes & w1 & Hr & Hc). kstep Hr.
    eexists _, _. split; [done |]. destruct (rc <=? 0); apply Hgo; try done; simpl; rewrite <- ?E; tauto.
  - destruct (sendmsg_core w z' st' bytes Hst') as (rc & w1 & Hr & Hc). kstep Hr.
    eexists _, _. split; [done |]. destruct (rc <=? 0); apply Hgo; try done; simpl; rewrite <- ?E; tauto.
  - unfold kthread_should_stop. rewrite kbind_assoc. kstep (kernel_call_quiet C_should_stop w). kpure.
    eexists _, _. split; [done |]. destruct (negb _); apply Hgo; try done; simpl; rewrite <- ?E; tauto.
Qed.

(** The two sockets of a connected QP. *)
Lemma linked_connected g d p p' w q t O O' :
  linked g d p p' w q t O O' → is_dir d → stored p = true → stored p' = true →
  ∃ tx rx, qp_connected w g q tx rx ∧ O ∪ O' = {[tx; rx]}.
Proof.
  intros [] Hd Hp Hp'.
  destruct (side_stored _ _ _ _ _ _ _ _ _ _ _ _ _ lk_side0 Hp) as (z & Hz & ->).
  destruct (side_stored _ _ _ _ _ _ _ _ _ _ _ _ _ lk_side'0 Hp') as (z' & Hz' & ->).
  assert (Hst : is_Some (socks w !! z)) by (apply elem_of_dom; rewrite lk_socks0; set_solver).
  assert (Hst' : is_Some (socks w !! z')) by (apply elem_of_dom; rewrite lk_socks0; set_solver).
  assert (Hne : z ≠ z') by (clear -lk_disj0; set_solver).
  destruct Hd as [-> | ->]; [exists z, z' | exists z', z]; (split; [by split_and! | clear; set_solver]).
Qed.

(** What a put does to anything but its QP and the two sockets. *)
Lemma put_framed g d w w1 (tx rx : Z) (f : gmap Z sock_state → gmap Z sock_state) :
  put_frame w w1 → g = own d ∨ g = own (Z.lxor d 1) → (∀ y, y ≠ g → qps w1 !! y = qps w !! y) →
  socks w1 = f (socks w) → (∀ z m, z ≠ tx → z ≠ rx → f m !! z = m !! z) → {[tx; rx]} ## S0 → framed w w1.
Proof.
  intros (El & Er & Ey & En & Eo & Ew) Hg Hq Es Hf Hdis. apply pair_frame_step; try done.
  - intros y Hya Hyb. apply Hq. by apply (own_neq g d).
  - by rewrite Ey.
  - intros z Hz. rewrite Es. apply Hf; intros ->; set_solver.
  - lia.
Qed.

(** The first half to leave shuts the sockets down. *)
Lemma joined_put_first g d kvec rc p' w :
  is_dir d → joined g d (HPut (PObj g) kvec rc) p' w → holds p' = true →
  ∃ r w', put_qp (PObj g) w = Ok (r, w') ∧ joined g d (HFree false kvec rc) p' w'.
Proof.
  intros Hd (q & t & O & O' & Hlk) Hh. pose proof Hlk as []. pose proof lk_side0 as (_ & z & Hz & HO).
  assert (Hsp : stored p' = true) by by apply lk_sees0.
  destruct (linked_connected _ _ _ _ _ _ _ _ _ Hlk Hd eq_refl Hsp) as (tx & rx & Hc & HOO).
  unfold holds at 1 in lk_ref0. simpl in lk_ref0. rewrite Hh in lk_ref0.
  destruct (put_qp_first w g q tx rx Hc lk_ref0) as (w1 & Hp & Eq & Es & _). exists 1, w1. split; [done |].
  pose proof (put_qp_frame _ _ _ _ Hp) as Hfr. pose proof Hfr as (El & Er & Ey & En & Eo & Ew).
  assert (Hdis : {[tx; rx]} ## S0) by (rewrite <- HOO; clear -lk_disj0; set_solver).
  exists (set_ref 1 q), t, O, O'. eapply (linked_qp _ _ _ _ _ _ _ q _ t); try done.
  - split_and!; try done. destruct Hc as (_ & _ & _ & Hne & [st Hst] & [sr Hsr]).
    rewrite Es, !dom_insert_lookup_L; try done. by rewrite lookup_insert_ne.
  - split_and!; [| done | done]. unfold has_root in *. by rewrite El, Er.
  - unfold syn_freed. rewrite Ey. auto.
  - apply (put_framed g d w w1 tx rx (λ m, <[rx := S_shut]> (<[tx := S_shut]> m))); try done.
    + intros y Hy. rewrite Eq. by apply lookup_insert_ne.
    + intros u m Hu Hu'. by rewrite !lookup_insert_ne.
  - by rewrite Hh.
  - rewrite Ew. still.
  - intros Hg. unfold holds in Hh. by rewrite Hg, andb_false_r in Hh.
  - by exists z.
Qed.

(** The second frees all. *)
Lemma joined_put_last g d kvec rc p' w :
  is_dir d → joined g d (HPut (PObj g) kvec rc) p' w → holds p' = false →
  ∃ r w', put_qp (PObj g) w = Ok (r, w') ∧ freed g d (HFree false kvec rc) p' w'.
Proof.
  intros Hd (q & t & O & O' & Hlk) Hh. pose proof Hlk as []. pose proof lk_side0 as (_ & z & Hz & HO).
  assert (Hsp : stored p' = true) by by apply lk_sees0.
  destruct (linked_connected _ _ _ _ _ _ _ _ _ Hlk Hd eq_refl Hsp) as (tx & rx & Hc & HOO).
  unfold holds at 1 in lk_ref0. simpl in lk_ref0. rewrite Hh in lk_ref0.
  destruct (put_qp_last w g q tx rx Hc lk_ref0) as (w1 & Hp & Eq & Es & _). exists 0, w1. split; [done |].
  pose proof (put_qp_frame _ _ _ _ Hp) as Hfr. pose proof Hfr as (El & Er & Ey & En & Eo & Ew).
  assert (Hdis : {[tx; rx]} ## S0) by (rewrite <- HOO; clear -lk_disj0; set_solver).
  assert (Hlate : gone p' = true ∨ took p' = false)
    by (unfold holds in Hh; destruct (took p'), (gone p'); auto).
  split; unfold clean, syn_freed; rewrite ?Eq, ?Er, ?Es, ?Ey; auto; try done; try by left.
  - apply lookup_delete_eq.
  - destruct Hlate; [by left | right; by eapply side_late].
  - intros Ht. exists t. split; [by unfold has_root in *; rewrite El, Er |].
    assert (Hout : g ∉ inorder t).
    { apply lk_out0. unfold out. simpl in Ht |- *. rewrite Ht. destruct Hlate as [Hg | Hn]; [by destruct p' | congruence]. }
    eapply root_ok_ext; [| done]. intros x Hx. assert (x ≠ g) by (by intros ->).
    unfold node_key. rewrite Eq, lookup_delete_ne by done. split; [by apply lk_tree0 | done].
  - assert (E : S0 ∪ O ∪ O' = S0 ∪ {[tx; rx]}) by (rewrite <- HOO; clear; set_solver).
    rewrite !dom_delete_L, lk_socks0, E. clear -Hdis. set_solver.
  - intros u Hu. rewrite En. apply lk_next0. clear -Hu. set_solver.
  - intros _. destruct (lk_clean0 eq_refl); [by left | right]. by apply lookup_delete_None; right.
  - intros Hm. destruct (lk_clean'0 Hm); [by left | right]. by apply lookup_delete_None; right.
  - etransitivity; [done |]. apply (put_framed g d w w1 tx rx (λ m, delete rx (delete tx m))); try done.
    + intros y Hy. rewrite Eq. by apply lookup_delete_ne.
    + intros u m Hu Hu'. by rewrite !lookup_delete_ne.
Qed.

Lemma joined_put g d c kvec rc p' w :
  is_dir d → joined g d (HPut c kvec rc) p' w →
  ∃ p1 w', half_line d cpu (PObj s) (HPut c kvec rc) w = Ok (p1, w') ∧ (joined g d p1 p' w' ∨ freed g d p1 p' w').
Proof.
  intros Hd Hj. pose proof Hj as (q & t & O & O' & []). destruct lk_side0 as (-> & _). cbn [half_line].
  destruct (holds p') eqn:Hh;
    [destruct (joined_put_first _ _ _ _ _ _ Hd Hj Hh) as (r & w1 & Hp & ?)
    | destruct (joined_put_last _ _ _ _ _ _ Hd Hj Hh) as (r & w1 & Hp & ?)]; kstep Hp; eexists _, _; auto.
Qed.

(** A half that has left frees its pages. *)
Lemma joined_leave g d p p' w :
  is_dir d → joined g d p p' w →
  match p with HFree _ _ _ | HEnd _ _ | HFailed _ => True | _ => False end →
  match half_line d cpu (PObj s) p w with
  | Ok (p1, w1) => joined g d p1 p' w1
  | Oops e => e = WildFree ∧ ∃ held kvec rc, p = HFree held kvec rc
  end.
Proof.
  intros Hd Hj Hp. destruct p; try done. cbn [half_line]. pose proof (free_pages_core kvec w) as Hf.
  unfold mbind, kproc_bind. destruct (kforeach _ _ _) as [[[] w1] | e]; [| split; [done | by eexists _, _, _]].
  eapply joined_core; try done; [intros _; destruct Hj as (q & t & O & O' & []); by apply lk_sees0 |].
  intros. still.
Qed.

(** Where the faults of an interleaving come from. *)
Definition expected (p p' : half_pc) (e : fault) : Prop :=
  (e = WildFree ∧ ∃ held kvec rc, p = HFree held kvec rc) ∨
  (e = UseAfterFree ∧ (∃ g, late g p) ∧ gone p' = true).

(** A half that comes late reads freed memory. *)
Lemma late_faults g d p w : late g p → qps w !! g = None → half_line d cpu (PObj s) p w = Oops UseAfterFree.
Proof.
  intros Hl Hq. assert (He : ∀ A (f : cbn_qp → wproc A), (load_qp (PObj g) ≫= f) w = Oops UseAfterFree).
  { intros A f. unfold mbind, kproc_bind. by rewrite load_qp_dead. }
  destruct Hl as [-> | [wake ->]]; cbn [half_line]; unfold read_dir, inc_ref; rewrite kbind_assoc; apply He.
Qed.

(** Once the QP is freed, a half that has left frees its pages, and one that
    comes late faults. *)
Lemma freed_line g d p p' w :
  freed g d p p' w →
  match half_line d cpu (PObj s) p w with
  | Ok (p1, w1) => freed g d p1 p' w1
  | Oops e => expected p p' e
  end.
Proof.
  intros []. destruct (gone p) eqn:Hg.
  - assert (Hgo : ∀ p1 w1, same_core w w1 → gone p1 = true → met p1 = true → took p1 = took p → freed g d p1 p' w1).
    { intros p1 w1 Hc Hg1 Hm1 Ht1. pose proof Hc as [Eq El Er Ey Es Eo Ew En].
      split; unfold clean, syn_freed; rewrite ?Eq, ?Es, ?Ey, ?Ht1; try done; try by left.
      - intros Ht. destruct (fr_tree0 Ht) as (t & Hr & Hok). exists t. split; [| by eapply root_ok_qps].
        unfold has_root in *. by rewrite El, Er.
      - intros z Hz. specialize (fr_next0 z Hz). lia.
      - intros _. apply fr_clean0. by destruct p.
      - intros ??. apply fr_syn0; [done | by destruct p].
      - etransitivity; [done |]. by apply pair_frame_core. }
    destruct p; try done; cbn [half_line].
    + pose proof (free_pages_core kvec w) as Hf. unfold mbind, kproc_bind.
      destruct (kforeach _ _ _) as [[[] w1] | e]; [by apply Hgo |]. left. split; [done |]. by eexists _, _, _.
    + by apply Hgo.
  - destruct fr_pc0 as [? | Hl]; [done |]. assert (Hg' : gone p' = true) by by destruct fr_some0.
    rewrite (late_faults _ _ _ _ Hl fr_qp0). right. split_and!; [done | by exists g | done].
Qed.

(** The shared QP is live: every line but the frees goes on. *)
Lemma joined_line g d p p' w :
  is_dir d → joined g d p p' w → awake w p = true →
  match p with HFree _ _ _ | HEnd _ _ | HFailed _ => False | _ => True end →
  ∃ p1 w', half_line d cpu (PObj s) p w = Ok (p1, w') ∧ (joined g d p1 p' w' ∨ freed g d p1 p' w').
Proof.
  intros Hd Hj Haw Hp.
  assert (Hok : (∃ p1 w', half_line d cpu (PObj s) p w = Ok (p1, w') ∧ joined g d p1 p' w') →
    ∃ p1 w', half_line d cpu (PObj s) p w = Ok (p1, w') ∧ (joined g d p1 p' w' ∨ freed g d p1 p' w')).
  { intros (p1 & w1 & ? & ?). eauto 6. }
  destruct p; try done.
  - by apply Hok, joined_meet.
  - by apply Hok, joined_found.
  - by apply Hok, joined_adopt.
  - by apply Hok, joined_socket.
  - by apply Hok, joined_connect.
  - by apply Hok, joined_store.
  - by apply Hok, joined_check.
  - by apply Hok, joined_get.
  - by apply Hok, joined_fin.
  - by apply Hok, joined_wake.
  - by apply Hok, joined_wait.
  - by apply Hok, joined_queue.
  - by apply Hok, joined_queued.
  - by apply Hok, joined_sleep.
  - by destruct Hj as (q & t & O & O' & []).
  - by apply Hok, joined_load.
  - by apply Hok, joined_relay.
  - by apply Hok, joined_relay.
  - by apply Hok, joined_relay.
  - by apply Hok, joined_relay.
  - by apply joined_put.
Qed.

(** Every line keeps the invariant, or is one of the expected faults. *)
Lemma pair_inv_line d p p' w :
  is_dir d → pair_inv d p p' w → awake w p = true →
  match half_line d cpu (PObj s) p w with
  | Ok (p1, w1) => pair_inv d p1 p' w1
  | Oops e => expected p p' e
  end.
Proof.
  intros Hd [(t & Ha & Hfr) | (g & [Hj | Hf])] Haw.
  - destruct (apart_meet d p p' w t Hd Ha Hfr) as (t' & -> & Hj). right. eexists. by left.
  - destruct (match p with HFree _ _ _ | HEnd _ _ | HFailed _ => true | _ => false end) eqn:E.
    + assert (Hl := joined_leave g d p p' w Hd Hj ltac:(by destruct p)).
      destruct (half_line _ _ _ _ _) as [[? ?] |]; [right; exists g; by left | by left].
    + destruct (joined_line g d p p' w Hd Hj Haw) as (p1 & w1 & -> & Hr); [by destruct p |]. right. by exists g.
  - pose proof (freed_line g d p p' w Hf). destruct (half_line _ _ _ _ _) as [[? ?] |]; [| done].
    right. exists g. by right.
Qed.

Lemma pair_inv_dir d (st : pair_sys) :
  is_dir d → pair_inv RX_QP (at_rx st) (at_tx st) (shared st) →
  pair_inv d (pc_of d st) (pc_of (Z.lxor d 1) st) (shared st).
Proof. intros [-> | ->] Hi; [by apply (pair_inv_sym _ _ _ _ _ _ _ _ _ RX_QP); [right |] | done]. Qed.

(** A line of the pair, seen from the client side. *)
Lemma pair_line_inv d (st : pair_sys) :
  is_dir d → pair_inv RX_QP (at_rx st) (at_tx st) (shared st) → awake (shared st) (pc_of d st) = true →
  match pair_line d cpu (PObj s) st with
  | Ok st' => pair_inv RX_QP (at_rx st') (at_tx st') (shared st')
  | Oops e => expected (pc_of d st) (pc_of (Z.lxor d 1) st) e
  end.
Proof.
  intros Hd Hi Haw. pose proof (pair_inv_line d _ _ _ Hd (pair_inv_dir d st Hd Hi) Haw) as Hl.
  unfold pair_line. destruct (half_line _ _ _ _ _) as [[p1 w1] |]; [| done].
  destruct Hd as [-> | ->]; [| done]. exact (pair_inv_sym _ _ _ _ _ _ _ _ _ TX_QP _ _ _ (or_introl eq_refl) Hl).
Qed.

(** ** A half that sleeps *)

(** The lines until the half has woken its peer. *)
Definition to_wake (pc : half_pc) : nat :=
  match pc with
  | HMeet _ => 10 | HFound _ _ => 9 | HAdopt _ _ => 8 | HSocket _ => 7 | HConnect _ _ => 6 | HStore _ _ => 5
  | HCheck _ => 4 | HGet true _ => 3 | HFin true _ => 2 | HWake _ => 1 | _ => 0
  end.

Lemma line_to_wake d p w p1 w1 :
  half_line d cpu (PObj s) p w = Ok (p1, w1) → to_wake p ≠ 0%nat → (to_wake p1 < to_wake p)%nat.
Proof.
  intros Hl Hp. destruct p; try done; cbn [half_line] in Hl; unfold mbind, kproc_bind, after_meet, after_get in Hl;
    repeat (case_match; simplify_eq; try done); unfold mret, kproc_ret in *; simplify_eq; simpl in *;
    repeat case_match; simplify_eq; try done; lia.
Qed.

Lemma pc_of_set d pc w st :
  is_dir d → pc_of d (set_pc d pc w st) = pc ∧ pc_of (Z.lxor d 1) (set_pc d pc w st) = pc_of (Z.lxor d 1) st.
Proof. by intros [-> | ->]. Qed.

(** Running alone while its peer has not left, a half gets there or fails,
    without a fault. *)
Lemma run_to_wake n d st :
  (to_wake (pc_of d st) ≤ n)%nat → is_dir d → pair_inv RX_QP (at_rx st) (at_tx st) (shared st) →
  gone (pc_of (Z.lxor d 1) st) = false →
  ∃ m st', (m ≤ n)%nat ∧ pair_run cpu (PObj s) (replicate m d) st = Ok st' ∧
    pair_inv RX_QP (at_rx st') (at_tx st') (shared st') ∧ to_wake (pc_of d st') = 0%nat ∧
    pc_of (Z.lxor d 1) st' = pc_of (Z.lxor d 1) st.
Proof.
  revert st. induction n as [| n IH]; intros st Hn Hd Hi Hg; [exists 0%nat, st; split_and!; try done; lia |].
  destruct (decide (to_wake (pc_of d st) = 0%nat)) as [E | E]; [exists 0%nat, st; split_and!; try done; lia |].
  assert (Haw : awake (shared st) (pc_of d st) = true) by by destruct (pc_of d st).
  pose proof (pair_line_inv d st Hd Hi Haw) as Hl. destruct (pair_line _ _ _ _) as [st1 | e] eqn:El.
  - unfold pair_line in El. destruct (half_line _ _ _ _ _) as [[p1 w1] |] eqn:Eh; [| done]. injection El as <-.
    pose proof (line_to_wake _ _ _ _ _ Eh E) as Hlt. destruct (pc_of_set d p1 w1 st Hd) as [Es Es'].
    destruct (IH (set_pc d p1 w1 st)) as (m & st' & Hm & Hr & Hi' & E' & Ep); [rewrite Es; lia | done | done | by rewrite Es' |].
    exists (S m), st'. split_and!; [lia | | done | done | congruence].
    cbn [replicate pair_run]. unfold pair_line. by rewrite Eh.
  - exfalso. destruct Hl as [(_ & held & kvec & rc & Ep) | (_ & _ & Hg')]; [by rewrite Ep in E | congruence].
Qed.

(** A half that is asleep while its peer has nothing left to do to wake it:
    its peer has woken it, or failed. *)
Lemma sleeper_woken d p p' w :
  is_dir d → pair_inv d p p' w → awake w p = false → to_wake p' = 0%nat →
  ∃ rc, p' = HFailed rc.
Proof.
  intros Hd Hi Haw E. destruct p as [| | | | | | | | | | | | | c n | | | | | | | | | |]; try done.
  destruct Hi as [(t & [] & _) | (g & [(q & t & O & O' & []) | []])]; [done | | by destruct fr_pc0 as [? | [? | [? ?]]]].
  destruct lk_side0 as (-> & z & _). destruct lk_sleep0 as [Hone Hthis _]. specialize (Hone eq_refl).
  destruct (Hthis n eq_refl) as (_ & _ & Hwoke). apply Nat.ltb_ge in Haw.
  destruct p' as [| | | | | | | [] | [] | | | | | | | | | | | | | | | rc]; try done; try (specialize (Hwoke eq_refl eq_refl); lia).
  by exists rc.
Qed.

(** At most ten lines of its peer wake a half that sleeps, and its next line
    takes it out of the wait; or its peer has failed. *)
Lemma pair_inv_wakes d st :
  is_dir d → pair_inv RX_QP (at_rx st) (at_tx st) (shared st) → awake (shared st) (pc_of d st) = false →
  ∃ m st', (m ≤ 10)%nat ∧ pair_run cpu (PObj s) (replicate m (Z.lxor d 1)) st = Ok st' ∧ pc_of d st' = pc_of d st ∧
    ((awake (shared st') (pc_of d st') = true ∧
      ∃ qp st'', pair_line d cpu (PObj s) st' = Ok st'' ∧ pc_of d st'' = HLoad qp) ∨
     ∃ rc, pc_of (Z.lxor d 1) st' = HFailed rc).
Proof.
  intros Hd Hi Haw. assert (Hg : gone (pc_of d st) = false) by by destruct (pc_of d st).
  destruct (run_to_wake 10 (Z.lxor d 1) st) as (m & st' & Hm & Hr & Hi' & E & Ep);
    [unfold to_wake; repeat case_match; lia | by apply is_dir_other | done | by rewrite other_other |].
  rewrite other_other in Ep by done. exists m, st'. split_and!; try done.
  apply (pair_inv_dir d _ Hd) in Hi'. destruct (awake (shared st') (pc_of d st')) eqn:Haw'.
  - left. split; [done |]. rewrite Ep in *. destruct (pc_of d st) as [| | | | | | | | | | | | | c n | | | | | | | | | |] eqn:Epc; try done.
    destruct Hi' as [(t & [] & _) | (g & [Hj | []])]; [done | | by destruct fr_pc0 as [? | [? | [? ?]]]].
    destruct (sleep_wakes _ _ _ _ _ _ Hd Hj Haw') as (w1 & Hl & _). exists (PObj g). eexists.
    unfold pair_line. rewrite Ep, Hl. split; [done |]. by destruct (pc_of_set d (HLoad (PObj g)) w1 st' Hd).
  - right. by eapply sleeper_woken.
Qed.

(** ** Halves that leave *)

(** A half that has left has been to the tree and has given its reference
    back. *)
Lemma gone_bits pc : gone pc = true → took pc = true ∧ met pc = true ∧ holds pc = false ∧ stored pc = true.
Proof. intros Hp. unfold holds. rewrite Hp. by destruct pc. Qed.

(** Both halves have left. *)
Lemma pair_inv_left p p' w :
  pair_inv RX_QP p p' w → gone p = true → gone p' = true →
  (qps w !! a = None ∧ qps w !! b = None ∧ syns w !! s = None) ∧ dom (socks w) = S0 ∧
  pair_frame l cpu s a b S0 w0 w ∧ ∃ u, roots w !! (l, cpu) = Some u ∧ a ∉ inorder u ∧ b ∉ inorder u.
Proof.
  intros Hi Hg Hg'. destruct (gone_bits _ Hg) as (Ht & Hm & Hh & Hs), (gone_bits _ Hg') as (Ht' & Hm' & Hh' & Hs').
  destruct Hi as [(u & [] & _) | (g & [(q & u & O & O' & []) | []])].
  - by subst p.
  - specialize (lk_gone0 Hg). congruence.
  - destruct fr_tree0 as (u & [_ Hu] & [_ Hlive]); [by rewrite Ht, Ht' |].
    assert (Hn : ∀ y, y = g ∨ qps w !! y = None → qps w !! y = None) by (by intros y [-> |]).
    pose proof (Hn _ (fr_clean0 Hm)) as Na. pose proof (Hn _ (fr_clean'0 Hm')) as Nb.
    change (qps w !! a = None) in Na. change (qps w !! b = None) in Nb.
    split_and!; try done; [by apply fr_syn'0 |]. exists u. split_and!; [done | |]; intros [? Hin]%Hlive; congruence.
Qed.

(** A half puts its reference while its peer has not counted its own: the QP
    is freed, and the peer's next line reads it. *)
Lemma early_put d p p' w :
  is_dir d → pair_inv d p p' w → (∃ qp kvec rc, p = HPut qp kvec rc) → (∃ g, late g p') →
  ∃ p1 w1, half_line d cpu (PObj s) p w = Ok (p1, w1) ∧
    half_line (Z.lxor d 1) cpu (PObj s) p' w1 = Oops UseAfterFree.
Proof.
  intros Hd Hi (qp & kvec & rc & ->) [g' Hl].
  destruct Hi as [(u & [] & _) | (g & [Hj | []])]; [done | | by destruct fr_pc0 as [? | [? | [? ?]]]].
  pose proof Hj as (q & u & O & O' & []). destruct lk_side0 as (-> & _).
  assert (Hg : late g p').
  { destruct Hl as [-> | [wake ->]]; destruct lk_side'0 as (-> & _); [by left | right; by exists wake]. }
  assert (Hh : holds p' = false) by (by destruct Hl as [-> | [wake ->]]).
  destruct (joined_put_last _ _ _ _ _ _ Hd Hj Hh) as (r & w1 & Hp & []).
  exists (HFree false kvec rc), w1. cbn [half_line]. split; [by kstep Hp |]. by apply (late_faults g).
Qed.
End steps.

Section interleavings.
Context `{Quiet} `{RbLaws Z}.
Variables (l cpu s a b sx : Z) (k : list Z) (S0 : gset Z).
Hypothesis own_ne : a ≠ b.
Hypothesis key_ok : good_key k.
Implicit Types w : world.

Abbreviation apart := (apart l cpu s a b sx k S0).

(** The halves before either has been to the tree. *)
Definition pair_start w : pair_sys := PairSys (HMeet (PObj a)) (HMeet (PObj b)) w.

(** The invariant holds in every interleaving. *)
Lemma pair_reach_inv w t st :
  apart RX_QP (HMeet (PObj a)) (HMeet (PObj b)) w t → pair_reach cpu (PObj s) (pair_start w) st →
  pair_inv l cpu s a b sx k S0 w RX_QP (at_rx st) (at_tx st) (shared st).
Proof.
  intros Ha. induction 1 as [| st st' d Hr IH Hd Haw Hl]; [left; by exists t |].
  pose proof (pair_line_inv l cpu s a b sx k S0 w own_ne key_ok d st Hd IH Haw) as Hi. by rewrite Hl in Hi.
Qed.

(** However the lines of the two halves interleave, while no wait times out or
    is interrupted, the only faults are a page vector that was never filled
    and the QP read by a half that comes after its peer has left. *)
Lemma pair_faults w t st d :
  apart RX_QP (HMeet (PObj a)) (HMeet (PObj b)) w t → pair_reach cpu (PObj s) (pair_start w) st →
  is_dir d → awake (shared st) (pc_of d st) = true →
  match pair_line d cpu (PObj s) st with
  | Ok _ => True
  | Oops e => expected (pc_of d st) (pc_of (Z.lxor d 1) st) e
  end.
Proof.
  intros Ha Hr Hd Haw. pose proof (pair_reach_inv w t st Ha Hr) as Hi.
  pose proof (pair_line_inv l cpu s a b sx k S0 w own_ne key_ok d st Hd Hi Haw) as Hl.
  by destruct (pair_line _ _ _ _).
Qed.

(** C8. In every interleaving in which no wait times out or is interrupted,
    the count of the shared QP is the number of halves that hold it: those
    that have taken their reference and not put it. *)
Theorem pairing_counts w t st :
  apart RX_QP (HMeet (PObj a)) (HMeet (PObj b)) w t → pair_reach cpu (PObj s) (pair_start w) st →
  met (at_rx st) = true → met (at_tx st) = true →
  ∃ g, (g = a ∨ g = b) ∧
    match qps (shared st) !! g with
    | Some q => ref_cnt q = Z.b2z (holds (at_rx st)) + Z.b2z (holds (at_tx st))
    | None => holds (at_rx st) = false ∧ holds (at_tx st) = false
    end.
Proof.
  intros Ha Hr Hm Hm'. destruct (pair_reach_inv w t st Ha Hr) as [(u & [] & _) | (g & [(q & u & O & O' & []) | []])].
  - by rewrite ap_pc0 in Hm.
  - exists g. split; [done |]. by rewrite lk_qp0.
  - exists g. split; [done |]. rewrite fr_qp0. unfold holds.
    assert (Hh : ∀ pc, gone pc = true ∨ late g pc → took pc && negb (gone pc) = false).
    { intros pc [-> | [-> | [wake ->]]]; [apply andb_false_r | done | done]. }
    by rewrite !Hh.
Qed.

(** Both halves have left: nothing of theirs is left. *)
Lemma pair_left_clean w t st :
  apart RX_QP (HMeet (PObj a)) (HMeet (PObj b)) w t → pair_reach cpu (PObj s) (pair_start w) st →
  gone (at_rx st) = true → gone (at_tx st) = true →
  (qps (shared st) !! a = None ∧ qps (shared st) !! b = None ∧ syns (shared st) !! s = None) ∧
  socks (shared st) = delete sx (socks w) ∧ pair_frame l cpu s a b S0 w (shared st) ∧
  ∃ u, roots (shared st) !! (l, cpu) = Some u ∧ a ∉ inorder u ∧ b ∉ inorder u.
Proof.
  intros Ha Hr Hg Hg'.
  destruct (pair_inv_left _ _ _ _ _ _ _ _ _ _ _ _ (pair_reach_inv w t st Ha Hr) Hg Hg') as (Hn & Hd & Hf & Hu).
  split_and!; try apply Hn; try done. apply map_eq. intros z. destruct (decide (z ∈ S0)) as [Hz | Hz].
  - rewrite lookup_delete_ne by (intros ->; by destruct Ha). by apply Hf.
  - rewrite (proj1 (not_elem_of_dom (socks (shared st)) z)) by (by rewrite Hd). symmetry. apply lookup_delete_None.
    destruct (decide (sx = z)); [by left | right]. apply not_elem_of_dom. destruct Ha as [].
    rewrite ap_socks0. clear -Hz n. set_solver.
Qed.

(** C7. In every interleaving in which no wait times out or is interrupted:
    once both halves have left through [put_qp], the QPs they came with and
    the SYN record are freed, the tree has neither QP, of the open sockets
    only the client's is gone, and the rest is as it was: the other QPs, SYN
    records, trees and what else is in this one, the other sockets' states,
    the listeners, the probes, the pre-connections and the settings. *)
Theorem pairing_cleans w t st :
  apart RX_QP (HMeet (PObj a)) (HMeet (PObj b)) w t → pair_reach cpu (PObj s) (pair_start w) st →
  gone (at_rx st) = true → gone (at_tx st) = true →
  (qps (shared st) !! a = None ∧ qps (shared st) !! b = None ∧ syns (shared st) !! s = None) ∧
  socks (shared st) = delete sx (socks w) ∧ pair_frame l cpu s a b S0 w (shared st) ∧
  ∃ u, roots (shared st) !! (l, cpu) = Some u ∧ a ∉ inorder u ∧ b ∉ inorder u.
Proof. apply pair_left_clean. Qed.

(** C40. A half that leaves while its peer has the QP and has not counted its
    own reference frees the QP under it: the put goes through, and the peer's
    next line, whatever else is in the tree, reads freed memory. *)
Theorem early_leaver_faults w t st d :
  apart RX_QP (HMeet (PObj a)) (HMeet (PObj b)) w t → pair_reach cpu (PObj s) (pair_start w) st → is_dir d →
  (∃ qp kvec rc, pc_of d st = HPut qp kvec rc) → (∃ g, late g (pc_of (Z.lxor d 1) st)) →
  ∃ st', pair_line d cpu (PObj s) st = Ok st' ∧ pair_line (Z.lxor d 1) cpu (PObj s) st' = Oops UseAfterFree.
Proof.
  intros Ha Hr Hd Hp Hl. pose proof (pair_reach_inv w t st Ha Hr) as Hi. apply (pair_inv_dir _ _ _ _ _ _ _ _ _ d _ Hd) in Hi.
  destruct (early_put l cpu s a b sx k S0 w own_ne key_ok d _ _ _ Hd Hi Hp Hl) as (p1 & w1 & Hl1 & Hl2).
  exists (set_pc d p1 w1 st). unfold pair_line at 1. rewrite Hl1. split; [done |].
  unfold pair_line. destruct (pc_of_set d p1 w1 st Hd) as [_ ->].
  assert (Ew : shared (set_pc d p1 w1 st) = w1) by (by destruct Hd as [-> | ->]). by rewrite Ew, Hl2.
Qed.
End interleavings.

(** ** Concrete runs *)

(** The client's QP is 1, with socket 20; the server side's is 2, with the SYN
    record 50; nobody else waits on core 0. *)
Definition pair_world : world :=
  upd_syns <[50 := some_addresses]> (upd_socks <[20 := S_open]>
    (upd_qps <[1 := client_qp]> (upd_qps <[2 := server_qp]> (listening Leaf (empty_world 100))))).

Lemma pair_world_apart : apart 9 0 50 1 2 20 some_key ∅ RX_QP (HMeet (PObj 1)) (HMeet (PObj 2)) pair_world Leaf.
Proof.
  split; try done.
  - apply root_ok_Leaf.
  - by apply not_elem_of_nil.
  - by apply not_elem_of_nil.
  - intros y Hy. by apply elem_of_nil in Hy.
  - intros z Hz. rewrite union_empty_l_L, elem_of_singleton in Hz. by subst.
Qed.

(** The calls answered 0 are given; the others are answered 1.  Making the
    server side's connection is six calls, a page vector 17. *)
Definition zeros (calls : list nat) : Env :=
  calm (λ n, if bool_decide (n ∈ calls) then 0 else 1) (λ _, []) (λ _, no_addr).
Definition run_pair (calls : list nat) (sch : list Z) : outcome pair_sys :=
  @pair_run (zeros calls) spine_lib 0 (PObj 50) sch (pair_start 1 2 pair_world).

(** The client side sleeps while the server side connects, is woken, and leaves
    first. *)
Definition both_leave : list Z :=
  RX_QP :: replicate 5 TX_QP ++ replicate 5 RX_QP ++ replicate 6 TX_QP ++ replicate 2 RX_QP ++ replicate 4 RX_QP
  ++ replicate 4 TX_QP.

(** The server side connects and relays before the client side looks for its
    peer. *)
Definition early_leave : list Z := RX_QP :: replicate 12 TX_QP.

(** The client side's wait times out while the server side still connects. *)
Definition slow_connect : list Z := RX_QP :: replicate 4 TX_QP ++ replicate 7 RX_QP ++ replicate 2 TX_QP.

(** The client side's wait times out, and before it cleans up the server side
    has taken its reference. *)
Definition late_peer : list Z := RX_QP :: replicate 5 TX_QP ++ replicate 6 RX_QP ++ replicate 4 TX_QP ++ [RX_QP].

(** When a wait times out the interleaving may fault: a client side that gives
    up frees the QP under a server side that still connects; one that gives up
    too late takes it out of the tree a second time. *)
Lemma timeout_races :
  run_pair (seq 0 10) slow_connect = Oops UseAfterFree ∧ run_pair (seq 0 10) late_peer = Oops ListCorrupt.
Proof. by vm_compute. Qed.

(** The server side gets what it asks for and leaves at once. *)
Definition server_close : Env := zeros [0; 1; 2; 3; 4; 5; 23]%nat.
Definition before_leave : pair_sys :=
  match @pair_run server_close spine_lib 0 (PObj 50) early_leave (pair_start 1 2 pair_world) with
  | Ok st => st
  | Oops _ => pair_start 1 2 pair_world
  end.

Lemma early_leaver_faults_witness :
  at_rx before_leave = HCheck (PObj 1) ∧
  ∃ st', @pair_line server_close spine_lib TX_QP 0 (PObj 50) before_leave = Ok st' ∧
    @pair_line server_close spine_lib RX_QP 0 (PObj 50) st' = Oops UseAfterFree.
Proof.
  split; [by vm_compute |].
  apply (@early_leaver_faults server_close (calm_quiet _ _ _) spine_lib spine_laws 9 0 50 1 2 20 some_key ∅ ltac:(done)
    (mk_key_good _ _ _ _) pair_world (@Leaf Z) before_leave TX_QP).
  - apply pair_world_apart.
  - apply (@pair_run_reach server_close spine_lib 0 (PObj 50) early_leave _ (pair_start 1 2 pair_world));
      [apply reach_start | by vm_compute | by vm_compute].
  - by left.
  - vm_compute. by eexists _, _, _.
  - exists 1. vm_compute. by left.
Defined.

(** Both sides get what they ask for, and close at once. *)
Definition quick_close : Env := zeros [0; 1; 2; 3; 4; 5; 6; 24; 42]%nat.
Definition after_leave : pair_sys :=
  match @pair_run quick_close spine_lib 0 (PObj 50) both_leave (pair_start 1 2 pair_world) with
  | Ok st => st
  | Oops _ => pair_start 1 2 pair_world
  end.

Lemma both_leave_reach : @pair_reach quick_close spine_lib 0 (PObj 50) (pair_start 1 2 pair_world) after_leave.
Proof.
  apply (@pair_run_reach quick_close spine_lib 0 (PObj 50) both_leave _ (pair_start 1 2 pair_world));
    [apply reach_start | by vm_compute | by vm_compute].
Qed.

Lemma pairing_cleans_witness :
  at_rx after_leave = HEnd false 0 ∧ at_tx after_leave = HEnd false 0 ∧
  qps (shared after_leave) !! 1 = None ∧ qps (shared after_leave) !! 2 = None ∧
  socks (shared after_leave) = delete 20 (socks pair_world).
Proof.
  split; [by vm_compute |]. split; [by vm_compute |].
  destruct (@pairing_cleans quick_close (calm_quiet _ _ _) spine_lib spine_laws 9 0 50 1 2 20 some_key ∅ ltac:(done)
    (mk_key_good _ _ _ _) pair_world (@Leaf Z) after_leave) as ((? & ? & _) & ? & _).
  - apply pair_world_apart.
  - apply both_leave_reach.
  - by vm_compute.
  - by vm_compute.
  - split; [assumption | split; assumption].
Defined.

Lemma pairing_counts_witness :
  ∃ g, (g = 1 ∨ g = 2) ∧ match qps (shared after_leave) !! g with
    | Some q => ref_cnt q = Z.b2z (holds (at_rx after_leave)) + Z.b2z (holds (at_tx after_leave))
    | None => holds (at_rx after_leave) = false ∧ holds (at_tx after_leave) = false
    end.
Proof.
  apply (@pairing_counts quick_close (calm_quiet _ _ _) spine_lib spine_laws 9 0 50 1 2 20 some_key ∅ ltac:(done)
    (mk_key_good _ _ _ _) pair_world (@Leaf Z)).
  - apply pair_world_apart.
  - apply both_leave_reach.
  - by vm_compute.
  - by vm_compute.
Defined.
