(* ===== verification/Crowd.v ===== *)
(** * Many connections at once (split.c, qp.c)

    Every connection of the proxy is a pair of threads, and all of them share
    the QPs, the SYN records, the sockets and the trees; the connections of one
    tenant on one core share a tree.  Here connections come, any number of
    them, and their halves take the lines of [Pairing] in any order.  Each
    connection keeps the invariant of a pair that runs alone, because the lines
    of the others leave its part of the state as it is ([pair_frame],
    [spared]).  That a connection comes is one step here; [Flow] shows that
    what the hooks, the pool and the accept do for a SYN is such a step. *)

From stdpp Require Import base list gmap sets.
From Stdlib Require Import ZArith Lia.
From S2P Require Import Prelude RbTree Keys DataTree World Qp Relay Hooks Connect Pairing.

(** A connection: its listener and core, the SYN record, the QPs the client
    side and the server side come with, the client's socket, the key. *)
Record conn := MkConn {
  c_listner : Z;
  c_cpu : Z;
  c_syn : Z;
  c_rx : Z;
  c_tx : Z;
  c_sock : Z;
  c_key : list Z;
}.

(** The connections that have come so far, where their two halves stand, and
    what all of them share. *)
Record crowd := MkCrowd { members : list (conn * (half_pc * half_pc)); crowd_world : world }.

(** A connection comes: its QPs and SYN record are new objects, its halves
    are on their way to the tree, where nobody waits with its key, and nothing
    else has changed. *)
Record arrives (c : conn) (w w' : world) : Prop := {
  ar_ne : c_rx c ≠ c_tx c;
  ar_key : good_key (c_key c);
  ar_apart : ∃ t, apart (c_listner c) (c_cpu c) (c_syn c) (c_rx c) (c_tx c) (c_sock c) (c_key c) (dom (socks w))
    RX_QP (HMeet (PObj (c_rx c))) (HMeet (PObj (c_tx c))) w' t;
  ar_listners : listners w' = listners w;
  ar_roots : roots w' = roots w;
  ar_qps y : y ≠ c_rx c → y ≠ c_tx c → qps w' !! y = qps w !! y;
  ar_syns y : y ≠ c_syn c → syns w' !! y = syns w !! y;
  ar_wakes : same_wakes w w';
  ar_new : next w ≤ c_rx c < next w' ∧ next w ≤ c_tx c < next w' ∧ next w ≤ c_syn c < next w';
}.

(** The tree a connection meets in. *)
Definition conn_root (c : conn) : Z * Z := (c_listner c, c_cpu c).

(** The connections of the crowd that use the same tree have other keys. *)
Definition new_key (c : conn) (st : crowd) : Prop :=
  ∀ j c' pp, members st !! j = Some (c', pp) → conn_root c' = conn_root c →
    cstr (c_key c') RB_KEY_LENGTH ≠ cstr (c_key c) RB_KEY_LENGTH.

Definition crowd_add (c : conn) (st : crowd) (w : world) : crowd :=
  MkCrowd (members st ++ [(c, (HMeet (PObj (c_rx c)), HMeet (PObj (c_tx c))))]) w.

Section crowd.
Context `{Env} `{RbLib Z}.

(** The half of direction [dir] of the connection [j] takes a line. *)
Definition crowd_line (j : nat) (dir : Z) (st : crowd) : outcome crowd :=
  match members st !! j with
  | Some (c, (p, p')) =>
      match pair_line dir (c_cpu c) (PObj (c_syn c)) (PairSys p p' (crowd_world st)) with
      | Ok ps => Ok (MkCrowd (<[j := (c, (at_rx ps, at_tx ps))]> (members st)) (shared ps))
      | Oops e => Oops e
      end
  | None => Ok st
  end.

(** A half that leaves does so after its peer has taken its reference. *)
Definition prompt (p p' : half_pc) : bool :=
  match p with HPut _ _ _ => took p' | _ => true end.

(** Where the half of a direction and its peer stand. *)
Definition pick (dir : Z) (pp : half_pc * half_pc) : half_pc := if dir =? TX_QP then pp.2 else pp.1.

(** The half may run: it does not sleep, and does not leave too early. *)
Definition may_run (j : nat) (dir : Z) (st : crowd) : bool :=
  match members st !! j with
  | Some (_, pp) => awake (crowd_world st) (pick dir pp) && prompt (pick dir pp) (pick (Z.lxor dir 1) pp)
  | None => false
  end.

(** Every run from a world with no connections: connections come, and the
    halves of all of them take their lines in any order, except that no wait
    times out and no half leaves too early. *)
Inductive crowd_reach (w0 : world) : crowd → Prop :=
  | crowd_start : crowd_reach w0 (MkCrowd [] w0)
  | crowd_come st c w' :
      crowd_reach w0 st → arrives c (crowd_world st) w' → new_key c st → crowd_reach w0 (crowd_add c st w')
  | crowd_step st st' j dir :
      crowd_reach w0 st → is_dir dir → may_run j dir st = true → crowd_line j dir st = Ok st' → crowd_reach w0 st'.

(** The lines of a schedule of connections and directions. *)
Fixpoint crowd_run (schedule : list (nat * Z)) (st : crowd) : outcome crowd :=
  match schedule with
  | [] => Ok st
  | (j, dir) :: schedule =>
      match crowd_line j dir st with
      | Ok st => crowd_run schedule st
      | Oops e => Oops e
      end
  end.

(** No half of the schedule runs when it may not. *)
Fixpoint crowd_patient (schedule : list (nat * Z)) (st : crowd) : bool :=
  match schedule with
  | [] => true
  | (j, dir) :: schedule =>
      bool_decide (is_dir dir) && may_run j dir st &&
      match crowd_line j dir st with
      | Ok st => crowd_patient schedule st
      | Oops _ => true
      end
  end.

Lemma crowd_run_reach schedule w0 st st' :
  crowd_reach w0 st → crowd_patient schedule st = true → crowd_run schedule st = Ok st' → crowd_reach w0 st'.
Proof.
  revert st. induction schedule as [| [j d] sch IH]; intros st Hr Hp Hs; simpl in *; [by injection Hs as <- |].
  apply andb_true_iff in Hp as [[Hd%bool_decide_eq_true Haw]%andb_true_iff Hp].
  destruct (crowd_line j d st) as [s1 |] eqn:E; [| done].
  apply (IH s1); [| done | done]. by eapply crowd_step.
Qed.

(** ** Lines that leave, and lines before the reference *)

Lemma line_gone d cpu arg p w p1 w1 :
  half_line d cpu arg p w = Ok (p1, w1) → gone p1 = true →
  gone p = true ∨ ∃ qp kvec rc, p = HPut qp kvec rc.
Proof.
  destruct p; cbn [half_line]; unfold mbind, kproc_bind, after_meet, after_get; intros Hl Hg;
    try (right; by eexists _, _, _); left; repeat (case_match; simplify_eq; try done);
    unfold mret, kproc_ret in *; by simplify_eq.
Qed.

Lemma line_late d cpu arg p w p1 w1 g :
  half_line d cpu arg p w = Ok (p1, w1) → late g p1 → took p = false.
Proof.
  intros Hl Hlate.
  assert (Hb : match p1 with HCheck _ | HGet _ _ => true | _ => false end = true)
    by by destruct Hlate as [-> | [wake ->]].
  clear Hlate. destruct p; try done; cbn [half_line] in Hl; unfold mbind, kproc_bind, after_meet, after_get in Hl;
    repeat (case_match; simplify_eq; try done); unfold mret, kproc_ret in *; by simplify_eq.
Qed.
End crowd.

(** ** One connection *)

(** A half has left only after its peer took its reference. *)
Definition settled (p p' : half_pc) : Prop :=
  (gone p = true → took p' = true) ∧ (gone p' = true → took p = true).

Section one.
Context `{Quiet} `{RbLaws Z}.
Variables (l cpu s a b sx : Z) (k : list Z).
Hypothesis own_ne : a ≠ b.
Hypothesis key_ok : good_key k.
Implicit Types w : world.

Abbreviation inv := (pair_inv l cpu s a b sx k).
Abbreviation framed := (pair_frame l cpu s a b).
Abbreviation own := (own a b).

Lemma settled_dir d (ps : pair_sys) :
  is_dir d → settled (at_rx ps) (at_tx ps) → settled (pc_of d ps) (pc_of (Z.lxor d 1) ps).
Proof. intros [-> | ->]; unfold settled; simpl; tauto. Qed.

(** The invariant, seen from another world that differs in our part only. *)
Lemma pair_inv_rebase S w0 w1 d p p' w : inv S w0 d p p' w → framed S w1 w → inv S w1 d p p' w.
Proof.
  intros [(t & Ha & Hf) | (g & [(q & t & O & O' & []) | []])] Hfr.
  - left. by exists t.
  - right. exists g. left. exists q, t, O, O'. by split.
  - right. exists g. right. by split.
Qed.

Lemma pair_inv_framed S w0 d p p' w : inv S w0 d p p' w → framed S w0 w.
Proof. intros [(t & [] & Hf) | (g & [(q & t & O & O' & []) | []])]; done. Qed.

(** Once a half has left, either the other still holds the QP or both are
    gone. *)
Lemma line_settled S w0 d p p' w p1 w1 :
  is_dir d → inv S w0 d p1 p' w1 → half_line d cpu (PObj s) p w = Ok (p1, w1) →
  settled p p' → prompt p p' = true → settled p1 p'.
Proof.
  intros Hd Hi Hl [Hs Hs'] Hp.
  assert (Hgone : gone p1 = true → took p' = true).
  { intros Hg. destruct (line_gone _ _ _ _ _ _ _ Hl Hg) as [? | (qp & kvec & rc & ->)]; auto. }
  split; [done |]. intros Hg'. specialize (Hs' Hg').
  destruct Hi as [(t & [] & _) | (g & [(q & t & O & O' & []) | []])].
  - by subst p'.
  - specialize (lk_gone' Hg'). unfold holds in lk_gone'. by destruct (took p1).
  - destruct fr_pc as [Hg | Hlate]; [by apply gone_bits | by rewrite (line_late _ _ _ _ _ _ _ _ Hl Hlate) in Hs'].
Qed.

(** The QPs of the connection carry its key. *)
Lemma pair_inv_key S w0 d p p' w y q :
  is_dir d → inv S w0 d p p' w → settled p p' → y = own d ∨ y = own (Z.lxor d 1) →
  qps w !! y = Some q → q_key q = k.
Proof.
  intros Hd Hi Hset Hy Hq.
  assert (Hk : ∀ d, q_key (own_qp l sx k d) = k) by (intros d'; unfold own_qp; by case_match).
  destruct Hi as [(t & [] & _) | (g & [(q' & t & O & O' & []) | []])].
  - destruct Hy as [-> | ->]; [rewrite ap_qp in Hq | rewrite ap_qp' in Hq]; injection Hq as <-; apply Hk.
  - destruct (decide (y = g)) as [-> |]; [congruence |].
    assert (Hside : ∀ d p q' O, side l s a b sx k d g p q' t w O → clean a b d g p w → y = own d → q_key q = k).
    { intros e pe qe Oe He Hc ->. destruct (met pe) eqn:Em; [destruct (Hc Em); congruence |].
      destruct (side_unmet _ _ _ _ _ _ _ _ _ _ _ _ _ He Em) as (_ & _ & Ho & _). rewrite Ho in Hq. injection Hq as <-. apply Hk. }
    destruct Hy as [E | E]; [exact (Hside _ _ _ _ lk_side lk_clean E) | exact (Hside _ _ _ _ lk_side' lk_clean' E)].
  - assert (Hm : ∀ p, gone p = true ∨ late g p → met p = true).
    { intros pc [? | [-> | [wake ->]]]; [by apply gone_bits | done | done]. }
    destruct (fr_clean (Hm _ fr_pc)), (fr_clean' (Hm _ fr_pc')), Hy; congruence.
Qed.

(** Both halves of a freed QP have taken their reference. *)
Lemma freed_took S w0 g d p p' w :
  freed l cpu s a b S w0 g d p p' w → settled p p' →
  took p = true ∧ took p' = true ∧ met p = true ∧ met p' = true.
Proof.
  intros [] [Hs Hs'].
  assert (Hb : took p = true ∧ took p' = true).
  { destruct fr_some as [Hg | Hg]; destruct (gone_bits _ Hg) as (-> & _); auto. }
  destruct Hb as [Ht Ht']. split_and!; [done | done | by destruct p | by destruct p'].
Qed.

(** Its tree is well formed. *)
Lemma pair_inv_tree S w0 d p p' w :
  inv S w0 d p p' w → settled p p' → ∃ t, has_root w l cpu t ∧ root_ok w t.
Proof.
  intros [(t & [] & _) | (g & [(q & t & O & O' & []) | Hf])] Hset; [by exists t | by exists t |].
  destruct (freed_took _ _ _ _ _ _ _ Hf Hset) as (Et & Et' & _). apply Hf. by rewrite Et, Et'.
Qed.

(** One of its QPs is in it while the halves have not both come back with their
    reference. *)
Lemma pair_inv_pending S w0 p p' w :
  inv S w0 RX_QP p p' w → settled p p' →
  ∃ t, has_root w l cpu t ∧ root_ok w t ∧
    (a ∈ inorder t ∨ b ∈ inorder t ↔ (met p || met p') && negb (out p p') = true).
Proof.
  clear key_ok. assert (Hdead : ∀ t y, root_ok w t → qps w !! y = None → y ∉ inorder t)
    by (intros t y [_ Hl] Hy Hin; destruct (Hl y Hin); congruence).
  intros [(t & [] & _) | (g & [(q & t & O & O' & []) | Hf])] Hset.
  - subst p p'. exists t. split_and!; try done. split; [| done]. by intros [? | ?].
  - exists t. split_and!; try done.
    assert (Hrest : ∀ d p q O, side l s a b sx k d g p q t w O → clean a b d g p w → own d ≠ g → own d ∉ inorder t).
    { intros d pd qd Od Hs Hc Hne. destruct (met pd) eqn:Em.
      - apply Hdead; [done |]. by destruct (Hc Em).
      - by destruct (side_unmet _ _ _ _ _ _ _ _ _ _ _ _ _ Hs Em) as (_ & ? & _). }
    pose proof (Hrest _ _ _ _ lk_side lk_clean) as Hra. pose proof (Hrest _ _ _ _ lk_side' lk_clean') as Hrb.
    change (own RX_QP) with a in *. change (own (Z.lxor RX_QP 1)) with b in *.
    assert (Hm : met p || met p' = true).
    { destruct (met p) eqn:Em, (met p') eqn:Em'; try done.
      destruct (side_unmet _ _ _ _ _ _ _ _ _ _ _ _ _ lk_side Em) as (Ha & _).
      destruct (side_unmet _ _ _ _ _ _ _ _ _ _ _ _ _ lk_side' Em') as (Hb & _). by destruct lk_g. }
    rewrite Hm. cbn [andb]. destruct (out p p') eqn:Eo; cbn [negb].
    + specialize (lk_out eq_refl). split; [| done]. destruct lk_g as [-> | ->]; naive_solver.
    + specialize (lk_in eq_refl). split; [done |]. intros _. destruct lk_g as [-> | ->]; auto.
  - destruct (freed_took _ _ _ _ _ _ _ Hf Hset) as (Et & Et' & Em & Em'). destruct Hf as [].
    destruct fr_tree as (t & Hr & Hok); [by rewrite Et, Et' |]. exists t. split_and!; try done.
    assert (Hn : ∀ y, y = g ∨ qps w !! y = None → y ∉ inorder t) by (intros y [-> |]; by apply Hdead).
    rewrite Em. assert (Eo : out p p' = true).
    { unfold out. rewrite Et, Et'. cbn [andb]. destruct fr_pc as [? | [-> | [? ->]]], fr_pc' as [? | [-> | [? ->]]]; try done.
      by destruct p, p'. }
    rewrite Eo. split; [| done]. intros [Hin | Hin]; exfalso; [by apply (Hn a); [apply fr_clean |] | by apply (Hn b); [apply fr_clean' |]].
Qed.

(** Its open sockets, and those of the others. *)
Lemma pair_inv_socks S w0 d p p' w :
  inv S w0 d p p' w → S ⊆ dom (socks w) ∧ ∀ z, z ∈ dom (socks w) → z < next w.
Proof.
  intros [(t & [] & _) | (g & [(q & t & O & O' & []) | []])].
  - rewrite ap_socks. split; [clear; set_solver | done].
  - rewrite lk_socks. split; [clear; set_solver | done].
  - rewrite fr_socks. by split.
Qed.

(** What another connection may do to ours: nothing, but its tree may be
    ours, and its sockets come and go. *)
Record spared (S S' : gset Z) w w' : Prop := {
  sp_listners : listners w' = listners w;
  sp_qps y : y = a ∨ y = b → qps w' !! y = qps w !! y;
  sp_syns : syns w' !! s = syns w !! s;
  sp_tree t : has_root w l cpu t → root_ok w t →
    ∃ t', has_root w' l cpu t' ∧ root_ok w' t' ∧ (∀ y, y = a ∨ y = b → y ∈ inorder t' ↔ y ∈ inorder t) ∧
      ((∀ y, y ∈ inorder t → ¬ same_cstr w y k) → ∀ y, y ∈ inorder t' → ¬ same_cstr w' y k);
  sp_socks : dom (socks w') = S' ∪ (dom (socks w) ∖ S);
  sp_disj : (dom (socks w) ∖ S) ## S';
  sp_next z : z ∈ dom (socks w') → z < next w';
  sp_wakes y : y = a ∨ y = b → wakes y (log w') = wakes y (log w);
}.

Lemma side_spared d g pc q t t' w w' S S' O :
  side l s a b sx k d g pc q t w O → spared S S' w w' →
  (∀ y, y = a ∨ y = b → y ∈ inorder t' ↔ y ∈ inorder t) → side l s a b sx k d g pc q t' w' O.
Proof.
  intros Hs [] Ht. eapply side_frame; try done.
  - intros Hm. pose proof (own_cases a b d) as Ho. rewrite sp_qps0, Ht by done. split; [| done].
    by destruct (side_unmet _ _ _ _ _ _ _ _ _ _ _ _ _ Hs Hm) as (_ & ? & _).
  - by rewrite sp_syns0.
Qed.

Lemma apart_spared S S' d p p' w w' t :
  apart l cpu s a b sx k S d p p' w t → spared S S' w w' → ∃ t', apart l cpu s a b sx k S' d p p' w' t'.
Proof.
  intros [] Hsp. pose proof Hsp as []. destruct (sp_tree0 t ap_root ap_tree) as (t' & Hr & Hok & Hin & Hnew).
  pose proof (own_cases a b d) as Ho. pose proof (own_cases a b (Z.lxor d 1)) as Ho'.
  assert (E : dom (socks w) ∖ S = {[sx]}) by (rewrite ap_socks; clear -ap_sx; set_solver).
  rewrite E in *. exists t'. split; rewrite ?sp_qps0, ?Hin, ?sp_syns0 by done; try done.
  - by apply Hnew.
  - clear -sp_disj0. set_solver.
  - intros z. rewrite <- sp_socks0. apply sp_next0.
Qed.

Lemma own_of g d : g = own d ∨ g = own (Z.lxor d 1) → g = a ∨ g = b.
Proof. intros [-> | ->]; apply own_cases. Qed.

Lemma linked_spared S S' w0 g d p p' w w' q t O O' :
  linked l cpu s a b sx k S w0 g d p p' w q t O O' → spared S S' w w' →
  ∃ t', linked l cpu s a b sx k S' w' g d p p' w' q t' O O'.
Proof.
  intros [] Hsp. pose proof Hsp as []. destruct (sp_tree0 t lk_root lk_tree) as (t' & Hr & Hok & Hin & _).
  pose proof (own_cases a b d) as Ho. pose proof (own_cases a b (Z.lxor d 1)) as Ho'. pose proof (own_of g d lk_g) as Hog.
  destruct lk_disj as (HO & HOS & HOS').
  assert (E : dom (socks w) ∖ S = O ∪ O') by (rewrite lk_socks; clear -HOS HOS'; set_solver).
  rewrite E in *. exists t'. unfold clean, syn_freed in *.
  split; unfold clean, syn_freed; rewrite ?sp_qps0, ?sp_syns0, ?sp_wakes0, ?Hin by done; try done.
  - by eapply side_spared.
  - by eapply side_spared.
  - by rewrite sp_socks0, assoc_L by apply _.
  - split_and!; [done | clear -sp_disj0 | clear -sp_disj0]; set_solver.
  - intros z. rewrite <- assoc_L, <- sp_socks0 by apply _. apply sp_next0.
Qed.

Lemma freed_spared S S' w0 g d p p' w w' :
  freed l cpu s a b S w0 g d p p' w → spared S S' w w' → freed l cpu s a b S' w' g d p p' w'.
Proof.
  intros [] []. pose proof (own_cases a b d) as Ho. pose proof (own_cases a b (Z.lxor d 1)) as Ho'.
  pose proof (own_of g d fr_g) as Hog. rewrite fr_socks, difference_diag_L, union_empty_r_L in *. unfold clean, syn_freed in *.
  split; unfold clean, syn_freed; rewrite ?sp_qps0, ?sp_syns0 by done; try done.
  - intros Ht. destruct (fr_tree Ht) as (t & Hr & Hok). destruct (sp_tree0 t Hr Hok) as (t' & ? & ? & _). by exists t'.
  - intros z. rewrite <- sp_socks0. apply sp_next0.
Qed.

(** A connection that is spared keeps its invariant. *)
Lemma pair_inv_spared S S' w0 d p p' w w' :
  inv S w0 d p p' w → spared S S' w w' → inv S' w' d p p' w'.
Proof.
  intros [(t & Ha & _) | (g & [(q & t & O & O' & Hl) | Hf])] Hsp.
  - left. destruct (apart_spared _ _ _ _ _ _ _ _ Ha Hsp) as [t' ?]. by exists t'.
  - right. exists g. left. destruct (linked_spared _ _ _ _ _ _ _ _ _ _ _ _ _ Hl Hsp) as [t' ?]. by exists q, t', O, O'.
  - right. exists g. right. by eapply freed_spared.
Qed.

(** The sockets a half relays between. *)
Definition relay_sock (pc : half_pc) : option sockets :=
  match pc with
  | HPages sock _ | HRecv sock _ _ | HSend sock _ _ _ | HStop sock _ _ _ => Some sock
  | _ => None
  end.

Lemma pair_inv_relays S w0 d p p' w sock :
  is_dir d → inv S w0 d p p' w → relay_sock p = Some sock →
  ∃ z z', so_rx sock = PObj z ∧ so_tx sock = PObj z' ∧ z ∈ dom (socks w) ∖ S ∧ z' ∈ dom (socks w) ∖ S.
Proof.
  intros Hd Hi Hs. destruct Hi as [(t & [] & _) | (g & [(q & t & O & O' & []) | []])].
  - by subst p.
  - assert (Hst : stored p = true ∧ sees p = true) by by destruct p.
    destruct (side_stored _ _ _ _ _ _ _ _ _ _ _ _ _ lk_side (proj1 Hst)) as (z & Hz & ->).
    destruct (side_stored _ _ _ _ _ _ _ _ _ _ _ _ _ lk_side' (lk_sees (proj2 Hst))) as (z' & Hz' & ->).
    assert (E : sock = half_sockets d q).
    { destruct p; try done; injection Hs as <-; by destruct lk_side as (_ & ? & _). }
    rewrite E, half_sockets_eq by done. exists z, z'. rewrite lk_socks. destruct lk_disj as (_ & HOS & HOS').
    split_and!; [done | done | |]; clear -HOS HOS'; set_solver.
  - destruct fr_pc as [Hg | [-> | [wake ->]]]; [by destruct p | done | done].
Qed.
End one.

(** ** All of them *)

Section many.
Context `{Quiet} `{RbLaws Z}.
Variables (base : gset Z).
Implicit Types w : world.

Definition conn_inv (c : conn) (S : gset Z) (w0 : world) (ps : pair_sys) : Prop :=
  pair_inv (c_listner c) (c_cpu c) (c_syn c) (c_rx c) (c_tx c) (c_sock c) (c_key c) S w0
    RX_QP (at_rx ps) (at_tx ps) (shared ps).
Abbreviation conn_frame c := (pair_frame (c_listner c) (c_cpu c) (c_syn c) (c_rx c) (c_tx c)).
Abbreviation conn_spared c := (spared (c_listner c) (c_cpu c) (c_syn c) (c_rx c) (c_tx c) (c_key c)).

(** What makes two connections two: their QPs and SYN records are different
    objects, and in a tree they share their keys differ as C strings. *)
Record distinct (c c' : conn) : Prop := {
  di_qps y : y = c_rx c ∨ y = c_tx c → y ≠ c_rx c' ∧ y ≠ c_tx c';
  di_syn : c_syn c ≠ c_syn c';
  di_key : conn_root c = conn_root c' → cstr (c_key c) RB_KEY_LENGTH ≠ cstr (c_key c') RB_KEY_LENGTH;
}.

(** The trees a connection does not use have none of its QPs. *)
Definition kept_out (c : conn) w : Prop :=
  ∀ r t, r ≠ conn_root c → roots w !! r = Some t → c_rx c ∉ inorder t ∧ c_tx c ∉ inorder t.

(** The new tree of the other connection is one ours can use too. *)
Lemma shared_tree c c' S' w0 w w' ps t :
  distinct c c' → conn_root c = conn_root c' → conn_inv c' S' w0 ps → shared ps = w' →
  settled (at_rx ps) (at_tx ps) → conn_frame c' S' w w' → has_root w (c_listner c) (c_cpu c) t →
  ∃ t', has_root w' (c_listner c) (c_cpu c) t' ∧ root_ok w' t' ∧
    (∀ y, y = c_rx c ∨ y = c_tx c → y ∈ inorder t' ↔ y ∈ inorder t) ∧
    ((∀ y, y ∈ inorder t → ¬ same_cstr w y (c_key c)) → ∀ y, y ∈ inorder t' → ¬ same_cstr w' y (c_key c)).
Proof.
  intros [] Er Hi Hw Hset [] [_ Ht]. subst w'. specialize (di_key0 Er). injection Er as El Ec. rewrite El, Ec in *.
  destruct (pair_inv_tree _ _ _ _ _ _ _ _ _ _ _ _ _ Hi Hset) as (t' & Hr & Hok).
  destruct (pf_tree t' (proj2 Hr)) as (t0 & Ht0 & Hin). rewrite Ht in Ht0. injection Ht0 as <-.
  exists t'. split_and!; try done.
  - intros y Hy. by apply Hin; apply di_qps0.
  - intros Hnew y Hy. destruct (decide (y = c_rx c' ∨ y = c_tx c')) as [Hyc |].
    + destruct (proj2 Hok y Hy) as [q Hq]. unfold same_cstr, node_key. rewrite Hq. simpl.
      by rewrite (pair_inv_key _ _ _ _ _ _ _ _ _ _ _ _ _ _ _ (or_intror eq_refl) Hi Hset Hyc Hq).
    + apply Decidable.not_or in n as [Hn Hn']. unfold same_cstr, node_key. rewrite pf_qps by done.
      by apply Hnew, Hin.
Qed.

(** A tree the other connection does not use. *)
Lemma other_tree c c' S' w w' t :
  conn_root c ≠ conn_root c' → kept_out c' w → conn_frame c' S' w w' →
  has_root w (c_listner c) (c_cpu c) t → root_ok w t →
  has_root w' (c_listner c) (c_cpu c) t ∧ root_ok w' t ∧
    ((∀ y, y ∈ inorder t → ¬ same_cstr w y (c_key c)) → ∀ y, y ∈ inorder t → ¬ same_cstr w' y (c_key c)).
Proof.
  intros Hne Hout [] [Hl Ht] Hok. destruct (Hout _ t Hne Ht) as [Na Nb].
  assert (Eq : ∀ y, y ∈ inorder t → qps w' !! y = qps w !! y) by (intros y Hy; apply pf_qps; by intros ->).
  split_and!.
  - split; [by rewrite pf_listners | by rewrite pf_roots].
  - eapply root_ok_ext; [| done]. intros y Hy. unfold node_key. rewrite Eq by done. split; [by apply Hok | done].
  - intros Hnew y Hy. unfold same_cstr, node_key. rewrite Eq by done. by apply Hnew.
Qed.

(** The lines of one connection spare every other. *)
Lemma line_spares c c' S S' S1 w0 w w' ps :
  distinct c c' → conn_inv c' S1 w0 ps → shared ps = w' → settled (at_rx ps) (at_tx ps) →
  conn_frame c' S1 w w' → kept_out c' w → dom (socks w') = S' ∪ (dom (socks w) ∖ S) →
  (dom (socks w) ∖ S) ## S' → conn_spared c S S' w w'.
Proof.
  intros Hdi Hi Hw Hset Hfr Hout Hdom Hdis. pose proof Hdi as []. pose proof Hfr as [].
  split; try done.
  - intros y Hy. apply pf_qps; by apply di_qps0.
  - by apply pf_syns.
  - intros t Hr Hok. destruct (decide (conn_root c = conn_root c')) as [E | E].
    + by eapply shared_tree.
    + exists t. destruct (other_tree c c' S1 w w' t E Hout Hfr Hr Hok) as (? & ? & ?). by split_and!.
  - subst w'. apply (pair_inv_socks _ _ _ _ _ _ _ _ _ _ _ _ _ Hi).
  - intros y Hy. apply pf_wakes; by apply di_qps0.
Qed.

(** Each connection has its invariant and its own open sockets; its objects
    are its own and stay out of the trees of the others. *)
Record crowd_inv (O : nat → gset Z) (st : crowd) : Prop := {
  ci_pair j c p p' : members st !! j = Some (c, (p, p')) →
    conn_inv c (dom (socks (crowd_world st)) ∖ O j) (crowd_world st) (PairSys p p' (crowd_world st)) ∧ settled p p';
  ci_key j c pp : members st !! j = Some (c, pp) → c_rx c ≠ c_tx c ∧ good_key (c_key c);
  ci_two i j c c' pp pp' : i ≠ j → members st !! i = Some (c, pp) → members st !! j = Some (c', pp') → distinct c c';
  ci_old j c pp : members st !! j = Some (c, pp) →
    c_rx c < next (crowd_world st) ∧ c_tx c < next (crowd_world st) ∧ c_syn c < next (crowd_world st);
  ci_trees r t y : roots (crowd_world st) !! r = Some t → y ∈ inorder t → y < next (crowd_world st);
  ci_out j c pp : members st !! j = Some (c, pp) → kept_out c (crowd_world st);
  ci_own j c pp : members st !! j = Some (c, pp) → O j ⊆ dom (socks (crowd_world st)) ∧ O j ## base;
  ci_disj i j c c' pp pp' : i ≠ j → members st !! i = Some (c, pp) → members st !! j = Some (c', pp') → O i ## O j;
  ci_base : base ⊆ dom (socks (crowd_world st));
  ci_all z : z ∈ dom (socks (crowd_world st)) → z ∈ base ∨ ∃ j c pp, members st !! j = Some (c, pp) ∧ z ∈ O j;
}.

(** The open sockets of the connections, once [j] has the sockets [Oj]. *)
Definition sockets_now (O : nat → gset Z) (j : nat) (Oj : gset Z) : nat → gset Z :=
  λ i, if decide (i = j) then Oj else O i.

Lemma sockets_now_eq O j Oj : sockets_now O j Oj j = Oj.
Proof. unfold sockets_now. by rewrite decide_True. Qed.

Lemma sockets_now_ne O j Oj i : i ≠ j → sockets_now O j Oj i = O i.
Proof. intros Hi. unfold sockets_now. by rewrite decide_False. Qed.

(** Members keep their connection. *)
Lemma member_insert (ms : list (conn * (half_pc * half_pc))) i j c pp pp' c' ppi :
  ms !! j = Some (c, pp) → <[j := (c, pp')]> ms !! i = Some (c', ppi) →
  (i = j ∧ c' = c ∧ ppi = pp') ∨ (i ≠ j ∧ ms !! i = Some (c', ppi)).
Proof.
  intros Hj. destruct (decide (i = j)) as [-> | Hij].
  - rewrite list_lookup_insert_eq by (by eapply lookup_lt_Some). intros [= <- <-]. by left.
  - rewrite list_lookup_insert_ne by done. intros ?. by right.
Qed.

Lemma member_before (ms : list (conn * (half_pc * half_pc))) i j c pp pp' c' ppi :
  ms !! j = Some (c, pp) → <[j := (c, pp')]> ms !! i = Some (c', ppi) → ∃ pp0, ms !! i = Some (c', pp0).
Proof.
  intros Hj Hi. destruct (member_insert _ _ _ _ _ _ _ _ Hj Hi) as [(-> & -> & _) | [_ ?]]; by eexists.
Qed.

(** ** A line *)

(** One connection's line, with its own share of the state. *)
Lemma conn_line st j c p p' d S w0 :
  c_rx c ≠ c_tx c → good_key (c_key c) → members st !! j = Some (c, (p, p')) → is_dir d → may_run j d st = true →
  conn_inv c S w0 (PairSys p p' (crowd_world st)) → settled p p' →
  match pair_line d (c_cpu c) (PObj (c_syn c)) (PairSys p p' (crowd_world st)) with
  | Ok ps' => conn_inv c S w0 ps' ∧ settled (at_rx ps') (at_tx ps')
  | Oops e => e = WildFree ∧ ∃ held kvec rc, pick d (p, p') = HFree held kvec rc
  end.
Proof.
  intros Hne Hk Hj Hd Hm Hi Hset. unfold may_run in Hm. rewrite Hj in Hm. apply andb_true_iff in Hm as [Haw Hpr].
  set (ps := PairSys p p' (crowd_world st)) in *.
  assert (Hpick : pick d (p, p') = pc_of d ps ∧ pick (Z.lxor d 1) (p, p') = pc_of (Z.lxor d 1) ps) by done.
  destruct Hpick as [E1 E2]. rewrite E1 in *. rewrite E2 in Hpr.
  pose proof (pair_line_inv _ _ _ _ _ _ _ _ _ Hne Hk d ps Hd Hi Haw) as Hl.
  pose proof (settled_dir d ps Hd Hset) as Hsd. unfold pair_line in *.
  destruct (half_line _ _ _ _ _) as [[p1 w1] | e] eqn:E.
  - split; [done |]. destruct (pc_of_set d p1 w1 ps Hd) as [Hp1 Hp'].
    assert (Ew : shared (set_pc d p1 w1 ps) = w1) by by destruct Hd as [-> | ->].
    assert (Hi' := pair_inv_dir _ _ _ _ _ _ _ _ _ d _ Hd Hl). rewrite Hp1, Hp', Ew in Hi'.
    pose proof (line_settled _ _ _ _ _ _ _ _ _ _ _ _ _ _ _ Hd Hi' E Hsd Hpr) as Hs1.
    rewrite <- Hp1, <- Hp' in Hs1. destruct Hd as [-> | ->]; unfold settled in *; simpl in *; tauto.
  - destruct Hl as [? | (-> & (g & Hlate) & Hg)]; [done |]. destruct Hsd as [_ Hsd]. specialize (Hsd Hg).
    by destruct Hlate as [E' | [wake E']]; rewrite E' in Hsd.
Qed.

(** The sockets of the others stay open while [j] opens and closes its own. *)
Lemma others_open (D D' Oi Oj : gset Z) :
  D ∖ Oj ⊆ D' → Oi ⊆ D → Oi ## Oj →
  D' = (D' ∖ Oi) ∪ (D ∖ (D ∖ Oi)) ∧ (D ∖ (D ∖ Oi)) ## D' ∖ Oi ∧ Oi ⊆ D' ∧ Oi ## D' ∖ (D ∖ Oj).
Proof.
  intros HD HOi Hdis. assert (E : D ∖ (D ∖ Oi) = Oi) by (apply set_eq; intros z; destruct (decide (z ∈ Oi)); set_solver).
  assert (HOD : Oi ⊆ D') by set_solver. rewrite E. split_and!; [| set_solver | done | set_solver].
  rewrite difference_union_L. set_solver.
Qed.

(** What a line may put into a tree. *)
Lemma trees_line c S' w w' :
  conn_frame c S' w w' → c_rx c < next w → c_tx c < next w →
  (∀ r t y, roots w !! r = Some t → y ∈ inorder t → y < next w) →
  ∀ r t y, roots w' !! r = Some t → y ∈ inorder t → y < next w'.
Proof.
  intros [] Ha Hb Hold r t y Ht Hy. apply (Z.lt_le_trans _ (next w)); [| done].
  destruct (decide (r = conn_root c)) as [-> | Hr]; [| rewrite pf_roots in Ht by done; by eapply Hold].
  destruct (pf_tree t Ht) as (t0 & Ht0 & Hin). destruct (decide (y = c_rx c)) as [-> |]; [done |].
  destruct (decide (y = c_tx c)) as [-> |]; [done |].
  apply (Hold _ t0 y Ht0). by apply Hin.
Qed.

(** The QPs of a connection stay out of the trees of the others. *)
Lemma kept_out_line c c' S' w w' :
  c = c' ∨ distinct c c' → conn_frame c' S' w w' → kept_out c w → kept_out c w'.
Proof.
  intros Hc [] Hout r t Hr Ht. destruct (decide (r = conn_root c')) as [-> | E];
    [| apply (Hout r); [done |]; by rewrite <- pf_roots].
  destruct (pf_tree t Ht) as (t0 & Ht0 & Hin). destruct (Hout _ t0 Hr Ht0) as [Na Nb].
  destruct Hc as [-> | [Hq _ _]]; [done |]. by rewrite !Hin by (apply Hq; auto).
Qed.

(** A line of [j] leaves an invariant for every connection. *)
Lemma conns_line O st j c pp p1 p1' w' i c' p p' :
  crowd_inv O st → members st !! j = Some (c, pp) →
  conn_inv c (dom (socks (crowd_world st)) ∖ O j) (crowd_world st) (PairSys p1 p1' w') → settled p1 p1' →
  let Oj := dom (socks w') ∖ (dom (socks (crowd_world st)) ∖ O j) in
  <[j := (c, (p1, p1'))]> (members st) !! i = Some (c', (p, p')) →
  conn_inv c' (dom (socks w') ∖ sockets_now O j Oj i) w' (PairSys p p' w') ∧ settled p p'.
Proof.
  intros Hinv Hj Hps' Hset' Oj Hi. set (w := crowd_world st) in *.
  pose proof (pair_inv_framed _ _ _ _ _ _ _ _ _ _ _ _ _ Hps') as Hfr. simpl in Hfr.
  destruct (pair_inv_socks _ _ _ _ _ _ _ _ _ _ _ _ _ Hps') as [Hsub _]. simpl in Hsub.
  destruct (member_insert _ _ _ _ _ _ _ _ Hj Hi) as [(-> & -> & [= -> ->]) | [Hij Hi']].
  - split; [| done]. rewrite sockets_now_eq.
    assert (E : dom (socks w') ∖ Oj = dom (socks w) ∖ O j).
    { unfold Oj. apply set_eq. intros z. destruct (decide (z ∈ dom (socks w) ∖ O j)); set_solver. }
    rewrite E. eapply pair_inv_rebase; [exact Hps' | reflexivity].
  - rewrite sockets_now_ne by done. destruct (ci_pair _ _ Hinv i c' p p' Hi') as [Hi0 Hs0]. split; [| done].
    destruct (others_open (dom (socks w)) (dom (socks w')) (O i) (O j)) as (Hdom & Hdis & _);
      [done | by eapply (ci_own _ _ Hinv i) | by eapply (ci_disj _ _ Hinv i j) |].
    eapply pair_inv_spared; [exact Hi0 |].
    eapply line_spares; [by eapply (ci_two _ _ Hinv i j) | exact Hps' | done | done | done
      | by eapply (ci_out _ _ Hinv j) | done | done].
Qed.

(** The invariant once [j] stands elsewhere and has the sockets it has. *)
Lemma crowd_inv_moved O st j c pp p1 p1' w' :
  crowd_inv O st → members st !! j = Some (c, pp) →
  conn_inv c (dom (socks (crowd_world st)) ∖ O j) (crowd_world st) (PairSys p1 p1' w') → settled p1 p1' →
  crowd_inv (sockets_now O j (dom (socks w') ∖ (dom (socks (crowd_world st)) ∖ O j)))
    (MkCrowd (<[j := (c, (p1, p1'))]> (members st)) w').
Proof.
  intros Hinv Hj Hi' Hset'. pose proof (λ i c' p p', conns_line O st j c pp p1 p1' w' i c' p p' Hinv Hj Hi' Hset') as Hall.
  simpl in Hall. set (w := crowd_world st) in *. set (Oj := dom (socks w') ∖ (dom (socks w) ∖ O j)) in *.
  pose proof (pair_inv_framed _ _ _ _ _ _ _ _ _ _ _ _ _ Hi') as Hfr. simpl in Hfr.
  destruct (pair_inv_socks _ _ _ _ _ _ _ _ _ _ _ _ _ Hi') as [Hsub _]. simpl in Hsub.
  pose proof (pf_next _ _ _ _ _ _ _ _ Hfr) as Hnext. destruct Hinv.
  fold w in ci_own0, ci_base0, ci_all0, ci_out0, ci_old0, ci_trees0. destruct (ci_own0 j c pp Hj) as [HOj HOb].
  assert (Hoth : ∀ i c' pi, i ≠ j → members st !! i = Some (c', pi) → O i ⊆ dom (socks w') ∧ O i ## Oj).
  { intros i c' pi Hij Hc'. destruct (others_open (dom (socks w)) (dom (socks w')) (O i) (O j)) as (_ & _ & ? & ?);
      [done | by eapply ci_own0 | by eapply (ci_disj0 i j) | done]. }
  pose proof (λ i c' pi, member_before _ i j c pp (p1, p1') c' pi Hj) as Hback. split; simpl.
  - done.
  - intros i c' pi [? Hi]%Hback. by eapply ci_key0.
  - intros i i' c1 c2 pi pi' Hne [? H1']%Hback [? H2']%Hback. by eapply (ci_two0 i i').
  - intros i c' pi [? Hi]%Hback. destruct (ci_old0 _ _ _ Hi). lia.
  - eapply trees_line; [exact Hfr | by eapply ci_old0 | by eapply ci_old0 | done].
  - intros i c' pi [? Hi]%Hback. eapply kept_out_line; [| exact Hfr | by eapply ci_out0].
    destruct (decide (i = j)) as [-> | Hij]; [left; congruence | right; by eapply (ci_two0 i j)].
  - intros i c' pi [? Hi]%Hback. destruct (decide (i = j)) as [-> | Hij].
    + rewrite sockets_now_eq. unfold Oj. clear -ci_base0 HOb. set_solver.
    + rewrite sockets_now_ne by done. split; [by eapply Hoth | by eapply ci_own0].
  - intros i i' c1 c2 pi pi' Hne [? H1']%Hback [? H2']%Hback. unfold sockets_now.
    repeat case_decide; subst; [done | | | by eapply ci_disj0]; [symmetry |]; by eapply Hoth.
  - clear -ci_base0 HOb Hsub. set_solver.
  - intros z Hz. destruct (decide (z ∈ Oj)) as [|Hn].
    { right. exists j, c, (p1, p1'). rewrite sockets_now_eq, list_lookup_insert_eq; [done | by eapply lookup_lt_Some]. }
    assert (Hz' : z ∈ dom (socks w) ∧ z ∉ O j).
    { unfold Oj in Hn. apply elem_of_difference. destruct (decide (z ∈ dom (socks w) ∖ O j)); [done |]. set_solver. }
    destruct (ci_all0 z (proj1 Hz')) as [? | (i & c' & pi & Hc' & Hzi)]; [by left | right].
    assert (Hij : i ≠ j) by (intros ->; by apply Hz'). exists i, c', pi.
    by rewrite sockets_now_ne, list_lookup_insert_ne.
Qed.

(** A line keeps the invariant, or finds a page vector that was never
    filled. *)
Lemma crowd_inv_line O st j d :
  crowd_inv O st → is_dir d → may_run j d st = true →
  match crowd_line j d st with
  | Ok st' => ∃ O', crowd_inv O' st'
  | Oops e => e = WildFree ∧ ∃ c pp held kvec rc, members st !! j = Some (c, pp) ∧ pick d pp = HFree held kvec rc
  end.
Proof.
  intros Hinv Hd Hm. unfold crowd_line. destruct (members st !! j) as [[c [p p']] |] eqn:Hj; [| by exists O].
  destruct (ci_key _ _ Hinv _ _ _ Hj) as [Hne Hk]. destruct (ci_pair _ _ Hinv _ _ _ _ Hj) as [Hi Hset].
  pose proof (conn_line st j c p p' d _ _ Hne Hk Hj Hd Hm Hi Hset) as Hl.
  destruct (pair_line _ _ _ _) as [[p1 p1' w'] | e].
  - destruct Hl as [Hi' Hset']. eexists. by eapply crowd_inv_moved.
  - destruct Hl as (-> & held & kvec & rc & Hpc). split; [done |]. by exists c, (p, p'), held, kvec, rc.
Qed.

(** ** A connection comes *)

Lemma arrives_socks c w w' :
  arrives c w w' → dom (socks w') = dom (socks w) ∪ {[c_sock c]} ∧ c_sock c ∉ dom (socks w) ∧
  ∀ z, z ∈ dom (socks w') → z < next w'.
Proof. intros [? ? (t & []) _ _ _ _ _ _]. by rewrite ap_socks. Qed.

(** Old QPs are not the new ones. *)
Lemma arrives_old c w w' y : arrives c w w' → y < next w → y ≠ c_rx c ∧ y ≠ c_tx c.
Proof. intros [] Hy. lia. Qed.

Lemma arrives_spares c c' w w' O :
  arrives c w w' → c_rx c' < next w → c_tx c' < next w → c_syn c' < next w →
  (∀ r t y, roots w !! r = Some t → y ∈ inorder t → y < next w) → O ⊆ dom (socks w) →
  conn_spared c' (dom (socks w) ∖ O) (dom (socks w') ∖ O) w w'.
Proof.
  intros Har Ha Hb Hs Htr HO. destruct (arrives_socks _ _ _ Har) as (Hd & Hn & Hx).
  destruct (others_open (dom (socks w)) (dom (socks w')) O ∅) as (Hdom & Hdis & _);
    [rewrite Hd; clear; set_solver | done | set_solver |].
  pose proof Har as []. split; try done.
  - intros y [-> | ->]; apply ar_qps0; by eapply arrives_old.
  - apply ar_syns0. lia.
  - intros t [Hl Ht] Hok. exists t.
    assert (Eq : ∀ y, y ∈ inorder t → qps w' !! y = qps w !! y).
    { intros y Hy. apply ar_qps0; eapply arrives_old; try done; by eapply Htr. }
    split_and!; try done.
    + split; [by rewrite ar_listners0 | by rewrite ar_roots0].
    + eapply root_ok_ext; [| done]. intros y Hy. unfold node_key. rewrite Eq by done. split; [by apply Hok | done].
    + intros Hnew y Hy. unfold same_cstr, node_key. rewrite Eq by done. by apply Hnew.
Qed.

Lemma arrives_distinct c c' st w' j pp :
  arrives c (crowd_world st) w' → new_key c st → members st !! j = Some (c', pp) →
  c_rx c' < next (crowd_world st) → c_tx c' < next (crowd_world st) → c_syn c' < next (crowd_world st) →
  distinct c' c ∧ distinct c c'.
Proof.
  intros [] Hk Hj Ha Hb Hs. specialize (Hk _ _ _ Hj). split; split; try lia; auto. intros E. apply not_eq_sym. auto.
Qed.

Lemma crowd_inv_come O st c w' :
  crowd_inv O st → arrives c (crowd_world st) w' → new_key c st →
  crowd_inv (sockets_now O (length (members st)) {[c_sock c]}) (crowd_add c st w').
Proof.
  intros Hinv Har Hk. set (w := crowd_world st) in *. destruct (arrives_socks _ _ _ Har) as (Hd & Hn & Hx). pose proof Har as [].
  assert (Hlt : ∀ i c' pi, members st !! i = Some (c', pi) → i ≠ length (members st))
    by (intros i c' pi Hi ->; apply lookup_lt_Some in Hi; lia).
  destruct Hinv. fold w in ci_own0, ci_base0, ci_all0, ci_out0, ci_old0, ci_trees0, ci_pair0.
  assert (Hout : kept_out c w').
  { intros r t _ Ht. rewrite ar_roots0 in Ht. split; intros Hin; specialize (ci_trees0 _ _ _ Ht Hin); lia. }
  unfold crowd_add. split; simpl.
  - intros i c' p p' [[Hi Hj] | [-> [= <- <- <-]]]%lookup_snoc_Some.
    + rewrite sockets_now_ne by lia. destruct (ci_pair0 _ _ _ _ Hj) as [Hp Hs]. split; [| done].
      destruct (ci_old0 _ _ _ Hj) as (? & ? & ?). eapply pair_inv_spared; [exact Hp |].
      apply (arrives_spares c c'); try done. by eapply ci_own0.
    + rewrite sockets_now_eq. split; [| done]. left. destruct ar_apart0 as (t & Ht). exists t. split; [| reflexivity].
      assert (E : dom (socks w') ∖ {[c_sock c]} = dom (socks w)) by (rewrite Hd; clear -Hn; set_solver). by rewrite E.
  - intros i c' pi [[_ Hi] | [_ [= <- <-]]]%lookup_snoc_Some; [by eapply ci_key0 | done].
  - intros i i' c1 c2 pi pi' Hne [[_ H1'] | [-> [= <- <-]]]%lookup_snoc_Some [[_ H2'] | [-> [= <- <-]]]%lookup_snoc_Some;
      [by eapply (ci_two0 i i') | | | done].
    + destruct (ci_old0 _ _ _ H1') as (? & ? & ?). by apply (arrives_distinct c c1 st w' i pi).
    + destruct (ci_old0 _ _ _ H2') as (? & ? & ?). by apply (arrives_distinct c c2 st w' i' pi').
  - intros i c' pi [[_ Hi] | [_ [= <- <-]]]%lookup_snoc_Some; [destruct (ci_old0 _ _ _ Hi); lia | lia].
  - intros r t y. rewrite ar_roots0. intros Ht Hy. specialize (ci_trees0 _ _ _ Ht Hy). lia.
  - intros i c' pi [[_ Hi] | [_ [= <- <-]]]%lookup_snoc_Some; [| done].
    intros r t Hr. rewrite ar_roots0. by eapply ci_out0.
  - intros i c' pi [[_ Hi] | [-> [= <- <-]]]%lookup_snoc_Some.
    + rewrite sockets_now_ne by (by eapply Hlt). destruct (ci_own0 _ _ _ Hi). split; [| done]. rewrite Hd. set_solver.
    + rewrite sockets_now_eq, Hd. split; [set_solver | clear -Hn ci_base0; set_solver].
  - intros i i' c1 c2 pi pi' Hne [[Hl1 H1'] | [-> [= <- <-]]]%lookup_snoc_Some [[Hl2 H2'] | [-> [= <- <-]]]%lookup_snoc_Some;
      rewrite ?sockets_now_eq, ?sockets_now_ne by lia; [by eapply (ci_disj0 i i') | | | done];
      [destruct (ci_own0 _ _ _ H1') as [Ho _] | destruct (ci_own0 _ _ _ H2') as [Ho _]]; clear -Ho Hn; set_solver.
  - rewrite Hd. clear -ci_base0. set_solver.
  - intros z. rewrite Hd, elem_of_union, elem_of_singleton. intros [Hz | ->].
    + destruct (ci_all0 z Hz) as [? | (i & c' & pi & Hi & Hzi)]; [by left | right]. exists i, c', pi.
      rewrite sockets_now_ne by (by eapply Hlt). split; [by apply lookup_app_l_Some | done].
    + right. exists (length (members st)), c, (HMeet (PObj (c_rx c)), HMeet (PObj (c_tx c))).
      rewrite sockets_now_eq. split; [by apply lookup_snoc_Some; right | by apply elem_of_singleton].
Qed.
End many.

(** ** The theorems *)

Section theorems.
Context `{Quiet} `{RbLaws Z}.

(** The addresses of what waits in the trees of a world are in use. *)
Definition trees_in_use (w : world) : Prop :=
  ∀ r t y, roots w !! r = Some t → y ∈ inorder t → y < next w.

Lemma crowd_reach_inv w0 st : trees_in_use w0 → crowd_reach w0 st → ∃ O, crowd_inv (dom (socks w0)) O st.
Proof.
  intros Hw. induction 1 as [| st c w' Hr [O IH] Ha Hk | st st' j d Hr [O IH] Hd Hm Hl].
  - exists (λ _, ∅). split; simpl; try done; try (by intros; simplify_list_eq). intros z Hz. by left.
  - eexists. by apply crowd_inv_come.
  - pose proof (crowd_inv_line _ O st j d IH Hd Hm) as Hi. by rewrite Hl in Hi.
Qed.

(** A connection both of whose halves have left. *)
Lemma conn_left base O st j c p p' :
  crowd_inv base O st → members st !! j = Some (c, (p, p')) → gone p = true → gone p' = true →
  (qps (crowd_world st) !! c_rx c = None ∧ qps (crowd_world st) !! c_tx c = None ∧
   syns (crowd_world st) !! c_syn c = None) ∧ O j = ∅ ∧
  ∃ u, roots (crowd_world st) !! conn_root c = Some u ∧ c_rx c ∉ inorder u ∧ c_tx c ∉ inorder u.
Proof.
  intros Hinv Hj Hg Hg'. destruct (ci_pair _ _ _ Hinv _ _ _ _ Hj) as [Hi _].
  apply pair_inv_left in Hi as (? & E & _ & ?); [| done | done].
  split; [done |]. split; [| done]. destruct (ci_own _ _ _ Hinv _ _ _ Hj) as [HO _]. simpl in E. clear -E HO. set_solver.
Qed.

(** A half relays between sockets of its own connection. *)
Lemma conn_relays base O st i c pp d sock z :
  crowd_inv base O st → members st !! i = Some (c, pp) → is_dir d → relay_sock (pick d pp) = Some sock →
  z = so_rx sock ∨ z = so_tx sock → ∃ y, z = PObj y ∧ y ∈ O i.
Proof.
  intros Hinv Hi Hd Hs Hz. destruct pp as [p p']. destruct (ci_pair _ _ _ Hinv _ _ _ _ Hi) as [Hp _].
  apply (pair_inv_dir _ _ _ _ _ _ _ _ _ d _ Hd) in Hp.
  destruct (pair_inv_relays _ _ _ _ _ _ _ _ _ _ _ _ _ _ Hd Hp Hs) as (y & y' & Hy & Hy' & Hin & Hin'). simpl in Hin, Hin'.
  assert (HO : ∀ u, u ∈ dom (socks (crowd_world st)) ∖ (dom (socks (crowd_world st)) ∖ O i) → u ∈ O i).
  { intros u. rewrite !elem_of_difference. intros [Hu Hn]. destruct (decide (u ∈ O i)); tauto. }
  destruct Hz as [-> | ->]; [exists y | exists y']; split_and!; auto.
Qed.

(** Lines of one connection only. *)
Lemma crowd_run_pair j c d n st p p' ps' :
  members st !! j = Some (c, (p, p')) →
  pair_run (c_cpu c) (PObj (c_syn c)) (replicate n d) (PairSys p p' (crowd_world st)) = Ok ps' →
  ∃ st', crowd_run (replicate n (j, d)) st = Ok st' ∧ members st' !! j = Some (c, (at_rx ps', at_tx ps')) ∧
    crowd_world st' = shared ps'.
Proof.
  revert st p p'. induction n as [| n IH]; intros st p p' Hj; cbn [replicate pair_run crowd_run].
  { intros [= <-]. by exists st. }
  intros Hr. unfold crowd_line. rewrite Hj. destruct (pair_line _ _ _ _) as [[p1 p1' w1] |]; [| done].
  apply (IH _ p1 p1'); [| done]. simpl. rewrite list_lookup_insert_eq; [done | by eapply lookup_lt_Some].
Qed.

(** C6. Connections come, each with a key whose C string is not that of a
    connection that came to the same tree before it, and the lines of all
    their halves interleave, where no wait times out or is interrupted and no
    half leaves before its peer has taken its reference. Then the only fault
    is a page vector that was never filled: no connection frees what another
    uses, or breaks the tree of another. *)
Theorem crowd_faults w0 st j d :
  trees_in_use w0 → crowd_reach w0 st → is_dir d → may_run j d st = true →
  match crowd_line j d st with
  | Ok _ => True
  | Oops e => e = WildFree ∧ ∃ c pp held kvec rc, members st !! j = Some (c, pp) ∧ pick d pp = HFree held kvec rc
  end.
Proof.
  intros Hw Hr Hd Hm. destruct (crowd_reach_inv w0 st Hw Hr) as [O Hi].
  pose proof (crowd_inv_line _ O st j d Hi Hd Hm) as Hl. by destruct (crowd_line _ _ _).
Qed.

(** C4. In every such run: once both halves of a connection have left through
    [put_qp], its QPs and its SYN record are freed and the QPs are in no tree,
    whatever the others are doing; once both halves of all that came have left
    so, the open sockets are those of before. *)
Theorem crowd_cleans w0 st :
  trees_in_use w0 → crowd_reach w0 st →
  (∀ j c p p', members st !! j = Some (c, (p, p')) → gone p = true → gone p' = true →
    qps (crowd_world st) !! c_rx c = None ∧ qps (crowd_world st) !! c_tx c = None ∧
    syns (crowd_world st) !! c_syn c = None ∧
    ∀ r t, roots (crowd_world st) !! r = Some t → c_rx c ∉ inorder t ∧ c_tx c ∉ inorder t) ∧
  ((∀ j c p p', members st !! j = Some (c, (p, p')) → gone p = true ∧ gone p' = true) →
    dom (socks (crowd_world st)) = dom (socks w0)).
Proof.
  intros Hw Hr. destruct (crowd_reach_inv w0 st Hw Hr) as [O Hinv]. split.
  - intros j c p p' Hj Hg Hg'. destruct (conn_left _ O st j c p p' Hinv Hj Hg Hg') as ((? & ? & ?) & _ & u & Hu & ? & ?).
    split_and!; [done | done | done |]. intros r t Ht. destruct (decide (r = conn_root c)) as [-> | Hne].
    + rewrite Hu in Ht. by injection Ht as <-.
    + by eapply (ci_out _ _ _ Hinv j c).
  - intros Hall. apply set_eq. intros z. split; [| by apply (ci_base _ _ _ Hinv)]. intros Hz.
    destruct (ci_all _ _ _ Hinv z Hz) as [? | (j & c & [p p'] & Hj & Hzj)]; [done |]. exfalso.
    destruct (Hall _ _ _ _ Hj) as [Hg Hg']. destruct (conn_left _ O st j c p p' Hinv Hj Hg Hg') as (_ & E & _).
    by rewrite E in Hzj.
Qed.

(** C9. In every such run the tree of a connection stays a search tree in key
    order whose nodes are live QPs, and a QP of the connection is in it
    exactly from when its first half has been to the tree until its second
    half has taken the second reference and come back from [fin_connected_qp]. *)
Theorem crowd_trees w0 st j c p p' :
  trees_in_use w0 → crowd_reach w0 st → members st !! j = Some (c, (p, p')) →
  ∃ t, has_root (crowd_world st) (c_listner c) (c_cpu c) t ∧ root_ok (crowd_world st) t ∧
    (c_rx c ∈ inorder t ∨ c_tx c ∈ inorder t ↔ (met p || met p') && negb (out p p') = true).
Proof.
  intros Hw Hr Hj. destruct (crowd_reach_inv w0 st Hw Hr) as [O Hinv].
  destruct (ci_pair _ _ _ Hinv _ _ _ _ Hj) as [Hi Hset]. destruct (ci_key _ _ _ Hinv _ _ _ Hj) as [Hne _].
  exact (pair_inv_pending _ _ _ _ _ _ _ Hne _ _ _ _ _ Hi Hset).
Qed.

(** C3. In every such run -- keys distinct as C strings in a tree, no wait
    timed out or interrupted, no half gone before its peer's reference -- no
    connection relays from or to a socket of another. *)
Theorem crowd_separate w0 st i j c c' pp pp' d d' sock sock' z z' :
  trees_in_use w0 → crowd_reach w0 st → i ≠ j →
  members st !! i = Some (c, pp) → members st !! j = Some (c', pp') → is_dir d → is_dir d' →
  relay_sock (pick d pp) = Some sock → relay_sock (pick d' pp') = Some sock' →
  z = so_rx sock ∨ z = so_tx sock → z' = so_rx sock' ∨ z' = so_tx sock' → z ≠ z'.
Proof.
  intros Hw Hr Hij Hi Hj Hd Hd' Hs Hs' Hz Hz'. destruct (crowd_reach_inv w0 st Hw Hr) as [O Hinv].
  destruct (conn_relays _ _ _ _ _ _ _ _ _ Hinv Hi Hd Hs Hz) as (y & -> & Hy).
  destruct (conn_relays _ _ _ _ _ _ _ _ _ Hinv Hj Hd' Hs' Hz') as (y' & -> & Hy').
  intros [= ->]. by apply (ci_disj _ _ _ Hinv i j c c' pp pp' Hij Hi Hj y').
Qed.

(** C5. In every such run a half that sleeps on the queue of its QP, not yet
    woken, does not sleep for ever: whatever the other connections have done,
    at most ten lines of its peer, taken alone, wake it, and its next line
    then takes it out of the wait, unless the peer fails to connect. *)
Theorem crowd_wakes w0 st j c pp d :
  trees_in_use w0 → crowd_reach w0 st → members st !! j = Some (c, pp) → is_dir d →
  awake (crowd_world st) (pick d pp) = false →
  ∃ n st' pp', (n ≤ 10)%nat ∧ crowd_run (replicate n (j, Z.lxor d 1)) st = Ok st' ∧ members st' !! j = Some (c, pp') ∧
    pick d pp' = pick d pp ∧
    ((awake (crowd_world st') (pick d pp') = true ∧
      ∃ qp st'' pp'', crowd_line j d st' = Ok st'' ∧ members st'' !! j = Some (c, pp'') ∧ pick d pp'' = HLoad qp) ∨
     ∃ rc, pick (Z.lxor d 1) pp' = HFailed rc).
Proof.
  intros Hw Hr Hj Hd Haw. destruct (crowd_reach_inv w0 st Hw Hr) as [O Hinv]. destruct pp as [p p'].
  destruct (ci_pair _ _ _ Hinv _ _ _ _ Hj) as [Hi _]. destruct (ci_key _ _ _ Hinv _ _ _ Hj) as (Hne & Hk).
  destruct (pair_inv_wakes _ _ _ _ _ _ _ _ _ Hne Hk d _ Hd Hi Haw) as (n & [q q' w'] & Hn & Hrun & Hpc & Hor).
  destruct (crowd_run_pair j c _ n st p p' _ Hj Hrun) as (st' & Hst' & Hj' & Hw').
  exists n, st', (q, q'). rewrite Hw'. split_and!; try done.
  destruct Hor as [(Haw' & qp & [r r' w''] & Hl & Hpc') | ?]; [left | by right]. split; [done |].
  destruct (crowd_run_pair j c d 1 st' q q' (PairSys r r' w'') Hj') as (st'' & Hl' & Hj'' & _).
  { simpl. simpl in Hw'. by rewrite Hw', Hl. }
  exists qp, st'', (r, r'). split_and!; try done. simpl in Hl'. by destruct (crowd_line j d st').
Qed.
End theorems.

(** ** Two clients of one tenant

    The tenant's listener is 9, on core 0; socket 30 is the server's.  The
    second client is the first one's next port. *)

Definition other_key : list Z := mk_key 4661 82 16909060 84281096.
Definition first_conn : conn := MkConn 9 0 102 100 101 103 some_key.
Definition second_conn : conn := MkConn 9 0 106 104 105 107 other_key.

(** The world with the objects of a connection. *)
Definition with_conn (c : conn) (w : world) : world :=
  set_next (c_sock c + 1) (upd_syns <[c_syn c := some_addresses]> (upd_socks <[c_sock c := S_open]>
    (upd_qps <[c_rx c := MkQp (c_key c) 0 (PObj (c_listner c)) PNull (PObj (c_sock c))]>
      (upd_qps <[c_tx c := MkQp (c_key c) 0 (PObj (c_listner c)) (PErr EINVAL) PNull]> w)))).

Definition tenant_world : world := upd_socks <[30 := S_open]> (listening Leaf (empty_world 100)).
Definition one_world : world := with_conn first_conn tenant_world.
Definition two_world : world := with_conn second_conn one_world.
Definition two_came : crowd := crowd_add second_conn (crowd_add first_conn (MkCrowd [] tenant_world) one_world) two_world.

Lemma with_conn_arrives c w :
  apart (c_listner c) (c_cpu c) (c_syn c) (c_rx c) (c_tx c) (c_sock c) (c_key c) (dom (socks w))
    RX_QP (HMeet (PObj (c_rx c))) (HMeet (PObj (c_tx c))) (with_conn c w) Leaf →
  c_rx c ≠ c_tx c → good_key (c_key c) →
  next w ≤ c_rx c ≤ c_sock c ∧ next w ≤ c_tx c ≤ c_sock c ∧ next w ≤ c_syn c ≤ c_sock c → arrives c w (with_conn c w).
Proof.
  intros Ha Hne Hk Hn. split; try done; simpl; [by exists Leaf | | | lia].
  - intros y Hy Hy'. by rewrite !lookup_insert_ne.
  - intros y Hy. by rewrite lookup_insert_ne.
Qed.

(** The tree is still empty. *)
Ltac arrive_leaf :=
  apply with_conn_arrives; [| done | apply mk_key_good | done];
  split; try done;
    [apply root_ok_Leaf | by apply not_elem_of_nil | by apply not_elem_of_nil | intros y Hy; by apply elem_of_nil in Hy
    | by apply (bool_decide_unpack (set_Forall (λ z, z < _) _)); vm_compute].

Lemma first_arrives : arrives first_conn tenant_world one_world.
Proof. arrive_leaf. Qed.

Lemma second_arrives : arrives second_conn one_world two_world.
Proof. arrive_leaf. Qed.

Lemma two_came_reach (E : Env) : @crowd_reach E spine_lib tenant_world two_came.
Proof.
  apply crowd_come; [apply crowd_come; [apply crowd_start | exact first_arrives |] | exact second_arrives |].
  - intros j c pp Hj. by simplify_list_eq.
  - intros [| j] c pp Hj; simpl in Hj; simplify_list_eq. intros _. by vm_compute.
Qed.

Lemma tenant_trees : trees_in_use tenant_world.
Proof.
  intros r t y Ht Hy. simpl in Ht. apply lookup_insert_Some in Ht as [[<- <-] | [_ Ht]]; [by apply elem_of_nil in Hy | done].
Qed.

(** Both client sides wait in the tree; the first client sleeps until its
    server side is about to look for it; the second connection lives and dies;
    the first follows. *)
Definition of_conn (j : nat) (dirs : list Z) : list (nat * Z) := map (pair j) dirs.
Definition two_schedule : list (nat * Z) :=
  [(0%nat, RX_QP); (1%nat, RX_QP)] ++ of_conn 0 (take 11 (drop 1 both_leave)) ++ of_conn 1 (drop 1 both_leave)
  ++ of_conn 0 (drop 12 both_leave).

Definition two_calls : Env :=
  zeros ([0; 1; 2; 3; 4; 5; 6; 67; 85] ++ map (λ n, n + 7) [0; 1; 2; 3; 4; 5; 6; 24; 42])%nat.

(** A run of lines of the two, and what is seen of its end. *)
Lemma two_run (E : Env) {A} (see : crowd → A) (seen : A) schedule :
  @crowd_patient E spine_lib schedule two_came = true →
  match @crowd_run E spine_lib schedule two_came with Ok st => Some (see st) | Oops _ => None end = Some seen →
  ∃ st, @crowd_reach E spine_lib tenant_world st ∧ see st = seen.
Proof.
  intros Hp Hs. destruct (@crowd_run E spine_lib schedule two_came) as [st |] eqn:Er; [| discriminate].
  injection Hs as Hs. exists st. split; [| exact Hs]. eapply crowd_run_reach; [apply two_came_reach | exact Hp | exact Er].
Qed.

Lemma two_left :
  ∃ st, @crowd_reach two_calls spine_lib tenant_world st ∧
    members st = [(first_conn, (HEnd false 0, HEnd false 0)); (second_conn, (HEnd false 0, HEnd false 0))].
Proof. apply (two_run two_calls members _ two_schedule); vm_compute; reflexivity. Qed.

Lemma crowd_cleans_witness :
  ∃ st, length (members st) = 2%nat ∧ qps (crowd_world st) !! 100 = None ∧ qps (crowd_world st) !! 105 = None ∧
    dom (socks (crowd_world st)) = dom (socks tenant_world).
Proof.
  destruct two_left as (st & Hr & Hm). exists st.
  destruct (@crowd_cleans two_calls (calm_quiet _ _ _) spine_lib spine_laws tenant_world st tenant_trees Hr) as [Hleft Hall].
  rewrite Hm in Hleft, Hall. rewrite Hm. split; [reflexivity | split; [| split]].
  - exact (proj1 (Hleft 0%nat first_conn _ _ eq_refl eq_refl eq_refl)).
  - exact (proj1 (proj2 (Hleft 1%nat second_conn _ _ eq_refl eq_refl eq_refl))).
  - apply Hall. intros [| [| j]] c p p' Hj; simpl in Hj; [by injection Hj as <- <- <- | by injection Hj as <- <- <- | discriminate].
Defined.

(** The same two connections, each with both halves in the relay. *)
Definition relaying : list (nat * Z) :=
  [(0%nat, RX_QP); (1%nat, RX_QP)] ++ of_conn 0 (take 18 (drop 1 both_leave)) ++ of_conn 1 (take 18 (drop 1 both_leave)).
Definition relay_calls : Env := zeros ([0; 1; 2; 3; 4; 5; 6] ++ map (λ n, n + 7) [0; 1; 2; 3; 4; 5; 6])%nat.

(** What the client side of a connection relays between. *)
Definition client_relays (j : nat) (st : crowd) : option sockets :=
  '(_, pp) ← members st !! j; relay_sock (pick RX_QP pp).

Lemma two_relay :
  ∃ st, @crowd_reach relay_calls spine_lib tenant_world st ∧
    (client_relays 0 st, client_relays 1 st, may_run 0 RX_QP st) =
    (Some (MkSockets (PObj 103) (PObj 108) 0), Some (MkSockets (PObj 107) (PObj 109) 0), true).
Proof.
  apply (two_run relay_calls (λ st, (client_relays 0 st, client_relays 1 st, may_run 0 RX_QP st)) _ relaying);
    vm_compute; reflexivity.
Qed.

Lemma crowd_separate_witness : PObj 103 ≠ PObj 107.
Proof.
  destruct two_relay as (st & Hr & Hs). injection Hs as Hs Hs' _. unfold client_relays in *.
  destruct (members st !! 0%nat) as [[c pp] |] eqn:Hi; [| discriminate].
  destruct (members st !! 1%nat) as [[c' pp'] |] eqn:Hj; [| discriminate].
  apply (@crowd_separate relay_calls (calm_quiet _ _ _) spine_lib spine_laws tenant_world st 0 1 c c' pp pp' RX_QP RX_QP
    (MkSockets (PObj 103) (PObj 108) 0) (MkSockets (PObj 107) (PObj 109) 0)).
  - exact tenant_trees.
  - exact Hr.
  - lia.
  - exact Hi.
  - exact Hj.
  - right; reflexivity.
  - right; reflexivity.
  - exact Hs.
  - exact Hs'.
  - left; reflexivity.
  - left; reflexivity.
Defined.

Lemma crowd_faults_witness :
  ∃ st, client_relays 1 st = Some (MkSockets (PObj 107) (PObj 109) 0) ∧
    match @crowd_line relay_calls spine_lib 0 RX_QP st with
    | Ok _ => True
    | Oops e => e = WildFree ∧
        ∃ c pp held kvec rc, members st !! 0%nat = Some (c, pp) ∧ pick RX_QP pp = HFree held kvec rc
    end.
Proof.
  destruct two_relay as (st & Hr & Hs). injection Hs as _ Hs Hm. exists st. split; [exact Hs |].
  apply (@crowd_faults relay_calls (calm_quiet _ _ _) spine_lib spine_laws tenant_world st 0 RX_QP).
  - exact tenant_trees.
  - exact Hr.
  - right; reflexivity.
  - exact Hm.
Defined.

(** The first client waits and the second connection's halves relay; the
    server side of the first has not run yet. *)
Definition sleeping : list (nat * Z) := of_conn 0 (replicate 6 RX_QP) ++ of_conn 1 (take 19 both_leave).
Definition sleep_calls : Env := zeros [0; 1; 2; 3; 4; 5; 6]%nat.

(** Whether the client side of the first connection is awake. *)
Definition client_awake (st : crowd) : option bool :=
  '(_, pp) ← members st !! 0%nat; Some (awake (crowd_world st) (pick RX_QP pp)).

Lemma one_sleeps :
  ∃ st, @crowd_reach sleep_calls spine_lib tenant_world st ∧
    (client_awake st, client_relays 1 st) = (Some false, Some (MkSockets (PObj 107) (PObj 108) 0)).
Proof.
  apply (two_run sleep_calls (λ st, (client_awake st, client_relays 1 st)) _ sleeping); vm_compute; reflexivity.
Qed.

Lemma crowd_wakes_witness :
  ∃ st c pp, awake (crowd_world st) (pick RX_QP pp) = false ∧
    ∃ n st' pp', (n ≤ 10)%nat ∧ @crowd_run sleep_calls spine_lib (replicate n (0%nat, Z.lxor RX_QP 1)) st = Ok st' ∧
      members st' !! 0%nat = Some (c, pp') ∧ pick RX_QP pp' = pick RX_QP pp ∧
      ((awake (crowd_world st') (pick RX_QP pp') = true ∧
        ∃ qp st'' pp'', @crowd_line sleep_calls spine_lib 0 RX_QP st' = Ok st'' ∧
          members st'' !! 0%nat = Some (c, pp'') ∧ pick RX_QP pp'' = HLoad qp) ∨
       ∃ rc, pick (Z.lxor RX_QP 1) pp' = HFailed rc).
Proof.
  destruct one_sleeps as (st & Hr & Hs). injection Hs as Hs _. unfold client_awake in Hs.
  destruct (members st !! 0%nat) as [[c pp] |] eqn:Hj; [| discriminate]. injection Hs as Haw. exists st, c, pp.
  split; [exact Haw |].
  apply (@crowd_wakes sleep_calls (calm_quiet _ _ _) spine_lib spine_laws tenant_world st 0 c pp RX_QP).
  - exact tenant_trees.
  - exact Hr.
  - exact Hj.
  - right; reflexivity.
  - exact Haw.
Defined.

Lemma crowd_trees_witness :
  ∃ st t, @crowd_reach sleep_calls spine_lib tenant_world st ∧ root_ok (crowd_world st) t ∧ (100 ∈ inorder t ∨ 101 ∈ inorder t).
Proof.
  destruct (two_run sleep_calls (λ st, members st !! 0%nat) (Some (first_conn, (HSleep (PObj 100) 0, HMeet (PObj 101)))) sleeping)
    as (st & Hr & Hj); [vm_compute; reflexivity | vm_compute; reflexivity |].
  destruct (@crowd_trees sleep_calls (calm_quiet _ _ _) spine_lib spine_laws tenant_world st 0 first_conn _ _ tenant_trees Hr Hj)
    as (t & _ & Hok & Hin). exists st, t. split; [exact Hr | split; [exact Hok |]]. apply Hin. reflexivity.
Defined.
