(* ===== verification/Server.v ===== *)
(** * Listeners (split.c, conn_pool.c)

    One server thread per tenant: it registers a listener in the tree of
    listeners, with an empty tree of pending connections per core, opens the
    listening socket and the raw socket for the probes, and hands every
    accepted connection to the thread pool. *)

From stdpp Require Import base list gmap sets.
From Stdlib Require Import ZArith Lia.
From S2P Require Import Prelude RbTree Keys DataTree World Qp Relay Hooks.

Definition BACKLOG : Z := 128.
Definition INADDR_ANY : Z := 0.

Section server.
Context `{Env} `{RbLib Z}.

(** conn_pool.c: the raw socket the probes are sent on. *)
Definition craete_prec_conn_probe (mark : Z) : wproc ptr :=
  '(rc, sock) ← sock_create_kern;
  if negb (rc =? 0) then mret PNull
  else
    rc ← kernel_setsockopt sock O_SO_MARK mark;
    if rc <? 0 then mret PNull
    else
      rc ← kernel_setsockopt sock O_IP_HDRINCL mark;
      if negb (rc =? 0) then mret PNull
      else mret sock.

Definition add_listner (a : Z) : wproc unit :=
  w ← kget;
  kmodify (set_listner_root (add_rb_listner (listner_key w) (listner_root w) a).2).

Definition register_server_sock (tid : Z) (sock : ptr) : wproc ptr :=
  w ← kget;
  o ← slab_alloc;
  match o with
  | None => mret PNull
  | Some a =>
      kmodify (upd_listners <[a := garbage_listner (tick w)]>) ;;
      rc ← kernel_call C_alloc;
      if rc =? 0 then kmodify (upd_listners (delete a)) ;; mret PNull
      else
        rc ← kernel_call C_alloc;
        if rc =? 0 then kmodify (upd_listners (delete a)) ;; mret PNull
        else
          kforeach possible_cpus (λ cpu, kmodify (upd_roots <[(a, cpu) := Leaf]>)) ;;
          l ← load_listner (PObj a);
          store_listner (PObj a) (MkListner (s32 tid) (l_port l) (l_status l) sock (l_raw l)) ;;
          add_listner a ;;
          mret (PObj a)
  end.

(** [rb_erase] on a node that is not in the tree corrupts it. *)
Definition erase_listner (a : Z) : wproc unit :=
  w ← kget;
  if decide (a ∈ inorder (listner_root w)) then kmodify (set_listner_root (rb_erase a (listner_root w)))
  else oops ListCorrupt.

Definition remove_listner_server (pos : ptr) : wproc unit :=
  l ← load_listner pos;
  (if decide (l_sock l = PNull) then mret tt else kernel_sock_shutdown (l_sock l)) ;;
  match pos with
  | PObj a => erase_listner a ;; kmodify (upd_listners (delete a))
  | _ => oops NullDeref
  end.

Fixpoint postorder {A} (t : tree A) : list A :=
  match t with
  | Leaf => []
  | Node l x r => postorder l ++ postorder r ++ [x]
  end.

Definition set_status (server : ptr) (st : Z) : wproc unit :=
  l ← load_listner server;
  store_listner server (MkListner (l_key l) (l_port l) st (l_sock l) (l_raw l)).

(** The labels [error] and [out] of [split_server]. *)
Definition server_out (sock : ptr) (rc : Z) : wproc (option Z) :=
  (if decide (sock = PNull) then mret tt else sock_release sock) ;; mret (Some rc).

Definition server_error (server sock : ptr) (rc : Z) : wproc (option Z) :=
  (if decide (server = PNull) then mret tt else remove_listner_server server) ;;
  server_out sock rc.

(** One turn of the accept loop. *)
Definition accept_one (server sock : ptr) (mark : Z) : wproc (option (wproc (option Z))) :=
  '(rc, nsock) ← kernel_accept sock;
  if negb (rc =? 0) then mret (Some (server_out sock rc))
  else
    qp ← alloc_qp;
    q ← load_qp qp;
    store_qp qp (MkQp (key_set_tid mark (q_key q)) 0 server (q_tx q) nsock) ;;
    pool_run T_start_new_connection qp 0 None ;;
    stop ← kthread_should_stop;
    if (stop : bool) then set_status server 6 ;; mret (Some (server_error server sock rc))
    else mret None.

Fixpoint accept_loop (fuel : nat) (server sock : ptr) (mark : Z) : wproc (option Z) :=
  match fuel with
  | O => mret None
  | S fuel =>
      r ← accept_one server sock mark;
      match r with
      | Some leave => leave
      | None => accept_loop fuel server sock mark
      end
  end.

(** Lines 897-911: mark, bind and listen; the request that fails decides. *)
Definition server_listen (server sock : ptr) (mark port : Z) : wproc Z :=
  rc ← kernel_setsockopt sock O_SO_MARK mark;
  if rc <? 0 then mret rc
  else
    set_status server 3 ;;
    rc ← kernel_bind sock (htons port) (htonl INADDR_ANY);
    if negb (rc =? 0) then mret rc
    else
      set_status server 4 ;;
      kernel_listen sock BACKLOG.

(** Lines 889-948: from the registered listener on. *)
Definition serve_tenant (fuel : nat) (server : ptr) (mark port : Z) : wproc (option Z) :=
  set_status server 1 ;;
  '(rc, sock) ← sock_create_kern;
  if negb (rc =? 0) then server_error server PNull rc
  else
    l ← load_listner server;
    store_listner server (MkListner (l_key l) (u16 port) 2 sock (l_raw l)) ;;
    rc ← server_listen server sock mark port;
    if negb (rc =? 0) then server_error server sock rc
    else
      set_status server 5 ;;
      raw ← craete_prec_conn_probe mark;
      l ← load_listner server;
      store_listner server (MkListner (l_key l) (l_port l) (l_status l) (l_sock l) raw) ;;
      if decide (raw = PNull) then server_error server sock rc
      else
        set_status server 6 ;;
        accept_loop fuel server sock mark.

Definition split_server (fuel : nat) (mark_port : Z) : wproc (option Z) :=
  let '(mark, port) := void2uint mark_port in
  exists_ ← search_listner mark;
  match exists_ with
  | Some _ => server_error PNull PNull (- EEXIST)
  | None =>
      server ← register_server_sock mark PNull;
      if decide (server = PNull) then server_error PNull PNull 0
      else serve_tenant fuel server mark port
  end.

Definition add_server_cb (tid port : Z) : wproc unit :=
  pool_run T_split_server PNull (uint2void tid port) None.

Definition del_server_cb (tid : Z) : wproc unit :=
  listner ← search_listner tid;
  match listner with
  | Some a => remove_listner_server (PObj a)
  | None => mret tt
  end.

(** ** The listing in /proc *)

(** [%d]: the decimal digits of a 32-bit value, as ASCII codes. *)
Fixpoint digits (fuel : nat) (n : Z) : list Z :=
  match fuel with
  | O => []
  | S fuel => if n <? 10 then [48 + n] else digits fuel (n / 10) ++ [48 + n mod 10]
  end.

Definition print_d (n : Z) : list Z := if n <? 0 then 45 :: digits 10 (- n) else digits 10 n.

(** "tid=", " port=", " status=" *)
Definition s_tid : list Z := [116; 105; 100; 61].
Definition s_port : list Z := [32; 112; 111; 114; 116; 61].
Definition s_status : list Z := [32; 115; 116; 97; 116; 117; 115; 61].

Definition proc_line (pos : cbn_listner) : list Z :=
  s_tid ++ print_d (l_key pos) ++ s_port ++ print_d (l_port pos) ++ s_status ++ print_d (l_status pos) ++ [10].

(** [sprintf] at the end of what the page holds, with its terminating NUL. *)
Definition sprintf_page (buffer line : list Z) : wproc (list Z) :=
  if Z.of_nat (length buffer + length line) <? PAGE_SIZE then mret (buffer ++ line)
  else oops BufferOverflow.

Fixpoint proc_lines (nodes : list Z) (buffer : list Z) : wproc (list Z) :=
  match nodes with
  | [] => mret buffer
  | a :: nodes =>
      pos ← load_listner (PObj a);
      buffer ← sprintf_page buffer (proc_line pos);
      proc_lines nodes buffer
  end.

Definition proc_read_string : wproc (option (list Z * Z)) :=
  rc ← kernel_call C_alloc;
  if rc =? 0 then mret None
  else
    w ← kget;
    buffer ← proc_lines (postorder (listner_root w)) [];
    mret (Some (buffer, Z.of_nat (length buffer))).
End server.

(** ** The life of a listener *)

Section server_lemmas.
Context `{Quiet} `{RbLaws Z}.
Implicit Types w : world.

(** The tree of listeners: every node live, keys in one half of the circle. *)
Definition listners_ok w lo : Prop :=
  int_ordered (listner_key w) lo (listner_root w) ∧
  ∀ y, y ∈ inorder (listner_root w) → is_Some (listners w !! y).

(** What a listener's life leaves alone. *)
Definition same_pairing w w' : Prop :=
  qps w' = qps w ∧ syns w' = syns w ∧ probes w' = probes w ∧ preconns w' = preconns w ∧
  preconn_root w' = preconn_root w ∧ pcp_lists w' = pcp_lists w.

Lemma kforeach_roots a cpus w :
  ∃ w', kforeach cpus (λ cpu, kmodify (upd_roots <[(a, cpu) := Leaf]>)) w = Ok (tt, w') ∧
    same_pairing w w' ∧ listners w' = listners w ∧ listner_root w' = listner_root w ∧ socks w' = socks w ∧
    next w' = next w ∧ tick w' = tick w ∧
    (∀ cpu, cpu ∈ cpus ∨ roots w !! (a, cpu) = Some Leaf → roots w' !! (a, cpu) = Some Leaf).
Proof.
  revert w. induction cpus as [| c cpus IH]; intros w; cbn [kforeach].
  { exists w. split_and!; try done. intros cpu [Hc |]; [set_solver | done]. }
  kpure. destruct (IH (upd_roots <[(a, c) := Leaf]> w)) as (w' & -> & Hs & Hl & Hr & Hk & Hn & Ht & Hroots).
  exists w'. split_and!; try done; try apply Hs. intros cpu Hc. apply Hroots. simpl.
  destruct (decide (cpu = c)) as [-> |]; [right; apply lookup_insert_eq |].
  destruct Hc as [Hc | Hc]; [left; set_solver | right; by rewrite lookup_insert_ne by congruence].
Qed.

(** Registering a new tenant: the listener is live, in the tree where the
    hooks will find it, and every core has an empty tree of pending
    connections. *)
Lemma register_ok w lo tid sock :
  listners_ok w lo → in_half lo (s32 tid) → listners w !! next w = None →
  (∀ y, y ∈ inorder (listner_root w) → listner_key w y ≠ s32 tid) →
  (∀ i, (i < 3)%nat → answer (tick w + i)%nat ≠ 0) →
  ∃ L w', register_server_sock tid sock w = Ok (PObj (next w), w') ∧
    l_key L = s32 tid ∧ l_sock L = sock ∧ listners w' = <[next w := L]> (listners w) ∧
    listners_ok w' lo ∧ inorder (listner_root w') ≡ₚ next w :: inorder (listner_root w) ∧
    search_rb_listner (listner_key w') (listner_root w') tid = Some (next w) ∧
    (∀ cpu, cpu ∈ possible_cpus → roots w' !! (next w, cpu) = Some Leaf) ∧
    same_pairing w w' ∧ socks w' = socks w ∧ next w' = next w + 1 ∧ tick w' = (tick w + 3)%nat.
Proof.
  intros [Hord Hlive] Hhalf Hfresh Hnew Hans.
  assert (A0 := Hans 0%nat ltac:(lia)). assert (A1 := Hans 1%nat ltac:(lia)).
  assert (A2 := Hans 2%nat ltac:(lia)). rewrite !Nat.add_succ_r, Nat.add_0_r in *.
  apply Z.eqb_neq in A0, A1, A2. set (a := next w) in *.
  unfold register_server_sock, slab_alloc. kpure. kstep (kernel_call_quiet C_alloc w). rewrite A0, kbind_assoc.
  kstep (eq_refl (fresh_addr (ticked C_alloc w))). kpure. change (next (ticked C_alloc w)) with a.
  set (w1 := upd_listners _ _). kstep (kernel_call_quiet C_alloc w1). change (tick w1) with (S (tick w)). rewrite A1.
  set (w2 := ticked _ w1). kstep (kernel_call_quiet C_alloc w2). change (tick w2) with (S (S (tick w))). rewrite A2.
  set (w3 := ticked _ w2).
  destruct (kforeach_roots a possible_cpus w3) as (w4 & H4 & Hs4 & Hl4 & Hr4 & Hk4 & Hn4 & Ht4 & Hroots).
  kstep H4. set (g := garbage_listner (tick w)).
  assert (Hg4 : listners w4 !! a = Some g) by (rewrite Hl4; simpl; apply lookup_insert_eq).
  kstep (load_listner_ok w4 a g Hg4). set (L := MkListner (s32 tid) _ _ sock _).
  kstep (store_listner_ok w4 a g L Hg4). unfold add_listner. rewrite kbind_assoc. kpure.
  set (w5 := upd_listners <[a := L]> w4).
  assert (El5 : listners w5 = <[a := L]> (listners w)) by (simpl; rewrite Hl4; simpl; by rewrite insert_insert_eq).
  assert (Er5 : listner_root w5 = listner_root w) by (simpl; by rewrite Hr4).
  assert (Ek5 : ∀ y, y ∈ inorder (listner_root w) → listner_key w5 y = listner_key w y).
  { intros y Hy. unfold listner_key. rewrite El5, lookup_insert_ne; [done |].
    intros <-. by destruct (Hlive a Hy) as [? E]; rewrite Hfresh in E. }
  assert (Eka : listner_key w5 a = s32 tid) by (unfold listner_key; by rewrite El5, lookup_insert_eq).
  assert (Hord5 : int_ordered (listner_key w5) lo (listner_root w5)).
  { rewrite Er5. eapply ordered_ext; [| exact Hord]. intros y Hy. symmetry. by apply Ek5. }
  pose proof (add_rb_listner_spec (listner_key w5) (listner_root w5) lo a Hord5) as Hadd.
  rewrite Eka in Hadd. specialize (Hadd Hhalf).
  pose proof (search_add_listner (listner_key w5) (listner_root w5) lo a Hord5) as Hsrch.
  rewrite Eka in Hsrch. specialize (Hsrch Hhalf (s32_range tid)).
  destruct (add_rb_listner (listner_key w5) (listner_root w5) a) as [[d |] t'] eqn:Ea.
  { destruct Hadd as (_ & _ & Hd & Ekd). rewrite Er5 in Hd. exfalso.
    apply (Hnew d Hd). by rewrite <- (Ek5 d Hd). }
  destruct Hadd as (Hord' & Hperm & _). specialize (Hsrch eq_refl). cbn [snd] in *.
  unfold search_rb_listner in Hsrch. rewrite (s32_small (s32 tid)) in Hsrch by apply s32_range.
  rewrite Er5 in Hperm. eexists L, _. split; [reflexivity |]. split_and!; try done; try apply Hs4.
  - split; [exact Hord' |]. intros y. change (listner_root _) with t'. rewrite Hperm. change (listners _) with (listners w5). rewrite El5.
    rewrite elem_of_cons. intros [-> | Hy]; [rewrite lookup_insert_eq; by eexists |].
    apply lookup_insert_is_Some'. right. by apply Hlive.
  - intros cpu Hc. simpl. apply Hroots. by left.
Qed.

(** ** A server that cannot start *)

(** A listener [a] with socket [sock], registered on top of the listeners of
    [w0]. *)
Definition serving w0 lo a (sock : ptr) w : Prop :=
  (∃ L, listners w = <[a := L]> (listners w0) ∧ l_sock L = sock) ∧ listners w0 !! a = None ∧
  listners_ok w lo ∧ inorder (listner_root w) ≡ₚ a :: inorder (listner_root w0).

Lemma erase_listner_ok w lo a :
  listners_ok w lo → a ∈ inorder (listner_root w) →
  ∃ t, erase_listner a w = Ok (tt, set_listner_root t w) ∧ inorder (listner_root w) ≡ₚ a :: inorder t.
Proof.
  intros [Hord _] Ha. unfold erase_listner. kpure. rewrite decide_True by done.
  eexists. split; [reflexivity |]. by apply (rb_erase_spec _ _ _ _ _ Hord).
Qed.

(** Leaving by [error]: the listener is out of the tree, its memory and its
    socket are released. *)
Lemma server_error_unwinds w0 w lo a sock rc :
  serving w0 lo a sock w →
  (sock = PNull ∨ ∃ s, sock = PObj s ∧ is_Some (socks w !! s)) →
  ∃ w', server_error (PObj a) sock rc w = Ok (Some rc, w') ∧
    listners w' = listners w0 ∧ inorder (listner_root w') ≡ₚ inorder (listner_root w0) ∧
    socks w' = match sock with PObj s => delete s (socks w) | _ => socks w end ∧ same_pairing w w'.
Proof.
  intros ((L & El & Els) & Hfresh & Hok & Hp) Hsock. unfold server_error. rewrite decide_False by done.
  assert (HL : listners w !! a = Some L) by (rewrite El; apply lookup_insert_eq).
  assert (Hin : a ∈ inorder (listner_root w)) by (rewrite Hp; by left).
  unfold remove_listner_server. rewrite kbind_assoc. kstep (load_listner_ok w a L HL). rewrite Els.
  destruct Hsock as [-> | (s & -> & [st Hs])].
  - rewrite decide_True by done. kpure.
    destruct (erase_listner_ok w lo a Hok Hin) as (t & He & Hpt). kstep He. kpure.
    eexists. split; [reflexivity |]. split_and!; try done; [simpl; by rewrite El, delete_insert_id |].
    simpl. rewrite Hp in Hpt. by apply Permutation_cons_inv in Hpt.
  - rewrite decide_False by done. kpure. kstep (kernel_sock_shutdown_ok w s st Hs).
    set (w1 := add_log _ _).
    destruct (erase_listner_ok w1 lo a Hok Hin) as (t & He & Hpt). kpure. kstep He. kpure.
    set (w2 := upd_listners _ _). unfold server_out. rewrite decide_False by done.
    assert (Hs2 : socks w2 !! s = Some S_shut) by (simpl; apply lookup_insert_eq).
    kstep (sock_release_ok w2 s S_shut Hs2).
    eexists. split; [reflexivity |]. split_and!; try done; [| |].
    + simpl. by rewrite El, delete_insert_id.
    + simpl. change (listner_root w1) with (listner_root w) in Hpt. rewrite Hp in Hpt. by apply Permutation_cons_inv in Hpt.
    + simpl. by rewrite delete_insert_eq.
Qed.

(** Updating the listener keeps it registered. *)
Lemma serving_update w0 w lo a sock L L' :
  serving w0 lo a sock w → listners w !! a = Some L → l_key L' = l_key L →
  serving w0 lo a (l_sock L') (upd_listners <[a := L']> w).
Proof.
  intros ((L0 & El & _) & Hfresh & [Hord Hlive] & Hp) HL Hk. split_and!; try done.
  - exists L'. split; [| done]. simpl. by rewrite El, insert_insert_eq.
  - split.
    + eapply ordered_ext; [| exact Hord]. intros y Hy. unfold listner_key. simpl.
      destruct (decide (y = a)) as [-> |]; [| by rewrite lookup_insert_ne].
      by rewrite lookup_insert_eq, HL.
    + intros y Hy. apply lookup_insert_is_Some'. right. by apply Hlive.
Qed.

Lemma serving_lookup w0 w lo a sock :
  serving w0 lo a sock w → ∃ L, listners w !! a = Some L ∧ l_sock L = sock.
Proof. intros ((L & El & Es) & _). exists L. by rewrite El, lookup_insert_eq. Qed.

(** Nothing of a world but its clock and history matters to a listener. *)
Lemma serving_ticked w0 w lo a sock c : serving w0 lo a sock w → serving w0 lo a sock (ticked c w).
Proof. done. Qed.

Lemma set_status_ok w0 w lo a sock st :
  serving w0 lo a sock w →
  ∃ L, set_status (PObj a) st w = Ok (tt, upd_listners <[a := L]> w) ∧
    serving w0 lo a sock (upd_listners <[a := L]> w).
Proof.
  intros Hs. destruct (serving_lookup _ _ _ _ _ Hs) as (L & HL & Hsock). unfold set_status.
  kstep (load_listner_ok w a L HL).
  exists (MkListner (l_key L) (l_port L) st (l_sock L) (l_raw L)).
  split; [by apply (store_listner_ok w a L) |].
  pose proof (serving_update w0 w lo a sock L (MkListner (l_key L) (l_port L) st (l_sock L) (l_raw L)) Hs HL eq_refl) as Hu.
  rewrite <- Hsock. exact Hu.
Qed.

(** Marking, binding and listening: nothing but the status changes, and a
    request that fails is reported. *)
Lemma server_listen_total w0 w lo a s st mark port :
  serving w0 lo a (PObj s) w → socks w !! s = Some st →
  ∃ rc w', server_listen (PObj a) (PObj s) mark port w = Ok (rc, w') ∧ serving w0 lo a (PObj s) w' ∧
    socks w' = socks w ∧ same_pairing w w' ∧
    ((∃ i, (i < 3)%nat ∧ answer (tick w + i)%nat < 0) → rc ≠ 0).
Proof.
  intros Hs Hst. unfold server_listen. kstep (setsockopt_quiet w s st O_SO_MARK mark Hst). set (w1 := ticked _ w).
  destruct (Z.ltb_spec (answer (tick w)) 0) as [E0 | E0].
  { eexists _, _. split; [reflexivity |]. split_and!; try done. lia. }
  destruct (set_status_ok w0 w1 lo a (PObj s) 3 Hs) as (L1 & H3 & Hs1). kstep H3. set (w2 := upd_listners _ w1) in *.
  kstep (bind_quiet w2 s st (htons port) (htonl INADDR_ANY) Hst). change (tick w2) with (S (tick w)).
  destruct (Z.eqb_spec (answer (S (tick w))) 0) as [E1 | E1]; cbn [negb].
  2: { eexists _, _. split; [reflexivity |]. by split_and!. }
  set (w3 := ticked _ w2). destruct (set_status_ok w0 w3 lo a (PObj s) 4 Hs1) as (L2 & H4 & Hs2). kstep H4.
  set (w4 := upd_listners _ w3) in *. unfold kernel_listen.
  eexists _, _. split; [exact (sock_call_quiet w4 s st (C_listen (PObj s) BACKLOG) Hst) |]. split_and!; try done.
  intros (i & Hi & Ha). change (tick w4) with (S (S (tick w))).
  destruct i as [| [| [| i]]]; [| | | lia]; rewrite ?Nat.add_succ_r, Nat.add_0_r in Ha; lia.
Qed.

(** A tenant that is served already keeps its one server. *)
Lemma split_server_exists fuel w tid port l :
  0 ≤ tid < 4294967296 → 0 ≤ port < 4294967296 →
  search_rb_listner (listner_key w) (listner_root w) tid = Some l →
  split_server fuel (uint2void tid port) w = Ok (Some (- EEXIST), w).
Proof.
  intros Ht Hp Hl. unfold split_server. rewrite void2uint_pair by done.
  unfold search_listner. rewrite kbind_assoc. kpure. by rewrite Hl.
Qed.

(** C26. A server whose socket cannot be made, marked, bound or listened on
    leaves nothing behind: no listener, no socket, an error for a result. *)
Theorem split_server_unwinds fuel w lo tid port :
  0 ≤ tid < 4294967296 → 0 ≤ port < 4294967296 →
  listners_ok w lo → in_half lo (s32 tid) → listners w !! next w = None → socks w !! (next w + 1) = None →
  (∀ y, y ∈ inorder (listner_root w) → listner_key w y ≠ s32 tid) →
  (∀ i, (i < 3)%nat → answer (tick w + i)%nat ≠ 0) →
  (∃ i, (3 ≤ i < 7)%nat ∧ answer (tick w + i)%nat < 0) →
  ∃ rc w', split_server fuel (uint2void tid port) w = Ok (Some rc, w') ∧ rc ≠ 0 ∧
    listners w' = listners w ∧ inorder (listner_root w') ≡ₚ inorder (listner_root w) ∧ socks w' = socks w ∧
    same_pairing w w'.
Proof.
  intros Ht Hp Hok Hhalf Hfresh Hfs Hnew Hans Hfail. unfold split_server. rewrite void2uint_pair by done.
  unfold search_listner. rewrite kbind_assoc. kpure.
  pose proof (search_rb_listner_spec (listner_key w) (listner_root w) lo tid (proj1 Hok) Hhalf) as Hsr.
  destruct (search_rb_listner _ _ tid) as [y |]; [by destruct Hsr; destruct (Hnew y) |].
  destruct (register_ok w lo tid PNull Hok Hhalf Hfresh Hnew Hans)
    as (L & w1 & Hreg & _ & HLs & El & Hok1 & Hp1 & _ & _ & Hsame & Es & En & Etick).
  kstep Hreg. rewrite decide_False by done. unfold serve_tenant. set (a := next w) in *.
  assert (Hs1 : serving w lo a PNull w1) by (split_and!; eauto).
  destruct (set_status_ok w w1 lo a PNull 1 Hs1) as (L1 & Hset & Hs2). kstep Hset. set (w2 := upd_listners _ w1) in *.
  destruct (decide (answer (tick w2) = 0)) as [Ec | Ec].
  - kstep (sock_create_quiet w2 Ec). change (negb (0 =? 0)) with false. cbv iota.
    set (s := next w2). set (w3 := upd_socks _ _).
    destruct (serving_lookup w w3 lo a PNull Hs2) as (L3 & HL3 & _). kstep (load_listner_ok w3 a L3 HL3).
    set (L4 := MkListner _ _ 2 _ _). kstep (store_listner_ok w3 a L3 L4 HL3).
    assert (Hs4 := serving_update w w3 lo a PNull L3 L4 Hs2 HL3 eq_refl). set (w4 := upd_listners _ w3) in *.
    assert (Hst : socks w4 !! s = Some S_open) by (simpl; apply lookup_insert_eq).
    destruct (server_listen_total w w4 lo a s S_open tid port Hs4 Hst) as (rc & w5 & Hlis & Hs5 & Es5 & Hsame5 & Hrc).
    kstep Hlis. assert (Hne : rc ≠ 0).
    { apply Hrc. destruct Hfail as (i & Hi & Ha). exists (i - 4)%nat.
      assert (Et4 : tick w4 = (tick w + 4)%nat) by (change (tick w4) with (S (tick w1)); lia).
      assert (i ≠ 3%nat).
      { intros ->. change (tick w2) with (tick w1) in Ec. rewrite Etick in Ec. lia. }
      split; [lia |]. rewrite Et4. by replace (tick w + 4 + (i - 4))%nat with (tick w + i)%nat by lia. }
    rewrite (proj2 (Z.eqb_neq _ 0) Hne). cbn [negb].
    destruct (server_error_unwinds w w5 lo a (PObj s) rc Hs5) as (w6 & He & El6 & Hp6 & Es6 & Hsame6).
    { right. exists s. split; [done |]. by rewrite Es5, Hst. }
    exists rc, w6. split_and!; try done.
    + rewrite Es6, Es5. simpl. rewrite Es. apply delete_insert_id. unfold s. simpl. by rewrite En.
    + unfold same_pairing in *. destruct_and!. split_and!; simpl in *; congruence.
  - kstep (sock_create_fails w2 Ec). rewrite (proj2 (Z.eqb_neq _ 0) Ec). cbn [negb].
    destruct (server_error_unwinds w (ticked C_sock_create w2) lo a PNull (answer (tick w2)) Hs2)
      as (w6 & He & El6 & Hp6 & Es6 & Hsame6); [by left |].
    exists (answer (tick w2)), w6. split_and!; try done; [by rewrite Es6 |].
    unfold same_pairing in *. destruct_and!. split_and!; simpl in *; congruence.
Qed.

(** ** A server that starts *)

Definition with_status (st : Z) (L : cbn_listner) : cbn_listner :=
  MkListner (l_key L) (l_port L) st (l_sock L) (l_raw L).

Lemma set_status_eq w a L st :
  listners w !! a = Some L → set_status (PObj a) st w = Ok (tt, upd_listners <[a := with_status st L]> w).
Proof.
  intros HL. unfold set_status. kstep (load_listner_ok w a L HL). by apply (store_listner_ok w a L).
Qed.

Lemma server_listen_ok w a L s st mark port :
  listners w !! a = Some L → socks w !! s = Some st → (∀ i, (i < 3)%nat → answer (tick w + i)%nat = 0) →
  ∃ w', server_listen (PObj a) (PObj s) mark port w = Ok (0, w') ∧
    listners w' = <[a := with_status 4 L]> (listners w) ∧ listner_root w' = listner_root w ∧
    socks w' = socks w ∧ roots w' = roots w ∧ next w' = next w ∧ tick w' = (tick w + 3)%nat ∧
    log w' = E_call (C_listen (PObj s) BACKLOG) 0 :: E_call (C_bind (PObj s) (htons port) 0) 0
      :: E_call (C_setsockopt (PObj s) O_SO_MARK mark) 0 :: log w.
Proof.
  intros HL Hst Hans. assert (A0 := Hans 0%nat ltac:(lia)). assert (A1 := Hans 1%nat ltac:(lia)).
  assert (A2 := Hans 2%nat ltac:(lia)). rewrite !Nat.add_succ_r, Nat.add_0_r in *.
  unfold server_listen. kstep (setsockopt_quiet w s st O_SO_MARK mark Hst). set (w1 := ticked _ w). rewrite A0.
  change (0 <? 0) with false. cbv iota. assert (HL1 : listners w1 !! a = Some L) by done.
  kstep (set_status_eq w1 a L 3 HL1). set (w2 := upd_listners _ w1).
  kstep (bind_quiet w2 s st (htons port) (htonl INADDR_ANY) Hst). change (tick w2) with (S (tick w)). rewrite A1.
  change (negb (0 =? 0)) with false. cbv iota. set (w3 := ticked _ w2).
  assert (HL3 : listners w3 !! a = Some (with_status 3 L)) by (simpl; apply lookup_insert_eq).
  kstep (set_status_eq w3 a _ 4 HL3). set (w4 := upd_listners _ w3).
  unfold kernel_listen. rewrite (sock_call_quiet w4 s st (C_listen (PObj s) BACKLOG) Hst).
  change (tick w4) with (S (S (tick w))). rewrite A2. eexists. split; [reflexivity |]. split_and!; try done.
  - simpl. by rewrite insert_insert_eq.
  - unfold ticked. simpl. by rewrite A0, A1, A2.
Qed.

Lemma probe_socket_ok w mark :
  (∀ i, (i < 3)%nat → answer (tick w + i)%nat = 0) →
  ∃ w', craete_prec_conn_probe mark w = Ok (PObj (next w), w') ∧
    listners w' = listners w ∧ listner_root w' = listner_root w ∧ roots w' = roots w ∧
    socks w' = <[next w := S_open]> (socks w) ∧ log w ⊆ log w'.
Proof.
  intros Hans. assert (A0 := Hans 0%nat ltac:(lia)). assert (A1 := Hans 1%nat ltac:(lia)).
  assert (A2 := Hans 2%nat ltac:(lia)). rewrite !Nat.add_succ_r, Nat.add_0_r in *.
  unfold craete_prec_conn_probe. kstep (sock_create_quiet w A0). change (negb (0 =? 0)) with false. cbv iota.
  set (w1 := upd_socks _ _). set (r := next w).
  assert (Hr : socks w1 !! r = Some S_open) by (simpl; apply lookup_insert_eq).
  kstep (setsockopt_quiet w1 r S_open O_SO_MARK mark Hr). change (tick w1) with (S (tick w)). rewrite A1.
  change (0 <? 0) with false. cbv iota. set (w2 := ticked _ w1).
  kstep (setsockopt_quiet w2 r S_open O_IP_HDRINCL mark Hr). change (tick w2) with (S (S (tick w))). rewrite A2.
  eexists. split; [reflexivity |]. split_and!; try done. intros e He. by do 3 right.
Qed.

(** The key of a registered listener leads to it. *)
Lemma serving_found w0 w lo a sock tid :
  serving w0 lo a sock w → in_half lo (s32 tid) → listner_key w a = s32 tid →
  search_rb_listner (listner_key w) (listner_root w) tid = Some a.
Proof.
  intros (_ & _ & [Hord _] & Hp) Hhalf Hk.
  pose proof (search_rb_listner_spec (listner_key w) (listner_root w) lo tid Hord Hhalf) as Hs.
  assert (Ha : a ∈ inorder (listner_root w)) by (rewrite Hp; by left).
  destruct (search_rb_listner _ _ tid) as [x |]; [| by destruct (Hs a Ha)]. destruct Hs as [Hx Ekx].
  f_equal. apply (ordered_unique (listner_key w) key_diff (in_half lo) (listner_root w) (s32 tid)); try done;
    unfold key_diff; rewrite ?Ekx, ?Hk, Z.sub_diag; done.
Qed.

(** The listening socket was marked, bound to the port and listens. *)
Definition listens (s tid port : Z) w : Prop :=
  E_call (C_setsockopt (PObj s) O_SO_MARK tid) 0 ∈ log w ∧ E_call (C_bind (PObj s) (htons port) 0) 0 ∈ log w ∧
  E_call (C_listen (PObj s) BACKLOG) 0 ∈ log w.

(** From the registered listener to the accept loop. *)
Lemma serve_tenant_ok fuel w a L tid port :
  listners w !! a = Some L → 0 ≤ port < 65536 → (∀ i, (i < 7)%nat → answer (tick w + i)%nat = 0) →
  let s := next w in let r := next w + 1 in
  ∃ w', serve_tenant fuel (PObj a) tid port w = accept_loop fuel (PObj a) (PObj s) tid w' ∧
    listners w' = <[a := MkListner (l_key L) port 6 (PObj s) (PObj r)]> (listners w) ∧
    listner_root w' = listner_root w ∧ roots w' = roots w ∧
    socks w' = <[r := S_open]> (<[s := S_open]> (socks w)) ∧ listens s tid port w'.
Proof.
  intros HL1 Hp Hall s r. unfold serve_tenant. kstep (set_status_eq w a L 1 HL1). set (w2 := upd_listners _ w).
  assert (Ec : answer (tick w2) = 0) by (specialize (Hall 0%nat ltac:(lia)); by rewrite Nat.add_0_r in Hall).
  kstep (sock_create_quiet w2 Ec). change (negb (0 =? 0)) with false. cbv iota.
  change (next w2) with s. set (w3 := upd_socks _ _).
  assert (HL3 : listners w3 !! a = Some (with_status 1 L)) by (simpl; apply lookup_insert_eq).
  kstep (load_listner_ok w3 a _ HL3). rewrite u16_small by done. set (L4 := MkListner _ port 2 _ _).
  kstep (store_listner_ok w3 a _ L4 HL3). set (w4 := upd_listners _ w3).
  assert (HL4 : listners w4 !! a = Some L4) by (simpl; apply lookup_insert_eq).
  assert (Hst : socks w4 !! s = Some S_open) by (simpl; apply lookup_insert_eq).
  destruct (server_listen_ok w4 a L4 s S_open tid port HL4 Hst) as (w5 & Hlis & El5 & Er5 & Es5 & Ero5 & En5 & Et5 & Elog5).
  { intros i Hi. change (tick w4) with (S (tick w)). specialize (Hall (S i) ltac:(lia)).
    by rewrite Nat.add_succ_r in Hall. }
  kstep Hlis. change (negb (0 =? 0)) with false. cbv iota.
  assert (HL5 : listners w5 !! a = Some (with_status 4 L4)) by (rewrite El5; apply lookup_insert_eq).
  kstep (set_status_eq w5 a _ 5 HL5). set (w6 := upd_listners _ w5).
  assert (En6 : next w6 = r) by (change (next w6) with (next w5); rewrite En5; done).
  destruct (probe_socket_ok w6 tid) as (w7 & Hraw & El7 & Er7 & Ero7 & Es7 & Hlog7).
  { intros i Hi. change (tick w6) with (tick w5). rewrite Et5. change (tick w4) with (S (tick w)).
    specialize (Hall (4 + i)%nat ltac:(lia)). by replace (S (tick w) + 3 + i)%nat with (tick w + (4 + i))%nat by lia. }
  kstep Hraw. rewrite En6. rewrite En6 in Es7.
  assert (HL7 : listners w7 !! a = Some (with_status 5 (with_status 4 L4))) by (rewrite El7; simpl; apply lookup_insert_eq).
  kstep (load_listner_ok w7 a _ HL7). set (L8 := MkListner _ _ _ _ (PObj r)).
  kstep (store_listner_ok w7 a _ L8 HL7). rewrite decide_False by done. set (w8 := upd_listners _ w7).
  assert (HL8 : listners w8 !! a = Some L8) by (simpl; apply lookup_insert_eq).
  kstep (set_status_eq w8 a _ 6 HL8). eexists. split; [reflexivity |].
  assert (Hsub : log w5 ⊆ log w7) by done. rewrite Elog5 in Hsub. split_and!.
  - simpl. rewrite El7. simpl. rewrite El5. simpl. by rewrite !insert_insert_eq.
  - simpl. rewrite Er7. simpl. by rewrite Er5.
  - simpl. rewrite Ero7. simpl. by rewrite Ero5.
  - simpl. rewrite Es7. simpl. by rewrite Es5.
  - split_and!; apply Hsub; rewrite !elem_of_cons; tauto.
Qed.

(** Changing a listener's fields but not its key keeps the tree in order. *)
Lemma listners_ok_update w w' lo a L L' :
  listners_ok w lo → listners w !! a = Some L → l_key L' = l_key L →
  listners w' = <[a := L']> (listners w) → listner_root w' = listner_root w → listners_ok w' lo.
Proof.
  intros [Hord Hlive] HL Hk El Er. split; rewrite Er.
  - eapply ordered_ext; [| exact Hord]. intros y Hy. unfold listner_key. rewrite El.
    destruct (decide (y = a)) as [-> |]; [by rewrite lookup_insert_eq, HL | by rewrite lookup_insert_ne].
  - intros y Hy. rewrite El. apply lookup_insert_is_Some'. right. by apply Hlive.
Qed.

(** C25. With every request granted the server reaches its accept loop with a
    listener the hooks find by the tenant's id, its listening socket marked,
    bound to the port and listening, its raw socket there for the probes, and
    an empty tree on every core. *)
Theorem split_server_serves fuel w lo tid port :
  0 ≤ tid < 4294967296 → 0 ≤ port < 65536 →
  listners_ok w lo → in_half lo (s32 tid) → listners w !! next w = None →
  (∀ y, y ∈ inorder (listner_root w) → listner_key w y ≠ s32 tid) →
  (∀ i, (i < 3)%nat → answer (tick w + i)%nat ≠ 0) →
  (∀ i, (3 ≤ i < 10)%nat → answer (tick w + i)%nat = 0) →
  let a := next w in let s := next w + 1 in let r := next w + 2 in
  ∃ w', split_server fuel (uint2void tid port) w = accept_loop fuel (PObj a) (PObj s) tid w' ∧
    listners w' = <[a := MkListner (s32 tid) port 6 (PObj s) (PObj r)]> (listners w) ∧
    inorder (listner_root w') ≡ₚ a :: inorder (listner_root w) ∧
    search_rb_listner (listner_key w') (listner_root w') tid = Some a ∧
    socks w' = <[r := S_open]> (<[s := S_open]> (socks w)) ∧ listens s tid port w' ∧
    ∀ cpu, cpu ∈ possible_cpus → roots w' !! (a, cpu) = Some Leaf.
Proof.
  intros Ht Hp Hok Hhalf Hfresh Hnew Hans Hall a s r. unfold split_server. rewrite void2uint_pair by lia.
  unfold search_listner. rewrite kbind_assoc. kpure.
  pose proof (search_rb_listner_spec (listner_key w) (listner_root w) lo tid (proj1 Hok) Hhalf) as Hsr.
  destruct (search_rb_listner _ _ tid) as [y |]; [by destruct Hsr; destruct (Hnew y) |]. clear Hsr.
  destruct (register_ok w lo tid PNull Hok Hhalf Hfresh Hnew Hans)
    as (L & w1 & Hreg & HLk & _ & El & Hok1 & Hp1 & _ & Hroots & _ & Es & En & Etick).
  kstep Hreg. rewrite decide_False by done. fold a in El, Hp1, Hroots |- *.
  assert (HL1 : listners w1 !! a = Some L) by (by rewrite El, lookup_insert_eq).
  destruct (serve_tenant_ok fuel w1 a L tid port HL1 Hp) as (w' & Hrun & El' & Er' & Ero' & Es' & Hlis).
  { intros i Hi. rewrite Etick. specialize (Hall (3 + i)%nat ltac:(lia)). by rewrite Nat.add_assoc in Hall. }
  rewrite En in Hrun, El', Es', Hlis. replace (next w + 1 + 1) with r in El', Es' by (unfold r; lia).
  exists w'. rewrite HLk in El'. split_and!; [exact Hrun | by rewrite El', El, insert_insert_eq | by rewrite Er' | | | done |].
  - apply (serving_found w w' lo a (PObj s)); [| done | unfold listner_key; by rewrite El', lookup_insert_eq].
    split_and!; [| done | by apply (listners_ok_update w1 w' lo a L (MkListner (s32 tid) port 6 (PObj s) (PObj r))) | by rewrite Er'].
    eexists. split; [by rewrite El', El, insert_insert_eq | done].
  - by rewrite Es', Es.
  - intros cpu Hc. rewrite Ero'. by apply Hroots.
Qed.

(** ** The accept loop *)

(** The QPs handed to [start_new_connection], the last one first. *)
Fixpoint handed (l : list event) : list Z :=
  match l with
  | [] => []
  | E_pool_run T_start_new_connection (PObj qp) _ _ :: l => qp :: handed l
  | _ :: l => handed l
  end.

Lemma accept_ok w a L s st mark :
  listners w !! a = Some L → socks w !! s = Some st →
  answer (tick w) = 0 → answer (S (tick w)) ≠ 0 → answer (S (S (tick w))) = 0 →
  -2147483648 ≤ mark < 2147483648 →
  let n := next w in let qp := next w + 1 in
  ∃ q w', accept_one (PObj a) (PObj s) mark w = Ok (None, w') ∧
    qps w' = <[qp := q]> (qps w) ∧ q_rx q = PObj n ∧ key_tid (q_key q) = mark ∧ q_listner q = PObj a ∧
    ref_cnt q = 0 ∧ socks w' = <[n := S_open]> (socks w) ∧
    head (tail (log w')) = Some (E_pool_run T_start_new_connection (PObj qp) 0 None) ∧
    head (log w') = Some (E_call C_should_stop 0) ∧ handed (log w') = qp :: handed (log w) ∧
    listners w' = listners w ∧ roots w' = roots w ∧ syns w' = syns w ∧ next w' = next w + 2 ∧ tick w' = (tick w + 3)%nat ∧ same_wakes w w'.
Proof.
  intros HL Hst A0 A1 A2 Hm n qp. unfold accept_one, kernel_accept. rewrite kbind_assoc.
  kstep (kernel_call_quiet (C_accept (PObj s)) w). rewrite A0. change (0 =? 0) with true. cbv iota.
  rewrite kbind_assoc. set (w0 := ticked _ w). kstep (eq_refl (fresh_addr w0)). kpure.
  change (negb (0 =? 0)) with false. cbv iota. change (next w0) with n. set (w1 := upd_socks _ _).
  kstep (alloc_qp_quiet w1 A1). change (next w1) with qp. change (tick w1) with (S (tick w)). set (w2 := upd_qps _ _).
  set (g := garbage (S (tick w))) in *.
  assert (Hg2 : qps w2 !! qp = Some g) by (simpl; apply lookup_insert_eq).
  kstep (load_qp_ok w2 qp g Hg2). set (q := MkQp _ 0 _ _ _). kstep (store_qp_ok w2 qp g q Hg2).
  unfold pool_run. kpure. unfold kthread_should_stop. rewrite kbind_assoc.
  set (w3 := add_log (E_pool_run _ _ _ _) _). kstep (kernel_call_quiet C_should_stop w3).
  change (tick w3) with (S (S (tick w))). rewrite A2. change (0 =? 0) with true. cbn [negb]. kpure.
  exists q. eexists. split; [reflexivity |]. split_and!; try done; try (simpl; lia).
  - simpl. by rewrite insert_insert_eq.
  - unfold q, key_tid, key_set_tid. cbn [q_key].
    replace (take 4 _) with (le_bytes 4 mark) by (symmetry; apply take_app_length'; by rewrite length_le_bytes).
    rewrite le_val_bytes. change (256 ^ Z.of_nat 4) with 4294967296. change (mark mod 4294967296) with (u32 mark).
    rewrite s32_u32. by apply s32_small.
  - simpl. by rewrite A2.
Qed.

(** The objects an accepted connection has: its socket at [n], the QP behind it. *)
Definition accepted (a mark n : Z) w : Prop :=
  socks w !! n = Some S_open ∧
  ∃ q, qps w !! (n + 1) = Some q ∧ q_rx q = PObj n ∧ key_tid (q_key q) = mark ∧ q_listner q = PObj a ∧ ref_cnt q = 0.

(** What was there before [n] is the same, but for the listening socket. *)
Definition older_kept (n s : Z) w w' : Prop :=
  ∀ y, y < n → qps w' !! y = qps w !! y ∧ (y ≠ s → socks w' !! y = socks w !! y).

(** One turn, and the rest of the loop. *)
Lemma accept_loop_ok k fuel w a L s mark :
  (k < fuel)%nat → listners w !! a = Some L → is_Some (socks w !! s) → s < next w →
  -2147483648 ≤ mark < 2147483648 →
  (∀ i, (i < k)%nat → answer (tick w + 3 * i)%nat = 0 ∧ answer (tick w + 3 * i + 1)%nat ≠ 0 ∧
    answer (tick w + 3 * i + 2)%nat = 0) →
  answer (tick w + 3 * k)%nat ≠ 0 →
  ∃ w', accept_loop fuel (PObj a) (PObj s) mark w = Ok (Some (answer (tick w + 3 * k)%nat), w') ∧
    handed (log w') = reverse ((λ i, next w + 2 * Z.of_nat i + 1) <$> seq 0 k) ++ handed (log w) ∧
    (∀ i, (i < k)%nat → accepted a mark (next w + 2 * Z.of_nat i) w') ∧
    socks w' !! s = None ∧ older_kept (next w) s w w'.
Proof.
  intros Hf HL Hs Hlt Hm Hall Hend. revert fuel w HL Hs Hlt Hall Hend Hf.
  induction k as [| k IH]; intros [| fuel] w HL [st Hst] Hlt Hall Hend Hf; try lia.
  - rewrite Nat.mul_0_r, Nat.add_0_r in *. simpl accept_loop. unfold accept_one, kernel_accept. rewrite !kbind_assoc.
    kstep (kernel_call_quiet (C_accept (PObj s)) w). rewrite (proj2 (Z.eqb_neq _ 0) Hend). kpure.
    rewrite (proj2 (Z.eqb_neq _ 0) Hend). cbn [negb]. kpure. set (w1 := ticked _ w).
    unfold server_out. rewrite decide_False by done.
    assert (Hst1 : socks w1 !! s = Some st) by done. kstep (sock_release_ok w1 s st Hst1).
    eexists. split; [reflexivity |]. split_and!; [done | lia | by apply lookup_delete_eq |].
    intros y Hy. split; [done |]. intros Hne. by apply lookup_delete_ne.
  - destruct (Hall 0%nat ltac:(lia)) as (A0 & A1 & A2). rewrite Nat.mul_0_r, Nat.add_0_r in A0, A1, A2.
    rewrite Nat.add_1_r in A1. rewrite (Nat.add_comm _ 2) in A2.
    destruct (accept_ok w a L s st mark HL Hst A0 A1 A2 Hm) as
      (q & w1 & R1 & Eq1 & Hrx & Ht & Hl & Href & Es1 & _ & _ & Hh1 & El1 & _ & _ & En1 & T1 & _).
    destruct (IH fuel w1) as (w' & R & Hh & Hacc & Hsn & Hold).
    + by rewrite El1.
    + rewrite Es1, lookup_insert_ne by lia. by eexists.
    + lia.
    + intros i Hi. specialize (Hall (S i) ltac:(lia)). rewrite T1.
      by replace (tick w + 3 + 3 * i)%nat with (tick w + 3 * S i)%nat by lia.
    + rewrite T1. by replace (tick w + 3 + 3 * k)%nat with (tick w + 3 * S k)%nat by lia.
    + lia.
    + exists w'. split_and!.
      * simpl. kstep R1. rewrite R, T1. by replace (tick w + 3 + 3 * k)%nat with (tick w + 3 * S k)%nat by lia.
      * rewrite Hh, Hh1, En1. cbn [seq]. rewrite fmap_cons, reverse_cons, <- seq_shift, <- list_fmap_compose.
        rewrite <- app_assoc. f_equal; [f_equal; apply list_fmap_ext; intros; cbn; lia | cbn; f_equal; lia].
      * intros [| i] Hi.
        { destruct (Hold (next w) ltac:(lia)) as [_ Hso]. destruct (Hold (next w + 1) ltac:(lia)) as [Hqo _].
          rewrite Z.mul_0_r, Z.add_0_r. split; [rewrite Hso, Es1 by lia; apply lookup_insert_eq |].
          exists q. rewrite Hqo, Eq1, lookup_insert_eq. by split_and!. }
        replace (next w + 2 * Z.of_nat (S i)) with (next w1 + 2 * Z.of_nat i) by lia. apply Hacc. lia.
      * done.
      * intros y Hy. destruct (Hold y ltac:(lia)) as [Hqo Hso]. rewrite Hqo, Eq1, lookup_insert_ne by lia.
        split; [done |]. intros Hne. rewrite Hso, Es1, lookup_insert_ne by (done || lia). done.
Qed.

(** C29. The accept loop: the connections accepted before an accept fails are
    each handed to the thread pool once, in order, as a QP of the tenant with
    its own socket and no reference; the failed accept ends the loop with its
    error, closes the listening socket and touches nothing else. *)
Theorem accept_loop_serves k fuel w a L s mark :
  (k < fuel)%nat → listners w !! a = Some L → is_Some (socks w !! s) → s < next w →
  -2147483648 ≤ mark < 2147483648 →
  (∀ i, (i < k)%nat → answer (tick w + 3 * i)%nat = 0 ∧ answer (tick w + 3 * i + 1)%nat ≠ 0 ∧
    answer (tick w + 3 * i + 2)%nat = 0) →
  answer (tick w + 3 * k)%nat ≠ 0 →
  ∃ w', accept_loop fuel (PObj a) (PObj s) mark w = Ok (Some (answer (tick w + 3 * k)%nat), w') ∧
    handed (log w') = reverse ((λ i, next w + 2 * Z.of_nat i + 1) <$> seq 0 k) ++ handed (log w) ∧
    (∀ i, (i < k)%nat → accepted a mark (next w + 2 * Z.of_nat i) w') ∧
    socks w' !! s = None ∧ older_kept (next w) s w w'.
Proof. apply accept_loop_ok. Qed.

(** An accept that fails leaves the listener in the tree with a pointer
    to its released socket: removing the tenant then touches a freed socket. *)
Lemma accept_error_dangles fuel w a L s st mark lo :
  listners_ok w lo → in_half lo (s32 mark) → a ∈ inorder (listner_root w) →
  listners w !! a = Some L → l_sock L = PObj s → l_key L = s32 mark → socks w !! s = Some st →
  answer (tick w) ≠ 0 →
  ∃ w', accept_loop (S fuel) (PObj a) (PObj s) mark w = Ok (Some (answer (tick w)), w') ∧
    del_server_cb mark w' = Oops UseAfterFree.
Proof.
  intros Hok Hhalf Ha HL Hs Hk Hst Hans. simpl. unfold accept_one, kernel_accept.
  rewrite !kbind_assoc. kstep (kernel_call_quiet (C_accept (PObj s)) w).
  rewrite (proj2 (Z.eqb_neq _ 0) Hans). kpure. rewrite (proj2 (Z.eqb_neq _ 0) Hans). cbn [negb]. kpure.
  set (w1 := ticked _ w). unfold server_out. rewrite decide_False by done.
  assert (Hst1 : socks w1 !! s = Some st) by done. kstep (sock_release_ok w1 s st Hst1).
  eexists. split; [reflexivity |]. set (w2 := add_log _ _). unfold del_server_cb, search_listner. kpure.
  assert (Hka : listner_key w2 a = s32 mark) by (unfold listner_key; simpl; by rewrite HL).
  pose proof (search_rb_listner_spec (listner_key w2) (listner_root w2) lo mark (proj1 Hok) Hhalf) as Hsr.
  destruct (search_rb_listner _ _ mark) as [x |]; [| by destruct (Hsr a Ha)]. destruct Hsr as [Hx Ekx].
  assert (x = a) as ->.
  { apply (ordered_unique (listner_key w2) key_diff (in_half lo) (listner_root w2) (s32 mark)); try done;
      [apply Hok | |]; unfold key_diff; rewrite ?Ekx, ?Hka, Z.sub_diag; done. }
  assert (HL2 : listners w2 !! a = Some L) by done.
  unfold remove_listner_server. kstep (load_listner_ok w2 a L HL2). rewrite Hs, decide_False by done.
  unfold kernel_sock_shutdown, sock_addr. rewrite !kbind_assoc. unfold mbind, kproc_bind, kderef. simpl.
  by rewrite lookup_delete_eq.
Qed.
End server_lemmas.

(** ** The listing fits a page, up to a point *)

Lemma digits_length k fuel n :
  (1 ≤ k ≤ fuel)%nat → 0 ≤ n < 10 ^ Z.of_nat k → (1 ≤ length (digits fuel n) ≤ k)%nat.
Proof.
  revert k n. induction fuel as [| fuel IH]; intros k n Hk Hn; [lia |]. simpl.
  destruct (Z.ltb_spec n 10); simpl; [lia |]. rewrite length_app. simpl.
  destruct k as [| [| k]]; [lia | change (10 ^ Z.of_nat 1) with 10 in Hn; lia |].
  assert (Hdiv : 0 ≤ n / 10 < 10 ^ Z.of_nat (S k)).
  { rewrite Nat2Z.inj_succ, Z.pow_succ_r in Hn by lia. split; [apply Z.div_pos; lia |].
    apply Z.div_lt_upper_bound; lia. }
  destruct (IH (S k) (n / 10)); lia.
Qed.

Lemma print_d_length k n :
  (1 ≤ k ≤ 10)%nat → 0 ≤ n < 10 ^ Z.of_nat k → (1 ≤ length (print_d n) ≤ k)%nat.
Proof.
  intros Hk Hn. unfold print_d. rewrite (proj2 (Z.ltb_ge n 0)) by lia. by apply digits_length.
Qed.

Lemma print_d_length_s32 n : -2147483648 ≤ n < 2147483648 → (1 ≤ length (print_d n) ≤ 11)%nat.
Proof.
  intros Hn. unfold print_d. destruct (Z.ltb_spec n 0) as [Hneg | Hpos].
  - pose proof (digits_length 10 10 (- n) ltac:(lia) ltac:(simpl; lia)). cbn [length]. lia.
  - pose proof (digits_length 10 10 n ltac:(lia) ltac:(simpl; lia)). lia.
Qed.

Definition good_listner (L : cbn_listner) : Prop :=
  -2147483648 ≤ l_key L < 2147483648 ∧ 0 ≤ l_port L < 65536 ∧ 0 ≤ l_status L < 65536.

Lemma proc_line_length L : good_listner L → 22 ≤ Z.of_nat (length (proc_line L)) ≤ 40.
Proof.
  intros (Hk & Hp & Hs). unfold proc_line. rewrite !length_app.
  pose proof (print_d_length_s32 (l_key L) Hk).
  pose proof (print_d_length 5 (l_port L) ltac:(lia) ltac:(simpl; lia)).
  pose proof (print_d_length 5 (l_status L) ltac:(lia) ltac:(simpl; lia)).
  unfold s_tid, s_port, s_status. cbn [length]. lia.
Qed.

Lemma postorder_perm {A} (t : tree A) : postorder t ≡ₚ inorder t.
Proof.
  induction t as [| l IHl x r IHr]; simpl; [done |]. rewrite IHl, IHr. apply Permutation_app_head.
  symmetry. apply Permutation_cons_append.
Qed.

Section proc.
Context `{Env}.
Implicit Types w : world.

(** Every listener of a list is live, its fields inside their C types. *)
Definition listed w (nodes : list Z) : Prop :=
  ∀ a, a ∈ nodes → ∃ L, listners w !! a = Some L ∧ good_listner L.

Definition line_of w (a : Z) : list Z := from_option proc_line [] (listners w !! a).

Lemma proc_lines_ok w nodes buffer :
  listed w nodes → Z.of_nat (length buffer) + 40 * Z.of_nat (length nodes) < PAGE_SIZE →
  proc_lines nodes buffer w = Ok (buffer ++ (nodes ≫= line_of w), w).
Proof.
  revert buffer. induction nodes as [| a nodes IH]; intros buffer Hl Hlen; csimpl.
  { by rewrite app_nil_r. }
  destruct (Hl a) as (L & HL & Hg); [by left |]. kstep (load_listner_ok w a L HL).
  pose proof (proc_line_length L Hg). unfold sprintf_page. cbn [length] in Hlen.
  rewrite (proj2 (Z.ltb_lt _ PAGE_SIZE)) by lia. kpure. unfold line_of at 1. rewrite HL. cbn [from_option].
  rewrite app_assoc. apply IH; [intros b Hb; apply Hl; by right |]. rewrite length_app. lia.
Qed.

Lemma proc_lines_overflow w nodes buffer :
  listed w nodes → Z.of_nat (length buffer) < PAGE_SIZE →
  PAGE_SIZE ≤ Z.of_nat (length buffer) + 22 * Z.of_nat (length nodes) →
  proc_lines nodes buffer w = Oops BufferOverflow.
Proof.
  revert buffer. induction nodes as [| a nodes IH]; intros buffer Hl Hb Hlen; cbn [length proc_lines] in *; [lia |].
  destruct (Hl a) as (L & HL & Hg); [by left |]. kstep (load_listner_ok w a L HL).
  pose proof (proc_line_length L Hg). unfold sprintf_page.
  destruct (Z.ltb_spec (Z.of_nat (length buffer + length (proc_line L))) PAGE_SIZE) as [Hlt | Hge]; [| done].
  kpure. apply IH; [intros b Hb'; apply Hl; by right | |]; rewrite length_app; lia.
Qed.

(** Up to 102 tenants the listing is one line per tenant, in post-order, and
    its length is reported. *)
Lemma proc_read_string_fits w :
  answer (tick w) ≠ 0 → listed (interfere w) (inorder (listner_root (interfere w))) →
  Z.of_nat (length (inorder (listner_root (interfere w)))) ≤ 102 →
  let text := postorder (listner_root (interfere w)) ≫= line_of (interfere w) in
  ∃ w', proc_read_string w = Ok (Some (text, Z.of_nat (length text)), w').
Proof.
  intros Ha Hl Hlen text. unfold proc_read_string. kstep (kernel_call_eq C_alloc w).
  rewrite (proj2 (Z.eqb_neq _ 0) Ha). kpure. set (w1 := add_log _ _).
  change (listner_root w1) with (listner_root (interfere w)).
  set (t := listner_root (interfere w)) in *. assert (Hp := postorder_perm t).
  assert (Hl1 : listed w1 (postorder t)) by (intros a Hin; apply Hl; by rewrite <- Hp).
  kstep (proc_lines_ok w1 (postorder t) [] Hl1 ltac:(rewrite Hp; unfold PAGE_SIZE; simpl; lia)).
  by eexists.
Qed.

(** From 187 tenants on, [sprintf] writes past the page. *)
Lemma proc_read_string_overflows w :
  answer (tick w) ≠ 0 → listed (interfere w) (inorder (listner_root (interfere w))) →
  187 ≤ Z.of_nat (length (inorder (listner_root (interfere w)))) →
  proc_read_string w = Oops BufferOverflow.
Proof.
  intros Ha Hl Hlen. unfold proc_read_string. kstep (kernel_call_eq C_alloc w).
  rewrite (proj2 (Z.eqb_neq _ 0) Ha). kpure. set (w1 := add_log _ _).
  change (listner_root w1) with (listner_root (interfere w)).
  set (t := listner_root (interfere w)) in *. assert (Hp := postorder_perm t).
  assert (Hl1 : listed w1 (postorder t)) by (intros a Hin; apply Hl; by rewrite <- Hp).
  unfold mbind, kproc_bind. rewrite proc_lines_overflow; try done.
  rewrite Hp. unfold PAGE_SIZE. simpl. lia.
Qed.
End proc.

(** ** Concrete runs

    An empty module, tenant 7 to be served on port 80. *)

Lemma no_listners_ok w : listner_root w = Leaf → listners_ok w 0.
Proof.
  intros E. split; rewrite E; [split; constructor | intros y Hy; by apply elem_of_nil in Hy].
Qed.

(** Memory is there and every request is granted; binding is refused. *)
Definition serve_env : Env := calm (λ n, if (n <? 3)%nat then 1 else 0) (λ _, []) (λ _, no_addr).
Definition bind_refused : Env :=
  calm (λ n, if (n <? 3)%nat then 1 else if (n =? 5)%nat then -98 else 0) (λ _, []) (λ _, no_addr).

Lemma split_server_serves_witness :
  ∃ w', @split_server serve_env spine_lib 0 (uint2void 7 80) (empty_world 100) =
      @accept_loop serve_env spine_lib 0 (PObj 100) (PObj 101) 7 w' ∧
    search_rb_listner (listner_key w') (listner_root w') 7 = Some 100.
Proof.
  destruct (@split_server_serves serve_env (calm_quiet _ _ _) spine_lib spine_laws 0 (empty_world 100) 0 7 80)
    as (w' & Hr & _ & _ & Hs & _).
  - lia.
  - lia.
  - by apply no_listners_ok.
  - unfold in_half. change (s32 7) with 7. lia.
  - done.
  - intros y Hy. by apply elem_of_nil in Hy.
  - intros [| [| [| i]]] Hi; [done | done | done | lia].
  - intros i Hi. cbn [answer serve_env calm]. destruct (Nat.ltb_spec (tick (empty_world 100) + i) 3) as [Hlt | ]; [| done].
    simpl in Hlt. lia.
  - exists w'. split; [exact Hr | exact Hs].
Defined.

Lemma split_server_unwinds_witness :
  ∃ rc w', @split_server bind_refused spine_lib 0 (uint2void 7 80) (empty_world 100) = Ok (Some rc, w') ∧
    rc ≠ 0 ∧ listners w' = ∅ ∧ socks w' = ∅.
Proof.
  destruct (@split_server_unwinds bind_refused (calm_quiet _ _ _) spine_lib spine_laws 0 (empty_world 100) 0 7 80)
    as (rc & w' & Hr & Hrc & Hl & _ & Hs & _).
  - lia.
  - lia.
  - by apply no_listners_ok.
  - unfold in_half. change (s32 7) with 7. lia.
  - done.
  - done.
  - intros y Hy. by apply elem_of_nil in Hy.
  - intros [| [| [| i]]] Hi; [done | done | done | lia].
  - exists 5%nat. split; [lia | done].
  - exists rc, w'. split_and!; [exact Hr | exact Hrc | exact Hl | exact Hs].
Defined.

(** Listener 9 of tenant 7, its socket 30. *)
Definition serving_world : world :=
  upd_socks <[30 := S_open]> (upd_listners <[9 := MkListner 7 80 6 (PObj 30) (PObj 31)]>
    (set_listner_root (Node Leaf 9 Leaf) (empty_world 100))).
Definition accept_env : Env :=
  calm (λ n, match n with 1%nat | 4%nat => 1 | 6%nat => -24 | _ => 0 end) (λ _, []) (λ _, no_addr).

Lemma accept_loop_serves_witness :
  ∃ w', @accept_loop accept_env spine_lib 5 (PObj 9) (PObj 30) 7 serving_world = Ok (Some (-24), w') ∧
    handed (log w') = [103; 101] ∧ accepted 9 7 100 w' ∧ accepted 9 7 102 w' ∧ socks w' !! 30 = None.
Proof.
  destruct (@accept_loop_serves accept_env (calm_quiet _ _ _) spine_lib 2 5 serving_world 9
    (MkListner 7 80 6 (PObj 30) (PObj 31)) 30 7) as (w' & Hr & Hh & Hacc & Hs & _); try done; try lia.
  - intros [| [| i]] Hi; [done | done | lia].
  - exists w'. split_and!; [exact Hr | exact Hh | exact (Hacc 0%nat ltac:(lia)) | exact (Hacc 1%nat ltac:(lia)) | exact Hs].
Defined.

Lemma accept_error_dangles_witness :
  ∃ w', @accept_loop (always (-24)) spine_lib 1 (PObj 9) (PObj 30) 7 serving_world = Ok (Some (-24), w') ∧
    @del_server_cb spine_lib 7 w' = Oops UseAfterFree.
Proof.
  apply (@accept_error_dangles (always (-24)) (calm_quiet _ _ _) spine_lib 0 serving_world 9
    (MkListner 7 80 6 (PObj 30) (PObj 31)) 30 S_open 7 0); try done.
  - split.
    + split; simpl; [repeat constructor |]. by repeat constructor.
    + intros y Hy. apply list_elem_of_singleton in Hy as ->. by eexists.
  - by left.
Defined.

(** 187 tenants on the ports of one listener record each. *)
Definition many_tenants (n : Z) : world :=
  upd_listners (λ _, gset_to_gmap (MkListner 7 80 6 PNull PNull) (list_to_set (seqZ 1 n)))
    (set_listner_root (spine (seqZ 1 n)) (empty_world 1000)).

Lemma crowd_listed n : listed (many_tenants n) (seqZ 1 n).
Proof.
  intros a Ha. exists (MkListner 7 80 6 PNull PNull). split; [| by vm_compute].
  simpl. apply lookup_gset_to_gmap_Some. by rewrite elem_of_list_to_set.
Qed.

Lemma proc_read_string_overflows_witness : @proc_read_string (always 1) (many_tenants 187) = Oops BufferOverflow.
Proof.
  apply (@proc_read_string_overflows (always 1)); [done | | by vm_compute].
  change (listner_root (interfere (many_tenants 187))) with (spine (seqZ 1 187)). rewrite inorder_spine. apply crowd_listed.
Defined.
