(* ===== verification/Preconn.v ===== *)
(** * Pre-connected sockets (conn_pool.c, preconn_rb_tree.h)

    For every next hop, and every core, a list of connections opened in
    advance.  A SYN that leaves for another KTCP host takes one of them and
    sends its addresses down it; the host at the other end reads them and makes
    the rest of the connection. *)

From stdpp Require Import base list gmap sets.
From Stdlib Require Import ZArith Lia.
From S2P Require Import Prelude RbTree Keys DataTree World Qp Relay Hooks Connect Server.

Definition PER_CORE_POOL_MIN : nat := 4.
Definition PER_CORE_POOL_MAX : Z := 16.

(** ** struct addresses on the wire *)

(** struct sockaddr_in with its eight bytes of padding. *)
Definition sockaddr_bytes (pad : list Z) (s : sockaddr_in) : list Z :=
  le_bytes 2 (sin_family s) ++ le_bytes 2 (sin_port s) ++ le_bytes 4 (s_addr s) ++ pad.

Definition addresses_bytes (pad : list Z) (x : addresses) : list Z :=
  sockaddr_bytes pad (dest x) ++ sockaddr_bytes pad (src x) ++ le_bytes 4 (sin_addr x) ++ le_bytes 4 (mark x).

Definition field (off len : nat) (l : list Z) : Z := le_val (take len (drop off l)).

Definition sockaddr_of (off : nat) (l : list Z) : sockaddr_in :=
  {| sin_family := field off 2 l; sin_port := field (off + 2) 2 l; s_addr := field (off + 4) 4 l |}.

Definition addresses_of (l : list Z) : addresses :=
  {| dest := sockaddr_of 0 l; src := sockaddr_of 16 l; sin_addr := field 32 4 l; mark := s32 (field 36 4 l) |}.

Definition SIZEOF_ADDRESSES : Z := 40.

(** ** build_ip *)

Fixpoint build_ip_loop (n : nat) (ip : Z) (array : list Z) : Z :=
  match n, array with
  | S n, x :: array =>
      if 255 <? x then 0 else build_ip_loop n (s32 (Z.lor (s32 (Z.shiftl ip 8)) x)) array
  | _, _ => ip
  end.

Definition build_ip (array : list Z) : Z := build_ip_loop 4 0 array.

Section preconn.
Context `{Env} `{RbLib Z}.

Definition stack_bytes (n : nat) : list Z := u8 ∘ stale <$> seq 0 n.

(** ** preconn_rb_tree.h *)

Definition preconn_key (w : world) (a : Z) : Z := from_option id 0 (preconns w !! a).

Definition search_preconn (key : Z) : wproc (option Z) :=
  w ← kget;
  mret (search_rb_preconn (preconn_key w) (preconn_root w) key).

Definition init_preconn (a key : Z) : wproc Z :=
  kmodify (upd_preconns <[a := s32 key]>) ;;
  rc ← kernel_call C_alloc;
  if rc =? 0 then mret (- ENOMEM)
  else
    kforeach possible_cpus (λ cpu, kmodify (upd_pcp_lists <[(a, cpu) := ([], 0)]>)) ;;
    mret 0.

(** Linking a node writes to it and reads its key. *)
Definition link_preconn (a : Z) : wproc (option Z) :=
  _ ← kderef (λ w, preconns w !! a) UseAfterFree;
  w ← kget;
  let '(dup, root) := add_rb_preconn (preconn_key w) (preconn_root w) a in
  kmodify (set_preconn_root root) ;;
  mret dup.

Definition get_rb_preconn (key : Z) : wproc (option Z) :=
  preconn ← search_preconn key;
  match preconn with
  | Some p => mret (Some p)
  | None =>
      o ← slab_alloc;
      match o with
      | None => mret None
      | Some a =>
          rc ← init_preconn a key;
          (if negb (rc =? 0) then kmodify (upd_preconns (delete a)) else mret tt) ;;
          dup ← link_preconn a;
          match dup with
          | Some _ => kmodify (upd_preconns (delete a)) ;; mret None
          | None => mret (Some a)
          end
      end
  end.

(** ** Filling the pool *)

(** [pcp_list] of a pool on one core. *)
Definition pcp_list (p cpu : Z) : wproc (list Z * Z) := kderef (λ w, pcp_lists w !! (p, cpu)) NullDeref.

Definition prealloc_connection_pool (ip : Z) : wproc Z :=
  preconn ← search_preconn ip;
  kforeach possible_cpus (λ cpu,
    len ← match preconn with
          | Some p => '(_, len) ← pcp_list p cpu; mret (s32 len)
          | None => mret 0
          end;
    if len <? PER_CORE_POOL_MAX then
      kforeach (seq 0 PER_CORE_POOL_MIN) (λ _, pool_run T_prealloc_connection PNull ip (Some cpu))
    else mret tt) ;;
  mret 0.

Definition alloc_prexeisting_conn (cpu ip : Z) : wproc ptr :=
  preconn ← search_preconn ip;
  pcpl ← match preconn with
         | Some p => '(l, len) ← pcp_list p cpu; mret (Some (p, l, len))
         | None => mret None
         end;
  match pcpl with
  | Some (p, elem :: l, len) =>
      kmodify (upd_pcp_lists <[(p, cpu) := (l, u32 (len - 1))]>) ;;
      pool_run T_prealloc_connection_pool PNull ip None ;;
      mret (PObj elem)
  | _ =>
      pool_run T_prealloc_connection_pool PNull ip None ;;
      mret PNull
  end.

Definition fill_preconn_address (ip : Z) : sockaddr_in :=
  {| sin_family := AF_INET; sin_port := htons PRECONN_SERVER_PORT; s_addr := u32 ip |}.

(** The destination half of the key. *)
Definition set_dest (port addr : Z) (k : list Z) : list Z :=
  take 2 k ++ le_bytes 2 port ++ take 4 (drop 4 k) ++ le_bytes 4 addr.

Definition add_preconn_qp (cpu : Z) (qp : ptr) : wproc Z :=
  q ← load_qp qp;
  preconn ← get_rb_preconn (key_addr_d (q_key q));
  match preconn, qp with
  | Some p, PObj a =>
      '(l, len) ← pcp_list p cpu;
      kmodify (upd_pcp_lists <[(p, cpu) := (a :: l, u32 (len + 1))]>) ;;
      mret 0
  | _, _ => mret (-1)
  end.

(** Lines 223-236: the requests on the new socket, in order. *)
Definition preconn_connect (tx : ptr) (addr : sockaddr_in) : wproc Z :=
  rc ← kernel_setsockopt tx O_SO_MARK (s32 CBN_CORE_ROUTE_MARK);
  if rc <? 0 then mret rc
  else
    rc ← kernel_setsockopt tx O_SO_KEEPALIVE 1;
    if rc <? 0 then mret rc
    else
      rc ← kernel_setsockopt tx O_TCP_NODELAY 1;
      if rc <? 0 then mret rc
      else kernel_connect tx (sin_port addr) (s_addr addr).

(** [tx] is a stack variable nothing was stored in when the socket could not
    be made, and is released if it is not zero. *)
Definition prealloc_connection (cpu ip : Z) : wproc Z :=
  let addr := fill_preconn_address ip in
  qp ← alloc_qp;
  q ← load_qp qp;
  store_qp qp (MkQp (set_dest (sin_port addr) (s_addr addr) (q_key q)) 0 (q_listner q) (q_tx q) (q_rx q)) ;;
  '(rc, tx) ← sock_create_kern;
  if negb (rc =? 0) then (if stale 0%nat =? 0 then mret rc else oops WildFree)
  else
    rc ← preconn_connect tx addr;
    if negb (rc =? 0) then sock_release tx ;; mret rc
    else
      q ← load_qp qp;
      store_qp qp (MkQp (q_key q) (ref_cnt q) (q_listner q) tx PNull) ;;
      rc ← add_preconn_qp cpu qp;
      if negb (rc =? 0) then sock_release tx ;; mret rc
      else mret rc.

(** ** Using a pre-connected socket *)

Definition forward_conn_info (tx : ptr) (addresses : ptr) : wproc Z :=
  x ← load_syn addresses;
  kernel_sendmsg tx (take (Z.to_nat SIZEOF_ADDRESSES) (addresses_bytes (stack_bytes 8) x)).

Definition start_new_pre_connection_syn (fuel : nat) (cpu : Z) (arg : ptr) : wproc (option Z) :=
  x ← load_syn arg;
  qp ← alloc_prexeisting_conn cpu (sin_addr x);
  if decide (qp = PNull) then
    r ← start_new_connection_syn fuel cpu arg;
    mret (match r with Some _ => Some 0 | None => None end)
  else
    q ← load_qp qp;
    store_qp qp (set_key (addresses_key x) q) ;;
    listner ← search_listner (mark x);
    match listner with
    | None => mret (Some 0)
    | Some l =>
        q ← load_qp qp;
        store_qp qp (set_listner (PObj l) q) ;;
        qp ← qp_exists cpu qp TX_QP;
        if decide (qp = PNull) then mret (Some 0)
        else
          q ← load_qp qp;
          rc ← forward_conn_info (q_tx q) arg;
          if rc <=? 0 then
            r ← start_new_connection_syn fuel cpu arg;
            mret (match r with Some _ => Some rc | None => None end)
          else
            free_syn arg ;;
            err ← wait_qp_ready cpu qp TX_QP;
            if negb (err =? 0) then mret (Some rc)
            else
              q ← load_qp qp;
              half_duplex fuel (MkSockets (q_tx q) (q_rx q) (stale 0%nat)) qp
    end.

(** ** The other end *)

(** The record, whatever part of it arrived; the rest is what the stack held. *)
Definition preconn_wait_for_next_hop (qp : ptr) : wproc (Z * addresses) :=
  q ← load_qp qp;
  '(rc, bytes) ← kernel_recvmsg_waitall (q_rx q) SIZEOF_ADDRESSES;
  mret (rc, addresses_of (bytes ++ drop (length bytes) (stack_bytes 40))).

(** Lines 309-335. *)
Definition pending_connect (tx : ptr) (x : addresses) : wproc Z :=
  rc ← kernel_setsockopt tx O_TCP_NODELAY 1;
  if rc <? 0 then mret rc
  else
    rc ← kernel_setsockopt tx O_SO_MARK (mark x);
    if rc <? 0 then mret rc
    else
      w ← kget;
      rc ← (if ip_transparent w =? 0 then mret 0
            else
              rc ← kernel_setsockopt tx O_IP_TRANSPARENT 1;
              if negb (rc =? 0) then mret rc else kernel_bind tx 0 (s_addr (src x)));
      if negb (rc =? 0) then mret rc
      else kernel_connect tx (sin_port (dest x)) (s_addr (dest x)).

Definition start_new_pending_connection (fuel : nat) (cpu : Z) (arg : ptr) : wproc (option Z) :=
  '(rc, tx) ← sock_create_kern;
  if negb (rc =? 0) then mret (Some rc)
  else
    '(rc, x) ← preconn_wait_for_next_hop arg;
    if rc <=? 0 then mret (Some rc)
    else
      rc ← pending_connect tx x;
      if negb (rc =? 0) then mret (Some rc)
      else
        q ← load_qp arg;
        store_qp arg (set_qp_dir TX_QP tx q) ;;
        get_qp cpu arg ;;
        get_qp cpu arg ;;
        pool_run T_start_half_duplex arg 0 None ;;
        r ← half_duplex fuel (MkSockets (q_rx q) tx 1) arg;
        mret (match r with Some _ => Some rc | None => None end).

(** [args\[0\]] is the pair of sockets, [args\[1\]] the QP. *)
Definition start_half_duplex (fuel : nat) (args : sockets * ptr) : wproc (option Z) :=
  r ← half_duplex fuel args.1 args.2;
  mret (match r with Some _ => Some 0 | None => None end).

(** One turn of the accept loop: [Some rc] to leave. *)
Definition preconn_accept_one (sock : ptr) : wproc (option Z) :=
  '(rc, nsock) ← kernel_accept sock;
  if negb (rc =? 0) then mret (Some rc)
  else
    qp ← alloc_qp;
    q ← load_qp qp;
    store_qp qp (MkQp (key_set_tid 0 (q_key q)) 0 PNull (q_tx q) nsock) ;;
    pool_run T_start_new_pending_connection qp 0 None ;;
    stop ← kthread_should_stop;
    mret (if (stop : bool) then Some rc else None).

Fixpoint preconn_accept_loop (fuel : nat) (sock : ptr) : wproc (option Z) :=
  match fuel with
  | O => mret None
  | S fuel =>
      r ← preconn_accept_one sock;
      match r with
      | Some rc => server_out sock rc
      | None => preconn_accept_loop fuel sock
      end
  end.

Definition PRECONN_BACKLOG : Z := 64.

Definition preconn_resgister_server (server : ptr) : wproc unit := kmodify (set_pre_conn_listner server).

(** [server_s] is a variable of the thread's stack, at [frame]. *)
Definition prec_conn_listner_body (fuel : nat) (arg frame : Z) : wproc (option Z) :=
  let port := u32 arg in
  '(rc, sock) ← sock_create_kern;
  if negb (rc =? 0) then server_out PNull rc
  else
    l ← load_listner (PObj frame);
    store_listner (PObj frame) (MkListner (l_key l) (u16 port) (l_status l) sock (l_raw l)) ;;
    rc ← kernel_bind sock (htons port) (htonl INADDR_ANY);
    if negb (rc =? 0) then server_out sock rc
    else
      rc ← kernel_setsockopt sock O_SO_MARK (s32 CBN_CORE_ROUTE_MARK);
      if rc <? 0 then server_out sock rc
      else
        rc ← kernel_listen sock PRECONN_BACKLOG;
        if negb (rc =? 0) then server_out sock rc
        else preconn_resgister_server (PObj frame) ;; preconn_accept_loop fuel sock.

(** The stack is given back when the thread returns. *)
Definition prec_conn_listner_server (fuel : nat) (arg : Z) : wproc (option Z) :=
  w ← kget;
  frame ← fresh_addr;
  kmodify (upd_listners <[frame := garbage_listner (tick w)]>) ;;
  r ← prec_conn_listner_body fuel arg frame;
  match r with
  | Some rc => kmodify (upd_listners (delete frame)) ;; mret (Some rc)
  | None => mret None
  end.

(** ** The command *)

Definition preconn_write_cb (array : list Z) : wproc unit :=
  let ip := build_ip array in
  if ip =? 0 then mret tt
  else
    let ip := htonl (u32 ip) in
    kforeach possible_cpus (λ cpu,
      kforeach (seq 0 PER_CORE_POOL_MIN) (λ _, pool_run T_prealloc_connection PNull ip (Some cpu))).
End preconn.

(** ** The record survives the wire *)

Definition good_sockaddr (s : sockaddr_in) : Prop :=
  0 ≤ sin_family s < 65536 ∧ 0 ≤ sin_port s < 65536 ∧ 0 ≤ s_addr s < 4294967296.

Definition good_addresses (x : addresses) : Prop :=
  good_sockaddr (dest x) ∧ good_sockaddr (src x) ∧ 0 ≤ sin_addr x < 4294967296 ∧
  -2147483648 ≤ mark x < 2147483648.

(** A field between what precedes and what follows it. *)
Lemma field_at pre n v post : field (length pre) n (pre ++ le_bytes n v ++ post) = v mod 256 ^ Z.of_nat n.
Proof.
  unfold field. rewrite drop_app_length, take_app_length'; [apply le_val_bytes |].
  by rewrite length_le_bytes.
Qed.

Lemma sockaddr_of_bytes pre pad s post :
  good_sockaddr s → sockaddr_of (length pre) (pre ++ sockaddr_bytes pad s ++ post) = s.
Proof.
  intros (Hf & Hp & Ha). unfold sockaddr_of, sockaddr_bytes. rewrite <- !app_assoc.
  assert (E1 := field_at pre 2 (sin_family s) (le_bytes 2 (sin_port s) ++ le_bytes 4 (s_addr s) ++ pad ++ post)).
  assert (E2 := field_at (pre ++ le_bytes 2 (sin_family s)) 2 (sin_port s) (le_bytes 4 (s_addr s) ++ pad ++ post)).
  assert (E3 := field_at (pre ++ le_bytes 2 (sin_family s) ++ le_bytes 2 (sin_port s)) 4 (s_addr s) (pad ++ post)).
  rewrite length_app, (length_le_bytes 2), <- app_assoc in E2.
  rewrite !length_app, !(length_le_bytes 2), <- !app_assoc in E3. cbn [Nat.add] in E3. rewrite E1.
  rewrite E2, E3. destruct s; simpl in *. f_equal; by apply Z.mod_small.
Qed.

(** The memory of the struct, and the struct of the memory. *)
Lemma addresses_of_bytes pad x :
  length pad = 8%nat → good_addresses x → addresses_of (addresses_bytes pad x) = x.
Proof.
  intros Hpad (Hd & Hs & Hn & Hm). unfold addresses_of, addresses_bytes.
  assert (Hlen : ∀ s, length (sockaddr_bytes pad s) = 16%nat).
  { intros s. unfold sockaddr_bytes. rewrite !length_app, !length_le_bytes. lia. }
  set (d := sockaddr_bytes pad (dest x)). set (c := sockaddr_bytes pad (src x)).
  assert (Ed := sockaddr_of_bytes [] pad (dest x) (c ++ le_bytes 4 (sin_addr x) ++ le_bytes 4 (mark x)) Hd).
  assert (Es := sockaddr_of_bytes d pad (src x) (le_bytes 4 (sin_addr x) ++ le_bytes 4 (mark x)) Hs).
  assert (En := field_at (d ++ c) 4 (sin_addr x) (le_bytes 4 (mark x))).
  assert (Em := field_at (d ++ c ++ le_bytes 4 (sin_addr x)) 4 (mark x) []).
  rewrite !length_app, ?length_le_bytes, <- ?app_assoc in *. unfold d, c in *. rewrite !Hlen in *.
  cbn [length app plus Nat.add] in *. rewrite app_nil_r in Em. rewrite Ed, Es, En, Em.
  change (256 ^ Z.of_nat 4) with 4294967296. fold (u32 (mark x)).
  rewrite (Z.mod_small (sin_addr x)) by done. change (mark x mod 4294967296) with (u32 (mark x)).
  rewrite s32_u32, s32_small by done. by destruct x.
Qed.

Lemma addresses_bytes_length pad x : length pad = 8%nat → length (addresses_bytes pad x) = 40%nat.
Proof.
  intros Hpad. unfold addresses_bytes, sockaddr_bytes. rewrite !length_app, !length_le_bytes. lia.
Qed.

(** ** Addresses from the command line *)

Lemma build_ip_step ip x :
  is_byte x → s32 (Z.lor (s32 (Z.shiftl ip 8)) x) = s32 (ip * 256 + x).
Proof.
  intros Hx. rewrite Z.shiftl_mul_pow2 by lia. change (2 ^ 8) with 256.
  destruct (s32_offset (ip * 256)) as [q ->].
  replace (ip * 256 - 4294967296 * q) with (Z.shiftl (ip - 16777216 * q) 8)
    by (rewrite Z.shiftl_mul_pow2 by lia; lia).
  rewrite lor_shiftl_low by (unfold is_byte in Hx; lia). change (2 ^ 8) with 256.
  rewrite <- (s32_period (ip * 256 + x) (- q)). f_equal. lia.
Qed.

Lemma s32_shift_add y x : s32 (s32 y * 256 + x) = s32 (y * 256 + x).
Proof.
  destruct (s32_offset y) as [q ->]. rewrite <- (s32_period (y * 256 + x) (- q * 256)). f_equal. lia.
Qed.

(** Four octets give the address whose bytes in memory, in network order,
    are the octets. *)
Lemma build_ip_octets a b c d :
  is_byte a → is_byte b → is_byte c → is_byte d →
  le_bytes 4 (htonl (u32 (build_ip [a; b; c; d]))) = [a; b; c; d].
Proof.
  intros Ha Hb Hc Hd.
  assert (E : u32 (build_ip [a; b; c; d]) = le_val [d; c; b; a]).
  { unfold build_ip, build_ip_loop.
    rewrite !(proj2 (Z.ltb_ge 255 _)) by (unfold is_byte in *; lia).
    rewrite !build_ip_step by done. rewrite (s32_shift_add _ b), (s32_shift_add _ c), (s32_shift_add _ d), u32_s32. unfold is_byte in *.
    rewrite u32_small by lia. simpl. lia. }
  assert (Eb : le_bytes 4 (le_val [d; c; b; a]) = [d; c; b; a])
    by (apply (le_bytes_val [d; c; b; a]); repeat (apply Forall_cons_2; [done |]); apply Forall_nil_2).
  rewrite E. unfold htonl, bswap. rewrite Eb. apply (le_bytes_val [a; b; c; d]).
  repeat (apply Forall_cons_2; [done |]). apply Forall_nil_2.
Qed.

(** An octet above 255 is refused; one below 0 is not, and sets every bit
    above its own. *)
Lemma build_ip_range a b c d :
  (255 < a ∨ 255 < b ∨ 255 < c ∨ 255 < d → build_ip [a; b; c; d] = 0) ∧
  build_ip [10; 0; 0; -1] = -1.
Proof.
  split; [| done]. unfold build_ip, build_ip_loop.
  destruct (Z.ltb_spec 255 a), (Z.ltb_spec 255 b), (Z.ltb_spec 255 c), (Z.ltb_spec 255 d);
    try done; intros Hx; exfalso; lia.
Qed.

(** ** The pool *)

Section preconn_lemmas.
Context `{Env} `{RbLaws Z}.
Implicit Types w : world.

(** [len], a 32-bit counter, is the length of the list, on every core of
    every pool. *)
Definition pcp_ok w : Prop := ∀ k l n, pcp_lists w !! k = Some (l, n) → n = u32 (Z.of_nat (length l)).

Definition keeps_len w w' : Prop := pcp_ok w → pcp_ok w'.

#[local] Instance keeps_len_refl : Reflexive keeps_len.
Proof. intros w Hw. exact Hw. Qed.

#[local] Instance keeps_len_trans : Transitive keeps_len.
Proof. intros w1 w2 w3 H12 H23 H1'. by apply H23, H12. Qed.

(** The other threads keep the pool lists well. *)
Class PoolRely : Prop := pool_rely n w : pcp_ok w → pcp_ok (others n w).

Lemma keeps_len_call `{PoolRely} c : keeps keeps_len (kernel_call c).
Proof. intros w a w' [= <- <-] Hok. exact (pool_rely _ _ Hok). Qed.

Lemma keeps_len_modify g : (∀ w, pcp_lists (g w) = pcp_lists w) → keeps keeps_len (kmodify g).
Proof. intros Hg. apply keeps_modify. intros w Hok. unfold pcp_ok. by rewrite Hg. Qed.

#[local] Hint Resolve keeps_len_call : keeps.
#[local] Hint Extern 1 (keeps keeps_len (kmodify _)) => apply keeps_len_modify; intros; done : keeps.

Lemma keeps_len_fresh : keeps keeps_len fresh_addr.
Proof. intros w a w' [= <- <-] Hw. exact Hw. Qed.

Lemma keeps_len_init cpus a :
  keeps keeps_len (kforeach cpus (λ cpu, kmodify (upd_pcp_lists <[(a, cpu) := ([], 0)]>))).
Proof.
  apply keeps_foreach; [tc_solve | tc_solve |]. intros cpu. apply keeps_modify. intros w Hok k l n. simpl.
  rewrite lookup_insert_Some. intros [[_ [= <- <-]] | [_ Hl]]; [done | by apply (Hok k)].
Qed.

Lemma keeps_len_get_rb `{PoolRely} key : keeps keeps_len (get_rb_preconn key).
Proof.
  pose proof keeps_len_fresh. pose proof keeps_len_init.
  unfold get_rb_preconn, search_preconn, init_preconn, link_preconn, slab_alloc. kkeeps.
Qed.

(** C31. Adding to a pool and taking from it keep [len] equal to the length of
    the list, new pools included. *)
Theorem pool_len_invariant `{PoolRely} cpu ip qp w :
  pcp_ok w →
  (∀ rc w', add_preconn_qp cpu qp w = Ok (rc, w') → pcp_ok w') ∧
  (∀ p w', alloc_prexeisting_conn cpu ip w = Ok (p, w') → pcp_ok w').
Proof.
  intros Hok. split; intros r w' Hr.
  - unfold add_preconn_qp in Hr. apply kbind_inv in Hr as (q & w1 & H1' & Hr).
    assert (w1 = w) as ->.
    { destruct qp; try done. unfold load_qp, kderef in H1'. case_match; by simplify_eq. }
    apply kbind_inv in Hr as (o & w2 & H2' & Hr). pose proof (keeps_len_get_rb _ _ _ _ H2' Hok) as Hok2.
    destruct o as [p |], qp as [| e | a]; try by injection Hr as _ <-.
    apply kbind_inv in Hr as ([l len] & w3 & H3' & Hr). unfold pcp_list, kderef in H3'.
    destruct (pcp_lists w2 !! (p, cpu)) as [[l' len'] |] eqn:El; [| done].
    injection H3' as <- <- <-. injection Hr as _ <-. intros k l2 n. simpl.
    rewrite lookup_insert_Some. intros [[<- [= <- <-]] | [_ Hl]]; [| by apply (Hok2 k)].
    rewrite (Hok2 _ _ _ El), u32_succ_u32. f_equal. simpl. lia.
  - unfold alloc_prexeisting_conn, search_preconn in Hr. rewrite kbind_assoc, kbind_get in Hr.
    rewrite kbind_ret in Hr. destruct (search_rb_preconn _ _ _) as [p |]; [| by injection Hr as _ <-].
    apply kbind_inv in Hr as (x & w1 & H1' & Hr). unfold pcp_list in H1'.
    apply kbind_inv in H1' as ([l len] & w2 & H2' & [= <- <-]). unfold kderef in H2'.
    destruct (pcp_lists w !! (p, cpu)) as [[l' len'] |] eqn:El; [| done].
    injection H2' as <- <- <-. destruct l' as [| e l']; injection Hr as _ <-; [done |].
    intros k l2 n. simpl. rewrite lookup_insert_Some. intros [[<- [= <- <-]] | [_ Hl]]; [| by apply (Hok k)].
    rewrite (Hok _ _ _ El), u32_pred_u32. f_equal. simpl. lia.
Qed.

(** A pool is a stack: the connection added last is the one taken next. *)
Lemma pool_lifo w cpu p ip l n a q :
  search_rb_preconn (preconn_key w) (preconn_root w) ip = Some p →
  pcp_lists w !! (p, cpu) = Some (l, n) → 0 ≤ n < 4294967296 →
  qps w !! a = Some q → key_addr_d (q_key q) = ip →
  ∃ w1 w2, add_preconn_qp cpu (PObj a) w = Ok (0, w1) ∧ alloc_prexeisting_conn cpu ip w1 = Ok (PObj a, w2) ∧
    pcp_lists w2 = pcp_lists w.
Proof.
  intros Hs Hl Hn Hq Hip. unfold add_preconn_qp, get_rb_preconn, search_preconn. kstep (load_qp_ok w a q Hq).
  rewrite Hip. rewrite !kbind_assoc. kpure. rewrite Hs. kpure. unfold pcp_list at 1.
  erewrite kbind_deref by exact Hl. cbv beta iota. kpure.
  eexists _, _. split; [reflexivity |]. set (w1 := upd_pcp_lists _ w).
  unfold alloc_prexeisting_conn, search_preconn. rewrite kbind_assoc. kpure.
  change (search_rb_preconn (preconn_key w1) (preconn_root w1) ip)
    with (search_rb_preconn (preconn_key w) (preconn_root w) ip). rewrite Hs.
  assert (Hl1 : pcp_lists w1 !! (p, cpu) = Some (a :: l, u32 (n + 1))) by (simpl; apply lookup_insert_eq).
  rewrite kbind_assoc. unfold pcp_list. erewrite kbind_deref by exact Hl1. cbv beta iota. kpure.
  unfold pool_run. kpure. split; [reflexivity |]. simpl.
  rewrite insert_insert_eq. apply insert_id. rewrite Hl. do 2 f_equal.
  rewrite u32_pred_u32, Z.add_simpl_r. symmetry. by apply u32_small.
Qed.

(** A pool whose per-core lists cannot be allocated is freed and then
    linked into the tree all the same. *)
Lemma get_rb_preconn_use_after_free `{!Quiet} w key :
  search_rb_preconn (preconn_key w) (preconn_root w) key = None →
  answer (tick w) ≠ 0 → answer (S (tick w)) = 0 →
  get_rb_preconn key w = Oops UseAfterFree.
Proof.
  intros Hs A0 A1. unfold get_rb_preconn, search_preconn, slab_alloc. rewrite kbind_assoc. kpure. rewrite Hs.
  rewrite kbind_assoc. kstep (kernel_call_quiet C_alloc w). rewrite (proj2 (Z.eqb_neq _ 0) A0), kbind_assoc.
  kstep (eq_refl (fresh_addr (ticked C_alloc w))). kpure. unfold init_preconn. rewrite kbind_assoc. kpure.
  set (w1 := upd_preconns _ _). kstep (kernel_call_quiet C_alloc w1). change (tick w1) with (S (tick w)). rewrite A1.
  change (0 =? 0) with true. cbv iota. kpure. change (negb (- ENOMEM =? 0)) with true. cbv iota. kpure.
  unfold link_preconn. rewrite kbind_assoc. unfold mbind, kproc_bind, kderef. simpl. by rewrite lookup_delete_eq.
Qed.

(** The connections a refill schedules on one core. *)
Definition refill_core (w : world) (preconn : option Z) (ip cpu : Z) : list event :=
  let len := match preconn with
             | Some p => s32 (from_option snd 0 (pcp_lists w !! (p, cpu)))
             | None => 0
             end in
  if len <? PER_CORE_POOL_MAX
  then replicate PER_CORE_POOL_MIN (E_pool_run T_prealloc_connection PNull ip (Some cpu)) else [].

(** A refill schedules four connections on every core whose list is below
    sixteen, for that next hop and that core, and nothing else. *)
Lemma refill_below_max w ip :
  let preconn := search_rb_preconn (preconn_key w) (preconn_root w) ip in
  (∀ p cpu, preconn = Some p → cpu ∈ possible_cpus → is_Some (pcp_lists w !! (p, cpu))) →
  ∃ w', prealloc_connection_pool ip w = Ok (0, w') ∧ pcp_lists w' = pcp_lists w ∧
    log w' = rev (possible_cpus ≫= refill_core w preconn ip) ++ log w.
Proof.
  intros preconn Hl. unfold prealloc_connection_pool, search_preconn. rewrite kbind_assoc. kpure. fold preconn.
  assert (Hgen : ∀ cpus v, (∀ p cpu, preconn = Some p → cpu ∈ cpus → is_Some (pcp_lists w !! (p, cpu))) →
    pcp_lists v = pcp_lists w →
    ∃ v', kforeach cpus (λ cpu,
      len ← match preconn with
            | Some p => '(_, len) ← pcp_list p cpu; mret (s32 len)
            | None => mret 0
            end;
      if len <? PER_CORE_POOL_MAX then
        kforeach (seq 0 PER_CORE_POOL_MIN) (λ _, pool_run T_prealloc_connection PNull ip (Some cpu))
      else mret tt) v = Ok (tt, v') ∧ pcp_lists v' = pcp_lists w ∧
      log v' = rev (cpus ≫= refill_core w preconn ip) ++ log v).
  { induction cpus as [| cpu cpus IH]; intros v Hc Hv; cbn [kforeach]; [by exists v |].
    set (n := match preconn with Some p => s32 (from_option snd 0 (pcp_lists w !! (p, cpu))) | None => 0 end).
    assert (Hn : match preconn with
                 | Some p => '(_, len) ← pcp_list p cpu; mret (s32 len)
                 | None => mret 0
                 end v = Ok (n, v)).
    { unfold n. destruct preconn as [p |]; [| done].
      destruct (Hc p cpu eq_refl ltac:(by left)) as [[l len] E]. unfold pcp_list.
      erewrite kbind_deref by (rewrite Hv; exact E). by rewrite E. }
    rewrite kbind_assoc. kstep Hn.
    assert (Ecore : refill_core w preconn ip cpu = if n <? PER_CORE_POOL_MAX
      then replicate PER_CORE_POOL_MIN (E_pool_run T_prealloc_connection PNull ip (Some cpu)) else []) by done.
    csimpl. rewrite rev_app_distr, Ecore, <- app_assoc. destruct (n <? PER_CORE_POOL_MAX).
    - unfold pool_run. cbn [PER_CORE_POOL_MIN seq kforeach]. kpure.
      destruct (IH (add_log (E_pool_run T_prealloc_connection PNull ip (Some cpu))
        (add_log (E_pool_run T_prealloc_connection PNull ip (Some cpu))
        (add_log (E_pool_run T_prealloc_connection PNull ip (Some cpu))
        (add_log (E_pool_run T_prealloc_connection PNull ip (Some cpu)) v))))) as (v' & Hv' & Hp' & Hlog); [| done |].
      { intros p c Hp Hin. apply Hc; [done | by right]. }
      by exists v'.
    - kpure. destruct (IH v) as (v' & Hv' & Hp' & Hlog); [| done |].
      { intros p c Hp Hin. apply Hc; [done | by right]. }
      by exists v'. }
  destruct (Hgen possible_cpus w Hl eq_refl) as (w' & Hrun & Hp & Hlog). kstep Hrun. by exists w'.
Qed.

(** When the addresses cannot be sent to the next hop the code falls back
    to a direct connection -- which finds its own pre-connected half in the
    tree, takes it for a double SYN, and ends: the connection is never made. *)
Lemma forward_failure_drops `{!Quiet} fuel cpu w s x l t p e es n qe tx st :
  syns w !! s = Some x → search_rb_listner (listner_key w) (listner_root w) (mark x) = Some l →
  has_root w l cpu t → root_ok w t → qps w !! next w = None → socks w !! (next w + 1) = None →
  (* a pre-connected QP for the next hop, not in the tree *)
  search_rb_preconn (preconn_key w) (preconn_root w) (sin_addr x) = Some p →
  pcp_lists w !! (p, cpu) = Some (e :: es, n) → qps w !! e = Some qe → e ∉ inorder t →
  q_tx qe = PObj tx → socks w !! tx = Some st →
  (∀ y, y ∈ inorder t → ¬ same_cstr w y (addresses_key x)) →
  (* the send fails; the allocation that follows does not *)
  answer (tick w) ≤ 0 → answer (S (tick w)) ≠ 0 →
  ∃ w', start_new_pre_connection_syn fuel cpu (PObj s) w = Ok (Some (answer (tick w)), w') ∧
    socks w' = socks w ∧ syns w' !! s = None ∧ ∃ t', roots w' !! (l, cpu) = Some t' ∧ e ∈ inorder t'.
Proof.
  intros Hx Hl Hr Hok Hfresh Hfs Hp Hlist Hqe Hne Htx Hst Hcs A0 A1.
  assert (Hen : e ≠ next w) by (intros ->; congruence).
  unfold start_new_pre_connection_syn. kstep (load_syn_ok w s x Hx).
  unfold alloc_prexeisting_conn, search_preconn. rewrite !kbind_assoc. kpure. rewrite Hp. rewrite kbind_assoc.
  unfold pcp_list. erewrite kbind_deref by exact Hlist. cbv beta iota. unfold pool_run. kpure.
  rewrite decide_False by done. set (w1 := add_log _ (upd_pcp_lists _ w)).
  assert (Hq1 : qps w1 !! e = Some qe) by done. kstep (load_qp_ok w1 e qe Hq1).
  set (q2 := set_key (addresses_key x) qe). kstep (store_qp_ok w1 e qe q2 Hq1). set (w2 := upd_qps _ w1).
  unfold search_listner. rewrite kbind_assoc. kpure.
  change (search_rb_listner (listner_key w2) (listner_root w2) (mark x))
    with (search_rb_listner (listner_key w) (listner_root w) (mark x)). rewrite Hl.
  assert (Hq2 : qps w2 !! e = Some q2) by (simpl; apply lookup_insert_eq). kstep (load_qp_ok w2 e q2 Hq2).
  set (q3 := set_listner (PObj l) q2). kstep (store_qp_ok w2 e q2 q3 Hq2). set (w3 := upd_qps _ w2).
  assert (Ek : ∀ y, y ∈ inorder t → qps w3 !! y = qps w !! y).
  { intros y Hy. assert (e ≠ y) by (intros ->; done). simpl. by rewrite !lookup_insert_ne. }
  assert (Hfr : qp_fresh w3 e q3 l cpu t).
  { split_and!; try done; [simpl; apply lookup_insert_eq | | apply mk_key_good].
    eapply root_ok_ext; [| exact Hok]. intros y Hy. unfold node_key. rewrite Ek by done. split; [by apply Hok | done]. }
  destruct (qp_exists_new w3 cpu e q3 l t TX_QP Hfr) as (t' & He & Hpt & Hok').
  { intros y Hy Hc. apply (Hcs y Hy). unfold same_cstr, node_key in *. by rewrite Ek in Hc. }
  kstep He. rewrite decide_False by done. set (w4 := upd_roots _ w3).
  assert (Hq4 : qps w4 !! e = Some q3) by (simpl; apply lookup_insert_eq). kstep (load_qp_ok w4 e q3 Hq4).
  change (q_tx q3) with (q_tx qe). rewrite Htx. unfold forward_conn_info.
  assert (Hx4 : syns w4 !! s = Some x) by done. rewrite kbind_assoc. kstep (load_syn_ok w4 s x Hx4).
  unfold kernel_sendmsg. rewrite kbind_assoc. assert (Hst4 : socks w4 !! tx = Some st) by done.
  kstep (sock_addr_ok w4 tx st Hst4). rewrite kbind_assoc.
  set (c := C_sendmsg _ _). kstep (kernel_call_quiet c w4). change (tick w4) with (tick w).
  rewrite (proj2 (Z.leb_le _ 0) A0). kpure. rewrite (proj2 (Z.leb_le _ 0) A0). set (w5 := ticked _ w4).
  assert (Hin : e ∈ inorder t') by (rewrite Hpt; by left).
  assert (Hready : syn_ready w5 s x l cpu t').
  { split_and!; try done.
    - split; [apply Hr | simpl; apply lookup_insert_eq].
    - simpl. by rewrite !lookup_insert_ne. }
  assert (Hcs5 : same_cstr w5 e (addresses_key x)).
  { unfold same_cstr, node_key. change (qps w5) with (qps w4). by rewrite Hq4. }
  assert (Htx3 : q_tx q3 ≠ PNull) by (change (q_tx q3) with (q_tx qe); by rewrite Htx).
  destruct (double_syn_dropped fuel cpu w5 s x l t' e q3 Hready Hin Hq4 Hcs5 Htx3)
    as (w6 & Hrun & Es & Ey & Er & _).
  kstep Hrun. exists w6. split_and!; [done | by rewrite Es | rewrite Ey; apply lookup_delete_eq | by exists t'].
Qed.
(** One turn of the listener for pre-connections. *)
Lemma preconn_accept_ok `{!Quiet} w s st :
  socks w !! s = Some st → s < next w →
  answer (tick w) = 0 → answer (S (tick w)) ≠ 0 → answer (S (S (tick w))) = 0 →
  ∃ w', preconn_accept_one (PObj s) w = Ok (None, w') ∧ socks w' = <[next w := S_open]> (socks w) ∧
    head (tail (log w')) = Some (E_pool_run T_start_new_pending_connection (PObj (next w + 1)) 0 None) ∧
    next w' = next w + 2 ∧ tick w' = (tick w + 3)%nat.
Proof.
  intros Hst Hlt A0 A1 A2. unfold preconn_accept_one, kernel_accept. rewrite kbind_assoc.
  kstep (kernel_call_quiet (C_accept (PObj s)) w). rewrite A0. change (0 =? 0) with true. cbv iota.
  rewrite kbind_assoc. set (w0 := ticked _ w). kstep (eq_refl (fresh_addr w0)). kpure.
  change (negb (0 =? 0)) with false. cbv iota. set (w1 := upd_socks _ _). kstep (alloc_qp_quiet w1 A1).
  change (tick w1) with (S (tick w)). set (w2 := upd_qps _ _). set (qp := next w1). set (g := garbage (S (tick w))) in *.
  assert (Hg2 : qps w2 !! qp = Some g) by (simpl; apply lookup_insert_eq).
  kstep (load_qp_ok w2 qp g Hg2). set (q := MkQp _ 0 _ _ _). kstep (store_qp_ok w2 qp g q Hg2).
  unfold pool_run. kpure. unfold kthread_should_stop. rewrite kbind_assoc.
  set (w3 := add_log (E_pool_run _ _ _ _) _). kstep (kernel_call_quiet C_should_stop w3).
  change (tick w3) with (S (S (tick w))). rewrite A2. change (0 =? 0) with true. cbn [negb]. kpure.
  eexists. split; [reflexivity |]. split_and!; try done; simpl; lia.
Qed.

(** The listener serves until an accept fails, whose error it returns with its
    socket closed. *)
Lemma preconn_accept_loop_ends `{!Quiet} k fuel w s :
  (k < fuel)%nat → is_Some (socks w !! s) → s < next w →
  (∀ i, (i < k)%nat → answer (tick w + 3 * i)%nat = 0 ∧ answer (tick w + 3 * i + 1)%nat ≠ 0 ∧
    answer (tick w + 3 * i + 2)%nat = 0) →
  answer (tick w + 3 * k)%nat ≠ 0 →
  ∃ w', preconn_accept_loop fuel (PObj s) w = Ok (Some (answer (tick w + 3 * k)%nat), w') ∧ socks w' !! s = None.
Proof.
  intros Hf Hs Hlt Hall Hend. revert fuel w Hs Hlt Hall Hend Hf.
  induction k as [| k IH]; intros [| fuel] w [st Hst] Hlt Hall Hend Hf; try lia.
  - rewrite Nat.mul_0_r, Nat.add_0_r in *. simpl. unfold preconn_accept_one, kernel_accept. rewrite !kbind_assoc.
    kstep (kernel_call_quiet (C_accept (PObj s)) w). rewrite (proj2 (Z.eqb_neq _ 0) Hend). kpure.
    rewrite (proj2 (Z.eqb_neq _ 0) Hend). cbn [negb]. kpure. set (w1 := ticked _ w).
    unfold server_out. rewrite decide_False by done.
    assert (Hst1 : socks w1 !! s = Some st) by done. kstep (sock_release_ok w1 s st Hst1).
    eexists. split; [reflexivity | by apply lookup_delete_eq].
  - destruct (Hall 0%nat ltac:(lia)) as (A0 & A1 & A2). rewrite Nat.mul_0_r, Nat.add_0_r in A0, A1, A2.
    rewrite Nat.add_1_r in A1. rewrite (Nat.add_comm _ 2) in A2.
    destruct (preconn_accept_ok w s st Hst Hlt A0 A1 A2) as (w1 & R1 & Es1 & _ & En1 & T1).
    assert (ET : ∀ i, (tick w + 3 + 3 * i = tick w + 3 * S i)%nat) by lia.
    destruct (IH fuel w1) as (w' & R & Hsn); rewrite ?T1, ?ET.
    + rewrite Es1, lookup_insert_ne by lia. by eexists.
    + lia.
    + intros i Hi. rewrite ET. apply Hall. lia.
    + done.
    + lia.
    + exists w'. split; [| done]. simpl. kstep R1. by rewrite R, T1, ET.
Qed.
End preconn_lemmas.

(** ** From hop to hop *)

Lemma stack_bytes_length `{Env} n : length (stack_bytes n) = n.
Proof. unfold stack_bytes. by rewrite length_fmap, length_seq. Qed.

(** A record forwarded over a socket that takes all of it. *)
Lemma forward_sends (E : Env) (w : world) s tx x st :
  @Quiet E → syns w !! s = Some x → socks w !! tx = Some st → 40 ≤ answer (tick w) →
  let sent := addresses_bytes (stack_bytes 8) x in
  ∃ w', forward_conn_info (PObj tx) (PObj s) w = Ok (40, w') ∧ head (log w') = Some (E_send (PObj tx) sent).
Proof.
  intros HQ Hx Hst Ha sent. assert (Hl : length sent = 40%nat) by apply addresses_bytes_length, stack_bytes_length.
  unfold forward_conn_info. kstep (load_syn_ok w s x Hx). fold sent. rewrite (take_ge sent) by (rewrite Hl; done).
  unfold kernel_sendmsg. kstep (sock_addr_ok w tx st Hst). kstep (kernel_call_quiet (C_sendmsg (PObj tx) (Z.of_nat (length sent))) w).
  rewrite (proj2 (Z.leb_gt _ 0)) by lia. kpure. rewrite (take_ge sent) by lia. rewrite Hl. eexists. split; [done | done].
Qed.

(** What a next hop makes of a record and what follows it. *)
Lemma next_hop_reads (E : Env) (w : world) qp q rx st pad x more :
  @Quiet E → qps w !! qp = Some q → q_rx q = PObj rx → socks w !! rx = Some st → 0 < answer (tick w) →
  length pad = 8%nat → good_addresses x → payload (tick w) = addresses_bytes pad x ++ more →
  ∃ w', preconn_wait_for_next_hop (PObj qp) w = Ok ((40, x), w') ∧
    head (log w') = Some (E_recv (PObj rx) (addresses_bytes pad x)).
Proof.
  intros HQ Hq Hrx Hst Ha Hpad Hx Hpay. pose proof (addresses_bytes_length pad x Hpad) as Hl.
  unfold preconn_wait_for_next_hop. kstep (load_qp_ok w qp q Hq). rewrite Hrx. unfold kernel_recvmsg_waitall.
  rewrite !kbind_assoc. kstep (sock_addr_ok w rx st Hst). rewrite !kbind_assoc, kbind_get, kbind_assoc.
  kstep (kernel_call_quiet (C_recvmsg (PObj rx) SIZEOF_ADDRESSES) w). rewrite (proj2 (Z.leb_gt _ 0)) by lia. kpure.
  assert (Et : take (Z.to_nat SIZEOF_ADDRESSES) (payload (tick w)) = addresses_bytes pad x)
    by (rewrite Hpay; apply take_app_length'; by rewrite Hl).
  rewrite Et, Hl, drop_ge by (by rewrite stack_bytes_length). rewrite app_nil_r, addresses_of_bytes by done.
  eexists. split; done.
Qed.

(** C32. The record of a connection from hop to hop, between two hosts. A host
    whose socket takes all it is given forwards the record of its SYN in one
    send of 40 bytes; the next hop, which gets these bytes and whatever the
    client sends after them, in whatever pieces, reads exactly the 40 and has
    the record that was forwarded. *)
Theorem next_hop_gets (E1 E2 : Env) (w1 w2 : world) s tx x st qp q rx st' :
  @Quiet E1 → syns w1 !! s = Some x → socks w1 !! tx = Some st → good_addresses x → 40 ≤ @answer E1 (tick w1) →
  @Quiet E2 → qps w2 !! qp = Some q → q_rx q = PObj rx → socks w2 !! rx = Some st' → 0 < @answer E2 (tick w2) →
  ∃ w1' sent, @forward_conn_info E1 (PObj tx) (PObj s) w1 = Ok (40, w1') ∧
    head (log w1') = Some (E_send (PObj tx) sent) ∧ length sent = 40%nat ∧
    ∀ more, @payload E2 (tick w2) = sent ++ more →
      ∃ w2', @preconn_wait_for_next_hop E2 (PObj qp) w2 = Ok ((40, x), w2') ∧
        head (log w2') = Some (E_recv (PObj rx) sent).
Proof.
  intros HQ1 Hx Hst Hg Ha HQ2 Hq Hrx Hst' Ha'. destruct (forward_sends E1 w1 s tx x st HQ1 Hx Hst Ha) as (w1' & Hr & Hh).
  pose proof (@stack_bytes_length E1 8) as Hp.
  exists w1', (addresses_bytes (@stack_bytes E1 8) x). split_and!; [done | done | by apply addresses_bytes_length |].
  intros more Hm. by apply (next_hop_reads E2 w2 qp q rx st' _ x more).
Qed.

(** ** Concrete runs

    The next hop 33 has the pool 60 with the connection 1 in it on core 0. *)

(** The record of the SYN 50, then two bytes of the client, come in. *)
Definition hop_bytes : list Z := addresses_bytes (replicate 8 0) some_addresses.
Definition hop_env : Env := calm (λ _, 40) (λ _, hop_bytes ++ [1; 2]) (λ _, no_addr).
Definition sending_world : world := upd_syns <[50 := some_addresses]> (upd_socks <[20 := S_open]> (empty_world 100)).
Definition receiving_world : world :=
  upd_qps <[1 := MkQp some_key 0 PNull PNull (PObj 21)]> (upd_socks <[21 := S_open]> (empty_world 100)).

Lemma next_hop_gets_witness :
  ∃ w1 w2, @forward_conn_info (always 40) (PObj 20) (PObj 50) sending_world = Ok (40, w1) ∧
    @preconn_wait_for_next_hop hop_env (PObj 1) receiving_world = Ok ((40, some_addresses), w2).
Proof.
  destruct (next_hop_gets (always 40) hop_env sending_world receiving_world 50 20 some_addresses S_open
    1 (MkQp some_key 0 PNull PNull (PObj 21)) 21 S_open) as (w1 & sent & Hf & Hh & _ & Hw).
  - apply calm_quiet.
  - reflexivity.
  - reflexivity.
  - unfold good_addresses, good_sockaddr, some_addresses, AF_INET. simpl. lia.
  - done.
  - apply calm_quiet.
  - reflexivity.
  - reflexivity.
  - reflexivity.
  - done.
  - assert (E : sent = hop_bytes).
    { assert (Hc := Hf). vm_compute in Hc. injection Hc as <-. vm_compute in Hh. injection Hh as <-. by vm_compute. }
    destruct (Hw [1; 2]) as (w2 & Hr & _); [rewrite E; reflexivity |]. exists w1, w2. split; [exact Hf | exact Hr].
Defined.

Lemma build_ip_octets_witness : le_bytes 4 (htonl (u32 (build_ip [10; 154; 0; 21]))) = [10; 154; 0; 21].
Proof. apply build_ip_octets; unfold is_byte; lia. Defined.

Definition pooled_qp : cbn_qp := MkQp some_key 0 PNull (PObj 21) PNull.
Definition pool_world : world :=
  upd_preconns <[60 := 33]> (set_preconn_root (Node Leaf 60 Leaf) (upd_pcp_lists <[(60, 0) := ([1], 1)]>
    (upd_socks <[21 := S_open]> (upd_qps <[1 := pooled_qp]> (listening Leaf (empty_world 100)))))).

Lemma calm_pool_rely ans pay nm : @PoolRely (calm ans pay nm).
Proof. by intros n w. Qed.

Lemma pool_world_ok : pcp_ok pool_world.
Proof.
  intros k l n. simpl. rewrite lookup_insert_Some. intros [[_ [= <- <-]] | [_ Hl]]; [done |].
  by rewrite lookup_empty in Hl.
Qed.

Lemma pool_len_invariant_witness :
  ∃ w', alloc_prexeisting_conn 0 33 pool_world = Ok (PObj 1, w') ∧ pcp_ok w'.
Proof.
  destruct (alloc_prexeisting_conn 0 33 pool_world) as [[p w'] | e] eqn:E; [| by vm_compute in E].
  assert (p = PObj 1) as -> by (vm_compute in E; congruence).
  exists w'. split; [done |].
  exact (proj2 (@pool_len_invariant (always 1) spine_lib (calm_pool_rely _ _ _) 0 33 PNull pool_world pool_world_ok) _ _ E).
Defined.

Lemma get_rb_preconn_use_after_free_witness :
  @get_rb_preconn (calm (λ n, match n with O => 1 | _ => 0 end) (λ _, []) (λ _, no_addr)) spine_lib 33 (empty_world 100) =
  Oops UseAfterFree.
Proof. by apply (@get_rb_preconn_use_after_free _ spine_lib (calm_quiet _ _ _)). Defined.

(** On a machine of the four cores of [calm], no pool yet: sixteen connections. *)
Lemma refill_below_max_witness :
  ∃ w', @prealloc_connection_pool (always 1) 33 (empty_world 100) = Ok (0, w') ∧ length (log w') = 16%nat.
Proof.
  destruct (@refill_below_max (always 1) (empty_world 100) 33) as (w' & Hr & _ & Hl); [done |].
  exists w'. split; [exact Hr | by rewrite Hl].
Defined.

Definition send_fails : Env := calm (λ n, match n with O => 0 | _ => 1 end) (λ _, []) (λ _, no_addr).

Lemma forward_failure_drops_witness :
  let w := upd_syns <[50 := set_next_hop 33 some_addresses]> pool_world in
  ∃ w', @start_new_pre_connection_syn send_fails spine_lib 5 0 (PObj 50) w = Ok (Some 0, w') ∧ syns w' !! 50 = None.
Proof.
  intros w.
  destruct (@forward_failure_drops send_fails spine_lib spine_laws (calm_quiet _ _ _) 5 0 w 50
    (set_next_hop 33 some_addresses) 9 Leaf 60 1 [] 1 pooled_qp 21 S_open) as (w' & Hr & _ & Hs & _); try done.
  - apply root_ok_Leaf.
  - by apply not_elem_of_nil.
  - intros y Hy. by apply elem_of_nil in Hy.
  - by exists w'.
Defined.
