(* ===== verification/Flow.v ===== *)
(** * A connection from its SYN to its two halves

    The parts of the proxy put together: the SYN passes the ingress hook, its
    probe is sent and caught by the egress hook, the pool runs the function the
    hook asked for, the tenant's server accepts the client's connection and the
    pool runs the function it asked for.  The two functions then have QPs with
    the same key on the same core, the configuration [Pairing] starts from. *)

From stdpp Require Import base list gmap sets strings.
From Stdlib Require Import ZArith Lia.
From S2P Require Import Prelude RbTree Keys DataTree World Qp Relay Hooks Connect Pairing Crowd Server Preconn.

Section flow.
Context `{Env} `{RbLib Z}.

(** The core a thread without a core of its own is on, and the pair of sockets
    on the stack of the thread that asked for [start_half_duplex]. *)
Variables (running : Z) (frame : ptr → sockets).

(** What a thread of the pool calls for an entry of the history
    ([elem->pool_task(elem->data)] of [pipe_loop_task]). *)
Definition pool_task (fuel : nat) (e : event) : option (wproc (option Z)) :=
  match e with
  | E_pool_run f data arg core =>
      let cpu := default running core in
      Some match f with
      | T_start_probe_syn => rc ← start_probe_syn data; mret (Some rc)
      | T_start_new_connection_syn => start_new_connection_syn fuel cpu data
      | T_start_new_connection => start_new_connection fuel data
      | T_start_new_pre_connection_syn => start_new_pre_connection_syn fuel cpu data
      | T_start_new_pending_connection => start_new_pending_connection fuel cpu data
      | T_start_half_duplex => start_half_duplex fuel (frame data, data)
      | T_split_server => split_server fuel arg
      | T_prealloc_connection => rc ← prealloc_connection cpu arg; mret (Some rc)
      | T_prealloc_connection_pool => rc ← prealloc_connection_pool arg; mret (Some rc)
      end
  | _ => None
  end.

(** The last function the pool was asked to run. *)
Fixpoint last_run (l : list event) : option event :=
  match l with
  | [] => None
  | E_pool_run f data arg cpu :: _ => Some (E_pool_run f data arg cpu)
  | _ :: l => last_run l
  end.

Definition next_task (fuel : nat) (w : world) : option (wproc (option Z)) := last_run (log w) ≫= pool_task fuel.

(** The path of a connection.  [syn] is its SYN, [skb] the probe as it leaves
    the host, [l] the tenant's listener and [ls] its socket.  The server-side
    half reaches the tree with the QP [b] in [w4], the client-side half with
    the QP [a] in [w6], both on [cpu]. *)
Record arrival (fuel : nat) (syn skb : sk_buff) (l ls mark cpu s a b : Z) (w0 w1 w2 w3 w4 w5 w6 : world) : Prop := {
  ar_ingress : ∃ o, o ∈ cbn_nf_hooks ∧ hooknum o = NF_INET_PRE_ROUTING ∧ run_hook o syn w0 = Ok ((NF_ACCEPT, syn), w1);
  ar_probe : ∃ task rc, next_task fuel w1 = Some task ∧ task w1 = Ok (Some rc, w2);
  ar_sent : ∃ raw addr, head (log w2) = Some (E_send_raw raw (h_ip (skb_headers skb)) (h_tcp (skb_headers skb)) addr);
  ar_egress : ∃ o, o ∈ cbn_nf_hooks ∧ hooknum o = NF_INET_POST_ROUTING ∧ run_hook o skb w2 = Ok ((NF_DROP, skb), w3);
  ar_syn : ∃ task, next_task fuel w3 = Some task ∧ task w3 = syn_half fuel cpu (PObj s) (PObj b) w4;
  ar_accept : accept_one (PObj l) (PObj ls) mark w4 = Ok (None, w5);
  ar_client : ∃ task, next_task fuel w5 = Some task ∧ task w5 = client_relay fuel cpu (PObj a) w6;
}.
End flow.

Section flow_lemmas.
Context `{Quiet} `{RbLaws Z}.
Variables (running : Z) (frame : ptr → sockets).
Implicit Types w : world.

(** What the hooks leave alone. *)
Definition hook_frame w w' : Prop :=
  qps w' = qps w ∧ listners w' = listners w ∧ listner_root w' = listner_root w ∧ roots w' = roots w ∧
  socks w' = socks w ∧ next w ≤ next w' ∧ same_wakes w w'.

#[local] Instance hook_frame_refl : Reflexive hook_frame.
Proof. intros w. by split_and!. Qed.

#[local] Instance hook_frame_trans : Transitive hook_frame.
Proof. intros w1 w2 w3 (?&?&?&?&?&?&?) (?&?&?&?&?&?&?). split_and!; first [congruence | lia | by etransitivity]. Qed.

Lemma frame_call c : keeps hook_frame (kernel_call c).
Proof. intros w rc w' Hr. rewrite kernel_call_quiet in Hr. injection Hr as <- <-. by split_and!. Qed.

Lemma frame_fresh : keeps hook_frame fresh_addr.
Proof. intros w a w' [= <- <-]. split_and!; try done. simpl. lia. Qed.

Lemma frame_sock s : keeps hook_frame (sock_addr s).
Proof. intros w a w' Hr. apply sock_addr_inv in Hr as (_ & -> & _). done. Qed.

#[local] Hint Resolve frame_call frame_fresh frame_sock : keeps.

Lemma frame_ingress priv skb : keeps hook_frame (cbn_ingress_hook priv skb).
Proof. unfold cbn_ingress_hook, search_listner, slab_alloc, pool_run. kkeeps; by apply keeps_modify. Qed.

Lemma frame_probe p : keeps hook_frame (start_probe_syn p).
Proof. unfold start_probe_syn, load_listner. kkeeps; by apply keeps_modify. Qed.

(** The SYN's records are touched at the second hook only. *)
Definition same_syns w w' : Prop := syns w' = syns w.

#[local] Instance same_syns_refl : Reflexive same_syns.
Proof. by intros w. Qed.

#[local] Instance same_syns_trans : Transitive same_syns.
Proof. intros w1 w2 w3. unfold same_syns. congruence. Qed.

Lemma syns_call c : keeps same_syns (kernel_call c).
Proof. intros w rc w' Hr. rewrite kernel_call_quiet in Hr. by injection Hr as <- <-. Qed.

Lemma syns_fresh : keeps same_syns fresh_addr.
Proof. by intros w a w' [= <- <-]. Qed.

Lemma syns_sock s : keeps same_syns (sock_addr s).
Proof. intros w a w' Hr. by apply sock_addr_inv in Hr as (_ & -> & _). Qed.

#[local] Hint Resolve syns_call syns_fresh syns_sock : keeps.

Lemma syns_ingress priv skb : keeps same_syns (cbn_ingress_hook priv skb).
Proof. unfold cbn_ingress_hook, search_listner, slab_alloc, pool_run. kkeeps; by apply keeps_modify. Qed.

Lemma syns_probe p : keeps same_syns (start_probe_syn p).
Proof. unfold start_probe_syn, load_listner. kkeeps; by apply keeps_modify. Qed.

Lemma frame_egress skb : keeps hook_frame (cbn_egress_hook skb).
Proof.
  unfold cbn_egress_hook, build_addresses, get_cbn_probe, slab_alloc, load_syn, store_syn, pool_run.
  kkeeps; by apply keeps_modify.
Qed.

(** A tenant is served: its listener [l] has a raw socket and a listening one,
    [ls], the tree of the core has no QP of this connection, and addresses from
    [next] on are not in use. *)
Record tenant_serves (syn : sk_buff) (l ls cpu : Z) (t : tree Z) w : Prop := {
  ts_syn : trace_iph syn = true;
  ts_listner : search_rb_listner (listner_key w) (listner_root w) (skb_mark syn) = Some l;
  ts_raw : ∃ L r st, listners w !! l = Some L ∧ l_raw L = PObj r ∧ socks w !! r = Some st;
  ts_sock : is_Some (socks w !! ls);
  ts_root : roots w !! (l, cpu) = Some t;
  ts_tree : root_ok w t;
  ts_new : ∀ y, y ∈ inorder t → ¬ same_cstr w y (syn_key syn);
  ts_unused : ∀ y, next w ≤ y → qps w !! y = None ∧ socks w !! y = None;
}.

Lemma tenant_frame syn l ls cpu t w w' :
  hook_frame w w' → tenant_serves syn l ls cpu t w → tenant_serves syn l ls cpu t w'.
Proof.
  intros (Eq & El & Elr & Er & Es & En & _) [].
  assert (Ek : ∀ y, node_key w' y = node_key w y) by (intros y; unfold node_key; by rewrite Eq).
  split; try done.
  - unfold listner_key. by rewrite El, Elr.
  - by rewrite El, Es.
  - by rewrite Es.
  - by rewrite Er.
  - eapply root_ok_ext; [| done]. intros y Hy. rewrite Eq. split; [by apply ts_tree0 | apply Ek].
  - intros y Hy. unfold same_cstr. rewrite Ek. by apply ts_new0.
  - intros y Hy. rewrite Eq, Es. apply ts_unused0. lia.
Qed.

(** The probe of a SYN, leaving on a device that is not a tunnel. *)
Definition probe_leaves (syn skb : sk_buff) : Prop :=
  skb_headers skb = MkHeaders (ip_hdr syn) (probe_tcphdr (skb_transport_header syn)) [] ∧
  skb_mark skb = skb_mark syn ∧ is_out_gue skb = false.

Lemma probe_leaves_of syn skb : trace_iph syn = true → probe_leaves syn skb → is_probe_of syn skb.
Proof.
  intros Ht (Hskb & Hmark & _). unfold trace_iph in Ht. apply andb_true_iff in Ht as [Ht Hm].
  destruct (Z.eqb_spec (protocol (ip_hdr syn)) 6) as [Hproto |]; [| done]. apply negb_true_iff, Z.eqb_neq in Hm.
  unfold is_probe_of, ip_hdr at 1, skb_transport_header at 1. rewrite Hskb, Hmark. by split_and!.
Qed.

(** From the SYN to the request for the server-side half. *)
Lemma hooks_stage fuel syn skb l ls t w :
  let cpu := qp2cpu num_online_cpus (syn_key syn) in
  tenant_serves syn l ls cpu t w → probe_leaves syn skb →
  answer (tick w) ≠ 0 → answer (tick w + 2)%nat ≠ 0 →
  ∃ w1 w2 w3 s x,
    (∃ o, o ∈ cbn_nf_hooks ∧ hooknum o = NF_INET_PRE_ROUTING ∧ run_hook o syn w = Ok ((NF_ACCEPT, syn), w1)) ∧
    (∃ task rc, next_task running frame fuel w1 = Some task ∧ task w1 = Ok (Some rc, w2)) ∧
    (∃ raw addr, head (log w2) = Some (E_send_raw raw (h_ip (skb_headers skb)) (h_tcp (skb_headers skb)) addr)) ∧
    (∃ o, o ∈ cbn_nf_hooks ∧ hooknum o = NF_INET_POST_ROUTING ∧ run_hook o skb w2 = Ok ((NF_DROP, skb), w3)) ∧
    next_task running frame fuel w3 = Some (start_new_connection_syn fuel cpu (PObj s)) ∧
    tenant_serves syn l ls cpu t w3 ∧ tick w3 = (tick w + 3)%nat ∧ hook_frame w w3 ∧
    next w ≤ s < next w3 ∧ (∀ y, y ≠ s → syns w3 !! y = syns w !! y) ∧
    syns w3 !! s = Some x ∧ addresses_key x = syn_key syn ∧ mark x = s32 (skb_mark syn).
Proof.
  intros cpu Hts Hskb A0 A2. pose proof Hts as [Ht Hl (L & r & st & HL & Hraw & Hst) _ _ _ _ _].
  destruct (ingress_syn syn w l Ht Hl A0) as (p & w1 & R1 & Hp & Hlog1 & T1).
  pose proof (frame_ingress _ _ _ _ _ R1) as F1. pose proof F1 as (_ & El1 & _ & _ & Es1 & _).
  set (pr := {| p_iphdr := ip_hdr syn; p_tcphdr := skb_transport_header syn; p_listner := PObj l |}) in *.
  destruct (start_probe_sends w1 p pr l L r st) as (w2 & R2 & _ & Hlog2 & T2);
    [by rewrite Hp, lookup_insert_eq | done | by rewrite El1 | done | by rewrite Es1 |].
  pose proof (frame_probe _ _ _ _ R2) as F2. pose proof (probe_leaves_of syn skb Ht Hskb) as Hof.
  assert (A2' : answer (tick w2) ≠ 0) by (rewrite T2, T1; by rewrite Nat.add_comm in A2).
  destruct (egress_probe syn skb w2 Hof A2') as (s & x & w3 & Hs & Hsyn & Hk & Hmk & Hlog3 & T3 & R3).
  destruct Hskb as (Hh & Hm & Hgue). rewrite Hgue in R3. set (w4 := add_log _ w3) in *.
  pose proof (frame_egress _ _ _ _ R3) as F3.
  assert (F : hook_frame w w4) by (etransitivity; [exact F1 | etransitivity; [exact F2 | exact F3]]).
  exists w1, w2, w4, s, x. split_and!; try done.
  - eexists. split; [by right; left |]. split; [done |]. cbn [run_hook hook priv]. by kstep R1.
  - eexists _, _. split; [unfold next_task; by rewrite Hlog1 |]. by kstep R2.
  - eexists _, _. rewrite Hlog2, Hh. done.
  - eexists. split; [by left | done].
  - by eapply tenant_frame.
  - change (tick w4) with (tick w3). rewrite T3, T2, T1. lia.
  - destruct F1 as (_ & _ & _ & _ & _ & N1 & _), F2 as (_ & _ & _ & _ & _ & N2 & _). lia.
  - apply Hs.
  - intros y Hy. change (syns w4) with (syns w3). rewrite Hsyn, lookup_insert_ne, interfere_quiet by done.
    change (syns w2 !! y = syns w !! y). by rewrite (syns_probe _ _ _ _ R2), (syns_ingress _ _ _ _ _ R1).
  - change (syns w4) with (syns w3). by rewrite Hsyn, lookup_insert_eq.
  - by rewrite Hmk, Hm.
Qed.

(** What the clock [n] allots to the server-side half and to the accepted
    connection: every request is granted, and the names of the accepted socket
    are those of the SYN. *)
Record grants (syn : sk_buff) (n : nat) : Prop := {
  gr_alloc : answer n ≠ 0;
  gr_accept : answer (n + 1)%nat = 0;
  gr_qp : answer (n + 2)%nat ≠ 0;
  gr_stop : answer (n + 3)%nat = 0;
  gr_half : ∀ i, (i < 5)%nat → answer (n + 4 + i)%nat = 0;
  gr_names : syn_key syn =
    mk_key (sin_port (name (n + 7)%nat)) (sin_port (name (n + 5)%nat))
      (s_addr (name (n + 7)%nat)) (s_addr (name (n + 5)%nat));
}.

(** A SYN record of the tenant is ready for the server-side half. *)
Lemma serves_ready syn l ls cpu t w s x :
  tenant_serves syn l ls cpu t w → syns w !! s = Some x → mark x = s32 (skb_mark syn) → answer (tick w) ≠ 0 →
  syn_ready w s x l cpu t.
Proof.
  intros [] Hx Hm Ha. destruct ts_raw0 as (L & r & st & HL & _). split_and!; try done.
  - rewrite Hm. unfold search_rb_listner in *. by rewrite (s32_small _ (s32_range _)).
  - by apply ts_unused0.
  - apply ts_unused0. lia.
Qed.

(** Two new QPs with one key, and nothing else in the tree touched. *)
Lemma both_apart w w6 l cpu s a b sx k t :
  qps w6 !! a = Some (MkQp k 0 (PObj l) PNull (PObj sx)) →
  qps w6 !! b = Some (MkQp k 0 (PObj l) (PErr EINVAL) PNull) →
  (∀ y, y ∈ inorder t → qps w6 !! y = qps w !! y) →
  has_root w6 l cpu t → root_ok w t → (∀ y, y ∈ inorder t → ¬ same_cstr w y k) →
  a ∉ inorder t → b ∉ inorder t → is_Some (syns w6 !! s) → sx ∉ dom (socks w) →
  dom (socks w6) = {[sx]} ∪ dom (socks w) → (∀ z, z ∈ {[sx]} ∪ dom (socks w) → z < next w6) →
  apart l cpu s a b sx k (dom (socks w)) RX_QP (HMeet (PObj a)) (HMeet (PObj b)) w6 t.
Proof.
  intros Ha Hb Eqs Hroot Hok Hnew Hna Hnb Hsyn Hsx Hdom Hlt.
  assert (Ek : ∀ y, y ∈ inorder t → node_key w6 y = node_key w y) by (intros y Hy; unfold node_key; by rewrite Eqs).
  split; try done.
  - eapply root_ok_ext; [| exact Hok]. intros y Hy. rewrite Eqs by done. split; [by apply Hok | by apply Ek].
  - intros y Hy. unfold same_cstr. rewrite Ek by done. by apply Hnew.
  - by rewrite Hdom, union_comm_L.
  - intros z Hz. apply Hlt. by rewrite union_comm_L.
Qed.

(** From the two requests to the two halves on their core. *)
Lemma halves_stage fuel syn l ls t w s x :
  let cpu := qp2cpu num_online_cpus (syn_key syn) in
  tenant_serves syn l ls cpu t w → grants syn (tick w) →
  syns w !! s = Some x → addresses_key x = syn_key syn → mark x = s32 (skb_mark syn) →
  ∃ w4 w5 w6 a b sx,
    start_new_connection_syn fuel cpu (PObj s) w = syn_half fuel cpu (PObj s) (PObj b) w4 ∧
    accept_one (PObj l) (PObj ls) (s32 (skb_mark syn)) w4 = Ok (None, w5) ∧
    next_task running frame fuel w5 = Some (start_new_connection fuel (PObj a)) ∧
    start_new_connection fuel (PObj a) w5 = client_relay fuel cpu (PObj a) w6 ∧
    a ≠ b ∧ next w ≤ a < next w6 ∧ next w ≤ b < next w6 ∧
    listners w6 = listners w ∧ roots w6 = roots w ∧ syns w6 = syns w ∧ socks w6 = <[sx := S_open]> (socks w) ∧
    same_wakes w w6 ∧
    (∀ y, y ≠ a → y ≠ b → qps w6 !! y = qps w !! y) ∧
    apart l cpu s a b sx (syn_key syn) (dom (socks w)) RX_QP (HMeet (PObj a)) (HMeet (PObj b)) w6 t.
Proof.
  intros cpu Hts Hg Hx Hk Hm. pose proof Hts as [_ _ (L & r & st & HL & _) [stl Hls] Hr Hok Hnew Hun].
  destruct Hg as [A0 A1 A2 A3 A4 Hn].
  destruct (syn_starts fuel cpu w s x l t (serves_ready _ _ _ _ _ _ _ _ Hts Hx Hm A0)) as [_ R4].
  set (w4 := syn_world w x l) in *. set (b := next w) in *.
  assert (T4 : tick w4 = S (tick w)) by done. rewrite !Nat.add_succ_r, !Nat.add_0_r in *.
  destruct (accept_ok w4 l L ls stl (s32 (skb_mark syn))) as
    (q & w5 & R5 & Eq5 & Hrx & Htid & Hl5 & Href & Es5 & Hlog & Hlog' & _ & El5 & Er5 & Ey5 & En5 & T5 & Ew5);
    [done | done | by rewrite T4 | by rewrite T4 | by rewrite T4 | apply s32_range |].
  set (sx := next w4) in *. set (a := next w4 + 1) in *.
  destruct (client_starts fuel w5 a q sx l (syn_key syn)) as (w6 & R6 & Eq6 & El6 & Er6 & Es6 & En6 & Ey6 & Ew6).
  { split_and!; try done; rewrite ?Eq5, ?Es5, ?lookup_insert_eq; try done.
    - intros i Hi. rewrite T5, T4. replace (S (tick w) + 3 + i)%nat with (S (S (S (S (tick w)))) + i)%nat by lia. by apply A4.
    - rewrite Hn, T5, T4. f_equal; f_equal; f_equal; lia. }
  assert (Hout : ∀ y, next w ≤ y → y ∉ inorder t).
  { intros y Hy Hin. destruct (proj2 Hok y Hin) as [z Hz]. by rewrite (proj1 (Hun y Hy)) in Hz. }
  assert (Hb : b ∉ inorder t) by (apply Hout; unfold b; lia).
  assert (Ha : a ∉ inorder t) by (apply Hout; unfold a; simpl; lia).
  assert (Hab : a ≠ b) by (unfold a, b; simpl; lia).
  assert (Hsx : sx ∉ dom (socks w)).
  { apply not_elem_of_dom. apply Hun. unfold sx; simpl; lia. }
  assert (Nab : a = next w + 2 ∧ b = next w ∧ next w6 = next w + 3).
  { assert (Esx : sx = next w + 1) by done. rewrite En6, En5. unfold a, b. fold sx. lia. }
  assert (Eqs : ∀ y, y ≠ a → y ≠ b → qps w6 !! y = qps w !! y).
  { intros y Hya Hyb. rewrite Eq6, Eq5, !lookup_insert_ne by done. simpl. by rewrite !lookup_insert_ne. }
  exists w4, w5, w6, a, b, sx. split_and!; try done; try lia;
    [| by rewrite El6, El5 | by rewrite Er6, Er5 | by rewrite Ey6, Ey5 | by rewrite Es6, Es5
    | intros y; by rewrite Ew6, Ew5 |].
  { unfold next_task. destruct (log w5) as [| e [| e' lg]]; try done. injection Hlog' as ->. by injection Hlog as ->. }
  apply both_apart with (w := w); try done.
  - by rewrite Eq6, lookup_insert_eq.
  - rewrite Eq6, Eq5, !lookup_insert_ne by done. simpl. rewrite lookup_insert_eq. unfold syn_qp. by rewrite Hk.
  - intros y Hy. apply Eqs; by intros ->.
  - split; [rewrite El6, El5; by eexists | by rewrite Er6, Er5].
  - rewrite Ey6, Ey5. by eexists.
  - rewrite Es6, Es5. apply dom_insert_L.
  - intros z Hz. rewrite En6, En5. apply elem_of_union in Hz as [->%elem_of_singleton | Hz]; [unfold sx; lia |].
    apply elem_of_dom in Hz as [? Hz]. destruct (Z.lt_ge_cases z (next w)) as [| Hge]; [unfold sx; simpl; lia |].
    by rewrite (proj2 (Hun z Hge)) in Hz.
Qed.
(** The path of a connection from its SYN, with what it leaves alone. *)
Lemma arrival_ready fuel syn skb l ls t w :
  let cpu := qp2cpu num_online_cpus (syn_key syn) in
  tenant_serves syn l ls cpu t w → probe_leaves syn skb →
  answer (tick w) ≠ 0 → answer (tick w + 2)%nat ≠ 0 → grants syn (tick w + 3) →
  ∃ s a b sx w1 w2 w3 w4 w5 w6,
    arrival running frame fuel syn skb l ls (s32 (skb_mark syn)) cpu s a b w w1 w2 w3 w4 w5 w6 ∧
    arrives (MkConn l cpu s a b sx (syn_key syn)) w w6 ∧ socks w6 = <[sx := S_open]> (socks w) ∧
    a ≠ b ∧ apart l cpu s a b sx (syn_key syn) (dom (socks w)) RX_QP (HMeet (PObj a)) (HMeet (PObj b)) w6 t.
Proof.
  intros cpu Hts Hskb A0 A2 Hg.
  destruct (hooks_stage fuel syn skb l ls t w Hts Hskb A0 A2) as
    (w1 & w2 & w3 & s & x & R1 & R2 & Hsent & R3 & N3 & Hts3 & T3 & (Eq3 & El3 & _ & Er3 & Es3 & En3 & Ew3) & Hs & Ey3 & Hx & Hk & Hm).
  rewrite <- T3 in Hg.
  destruct (halves_stage fuel syn l ls t w3 s x Hts3 Hg Hx Hk Hm) as
    (w4 & w5 & w6 & a & b & sx & R4 & R5 & N5 & R6 & Hab & Ha & Hb & El6 & Er6 & Ey6 & Es6 & Ew6 & Eq6 & Hap).
  exists s, a, b, sx, w1, w2, w3, w4, w5, w6. split; [split; by eauto |]. rewrite Es3 in Hap.
  split; [| split_and!; [congruence | done | done]]. split; simpl; try done; try congruence.
  - apply mk_key_good.
  - by exists t.
  - intros y Hya Hyb. by rewrite Eq6, Eq3.
  - intros y Hy. by rewrite Ey6, Ey3.
  - split_and!; lia.
Qed.

(** Both halves of a connection that arrived have left. *)
Lemma arrived_left l cpu s a b sx k t w w6 st :
  arrives (MkConn l cpu s a b sx k) w w6 → socks w6 = <[sx := S_open]> (socks w) →
  (∀ y, next w ≤ y → qps w !! y = None ∧ socks w !! y = None) → a ≠ b → good_key k →
  apart l cpu s a b sx k (dom (socks w)) RX_QP (HMeet (PObj a)) (HMeet (PObj b)) w6 t →
  pair_reach cpu (PObj s) (pair_start a b w6) st → gone (at_rx st) = true → gone (at_tx st) = true →
  qps (shared st) = qps w ∧ socks (shared st) = socks w ∧ syns (shared st) !! s = None ∧
  ∃ u, roots (shared st) !! (l, cpu) = Some u ∧ ∀ y, y ∈ inorder u ↔ y ∈ inorder t.
Proof.
  intros Har Es Hun Hab Hk Hap Hr Hg Hg'.
  destruct (pair_left_clean _ _ _ _ _ _ _ _ Hab Hk _ _ _ Hap Hr Hg Hg') as ((Na & Nb & Ns) & Hso & Hf & u & Hu & Hua & Hub).
  destruct Har as [_ _ _ _ _ Hq _ _ (Ha & Hb & _)]. simpl in Hq, Ha, Hb. split_and!; [| | done |].
  - apply map_eq. intros y. destruct (decide (y = a)) as [-> |]; [rewrite Na; symmetry; apply Hun; lia |].
    destruct (decide (y = b)) as [-> |]; [rewrite Nb; symmetry; apply Hun; lia |].
    rewrite <- Hq by done. by apply Hf.
  - rewrite Hso, Es, delete_insert_id; [done |]. apply not_elem_of_dom. apply Hap.
  - exists u. split; [done |]. destruct (pf_tree _ _ _ _ _ _ _ _ Hf u Hu) as (t0 & Ht0 & Hin).
    destruct Hap as [_ _ _ _ [_ Ht] _ Ha' Hb' _ _ _ _ _]. rewrite Ht in Ht0. injection Ht0 as <-. intros y.
    destruct (decide (y = a)) as [-> |]; [done |]. destruct (decide (y = b)) as [-> |]; [done | by apply Hin].
Qed.

(** C1. The proxy splits a connection. A tenant is served, its SYN arrives,
    and the kernel grants what is asked: the SYN passes, the pool is asked to
    send its probe, the probe has the SYN's addresses and is caught on its way
    out, and the pool is asked for the server-side half; the tenant's server
    accepts the connection and the pool is asked for the client-side half.
    Both halves reach the tree of the same core with the same key. From there,
    in every interleaving of their lines in which no wait times out or is
    interrupted, they fault only in the ways [expected] names, a page vector
    never filled or a half that comes after its peer has left; and if both
    have left through [put_qp], the QPs and the sockets are those of before
    the SYN, its record is freed, and the tree holds what it held. *)
Theorem connection_pairs_up fuel syn skb l ls t w :
  let cpu := qp2cpu num_online_cpus (syn_key syn) in
  tenant_serves syn l ls cpu t w → probe_leaves syn skb →
  answer (tick w) ≠ 0 → answer (tick w + 2)%nat ≠ 0 → grants syn (tick w + 3) →
  ∃ s a b w1 w2 w3 w4 w5 w6,
    arrival running frame fuel syn skb l ls (s32 (skb_mark syn)) cpu s a b w w1 w2 w3 w4 w5 w6 ∧
    ∀ st, pair_reach cpu (PObj s) (pair_start a b w6) st →
      (∀ d, is_dir d → awake (shared st) (pc_of d st) = true →
        match pair_line d cpu (PObj s) st with
        | Ok _ => True
        | Oops e => expected (pc_of d st) (pc_of (Z.lxor d 1) st) e
        end) ∧
      (gone (at_rx st) = true → gone (at_tx st) = true →
        qps (shared st) = qps w ∧ socks (shared st) = socks w ∧ syns (shared st) !! s = None ∧
        ∃ u, roots (shared st) !! (l, cpu) = Some u ∧ ∀ y, y ∈ inorder u ↔ y ∈ inorder t).
Proof.
  intros cpu Hts Hskb A0 A2 Hg.
  destruct (arrival_ready fuel syn skb l ls t w Hts Hskb A0 A2 Hg) as
    (s & a & b & sx & w1 & w2 & w3 & w4 & w5 & w6 & Harr & Hc & Es & Hab & Hap).
  exists s, a, b, w1, w2, w3, w4, w5, w6. split; [done |]. intros st Hr. split.
  - intros d Hd Haw. exact (pair_faults _ _ _ _ _ _ _ _ Hab (mk_key_good _ _ _ _) _ _ _ _ Hap Hr Hd Haw).
  - destruct Hts as []. intros Hg1 Hg2. by eapply arrived_left; try apply mk_key_good.
Qed.

(** C2. A SYN that the proxy serves, the kernel granting what is asked, whose
    key is not that, as a C string, of any connection that came to the same
    tree before it, ended ones too, ends as one more connection among them,
    whatever they are doing: the hooks, the probe, the pool and the accept
    disturb none of the others, and from there all run together as [Crowd] has
    it. *)
Theorem connection_joins_crowd fuel syn skb l ls t w0 st :
  let cpu := qp2cpu num_online_cpus (syn_key syn) in
  let w := crowd_world st in
  crowd_reach w0 st → tenant_serves syn l ls cpu t w → probe_leaves syn skb →
  answer (tick w) ≠ 0 → answer (tick w + 2)%nat ≠ 0 → grants syn (tick w + 3) →
  (∀ j c pp, members st !! j = Some (c, pp) → conn_root c = (l, cpu) →
    cstr (c_key c) RB_KEY_LENGTH ≠ cstr (syn_key syn) RB_KEY_LENGTH) →
  ∃ s a b sx w1 w2 w3 w4 w5 w6,
    arrival running frame fuel syn skb l ls (s32 (skb_mark syn)) cpu s a b w w1 w2 w3 w4 w5 w6 ∧
    crowd_reach w0 (crowd_add (MkConn l cpu s a b sx (syn_key syn)) st w6).
Proof.
  intros cpu w Hr Hts Hskb A0 A2 Hg Hkey.
  destruct (arrival_ready fuel syn skb l ls t w Hts Hskb A0 A2 Hg) as
    (s & a & b & sx & w1 & w2 & w3 & w4 & w5 & w6 & Harr & Hc & _).
  exists s, a, b, sx, w1, w2, w3, w4, w5, w6. split; [done |]. by apply crowd_come.
Qed.
End flow_lemmas.

(** ** A concrete connection

    Tenant 7's server listens on socket 30 and sends probes on socket 31; its
    client's four-tuple selects core 2. *)

Definition tenant_up : world :=
  upd_socks <[30 := S_open]> (upd_socks <[31 := S_open]> (upd_roots <[(9, 2) := Leaf]> (listening Leaf (empty_world 100)))).

Definition client_addr : sockaddr_in := {| sin_family := AF_INET; sin_port := 4660; s_addr := 16909060 |}.
Definition server_addr : sockaddr_in := {| sin_family := AF_INET; sin_port := 20480; s_addr := 84281096 |}.

(** The calls 0, 2, 3 and 5 are allocations. *)
Definition all_granted : Env :=
  calm (λ n, if bool_decide (n ∈ [0; 2; 3; 5]%nat) then 1 else 0) (λ _, [])
    (λ n, if (n =? 8)%nat then server_addr else client_addr).

Definition no_frame (p : ptr) : sockets := MkSockets PNull PNull 0.

Definition sent_probe : sk_buff :=
  probe_packet [101; 116; 104; 48] (ip_hdr some_syn) (probe_tcphdr (skb_transport_header some_syn)).

Lemma tenant_up_serves : @tenant_serves some_syn 9 30 2 Leaf tenant_up.
Proof.
  split; try done.
  - by exists (MkListner 7 80 6 (PObj 30) (PObj 31)), 31, S_open.
  - apply root_ok_Leaf.
  - intros y Hy. simpl in Hy. split; [done |]. simpl. by rewrite !lookup_insert_ne by lia.
Qed.

Lemma connection_pairs_up_witness :
  @qp2cpu (@num_online_cpus all_granted) (syn_key some_syn) = 2 ∧
  ∃ s a b w1 w2 w3 w4 w5 w6,
    @arrival all_granted spine_lib 0 no_frame 10 some_syn sent_probe 9 30 7 2 s a b tenant_up w1 w2 w3 w4 w5 w6.
Proof.
  split; [by vm_compute |].
  destruct (@connection_pairs_up all_granted (calm_quiet _ _ _) spine_lib spine_laws 0 no_frame 10 some_syn sent_probe 9 30 Leaf
    tenant_up) as (s & a & b & w1 & w2 & w3 & w4 & w5 & w6 & Ha & _).
  - exact tenant_up_serves.
  - by split_and!.
  - done.
  - done.
  - by split.
  - by exists s, a, b, w1, w2, w3, w4, w5, w6.
Defined.

(** Another client of the tenant is on the core already: its client side
    waits in the tree. *)
Definition early_conn : conn := MkConn 9 2 102 100 101 103 other_key.
Definition early_world : world := with_conn early_conn tenant_up.
Definition early_waits : world := upd_roots <[(9, 2) := Node Leaf 100 Leaf]> early_world.
Definition early_crowd : crowd := MkCrowd [(early_conn, (HCheck (PObj 100), HMeet (PObj 101)))] early_waits.

Lemma early_arrives : arrives early_conn tenant_up early_world.
Proof. arrive_leaf. Qed.

Lemma early_reach : @crowd_reach all_granted spine_lib tenant_up early_crowd.
Proof.
  apply (crowd_step _ (crowd_add early_conn (MkCrowd [] tenant_up) early_world) _ 0 RX_QP).
  - apply crowd_come; [apply crowd_start | exact early_arrives |]. intros j c pp Hj. by simplify_list_eq.
  - by right.
  - by vm_compute.
  - vm_compute. reflexivity.
Qed.

Lemma early_serves : @tenant_serves some_syn 9 30 2 (Node Leaf 100 Leaf) early_waits.
Proof.
  split; try done.
  - by exists (MkListner 7 80 6 (PObj 30) (PObj 31)), 31, S_open.
  - apply (root_ok_single _ 100 (MkQp other_key 0 (PObj 9) PNull (PObj 103))); [done | apply mk_key_good].
  - intros y Hy. apply list_elem_of_singleton in Hy as ->. by vm_compute.
  - intros y Hy. simpl in Hy. split; simpl; by rewrite !lookup_insert_ne by lia.
Qed.

Lemma connection_joins_crowd_witness :
  ∃ st, length (members st) = 2%nat ∧ @crowd_reach all_granted spine_lib tenant_up st.
Proof.
  destruct (@connection_joins_crowd all_granted (calm_quiet _ _ _) spine_lib 0 no_frame 10 some_syn sent_probe 9 30
    (Node Leaf 100 Leaf) tenant_up early_crowd) as (s & a & b & sx & w1 & w2 & w3 & w4 & w5 & w6 & _ & Hr).
  - exact early_reach.
  - exact early_serves.
  - by split_and!.
  - done.
  - done.
  - by split.
  - intros [| j] c pp Hj _; simpl in Hj; [injection Hj as <- <-; vm_compute; discriminate | discriminate].
  - eexists. split; [| exact Hr]. reflexivity.
Defined.
