(* ===== verification/Proc.v ===== *)
(** * The /proc interface (proc.c, debug.c)

    Tenants are added and removed, pre-connections requested and transparency
    switched by writing to files of /proc/cbn; reading [connections] lists the
    pending QPs of every tenant. *)

From stdpp Require Import base list gmap sets strings.
From Stdlib Require Import ZArith Lia.
From S2P Require Import Prelude RbTree Keys DataTree World Qp Relay Hooks Server Preconn.

Definition PROC_CSV_NUM : Z := 2.
Definition IP_LEN : Z := 4.
Definition STRLEN : Z := 256.

(** The characters of a literal. *)
Definition chars (s : string) : list Z := (λ c, Z.of_nat (Ascii.nat_of_ascii c)) <$> String.list_ascii_of_string s.

(** [scnprintf]: what fits in [size] bytes with the terminating NUL. *)
Definition scnprintf (size : Z) (text : list Z) : list Z := take (Z.to_nat (size - 1)) text.

Section proc.
Context `{Env} `{RbLib Z}.

(** [get_options(str, nints, ints)] of the kernel's library: the array it
    fills, the number of integers it read first. *)
Variable get_options : list Z → nat → list Z.

(** [%p] prints a hash of the address. *)
Variable pointer_text : Z → list Z.

(** The value of [ints\[i\]]; the array starts as zeroes. *)
Definition option_at (ints : list Z) (i : nat) : Z := nth i ints 0.

(** The start of every command: the text is brought in and parsed; [inl] is
    the error returned. *)
Definition read_command (buf : list Z) (nints : nat) : wproc (Z + list Z) :=
  let size := Z.of_nat (length buf) in
  if (size <=? 1) || (PAGE_SIZE <=? size) then mret (inl (- EINVAL))
  else
    rc ← kernel_call C_copy_from_user;
    if rc <? 0 then mret (inl rc)
    else mret (inr (get_options buf nints)).

Definition cbn_add_server (buf : list Z) : wproc Z :=
  c ← read_command buf 3;
  match c with
  | inl e => mret e
  | inr values =>
      if option_at values 0 =? PROC_CSV_NUM then
        add_server_cb (option_at values 1) (option_at values 2) ;;
        mret (Z.of_nat (length buf))
      else mret (- EINVAL)
  end.

Definition cbn_del_server (buf : list Z) : wproc Z :=
  c ← read_command buf 3;
  match c with
  | inl e => mret e
  | inr values =>
      if option_at values 0 =? 1 then
        del_server_cb (option_at values 1) ;;
        mret (Z.of_nat (length buf))
      else mret (- EINVAL)
  end.

Definition preconn_proc_command (buf : list Z) : wproc Z :=
  c ← read_command buf 5;
  match c with
  | inl e => mret e
  | inr values =>
      if option_at values 0 =? IP_LEN then
        preconn_write_cb [option_at values 1; option_at values 2; option_at values 3; option_at values 4] ;;
        mret (Z.of_nat (length buf))
      else mret (- EINVAL)
  end.

Definition cbn_transparent_command (buf : list Z) : wproc Z :=
  c ← read_command buf 2;
  match c with
  | inl e => mret e
  | inr values =>
      if (option_at values 0 =? 1) && ((option_at values 1 =? 0) || (option_at values 1 =? 1)) then
        kmodify (set_transparent (option_at values 1)) ;;
        mret (Z.of_nat (length buf))
      else mret (- EINVAL)
  end.

(** What is put in the file, and the result. *)
Definition cbn_proc_show : wproc (list Z * Z) :=
  b ← proc_read_string;
  match b with
  | None => mret ([], - EAGAIN)
  | Some (buffer, idx) =>
      mret ((if idx =? 0 then [] else buffer) ++ chars "buffer len = " ++ print_d idx ++ chars "/4096", idx)
  end.

Definition cbn_transparent_show : wproc (list Z * Z) :=
  w ← kget;
  mret (print_d (ip_transparent w) ++ [10], 0).

(** KTCP_VERSION is set when the module is built. *)
Variable ktcp_version : list Z.
Definition cbn_version_show : wproc (list Z * Z) := mret (ktcp_version ++ [10], 0).

(** ** debug.c *)

(** [len] bytes of [str] to the user's buffer, or to the trace when there is
    none. *)
Definition printout (buff : Z) (str : list Z) : wproc Z :=
  if negb (buff =? 0) then copy_to_user buff str
  else mret 0.

(** Four bytes of an address in memory and a port. *)
Definition tcp4 (addr port : Z) : list Z :=
  match le_bytes 4 addr with
  | [a; b; c; d] => print_d a ++ [46] ++ print_d b ++ [46] ++ print_d c ++ [46] ++ print_d d ++ [58] ++ print_d port
  | _ => []
  end.

Definition dump_qp2user (cpu a : Z) (qp : cbn_qp) : list Z :=
  scnprintf STRLEN (chars "[cpu = " ++ print_d cpu ++ chars ", rc  = " ++ print_d (u32 (ref_cnt qp)) ++ chars "]:QP [" ++
    (if decide (q_tx qp = PNull) then [] else chars "TX") ++ [58] ++
    (if decide (q_rx qp = PNull) then [] else chars "RX") ++ chars "] " ++ pointer_text a ++ chars ": " ++
    tcp4 (key_addr_s (q_key qp)) (ntohs (key_port_s (q_key qp))) ++ chars " => " ++
    tcp4 (key_addr_d (q_key qp)) (ntohs (key_port_d (q_key qp))) ++ [10]).

(** [rb_first]/[rb_next]: the nodes in order. *)
Fixpoint dump_pending (nodes : list Z) (buff loc cpu : Z) : wproc Z :=
  match nodes with
  | [] => mret loc
  | a :: nodes =>
      qp ← load_qp (PObj a);
      let str := dump_qp2user cpu a qp in
      rc ← printout (buff + loc) str;
      if negb (rc =? 0) then mret rc
      else dump_pending nodes buff (s32 (loc + Z.of_nat (length str))) cpu
  end.

Definition dump_pending_connections (buff loc : Z) (root : tree Z) (cpu : Z) : wproc Z :=
  dump_pending (inorder root) buff loc cpu.

Fixpoint dump_cpus (cpus : list Z) (buff loc listner : Z) : wproc Z :=
  match cpus with
  | [] => mret loc
  | cpu :: cpus =>
      root ← load_root (PObj listner) cpu;
      rc ← dump_pending_connections buff loc root cpu;
      if rc <? 0 then mret rc
      else dump_cpus cpus buff (s32 (loc + rc)) listner
  end.

Definition dump_connections_per_tennat (buff loc listner : Z) : wproc Z :=
  dump_cpus (seqZ 0 num_online_cpus) buff loc listner.

Definition tennat_text (key : Z) : list Z :=
  scnprintf STRLEN (chars "Tennat " ++ print_d key ++ [58; 10] ++ replicate 38 45 ++ [10]).

Fixpoint dump_tennats (nodes : list Z) (buff width : Z) : wproc Z :=
  match nodes with
  | [] => mret width
  | a :: nodes =>
      listner ← load_listner (PObj a);
      let str := tennat_text (l_key listner) in
      rc ← printout (buff + width) str;
      if negb (rc =? 0) then mret rc
      else
        let width := s32 (width + Z.of_nat (length str)) in
        rc ← dump_connections_per_tennat buff width a;
        if rc <? 0 then mret rc
        else dump_tennats nodes buff (s32 (width + rc))
  end.

(** The line of angle brackets. *)
Definition banner : list Z := replicate 26 60 ++ replicate 30 62 ++ [10].

Definition dump_connections (buff : Z) : wproc Z :=
  let str := scnprintf STRLEN banner in
  rc ← printout buff str;
  if negb (rc =? 0) then mret rc
  else
    w ← kget;
    dump_tennats (inorder (listner_root w)) buff (Z.of_nat (length str)).

(** The result and the new [*ppos]. *)
Definition connections_read (buff f_pos ppos : Z) : wproc (Z * Z) :=
  if buff =? 0 then mret (- EINVAL, ppos)
  else if negb (f_pos =? 0) then mret (0, Z.lxor ppos 1)
  else
    rc ← dump_connections buff;
    mret (rc, Z.lxor ppos 1).

(** ** The files *)

(** struct file_operations: what [open] gives [single_open] to show, whether
    [read] is [seq_read], which copies what is shown, or [connections_read], and
    what [write] calls. *)
Record file_operations := {
  fo_show : wproc (list Z * Z);
  fo_seq_read : bool;
  fo_write : option (list Z → wproc Z);
}.

Definition connections_fops : file_operations :=
  {| fo_show := cbn_proc_show; fo_seq_read := false; fo_write := None |}.
Definition preconn_proc_fops : file_operations :=
  {| fo_show := cbn_proc_show; fo_seq_read := true; fo_write := Some preconn_proc_command |}.
Definition cbn_add_fops : file_operations :=
  {| fo_show := cbn_proc_show; fo_seq_read := true; fo_write := Some cbn_add_server |}.
Definition cbn_del_fops : file_operations :=
  {| fo_show := cbn_proc_show; fo_seq_read := true; fo_write := Some cbn_del_server |}.
Definition cbn_transparent_fops : file_operations :=
  {| fo_show := cbn_transparent_show; fo_seq_read := true; fo_write := Some cbn_transparent_command |}.
Definition cbn_version_fops : file_operations :=
  {| fo_show := cbn_version_show; fo_seq_read := true; fo_write := None |}.

(** The operations [cbn_proc_init] makes a file with. *)
Definition proc_fops (file : string) : option file_operations :=
  if decide (file = "connections"%string) then Some connections_fops
  else if decide (file = "cbn_proc"%string) then Some cbn_add_fops
  else if decide (file = "cbn_del"%string) then Some cbn_del_fops
  else if decide (file = "conn_pool"%string) then Some preconn_proc_fops
  else if decide (file = "cbn_transparent"%string) then Some cbn_transparent_fops
  else if decide (file = "version"%string) then Some cbn_version_fops
  else None.

(** The command a write to a file runs. *)
Definition proc_command (file : string) : option (list Z → wproc Z) := proc_fops file ≫= fo_write.

(** ** Commands *)

(** A command of a size the code accepts whose text could be brought in. *)
Definition accepted (w : world) (buf : list Z) : Prop :=
  1 < Z.of_nat (length buf) < PAGE_SIZE ∧ 0 ≤ answer (tick w).

Lemma read_command_ok w buf nints :
  accepted w buf →
  read_command buf nints w =
    Ok (inr (get_options buf nints), add_log (E_call C_copy_from_user (answer (tick w))) (interfere w)).
Proof.
  intros [Hlen Ha]. unfold read_command.
  rewrite (proj2 (Z.leb_gt _ 1)), (proj2 (Z.leb_gt PAGE_SIZE _)) by lia. cbn [orb].
  kstep (kernel_call_eq C_copy_from_user w). by rewrite (proj2 (Z.ltb_ge _ 0)).
Qed.

(** The text cannot be brought in. *)
Lemma read_command_fault w buf nints :
  1 < Z.of_nat (length buf) < PAGE_SIZE → answer (tick w) < 0 →
  read_command buf nints w =
    Ok (inl (answer (tick w)), add_log (E_call C_copy_from_user (answer (tick w))) (interfere w)).
Proof.
  intros Hlen Ha. unfold read_command.
  rewrite (proj2 (Z.leb_gt _ 1)), (proj2 (Z.leb_gt PAGE_SIZE _)) by lia. cbn [orb].
  kstep (kernel_call_eq C_copy_from_user w). by rewrite (proj2 (Z.ltb_lt _ 0)).
Qed.

(** Too short or too long: nothing is read and nothing happens. *)
Lemma read_command_size w buf nints :
  Z.of_nat (length buf) ≤ 1 ∨ PAGE_SIZE ≤ Z.of_nat (length buf) →
  read_command buf nints w = Ok (inl (- EINVAL), w).
Proof.
  intros Hlen. unfold read_command.
  destruct (Z.leb_spec (Z.of_nat (length buf)) 1), (Z.leb_spec PAGE_SIZE (Z.of_nat (length buf))); try done; lia.
Qed.

(** The commands are the four functions of proc.c. *)
Lemma proc_command_inv file f :
  proc_command file = Some f →
  f = cbn_add_server ∨ f = cbn_del_server ∨ f = preconn_proc_command ∨ f = cbn_transparent_command.
Proof.
  unfold proc_command, proc_fops. repeat case_decide; cbn [mbind option_bind fo_write]; intros [= <-]; tauto.
Qed.

(** No command of a bad size has an effect. *)
Lemma commands_size w file f buf :
  proc_command file = Some f →
  Z.of_nat (length buf) ≤ 1 ∨ PAGE_SIZE ≤ Z.of_nat (length buf) → f buf w = Ok (- EINVAL, w).
Proof.
  intros Hf Hlen. pose proof (λ n, read_command_size w buf n Hlen) as Hs.
  destruct (proc_command_inv file f Hf) as [-> | [-> | [-> | ->]]].
  - unfold cbn_add_server. by kstep (Hs 3%nat).
  - unfold cbn_del_server. by kstep (Hs 3%nat).
  - unfold preconn_proc_command. by kstep (Hs 5%nat).
  - unfold cbn_transparent_command. by kstep (Hs 2%nat).
Qed.

(** C33. A command of one byte or less, or of a page or more, is refused
    before its text is brought in; one whose text cannot be brought in returns
    that error; a command from whose text [get_options] reads two integers
    makes one request to the pool, to run [split_server] with an argument that
    unpacks to the two; with any other number of integers it is refused and
    asks for nothing. *)
Theorem add_server_starts w buf :
  let size := Z.of_nat (length buf) in
  let copied := answer (tick w) in
  let values := get_options buf 3 in
  if (size <=? 1) || (PAGE_SIZE <=? size) then cbn_add_server buf w = Ok (- EINVAL, w)
  else
    ∃ rc w', cbn_add_server buf w = Ok (rc, w') ∧
      if copied <? 0 then rc = copied ∧ log w' = E_call C_copy_from_user copied :: log w
      else if option_at values 0 =? 2 then
        rc = size ∧
        ∃ arg, log w' = E_pool_run T_split_server PNull arg None :: E_call C_copy_from_user copied :: log w ∧
          void2uint arg = (u32 (option_at values 1), u32 (option_at values 2))
      else rc = - EINVAL ∧ log w' = E_call C_copy_from_user copied :: log w.
Proof.
  cbv zeta. unfold cbn_add_server.
  destruct ((Z.of_nat (length buf) <=? 1) || (PAGE_SIZE <=? Z.of_nat (length buf))) eqn:Es.
  { apply orb_true_iff in Es. rewrite !Z.leb_le in Es. by kstep (read_command_size w buf 3 Es). }
  apply orb_false_iff in Es as [E1 E2]. apply Z.leb_gt in E1, E2. destruct (Z.ltb_spec (answer (tick w)) 0) as [Ha | Ha].
  { kstep (read_command_fault w buf 3 (conj E1 E2) Ha). by eexists _, _. }
  kstep (read_command_ok w buf 3 (conj (conj E1 E2) Ha)). unfold PROC_CSV_NUM.
  destruct (option_at _ 0 =? 2); (eexists _, _; split; [reflexivity |]); [| done].
  split; [done |]. eexists. split; [reflexivity |].
  replace (uint2void _ _) with (uint2void (u32 (option_at (get_options buf 3) 1)) (u32 (option_at (get_options buf 3) 2)))
    by (unfold uint2void; by rewrite !u32_idemp).
  apply void2uint_pair; apply u32_range.
Qed.

(** The transparency switch holds 0 or 1 whatever is written to it. *)
Lemma transparent_bool w buf rc w' :
  ip_transparent (interfere w) = 0 ∨ ip_transparent (interfere w) = 1 → accepted w buf →
  cbn_transparent_command buf w = Ok (rc, w') → ip_transparent w' = 0 ∨ ip_transparent w' = 1.
Proof.
  intros Ht Hacc. unfold cbn_transparent_command. kstep (read_command_ok w buf 2 Hacc).
  destruct (option_at _ 0 =? 1); cbn [andb]; [| by intros [= _ <-]].
  destruct (Z.eqb_spec (option_at (get_options buf 2) 1) 0); cbn [orb]; [intros [= _ <-]; by left |].
  destruct (Z.eqb_spec (option_at (get_options buf 2) 1) 1); [intros [= _ <-]; by right | by intros [= _ <-]].
Qed.

(** ** The listing of connections *)

(** A tenant with no pending connection doubles the offset once per core: the
    position a core returns is added to the position it was given. *)
Lemma tennat_offset_doubles w buff loc l :
  0 ≤ loc → 0 ≤ num_online_cpus → loc * 2 ^ num_online_cpus < 2147483648 → is_Some (listners w !! l) →
  (∀ cpu, 0 ≤ cpu < num_online_cpus → roots w !! (l, cpu) = Some Leaf) →
  dump_connections_per_tennat buff loc l w = Ok (loc * 2 ^ num_online_cpus, w).
Proof.
  intros Hloc Hn Hmax [L HL] Hroots. unfold dump_connections_per_tennat.
  assert (Hgen : ∀ cpus loc, 0 ≤ loc → loc * 2 ^ Z.of_nat (length cpus) < 2147483648 → (∀ cpu, cpu ∈ cpus → roots w !! (l, cpu) = Some Leaf) →
    dump_cpus cpus buff loc l w = Ok (loc * 2 ^ Z.of_nat (length cpus), w)).
  { induction cpus as [| cpu cpus IH]; intros z Hz Hmz Hr; cbn [dump_cpus length] in *.
    { by rewrite Z.mul_1_r. }
    assert (Hroot : has_root w l cpu Leaf) by (split; [by exists L | apply Hr; by left]).
    kstep (load_root_ok w l cpu Leaf Hroot). unfold dump_pending_connections. simpl dump_pending.
    kpure. rewrite (proj2 (Z.ltb_ge z 0)) by done.
    rewrite Nat2Z.inj_succ, Z.pow_succ_r in * by lia.
    pose proof (Z.pow_pos_nonneg 2 (Z.of_nat (length cpus)) ltac:(lia) ltac:(lia)).
    rewrite s32_small by nia. rewrite IH; [| lia | nia | intros c Hc; apply Hr; by right].
    do 2 f_equal. lia. }
  rewrite Hgen; [| done | |].
  - rewrite length_seqZ, Z2Nat.id by done. done.
  - rewrite length_seqZ, Z2Nat.id by done. done.
  - intros cpu Hc. apply Hroots. apply elem_of_seqZ in Hc. lia.
Qed.
End proc.

(** "7,80": the parser reads two integers. *)
Lemma add_server_starts_witness :
  let get_options (_ : list Z) (_ : nat) := [2; 7; 80] in
  ∃ w' arg, @cbn_add_server (always 0) get_options [55; 44; 56; 48] (empty_world 100) = Ok (4, w') ∧
    log w' = [E_pool_run T_split_server PNull arg None; E_call C_copy_from_user 0] ∧ void2uint arg = (7, 80).
Proof.
  intros get_options.
  destruct (@add_server_starts (always 0) get_options (empty_world 100) [55; 44; 56; 48])
    as (rc & w' & Hr & Hrc & arg & Hl & Ha).
  exists w', arg. rewrite Hr, Hrc. by split_and!.
Defined.
