(* ===== verification/Typing.v ===== *)
(** * Every field keeps its width

    The model holds C integers in [Z]; here is the type each field has in the
    source, and the proof that every entry point of the module stores only
    values of that type, whatever the environment answers and the other
    threads do. *)

From stdpp Require Import base list gmap sets strings.
From Stdlib Require Import ZArith Lia.
From S2P Require Import Prelude RbTree Keys DataTree World Qp Relay Hooks Connect Pairing Server Preconn Flow Proc.

(** ** The types *)

Definition is_u8 (z : Z) : Prop := 0 ≤ z < 256.
Definition is_u16 (z : Z) : Prop := 0 ≤ z < 65536.
Definition is_u32 (z : Z) : Prop := 0 ≤ z < 4294967296.
Definition is_s32 (z : Z) : Prop := -2147483648 ≤ z < 2147483648.

Definition typed_qp (q : cbn_qp) : Prop := good_key (q_key q) ∧ is_s32 (ref_cnt q).
Definition typed_listner (l : cbn_listner) : Prop := is_s32 (l_key l) ∧ is_u16 (l_port l) ∧ is_u16 (l_status l).
Definition typed_iphdr (h : iphdr) : Prop := is_u8 (protocol h) ∧ is_u32 (saddr h) ∧ is_u32 (daddr h).
Definition typed_tcphdr (h : tcphdr) : Prop := is_u16 (th_source h) ∧ is_u16 (th_dest h) ∧ is_u16 (th_window h).
Definition typed_probe (p : probe) : Prop := typed_iphdr (p_iphdr p) ∧ typed_tcphdr (p_tcphdr p).

(** What goes out of the module. *)
Definition typed_call (c : kcall) : Prop :=
  match c with C_bind _ port addr | C_connect _ port addr => is_u16 port ∧ is_u32 addr | _ => True end.
Definition typed_event (e : event) : Prop :=
  match e with
  | E_call c _ => typed_call c
  | E_send _ bytes | E_recv _ bytes => Forall is_byte bytes
  | E_send_raw _ ih th addr => typed_iphdr ih ∧ typed_tcphdr th ∧ is_u32 addr
  | _ => True
  end.

Record typed_world (w : world) : Prop := {
  ty_qps : map_Forall (λ _, typed_qp) (qps w);
  ty_listners : map_Forall (λ _, typed_listner) (listners w);
  ty_syns : map_Forall (λ _, good_addresses) (syns w);
  ty_probes : map_Forall (λ _, typed_probe) (probes w);
  ty_preconns : map_Forall (λ _, is_s32) (preconns w);
  ty_lists : map_Forall (λ _ l, is_u32 l.2) (pcp_lists w);
  ty_log : Forall typed_event (log w);
}.

(** Memory and the network hand out values of the types that are read, and the
    other threads keep the types. *)
Class TypedEnv `{Env} : Prop := {
  te_payload n : Forall is_byte (payload n);
  te_name n : good_sockaddr (name n);
  te_garbage n : typed_qp (garbage n);
  te_garbage_syn n : good_addresses (garbage_syn n);
  te_garbage_listner n : typed_listner (garbage_listner n);
  te_others n w : typed_world w → typed_world (others n w);
}.

(** ** Procedures that keep the types *)

(** [m] keeps the types, and its results satisfy [P]. *)
Definition typed_proc {A} (P : A → Prop) (m : wproc A) : Prop := ∀ w,
  typed_world w → match m w with Ok (a, w') => typed_world w' ∧ P a | Oops _ => True end.

Definition any {A} (a : A) : Prop := True.
#[export] Hint Extern 0 (any _) => exact I : core.

Create HintDb typed.

Section rules.
Context {A : Type}.
Implicit Types P Q : A → Prop.

Lemma typed_ret P (a : A) : P a → typed_proc P (mret a).
Proof. intros Hp w Hw. exact (conj Hw Hp). Qed.

Lemma typed_bind {B} P (Q : B → Prop) (m : wproc A) (f : A → wproc B) :
  typed_proc P m → (∀ a, P a → typed_proc Q (f a)) → typed_proc Q (m ≫= f).
Proof.
  intros Hm Hf w Hw. specialize (Hm w Hw). unfold mbind, kproc_bind. destruct (m w) as [[a w1] |]; [| done].
  destruct Hm as [Hw1 Ha]. exact (Hf a Ha w1 Hw1).
Qed.

Lemma typed_weaken P Q m : typed_proc P m → (∀ a, P a → Q a) → typed_proc Q m.
Proof. intros Hm Hpq w Hw. specialize (Hm w Hw). destruct (m w) as [[a w'] |]; [| done]. by destruct Hm; auto. Qed.

Lemma typed_any P m : typed_proc P m → typed_proc any m.
Proof. intros Hm. by eapply typed_weaken. Qed.

Lemma typed_oops P e : typed_proc P (oops e : wproc A).
Proof. by intros w _. Qed.

Lemma typed_deref P (f : world → option A) e :
  (∀ w a, typed_world w → f w = Some a → P a) → typed_proc P (kderef f e).
Proof. intros Hf w Hw. unfold kderef. destruct (f w) eqn:E; [| done]. split; [done | by eapply Hf]. Qed.

End rules.

Lemma typed_foreach {A} (l : list A) (f : A → wproc unit) :
  (∀ x, typed_proc any (f x)) → typed_proc any (kforeach l f).
Proof. intros Hf. induction l; [exact (typed_ret any tt I) |]. cbn [kforeach]. eapply typed_bind; [apply Hf | done]. Qed.

Lemma typed_get : typed_proc typed_world (kget : wproc world).
Proof. intros w Hw. exact (conj Hw Hw). Qed.

Lemma typed_modify (f : world → world) : (∀ w, typed_world w → typed_world (f w)) → typed_proc any (kmodify f).
Proof. intros Hf w Hw. split; [by apply Hf | done]. Qed.

#[export] Hint Resolve typed_get typed_oops : typed.

(** Go through the code: calls by the lemmas of the database, conditionals by
    cases, results by [done]. *)
Ltac tprim := solve [eauto 6 with typed | eapply typed_any; eauto 6 with typed].
Ltac tstep :=
  lazymatch goal with
  | |- typed_proc _ (mbind _ _) => first [eapply typed_bind; [solve [eauto 6 with typed] |] | eapply (typed_bind any)]
  | |- ∀ _, _ => intros ?
  | |- typed_proc _ (mret _) => first [apply typed_ret; solve [done | cbn [fst snd]; eauto 6 with typed] | apply typed_ret]
  | |- typed_proc _ (kforeach _ _) => apply typed_foreach
  | |- typed_proc _ _ => first [tprim | case_decide | case_match]
  end.
Ltac typed := repeat first [progress cbv zeta | tstep].

(** ** The objects *)

Lemma typed_upd_qps w a q : typed_world w → typed_qp q → typed_world (upd_qps <[a := q]> w).
Proof. intros [] Hq. split; try done. by apply map_Forall_insert_2. Qed.

Lemma typed_upd_listners w a l : typed_world w → typed_listner l → typed_world (upd_listners <[a := l]> w).
Proof. intros [] Hl. split; try done. by apply map_Forall_insert_2. Qed.

Lemma typed_upd_syns w a x : typed_world w → good_addresses x → typed_world (upd_syns <[a := x]> w).
Proof. intros [] Hx. split; try done. by apply map_Forall_insert_2. Qed.

Lemma typed_upd_probes w a p : typed_world w → typed_probe p → typed_world (upd_probes <[a := p]> w).
Proof. intros [] Hp. split; try done. by apply map_Forall_insert_2. Qed.

Lemma typed_upd_preconns w a k : typed_world w → is_s32 k → typed_world (upd_preconns <[a := k]> w).
Proof. intros [] Hk. split; try done. by apply map_Forall_insert_2. Qed.

Lemma typed_upd_pcp_lists w a l : typed_world w → is_u32 l.2 → typed_world (upd_pcp_lists <[a := l]> w).
Proof. intros [] Hl. split; try done. by apply map_Forall_insert_2. Qed.

Lemma typed_add_log w e : typed_world w → typed_event e → typed_world (add_log e w).
Proof. intros [] He. split; try done. by constructor. Qed.

(** What is not typed may change, and objects may go. *)
Lemma typed_free_qps w a : typed_world w → typed_world (upd_qps (delete a) w).
Proof. intros []. split; try done. by apply map_Forall_delete. Qed.

Lemma typed_free_listners w a : typed_world w → typed_world (upd_listners (delete a) w).
Proof. intros []. split; try done. by apply map_Forall_delete. Qed.

Lemma typed_free_syns w a : typed_world w → typed_world (upd_syns (delete a) w).
Proof. intros []. split; try done. by apply map_Forall_delete. Qed.

Lemma typed_free_probes w a : typed_world w → typed_world (upd_probes (delete a) w).
Proof. intros []. split; try done. by apply map_Forall_delete. Qed.

Lemma typed_free_preconns w a : typed_world w → typed_world (upd_preconns (delete a) w).
Proof. intros []. split; try done. by apply map_Forall_delete. Qed.

Lemma typed_upd_socks w f : typed_world w → typed_world (upd_socks f w).
Proof. by intros []. Qed.

Lemma typed_upd_roots w f : typed_world w → typed_world (upd_roots f w).
Proof. by intros []. Qed.

Lemma typed_set_listner_root w t : typed_world w → typed_world (set_listner_root t w).
Proof. by intros []. Qed.

Lemma typed_set_preconn_root w t : typed_world w → typed_world (set_preconn_root t w).
Proof. by intros []. Qed.

Lemma typed_set_pre_conn_listner w p : typed_world w → typed_world (set_pre_conn_listner p w).
Proof. by intros []. Qed.

Lemma typed_set_transparent w v : typed_world w → typed_world (set_transparent v w).
Proof. by intros []. Qed.

#[export] Hint Resolve typed_free_qps typed_free_listners typed_free_syns typed_free_probes typed_free_preconns
  typed_upd_socks typed_upd_roots typed_set_listner_root typed_set_preconn_root typed_set_pre_conn_listner
  typed_set_transparent typed_upd_qps typed_upd_listners typed_upd_syns typed_upd_probes typed_upd_preconns
  typed_upd_pcp_lists typed_add_log typed_modify : typed.
#[export] Hint Extern 3 (typed_event _) => exact I : typed.
#[export] Hint Extern 3 (typed_call _) => exact I : typed.
#[export] Hint Extern 3 (is_u16 (Zpos _)) => done : typed.
#[export] Hint Extern 3 (is_u32 (snd (_, _))) => cbn [snd] : typed.
#[export] Hint Extern 3 (is_s32 Z0) => done : typed.
#[export] Hint Extern 3 (is_u32 Z0) => done : typed.
#[export] Hint Extern 4 (typed_proc any (kderef _ _)) => apply (typed_deref any); done : typed.
#[export] Hint Extern 4 (typed_event _) => progress cbn [typed_event] : typed.
#[export] Hint Resolve Forall_take : typed.

Section services.
Context `{TypedEnv}.
#[local] Hint Resolve te_payload te_name te_garbage te_garbage_syn te_garbage_listner : typed.

Lemma typed_interfere w : typed_world w → typed_world (interfere w).
Proof. intros Hw. destruct (te_others (tick w) w Hw). by split; destruct Hw. Qed.

Lemma typed_call_any c : typed_call c → typed_proc any (kernel_call c).
Proof.
  intros Hc w Hw. split; [| done]. by apply typed_add_log; [apply typed_interfere |].
Qed.

Lemma typed_preempt : typed_proc any preempt.
Proof. apply typed_modify, typed_interfere. Qed.

Lemma typed_fresh : typed_proc any fresh_addr.
Proof. intros w []. by split. Qed.

Lemma typed_sock s : typed_proc any (sock_addr s).
Proof. destruct s; [by intros w _ | by intros w _ |]. unfold sock_addr. eapply typed_bind; [by apply (typed_deref any) | intros; by apply typed_ret]. Qed.

#[local] Hint Resolve typed_call_any typed_preempt typed_fresh typed_sock : typed.

Lemma typed_sock_create : typed_proc any sock_create_kern.
Proof. unfold sock_create_kern. typed. Qed.

Lemma typed_accept s : typed_proc any (kernel_accept s).
Proof. unfold kernel_accept. typed. Qed.

Lemma typed_slab : typed_proc any slab_alloc.
Proof. unfold slab_alloc. typed. Qed.

Lemma typed_release s : typed_proc any (sock_release s).
Proof. unfold sock_release. typed. Qed.

Lemma typed_shutdown s : typed_proc any (kernel_sock_shutdown s).
Proof. unfold kernel_sock_shutdown. typed. Qed.

Lemma typed_setsockopt s o v : typed_proc any (kernel_setsockopt s o v).
Proof. unfold kernel_setsockopt. typed. Qed.

Lemma typed_listen s n : typed_proc any (kernel_listen s n).
Proof. unfold kernel_listen. typed. Qed.

Lemma typed_kbind s port addr : is_u16 port → is_u32 addr → typed_proc any (kernel_bind s port addr).
Proof. intros. unfold kernel_bind. typed. by apply typed_call_any. Qed.

Lemma typed_connect s port addr : is_u16 port → is_u32 addr → typed_proc any (kernel_connect s port addr).
Proof. intros. unfold kernel_connect. typed. by apply typed_call_any. Qed.

Lemma typed_run f data arg cpu : typed_proc any (pool_run f data arg cpu).
Proof. unfold pool_run. typed. Qed.

Lemma typed_should_stop : typed_proc any kthread_should_stop.
Proof. unfold kthread_should_stop. typed. Qed.

Lemma typed_load_qp p : typed_proc typed_qp (load_qp p).
Proof. destruct p; [by intros w _ | by intros w _ |]. apply typed_deref. intros w q [] Hq. exact (map_Forall_lookup_1 _ _ _ _ ty_qps0 Hq). Qed.

Lemma typed_load_listner p : typed_proc typed_listner (load_listner p).
Proof. destruct p; [by intros w _ | by intros w _ |]. apply typed_deref. intros w q [] Hq. exact (map_Forall_lookup_1 _ _ _ _ ty_listners0 Hq). Qed.

Lemma typed_load_syn p : typed_proc good_addresses (load_syn p).
Proof. destruct p; [by intros w _ | by intros w _ |]. apply typed_deref. intros w q [] Hq. exact (map_Forall_lookup_1 _ _ _ _ ty_syns0 Hq). Qed.

#[local] Hint Resolve typed_sock_create typed_accept typed_slab typed_release typed_shutdown typed_setsockopt typed_listen
  typed_run typed_should_stop typed_load_qp typed_load_listner typed_load_syn : typed.

Lemma typed_store_qp p q : typed_qp q → typed_proc any (store_qp p q).
Proof. intros. destruct p; [apply typed_oops | apply typed_oops |]. unfold store_qp. typed. Qed.

Lemma typed_store_listner p l : typed_listner l → typed_proc any (store_listner p l).
Proof. intros. destruct p; [apply typed_oops | apply typed_oops |]. unfold store_listner. typed. Qed.

Lemma typed_store_syn p x : good_addresses x → typed_proc any (store_syn p x).
Proof. intros. destruct p; [apply typed_oops | apply typed_oops |]. unfold store_syn. typed. Qed.

Lemma typed_free_qp p : typed_proc any (free_qp p).
Proof. destruct p; [apply typed_oops | apply typed_oops |]. unfold free_qp. typed. Qed.

Lemma typed_free_syn p : typed_proc any (free_syn p).
Proof. destruct p; [apply typed_oops | apply typed_oops |]. unfold free_syn. typed. Qed.

Lemma typed_alloc_qp : typed_proc any alloc_qp.
Proof. unfold alloc_qp. typed. Qed.

Lemma typed_read_dir p dir : typed_proc any (read_dir p dir).
Proof. unfold read_dir. typed. Qed.

Lemma typed_waitall s n : typed_proc (λ r, Forall is_byte r.2) (kernel_recvmsg_waitall s n).
Proof. unfold kernel_recvmsg_waitall. typed. Qed.

Lemma typed_recvmsg s n : typed_proc (λ r, Forall is_byte r.2) (kernel_recvmsg s n).
Proof.
  unfold kernel_recvmsg. typed.
Qed.

Lemma typed_sendmsg s bytes : Forall is_byte bytes → typed_proc any (kernel_sendmsg s bytes).
Proof. intros. unfold kernel_sendmsg. typed. Qed.

Lemma typed_query c s : typed_call c → typed_proc (λ r, good_sockaddr r.2) (kernel_query c s).
Proof. intros. unfold kernel_query. typed. Qed.
End services.

#[export] Hint Resolve te_payload te_name te_garbage te_garbage_syn te_garbage_listner : typed.
#[export] Hint Resolve typed_call_any typed_preempt typed_fresh typed_sock typed_sock_create typed_accept typed_slab
  typed_release typed_shutdown typed_setsockopt typed_listen typed_kbind typed_connect typed_run typed_should_stop
  typed_load_qp typed_load_listner typed_load_syn typed_store_qp typed_store_listner typed_store_syn typed_free_qp
  typed_free_syn typed_alloc_qp typed_read_dir typed_waitall typed_recvmsg typed_sendmsg typed_query : typed.

(** ** Values the code builds *)

Lemma typed_s32 z : is_s32 (s32 z).
Proof. apply s32_range. Qed.

Lemma typed_u32 z : is_u32 (u32 z).
Proof. apply u32_range. Qed.

Lemma typed_u16 z : is_u16 (u16 z).
Proof. apply u16_range. Qed.

Lemma typed_htons z : is_u16 (htons z).
Proof. apply (bswap_range 2). Qed.

Lemma typed_htonl z : is_u32 (htonl z).
Proof. apply (bswap_range 4). Qed.

Lemma typed_set_ref n q : typed_qp q → is_s32 n → typed_qp (set_ref n q).
Proof. by intros []. Qed.

Lemma typed_set_key k q : typed_qp q → good_key k → typed_qp (set_key k q).
Proof. by intros []. Qed.

Lemma typed_set_dir d v q : typed_qp q → typed_qp (set_qp_dir d v q).
Proof. unfold set_qp_dir. by destruct (d =? TX_QP). Qed.

Lemma typed_set_listner l q : typed_qp q → typed_qp (set_listner l q).
Proof. done. Qed.

Lemma typed_mk_key ps pd as_ ad : good_key (mk_key ps pd as_ ad).
Proof. apply mk_key_good. Qed.

Lemma typed_addresses_key x : good_key (addresses_key x).
Proof. apply mk_key_good. Qed.

Lemma typed_set_tid tid k : good_key k → good_key (key_set_tid tid k).
Proof.
  intros [Hl Hb]. split; [unfold key_set_tid; by rewrite length_app, length_le_bytes, length_drop, Hl |].
  unfold key_set_tid. apply Forall_app. split; [apply le_bytes_byte | by apply Forall_drop].
Qed.

Lemma typed_set_dest port addr k : good_key k → good_key (set_dest port addr k).
Proof.
  intros [Hl Hb]. unfold set_dest. split.
  - rewrite !length_app, !length_le_bytes, !length_take, length_drop, Hl. done.
  - rewrite !Forall_app. split_and!; auto using le_bytes_byte, Forall_take, Forall_drop.
Qed.

Lemma typed_set_src_port port x : good_addresses x → is_u16 port → good_addresses (set_src_port port x).
Proof. by intros (? & (? & ? & ?) & ? & ?). Qed.

Lemma typed_set_next_hop ip x : good_addresses x → is_u32 ip → good_addresses (set_next_hop ip x).
Proof. by intros (? & ? & ? & ?). Qed.

Lemma typed_bind_any x : good_addresses x → good_addresses (bind_any_port x).
Proof. by intros (? & (? & ? & ?) & ? & ?). Qed.

Lemma typed_mk_probe ih th l : typed_iphdr ih → typed_tcphdr th → typed_probe {| p_iphdr := ih; p_tcphdr := th; p_listner := l |}.
Proof. done. Qed.

Lemma typed_probe_ip p : typed_probe p → typed_iphdr (p_iphdr p).
Proof. by intros []. Qed.

Lemma typed_probe_tcp p : typed_probe p → typed_tcphdr (probe_tcphdr (p_tcphdr p)).
Proof. intros (_ & ? & ? & ?). split; [apply typed_htons | done]. Qed.

Lemma typed_daddr h : typed_iphdr h → is_u32 (daddr h).
Proof. by intros (? & ? & ?). Qed.

#[export] Hint Resolve typed_mk_probe typed_probe_ip typed_probe_tcp typed_daddr typed_set_src_port typed_set_next_hop typed_bind_any typed_s32 typed_u32 typed_u16 typed_htons typed_htonl typed_set_ref typed_set_key typed_set_dir
  typed_set_listner typed_mk_key typed_addresses_key typed_set_tid typed_set_dest : typed.

(** ** The procedures *)

Section procedures.
Context `{TypedEnv} `{RbLib Z}.

(** [qp.c] and the tree of pending connections. *)
Lemma typed_load_root l cpu : typed_proc any (load_root l cpu).
Proof. unfold load_root. typed. Qed.

Lemma typed_store_root l cpu t : typed_proc any (store_root l cpu t).
Proof. unfold store_root. typed. Qed.
#[local] Hint Resolve typed_load_root typed_store_root : typed.

Lemma typed_erase_qp qp l cpu : typed_proc any (erase_qp qp l cpu).
Proof. unfold erase_qp. typed. Qed.
#[local] Hint Resolve typed_erase_qp : typed.

Lemma typed_fin cpu qp : typed_proc any (fin_connected_qp cpu qp).
Proof. unfold fin_connected_qp. typed. Qed.
#[local] Hint Resolve typed_fin : typed.

Lemma typed_get_qp cpu qp : typed_proc any (get_qp cpu qp).
Proof. unfold get_qp, inc_ref. typed. Qed.

Lemma typed_put_qp qp : typed_proc any (put_qp qp).
Proof. unfold put_qp. typed. Qed.

Lemma typed_qp_exists cpu pqp dir : typed_proc any (qp_exists cpu pqp dir).
Proof. unfold qp_exists, qp_insert, qp_adopt. typed. Qed.
#[local] Hint Resolve typed_get_qp typed_put_qp typed_qp_exists : typed.

Lemma typed_wait_qp cpu qp dir : typed_proc any (wait_qp_ready cpu qp dir).
Proof. unfold wait_qp_ready, wait_peer, wait_sleep, wait_timeout, wake_up_qp. typed. Qed.
#[local] Hint Resolve typed_wait_qp : typed.

(** The relay: what is sent is what was received. *)
Lemma typed_kvec call n : typed_call call → typed_proc any (alloc_kvec call n).
Proof. intros Hc. induction n; cbn [alloc_kvec]; typed. Qed.

Lemma typed_free_page p : typed_proc any (free_page p).
Proof. unfold free_page. typed. Qed.
#[local] Hint Resolve typed_free_page : typed.

Lemma typed_duplex_loop fuel sock qp : typed_proc any (duplex_loop fuel sock qp).
Proof. induction fuel; cbn [duplex_loop]; [by apply typed_ret |]. unfold duplex_step. typed. Qed.
#[local] Hint Resolve typed_duplex_loop : typed.

Lemma typed_half_duplex fuel sock qp : typed_proc any (half_duplex fuel sock qp).
Proof. unfold half_duplex. typed. by apply typed_kvec. Qed.
#[local] Hint Resolve typed_half_duplex : typed.

(** The hooks, on a packet whose headers have their types. *)
Definition typed_skb (skb : sk_buff) : Prop :=
  typed_iphdr (ip_hdr skb) ∧ typed_tcphdr (skb_transport_header skb).

Lemma typed_search key : typed_proc any (search_listner key).
Proof. unfold search_listner. typed. Qed.
#[local] Hint Resolve typed_search : typed.

Lemma typed_build skb : typed_skb skb → typed_proc any (build_addresses skb).
Proof.
  intros ((? & ? & ?) & ? & ? & ?). unfold build_addresses. typed. apply typed_modify. intros w Hw.
  apply typed_upd_syns; [done |]. destruct (te_garbage_syn (tick a)) as ((? & _ & _) & (? & _ & _) & ? & _).
  split; [done | split; [done | split; [done | apply typed_s32]]].
Qed.
#[local] Hint Resolve typed_build : typed.

Lemma typed_ingress priv skb : typed_skb skb → typed_proc any (cbn_ingress_hook priv skb).
Proof. intros []. unfold cbn_ingress_hook. typed. Qed.

Lemma typed_egress skb : typed_skb skb → typed_proc any (cbn_egress_hook skb).
Proof.
  intros Hs. pose proof Hs as ((? & ? & ?) & ? & ? & ?). unfold cbn_egress_hook, get_cbn_probe. typed.
Qed.

Lemma typed_load_probe a : typed_proc typed_probe (kderef (λ w, probes w !! a) UseAfterFree).
Proof. apply typed_deref. intros w p [] Hp. exact (map_Forall_lookup_1 _ _ _ _ ty_probes0 Hp). Qed.
#[local] Hint Resolve typed_load_probe : typed.

Lemma typed_start_probe arg : typed_proc any (start_probe_syn arg).
Proof.
  unfold start_probe_syn. typed. apply typed_modify. intros w Hw. apply typed_add_log; [done |].
  cbn [typed_event]. split_and!; eauto 6 with typed.
Qed.

(** The halves. *)
Lemma typed_syn_qp x l : typed_qp (syn_qp x l).
Proof. split; [apply mk_key_good | done]. Qed.
#[local] Hint Resolve typed_syn_qp : typed.

Lemma typed_bind_src tx x : good_addresses x → typed_proc any (kernel_bind tx 0 (s_addr (src x))).
Proof. intros (_ & (_ & _ & ?) & _). by apply typed_kbind. Qed.
#[local] Hint Resolve typed_bind_src : typed.

Lemma typed_bind_transparent arg tx : typed_proc any (bind_transparent arg tx).
Proof. unfold bind_transparent. typed. Qed.
#[local] Hint Resolve typed_bind_transparent : typed.

Lemma typed_kconnect tx x : good_addresses x → typed_proc any (kernel_connect tx (sin_port (dest x)) (s_addr (dest x))).
Proof. intros ((_ & ? & ?) & _). by apply typed_connect. Qed.
#[local] Hint Resolve typed_kconnect : typed.

Lemma typed_syn_connect arg tx : typed_proc any (syn_connect arg tx).
Proof. unfold syn_connect. typed. Qed.
#[local] Hint Resolve typed_syn_connect : typed.

Lemma typed_syn_relay fuel cpu qp rc : typed_proc any (syn_relay fuel cpu qp rc).
Proof. unfold syn_relay, connect_fail. typed. Qed.
#[local] Hint Resolve typed_syn_relay : typed.

Lemma typed_new_syn fuel cpu arg : typed_proc any (start_new_connection_syn fuel cpu arg).
Proof. unfold start_new_connection_syn, syn_half, connect_fail. typed. Qed.

Lemma typed_new_connection fuel arg : typed_proc any (start_new_connection fuel arg).
Proof. unfold start_new_connection, client_relay, create_fail. typed. Qed.
#[local] Hint Resolve typed_new_syn typed_new_connection : typed.

(** The tenants' servers. *)
Lemma typed_mk_listner k p st sock raw : is_s32 k → is_u16 p → is_u16 st → typed_listner (MkListner k p st sock raw).
Proof. done. Qed.

Lemma typed_l_key l : typed_listner l → is_s32 (l_key l).
Proof. by intros (? & ? & ?). Qed.

Lemma typed_l_port l : typed_listner l → is_u16 (l_port l).
Proof. by intros (? & ? & ?). Qed.

Lemma typed_l_status l : typed_listner l → is_u16 (l_status l).
Proof. by intros (? & ? & ?). Qed.
#[local] Hint Resolve typed_mk_listner typed_l_key typed_l_port typed_l_status : typed.

Lemma typed_status server st : is_u16 st → typed_proc any (set_status server st).
Proof. intros. unfold set_status. typed. Qed.

Lemma typed_remove_listner pos : typed_proc any (remove_listner_server pos).
Proof. unfold remove_listner_server, erase_listner. typed. Qed.
#[local] Hint Resolve typed_status typed_remove_listner : typed.

Lemma typed_del_server tid : typed_proc any (del_server_cb tid).
Proof. unfold del_server_cb. typed. Qed.

Lemma typed_register tid sock : typed_proc any (register_server_sock tid sock).
Proof. unfold register_server_sock, add_listner. typed. Qed.

Lemma typed_raw_socket m : typed_proc any (craete_prec_conn_probe m).
Proof. unfold craete_prec_conn_probe. typed. Qed.

Lemma typed_server_out sock rc : typed_proc any (server_out sock rc).
Proof. unfold server_out. typed. Qed.
#[local] Hint Resolve typed_register typed_raw_socket typed_server_out : typed.

Lemma typed_server_error server sock rc : typed_proc any (server_error server sock rc).
Proof. unfold server_error. typed. Qed.
#[local] Hint Resolve typed_server_error : typed.

Lemma typed_server_listen server sock m port : typed_proc any (server_listen server sock m port).
Proof. unfold server_listen. typed. Qed.
#[local] Hint Resolve typed_server_listen : typed.

Lemma typed_mk_qp k n l tx rx : good_key k → is_s32 n → typed_qp (MkQp k n l tx rx).
Proof. done. Qed.

Lemma typed_q_key q : typed_qp q → good_key (q_key q).
Proof. by intros []. Qed.

Lemma typed_ref_cnt q : typed_qp q → is_s32 (ref_cnt q).
Proof. by intros []. Qed.
#[local] Hint Resolve typed_mk_qp typed_q_key typed_ref_cnt : typed.

(** How the loop is left keeps the types too. *)
Lemma typed_accept_one server sock m :
  typed_proc (λ r, match r with Some leave => typed_proc any leave | None => True end) (accept_one server sock m).
Proof. unfold accept_one. typed. Qed.

Lemma typed_accept_loop fuel server sock m : typed_proc any (accept_loop fuel server sock m).
Proof.
  induction fuel; cbn [accept_loop]; [by apply typed_ret |].
  eapply typed_bind; [apply typed_accept_one |]. by intros [leave |] Hl.
Qed.
#[local] Hint Resolve typed_accept_loop : typed.

Lemma typed_split_server fuel mp : typed_proc any (split_server fuel mp).
Proof. unfold split_server, serve_tenant. typed. Qed.
#[local] Hint Resolve typed_del_server typed_split_server : typed.

(** The pre-connections. *)
Lemma typed_get_preconn key : typed_proc any (get_rb_preconn key).
Proof. unfold get_rb_preconn, search_preconn, init_preconn, link_preconn. typed. Qed.
#[local] Hint Resolve typed_get_preconn : typed.

Lemma typed_list p cpu : typed_proc any (pcp_list p cpu).
Proof. by apply (typed_deref any). Qed.
#[local] Hint Resolve typed_list : typed.

Lemma typed_pool ip : typed_proc any (prealloc_connection_pool ip).
Proof. unfold prealloc_connection_pool, search_preconn. typed. Qed.

Lemma typed_take_preconn cpu ip : typed_proc any (alloc_prexeisting_conn cpu ip).
Proof. unfold alloc_prexeisting_conn, search_preconn. typed. Qed.

Lemma typed_add_preconn cpu qp : typed_proc any (add_preconn_qp cpu qp).
Proof. unfold add_preconn_qp. typed. Qed.
#[local] Hint Resolve typed_pool typed_take_preconn typed_add_preconn : typed.

Lemma typed_preconn_connect tx ip : typed_proc any (preconn_connect tx (fill_preconn_address ip)).
Proof. unfold preconn_connect. typed. apply typed_connect; [apply typed_htons | apply typed_u32]. Qed.
#[local] Hint Resolve typed_preconn_connect : typed.

Lemma typed_prealloc cpu ip : typed_proc any (prealloc_connection cpu ip).
Proof. unfold prealloc_connection. typed. Qed.

Lemma typed_stack n : Forall is_byte (stack_bytes n).
Proof. apply Forall_fmap, Forall_true. intros i. apply (uw_range 8). lia. Qed.

Lemma typed_sockaddr_bytes pad x : Forall is_byte pad → Forall is_byte (sockaddr_bytes pad x).
Proof. intros. unfold sockaddr_bytes. rewrite !Forall_app. auto using le_bytes_byte. Qed.

Lemma typed_forward tx arg : typed_proc any (forward_conn_info tx arg).
Proof.
  unfold forward_conn_info. eapply typed_bind; [apply typed_load_syn |]. intros x _. apply typed_sendmsg.
  apply Forall_take. unfold addresses_bytes. rewrite !Forall_app.
  split_and!; auto using typed_sockaddr_bytes, typed_stack, le_bytes_byte.
Qed.
#[local] Hint Resolve typed_forward : typed.

Lemma typed_new_pre_syn fuel cpu arg : typed_proc any (start_new_pre_connection_syn fuel cpu arg).
Proof. unfold start_new_pre_connection_syn. typed. Qed.

(** A record read from the wire has its types whatever the bytes are. *)
Lemma typed_field off n l : Forall is_byte l → 0 ≤ field off n l < 256 ^ Z.of_nat n.
Proof.
  intros Hl. unfold field. pose proof (le_val_range (take n (drop off l)) (Forall_take _ _ _ (Forall_drop _ _ _ Hl))) as Hv.
  pose proof (length_take (drop off l) n) as Hn. split; [lia |]. eapply Z.lt_le_trans; [apply Hv |].
  apply Z.pow_le_mono_r; lia.
Qed.

Lemma typed_sockaddr_of off l : Forall is_byte l → good_sockaddr (sockaddr_of off l).
Proof. intros Hl. split; [| split]; [exact (typed_field off 2 l Hl) | exact (typed_field (off + 2) 2 l Hl) | exact (typed_field (off + 4) 4 l Hl)]. Qed.

Lemma typed_addresses_of l : Forall is_byte l → good_addresses (addresses_of l).
Proof.
  intros Hl. split; [| split; [| split]]; [by apply typed_sockaddr_of | by apply typed_sockaddr_of | | apply typed_s32].
  exact (typed_field 32 4 l Hl).
Qed.

Lemma typed_next_hop qp : typed_proc (λ r, good_addresses r.2) (preconn_wait_for_next_hop qp).
Proof.
  unfold preconn_wait_for_next_hop. eapply typed_bind; [apply typed_load_qp |]. intros q _.
  eapply typed_bind; [apply typed_waitall |]. intros [rc bytes] Hb. apply typed_ret, typed_addresses_of.
  apply Forall_app. split; [done | apply Forall_drop, typed_stack].
Qed.

Lemma typed_pending_connect tx x : good_addresses x → typed_proc any (pending_connect tx x).
Proof. intros. unfold pending_connect. typed. Qed.
#[local] Hint Resolve typed_next_hop typed_pending_connect : typed.

Lemma typed_pending fuel cpu arg : typed_proc any (start_new_pending_connection fuel cpu arg).
Proof. unfold start_new_pending_connection. typed. Qed.

Lemma typed_start_half fuel args : typed_proc any (start_half_duplex fuel args).
Proof. unfold start_half_duplex. typed. Qed.

Lemma typed_preconn_accept fuel sock : typed_proc any (preconn_accept_loop fuel sock).
Proof. induction fuel; cbn [preconn_accept_loop]; [by apply typed_ret |]. unfold preconn_accept_one. typed. Qed.
#[local] Hint Resolve typed_preconn_accept : typed.

Lemma typed_preconn_server fuel arg : typed_proc any (prec_conn_listner_server fuel arg).
Proof. unfold prec_conn_listner_server, prec_conn_listner_body, preconn_resgister_server. typed. Qed.

Lemma typed_preconn_write l : typed_proc any (preconn_write_cb l).
Proof. unfold preconn_write_cb. typed. Qed.
#[local] Hint Resolve typed_new_pre_syn typed_pending typed_start_half typed_prealloc typed_start_probe
  typed_preconn_write : typed.

(** The calls of the thread pool. *)
Lemma typed_pool_task running frame fuel e m : pool_task running frame fuel e = Some m → typed_proc any m.
Proof. destruct e; try done. intros [= <-]. destruct f; typed. Qed.

(** The commands written to /proc. *)
Variables (get_options : list Z → nat → list Z) (version : list Z).

Lemma typed_command file f buf : proc_command get_options version file = Some f → typed_proc any (f buf).
Proof.
  intros Hf. destruct (proc_command_inv _ _ _ _ Hf) as [-> | [-> | [-> | ->]]];
    unfold cbn_add_server, cbn_del_server, preconn_proc_command, cbn_transparent_command, read_command, add_server_cb;
    typed.
Qed.

(** The hooks the module registers. *)
Lemma typed_run_hook o skb : typed_skb skb → typed_proc any (run_hook o skb).
Proof.
  intros Hs. unfold run_hook. destruct (hook o); [by apply typed_egress |].
  eapply typed_bind; [by apply typed_ingress | intros v _; by apply typed_ret].
Qed.

(** One entry point of the module run to its end: a call of the thread pool, a
    packet in a hook, a write to a file, the listener of the pre-connections. *)
Inductive module_step (w w' : world) : Prop :=
  | step_task running frame fuel e m rc : pool_task running frame fuel e = Some m → m w = Ok (rc, w') → module_step w w'
  | step_hook o skb v : o ∈ cbn_nf_hooks → typed_skb skb → run_hook o skb w = Ok (v, w') → module_step w w'
  | step_command file f buf rc : proc_command get_options version file = Some f → f buf w = Ok (rc, w') → module_step w w'
  | step_preconn fuel arg rc : prec_conn_listner_server fuel arg w = Ok (rc, w') → module_step w w'.

Lemma module_step_typed w w' : module_step w w' → typed_world w → typed_world w'.
Proof.
  assert (Hrun : ∀ {A} (m : wproc A) a, typed_proc any m → m w = Ok (a, w') → typed_world w → typed_world w').
  { intros A m a Hm Hr Hw. specialize (Hm w Hw). rewrite Hr in Hm. by destruct Hm. }
  destruct 1; eapply Hrun; try done.
  - by eapply typed_pool_task.
  - by apply typed_run_hook.
  - by eapply typed_command.
  - apply typed_preconn_server.
Qed.

(** However the entry points of the module follow one another, every field
    of every object keeps the type of the source: keys have twelve bytes,
    counts, marks and tenant ids are 32-bit signed, ports 16-bit and addresses
    32-bit unsigned, and the ports and addresses that are bound and connected
    to have those types too, whatever the bytes that arrive. *)
Lemma module_types w w' : rtc module_step w w' → typed_world w → typed_world w'.
Proof. induction 1 as [| w w1 w' Hs _ IH]; [done |]. intros Hw. by apply IH, (module_step_typed w). Qed.
End procedures.

(** ** A concrete run: a SYN, and the probe for it *)

Lemma calm_typed ans : @TypedEnv (calm ans (λ _, []) (λ _, no_addr)).
Proof.
  split; intros; try done. split; [| done]. split; [done |]. simpl. repeat (constructor; [done |]). constructor.
Qed.

Lemma tenant_up_typed : typed_world tenant_up.
Proof.
  assert (He : ∀ A (P : A → Prop), map_Forall (λ _ : Z, P) ∅) by (intros; apply map_Forall_empty).
  split; [apply He | | apply He | apply He | apply He | simpl; apply map_Forall_empty | exact (Forall_nil_2 _)].
  simpl. apply map_Forall_insert_2; [done | apply He].
Qed.

Definition syn_hook : nf_hook_ops hook_fn := MkHook H_cbn_ingress_hook NF_INET_PRE_ROUTING (-250) "RX".

Definition probed : outcome (Z * world) :=
  match @run_hook (always 1) syn_hook some_syn tenant_up with
  | Ok (_, w) => @start_probe_syn (always 1) (PObj 100) w
  | Oops e => Oops e
  end.

Lemma module_types_witness :
  match probed with Ok (_, w) => typed_world w ∧ length (log w) = 4%nat | Oops _ => False end.
Proof.
  destruct (@run_hook (always 1) syn_hook some_syn tenant_up) as [[v w1] |] eqn:E1; [| by vm_compute in E1].
  destruct probed as [[rc w2] |] eqn:E2; [| by vm_compute in E2].
  split.
  - eapply (@module_types (always 1) (calm_typed _) spine_lib (λ _ _, []) [] tenant_up w2); [| exact tenant_up_typed].
    eapply rtc_l; [eapply step_hook; [| | exact E1]; [by right; left | done] |].
    unfold probed in E2. rewrite E1 in E2.
    eapply rtc_once, (step_task _ _ _ _ 0 no_frame 0 (E_pool_run T_start_probe_syn (PObj 100) 0 None)); [reflexivity |].
    by kstep E2.
  - vm_compute in E2. by injection E2 as <- <-.
Defined.
