(* ===== verification/Boot.v ===== *)
(** * Module start and stop (split.c, thread_pool.c, conn_pool.c, proc.c)

    [stop_sockets] walks the tree of listeners while it erases them; the rest
    starts and stops the parts of the module in order.  The state here is the
    world together with the thread pool, which the other files model apart. *)

From stdpp Require Import base list gmap sets strings.
From Stdlib Require Import ZArith Lia.
From S2P Require Import Prelude RbTree Keys DataTree ElemPool Magazine ThreadPool World Qp Relay Hooks Server Preconn Proc.

(** ** The tenants' sockets *)

(** The node a post-order walk visits after [x]; [rb_next_postorder] reads the
    tree as it is now. *)
Fixpoint next_in (x : Z) (l : list Z) : option Z :=
  match l with
  | y :: (z :: _) as l => if y =? x then Some z else next_in x l
  | _ => None
  end.

Definition rb_first_postorder (t : tree Z) : option Z := head (postorder t).
Definition rb_next_postorder (x : Z) (t : tree Z) : option Z := next_in x (postorder t).

Section stop.
Context `{Env} `{RbLib Z}.

(** [rbtree_postorder_for_each_entry_safe]: the next node is read before the
    body, which erases [pos] and so rebalances the tree. *)
Fixpoint stop_loop (fuel : nat) (pos : option Z) : wproc (option unit) :=
  match fuel with
  | O => mret None
  | S fuel =>
      match pos with
      | None => mret (Some tt)
      | Some pos =>
          w ← kget;
          let n := rb_next_postorder pos (listner_root w) in
          remove_listner_server (PObj pos) ;;
          stop_loop fuel n
      end
  end.

Definition stop_sockets : wproc (option unit) :=
  w ← kget;
  stop_loop (S (length (inorder (listner_root w)))) (rb_first_postorder (listner_root w)).
End stop.

(** The proxies of a tenant stopped by shutting both sockets of every pending
    QP; the module has the function but does not call it. *)
Section proxies.
Context `{Env}.

Definition stop_proxy (pos : Z) : wproc unit :=
  q ← load_qp (PObj pos);
  (if decide (q_tx q = PNull) then mret tt else kernel_sock_shutdown (q_tx q)) ;;
  (if decide (q_rx q = PNull) then mret tt else kernel_sock_shutdown (q_rx q)).

Definition stop_tennat_proxies (root : tree Z) : wproc unit := kforeach (postorder root) stop_proxy.

(** It would not do: the server side of a QP that is still connecting is an
    error pointer, not NULL. *)
Lemma stop_tennat_proxies_pending w a q :
  qps w !! a = Some q → q_tx q = PErr EINVAL → stop_tennat_proxies (Node Leaf a Leaf) w = Oops NullDeref.
Proof.
  intros Hq Htx. unfold stop_tennat_proxies. cbn [postorder app kforeach]. unfold stop_proxy. rewrite !kbind_assoc.
  kstep (load_qp_ok w a q Hq). by rewrite Htx.
Qed.
End proxies.

Lemma next_in_elem x l y : next_in x l = Some y → y ∈ l.
Proof.
  induction l as [| a l IH]; [done |]. destruct l as [| b l]; [done |]. cbn [next_in].
  destruct (a =? x); [intros [= <-]; set_solver | set_solver].
Qed.

Lemma next_in_ne x l y : NoDup l → next_in x l = Some y → y ≠ x.
Proof.
  induction l as [| a l IH]; [done |]. destruct l as [| b l]; [done |]. cbn [next_in].
  intros [Ha Hl]%NoDup_cons. destruct (Z.eqb_spec a x) as [-> |]; [intros [= <-] ->; set_solver | by apply IH].
Qed.

(** ** What the walk does *)

Section stop_lemmas.
Context `{Env} `{RbLaws Z}.
Implicit Types w : world.

(** Every listener is live and its socket, if it has one, is open. *)
Definition stoppable lo w : Prop :=
  listners_ok w lo ∧
  ∀ y L, y ∈ inorder (listner_root w) → listners w !! y = Some L →
    l_sock L = PNull ∨ ∃ s, l_sock L = PObj s ∧ is_Some (socks w !! s).

(** Listeners may be taken out: such a one is freed and its socket shut down.
    The others, and all other sockets, are as they were. *)
Record stopped w w' : Prop := {
  st_subset : inorder (listner_root w') ⊆ inorder (listner_root w);
  st_keep y : y ∈ inorder (listner_root w') ∨ y ∉ inorder (listner_root w) → listners w' !! y = listners w !! y;
  st_freed y : y ∈ inorder (listner_root w) → y ∉ inorder (listner_root w') → listners w' !! y = None;
  st_shut y L s : y ∈ inorder (listner_root w) → y ∉ inorder (listner_root w') →
    listners w !! y = Some L → l_sock L = PObj s → socks w' !! s = Some S_shut;
  st_mono s : socks w !! s = Some S_shut → socks w' !! s = Some S_shut;
  st_socks : dom (socks w') = dom (socks w);
  st_pairing : same_pairing w w';
  st_res : resources (log w') = resources (log w);
}.

#[local] Instance stopped_refl : Reflexive stopped.
Proof. intros w. split; done. Qed.

#[local] Instance stopped_trans : Transitive stopped.
Proof.
  intros w1 w2 w3 [S1 K1 F1 R1 M1 D1 P1 G1] [S2 K2 F2 R2 M2 D2 P2 G2]. split.
  - set_solver.
  - intros y Hy. rewrite K2, K1; set_solver.
  - intros y Hy Hn. destruct (decide (y ∈ inorder (listner_root w2))); [auto | rewrite K2; auto].
  - intros y L s Hy Hn HL Hs. destruct (decide (y ∈ inorder (listner_root w2))) as [Hin | Hout]; [| eauto].
    apply (R2 y L s); try done. rewrite K1; auto.
  - auto.
  - congruence.
  - destruct P1 as (?&?&?&?&?&?), P2 as (?&?&?&?&?&?). split_and!; congruence.
  - congruence.
Qed.

(** One listener. *)
Lemma remove_stops lo w a :
  stoppable lo w → a ∈ inorder (listner_root w) →
  ∃ w', remove_listner_server (PObj a) w = Ok (tt, w') ∧ stoppable lo w' ∧ stopped w w' ∧
    listner_root w' = rb_erase a (listner_root w) ∧
    inorder (listner_root w) ≡ₚ a :: inorder (listner_root w').
Proof.
  intros [[Hord Hlive] Hsock] Ha. destruct (Hlive a Ha) as [L HL].
  destruct (rb_erase_spec (listner_key w) key_diff (in_half lo) (listner_root w) a Hord Ha) as [Hord' Hp].
  assert (Hnd := ordered_NoDup _ _ _ _ Hord). rewrite Hp in Hnd. apply NoDup_cons in Hnd as [Hni _].
  set (t := rb_erase a (listner_root w)) in *.
  assert (Hmem : ∀ y, y ∈ inorder (listner_root w) ↔ y = a ∨ y ∈ inorder t) by (intros y; rewrite Hp; apply elem_of_cons).
  (* the world after the socket was shut down *)
  assert (Hgo : ∃ w1, (if decide (l_sock L = PNull) then mret tt else kernel_sock_shutdown (l_sock L)) w = Ok (tt, w1) ∧
    listners w1 = listners w ∧ listner_root w1 = listner_root w ∧ same_pairing w w1 ∧ dom (socks w1) = dom (socks w) ∧
    (∀ s, socks w !! s = Some S_shut → socks w1 !! s = Some S_shut) ∧
    (∀ s, l_sock L = PObj s → socks w1 !! s = Some S_shut) ∧ resources (log w1) = resources (log w)).
  { destruct (Hsock a L Ha HL) as [E | (s & E & [st Hs])]; rewrite E.
    - rewrite decide_True by done. exists w. by split_and!.
    - rewrite decide_False by done. eexists. split; [exact (kernel_sock_shutdown_ok w s st Hs) |].
      split_and!; try done; simpl.
      + apply dom_insert_lookup_L. by eexists.
      + intros s' Hs'. destruct (decide (s' = s)) as [-> |]; [apply lookup_insert_eq | by rewrite lookup_insert_ne].
      + intros s' [= <-]. apply lookup_insert_eq. }
  destruct Hgo as (w1 & R1 & El & Er & Hsp & Hd & Hmono & Hshut & Hres).
  unfold remove_listner_server. kstep (load_listner_ok w a L HL). kstep R1.
  unfold erase_listner. rewrite kbind_assoc, kbind_get, Er, decide_True by done. kpure.
  eexists. split; [done |]. split_and!; [split; [split |] | split; simpl | done | done]; simpl; rewrite ?El.
  - eapply ordered_ext; [| exact Hord']. intros y Hy. unfold listner_key. simpl. rewrite El, lookup_delete_ne; [done |].
    by intros ->.
  - intros y Hy. rewrite lookup_delete_ne by (by intros ->). apply Hlive, Hmem. by right.
  - intros y L' Hy. rewrite lookup_delete_ne by (by intros ->). intros HL'.
    destruct (Hsock y L') as [? | (s & ? & ?)]; [apply Hmem; by right | done | by left | right].
    exists s. split; [done |]. apply elem_of_dom. rewrite Hd. by apply elem_of_dom.
  - intros y Hy. apply Hmem. by right.
  - intros y Hy. rewrite lookup_delete_ne; [done |]. intros <-. destruct Hy as [| Hy]; [done |]. by apply Hy.
  - intros y Hy Hn. apply Hmem in Hy as [-> |]; [apply lookup_delete_eq | done].
  - intros y L' s Hy Hn HL' Hs. apply Hmem in Hy as [-> |]; [| done]. rewrite HL in HL'. injection HL' as <-. by apply Hshut.
  - done.
  - done.
  - destruct Hsp as (?&?&?&?&?&?). by split_and!.
  - done.
Qed.

Lemma stop_loop_total lo fuel w pos :
  stoppable lo w → (length (inorder (listner_root w)) < fuel)%nat →
  (∀ a, pos = Some a → a ∈ inorder (listner_root w)) →
  ∃ w', stop_loop fuel pos w = Ok (Some tt, w') ∧ stopped w w' ∧ stoppable lo w' ∧
    (∀ a, pos = Some a → a ∉ inorder (listner_root w')).
Proof.
  revert w pos. induction fuel as [| fuel IH]; intros w pos Hst Hf Hpos; [lia |]. cbn [stop_loop].
  destruct pos as [a |]; [| by exists w]. kpure.
  specialize (Hpos a eq_refl). destruct (remove_stops lo w a Hst Hpos) as (w1 & R1 & Hst1 & Hs1 & Et & Hp). kstep R1.
  assert (Hlen := Permutation_length Hp). cbn [length] in Hlen.
  destruct (IH w1 (rb_next_postorder a (listner_root w)) Hst1) as (w' & R2 & Hs2 & Hst2 & _); [lia | |].
  - intros b Hb. unfold rb_next_postorder in Hb.
    assert (Hnd : NoDup (postorder (listner_root w))).
    { rewrite postorder_perm. exact (ordered_NoDup _ _ _ _ (proj1 (proj1 Hst))). }
    assert (Hne := next_in_ne _ _ _ Hnd Hb). apply next_in_elem in Hb. rewrite postorder_perm, Hp in Hb. set_solver.
  - exists w'. split_and!; [done | by etransitivity | done |]. intros b [= <-] Hin.
    apply (st_subset _ _ Hs2) in Hin. assert (Hnd := ordered_NoDup _ _ _ _ (proj1 (proj1 Hst))).
    rewrite Hp in Hnd. by apply NoDup_cons in Hnd as [? _].
Qed.

Lemma stop_sockets_ok lo w :
  stoppable lo w →
  ∃ w', stop_sockets w = Ok (Some tt, w') ∧ stopped w w' ∧ stoppable lo w' ∧
    (∀ a, rb_first_postorder (listner_root w) = Some a → a ∉ inorder (listner_root w')).
Proof.
  intros Hst. unfold stop_sockets. kpure. apply stop_loop_total; [done | lia |].
  intros a Ha. rewrite <- postorder_perm. by apply head_Some_elem_of.
Qed.

(** The walk ends without a fault, although it frees the nodes it stands
    on: every listener it takes out of the tree is freed and its socket shut
    down, every other one is untouched, and the first of the post-order is taken
    out. *)
Lemma stop_sockets_total lo w :
  stoppable lo w →
  ∃ w', stop_sockets w = Ok (Some tt, w') ∧ stopped w w' ∧ stoppable lo w' ∧
    (∀ a, rb_first_postorder (listner_root w) = Some a → a ∉ inorder (listner_root w')).
Proof. apply stop_sockets_ok. Qed.



End stop_lemmas.

(** ** A library that rebalances

    After a node was taken out, a node whose left subtree became empty and
    whose right one has two levels is rotated to the left, as [rb_erase] does
    with a black leaf whose sibling has a red child. *)

Section rotate.
Context {A : Type} `{EqDecision A}.

(** The nodes of [l] before those of [r]. *)
Fixpoint join (l r : tree A) : tree A :=
  match l with
  | Leaf => r
  | Node ll x lr => Node ll x (join lr r)
  end.

Definition rotate (l : tree A) (x : A) (r : tree A) : tree A :=
  match l, r with
  | Leaf, Node rl y (Node a z b) => Node (Node l x rl) y (Node a z b)
  | _, _ => Node l x r
  end.

Fixpoint cut (x : A) (t : tree A) : tree A :=
  match t with
  | Leaf => Leaf
  | Node l y r => if decide (y = x) then join (cut x l) (cut x r) else rotate (cut x l) y (cut x r)
  end.

Definition rotate_lib : RbLib A := {| rb_insert_color := λ _ t, t; rb_erase := cut |}.

Lemma inorder_join l r : inorder (join l r) = inorder l ++ inorder r.
Proof. induction l as [| ll _ x lr IH]; simpl; [done |]. by rewrite IH, <- app_assoc. Qed.

Lemma inorder_rotate l x r : inorder (rotate l x r) = inorder l ++ x :: inorder r.
Proof. destruct l, r as [| ? ? []]; simpl; by rewrite <- ?app_assoc. Qed.

Lemma inorder_cut x t : inorder (cut x t) = filter (λ y, y ≠ x) (inorder t).
Proof.
  induction t as [| l IHl y r IHr]; simpl; [done |]. rewrite filter_app, filter_cons. case_decide as E.
  - rewrite decide_False by tauto. by rewrite inorder_join, IHl, IHr.
  - rewrite decide_True by done. by rewrite inorder_rotate, IHl, IHr.
Qed.

Lemma rotate_laws : @RbLaws A rotate_lib.
Proof.
  split; [done |]. intros t l1 x l2 E Hnd. simpl. rewrite inorder_cut.
  rewrite <- (inorder_spine (filter _ _)). by apply (rb_erase_inorder (RbLaws := spine_laws)).
Qed.
End rotate.

(** Four tenants on the listeners 1 to 4, each with its socket. *)
Definition four_listners : world :=
  upd_socks (λ _, {[ 11 := S_open; 12 := S_open; 13 := S_open; 14 := S_open ]})
    (upd_listners (λ _, {[ 1 := MkListner 1 80 6 (PObj 11) PNull; 2 := MkListner 2 80 6 (PObj 12) PNull;
                           3 := MkListner 3 80 6 (PObj 13) PNull; 4 := MkListner 4 80 6 (PObj 14) PNull ]})
      (set_listner_root (Node (Node Leaf 1 Leaf) 2 (Node Leaf 3 (Node Leaf 4 Leaf))) (empty_world 100))).

Lemma four_stoppable : stoppable 0 four_listners.
Proof.
  split; [split |].
  - split; [| by repeat constructor]. repeat constructor.
  - intros y Hy. simpl in Hy. repeat (apply elem_of_cons in Hy as [-> | Hy]; [by eexists |]). by apply elem_of_nil in Hy.
  - intros y L Hy. simpl in Hy.
    repeat (apply elem_of_cons in Hy as [-> | Hy]; [intros [= <-]; right; eexists; split; [done | by eexists] |]).
    by apply elem_of_nil in Hy.
Qed.

Lemma stop_sockets_total_witness :
  ∃ w', @stop_sockets rotate_lib four_listners = Ok (Some tt, w') ∧ 1 ∉ inorder (listner_root w').
Proof.
  destruct (@stop_sockets_total rotate_lib rotate_laws 0 four_listners four_stoppable) as (w' & Hr & _ & _ & Hl).
  exists w'. split; [exact Hr | by apply Hl].
Defined.

(** The tree is rotated under the walk: after 1 was erased 3 is the root, and
    listener 2 is never visited; its socket goes on listening. *)
Lemma stop_sockets_misses :
  ∃ w', @stop_sockets rotate_lib four_listners = Ok (Some tt, w') ∧
    inorder (listner_root w') = [2] ∧ socks w' !! 12 = Some S_open.
Proof. eexists. split; [by vm_compute | by vm_compute]. Qed.

(** ** The whole module *)

(** The world, the pool of threads and its refill thread; the two lists of
    conn_pool.c, which nothing adds to. *)
Record module := MkModule {
  m_world : world;
  cbn_pool : kthread_pool mag_allocator task_fn;
  pool_refil : ptr;
  pre_conn_list_client : list Z;
  pre_conn_list_server : list Z;
}.

Abbreviation sproc := (kproc module).

Definition with_pool (p : kthread_pool mag_allocator task_fn) (m : module) : module :=
  MkModule (m_world m) p (pool_refil m) (pre_conn_list_client m) (pre_conn_list_server m).
Definition with_pool_refil (t : ptr) (m : module) : module :=
  MkModule (m_world m) (cbn_pool m) t (pre_conn_list_client m) (pre_conn_list_server m).
Definition with_lists (c s : list Z) (m : module) : module :=
  MkModule (m_world m) (cbn_pool m) (pool_refil m) c s.

Definition on_world {A} (f : wproc A) : sproc A := λ m,
  match f (m_world m) with
  | Ok (a, w) => Ok (a, MkModule w (cbn_pool m) (pool_refil m) (pre_conn_list_client m) (pre_conn_list_server m))
  | Oops e => Oops e
  end.

Definition on_pool {A} (f : kproc (kthread_pool mag_allocator task_fn) A) : sproc A := λ m,
  match f (cbn_pool m) with
  | Ok (a, p) => Ok (a, with_pool p m)
  | Oops e => Oops e
  end.

Definition with_size (n : Z) (p : kthread_pool mag_allocator task_fn) : kthread_pool mag_allocator task_fn :=
  MkPool n (top_count p) (refil_awake p) (allocator p) (elems p) (ThreadPool.held p) (executed p).

Section module.
Context `{Env} `{RbLib Z}.

(** The memory kzalloc returns for the magazines of a CPU and context. *)
Context (kzalloc : Z → bool → Z).

(** [pool_size] is the parameter of the module. *)
Definition parse_module_params (pool_size : Z) : sproc unit :=
  if 0 <? pool_size then on_pool (kmodify (with_size pool_size)) else mret tt.

Definition init_kallsyms : wproc Z :=
  psched_setaffinity ← kernel_call (C_kallsyms "sched_setaffinity"%string);
  let rc := Z.b2z (psched_setaffinity =? 0) in
  pkthread_bind_mask ← kernel_call (C_kallsyms "kthread_bind_mask"%string);
  let rc := Z.lor rc (Z.b2z (pkthread_bind_mask =? 0)) in
  p__alloc_reserved_percpu ← kernel_call (C_kallsyms "__alloc_reserved_percpu"%string);
  mret (Z.lor rc (Z.b2z (p__alloc_reserved_percpu =? 0))).

Definition cbn_kthread_pool_init : sproc Z :=
  on_pool (kmodify (with_top 0)) ;;
  on_pool (lift_alloc (mag_allocator_init possible_cpus kzalloc)) ;;
  on_world (slab_create "pool-thread-cache"%string) ;;
  refil ← on_world (kthread F_refil_thread 0);
  kmodify (with_pool_refil refil) ;;
  mret 0.

Definition cbn_pre_connect_init : sproc Z :=
  kmodify (with_lists [] []) ;;
  on_world (slab_create "cbn_preconn_slab"%string) ;;
  _ ← on_world (kthread F_prec_conn_listner_server PRECONN_SERVER_PORT);
  mret 0.

Definition cbn_proc_init : wproc Z :=
  cbn_dir ← proc_mkdir "cbn"%string;
  _ ← proc_create cbn_dir "connections"%string;
  _ ← proc_create cbn_dir "cbn_proc"%string;
  _ ← proc_create cbn_dir "cbn_del"%string;
  _ ← proc_create cbn_dir "conn_pool"%string;
  _ ← proc_create cbn_dir "cbn_transparent"%string;
  _ ← proc_create cbn_dir "version"%string;
  mret 0.

Definition cbn_datapath_init (pool_size : Z) : sproc Z :=
  parse_module_params pool_size ;;
  rc ← on_world init_kallsyms;
  if negb (rc =? 0) then mret (-1)
  else
    on_world (slab_create "cbn_qp_mdata"%string) ;;
    on_world (slab_create "cbn_listner"%string) ;;
    on_world (slab_create "cbn_syn_mdata"%string) ;;
    on_world (slab_create "cbn_probe_headers"%string) ;;
    _ ← cbn_kthread_pool_init;
    _ ← cbn_pre_connect_init;
    _ ← on_world nf_register_net_hooks;
    _ ← on_world cbn_proc_init;
    mret 0.

(** ** Stop *)

Definition slab_destroy (slab : string) : wproc unit := kmodify (add_log (E_slab_destroy slab)).

Definition cbn_proc_clean : wproc unit := kmodify (add_log (E_proc_remove "cbn"%string)).

(** One element of a list of pre-connections. *)
Definition drop_preconn (dir qp : Z) : wproc unit :=
  sock ← read_dir (PObj qp) dir;
  sock_release sock ;;
  free_qp (PObj qp).

Definition clear_client_pre_connections : sproc unit :=
  m ← kget;
  on_world (kforeach (pre_conn_list_client m) (drop_preconn TX_QP)) ;;
  kmodify (λ m, with_lists [] (pre_conn_list_server m) m).

Definition cbn_pre_connect_end : sproc Z :=
  m ← kget;
  (if decide (pre_conn_listner (m_world m) = PNull) then mret tt
   else on_world (l ← load_listner (pre_conn_listner (m_world m)); kernel_sock_shutdown (l_sock l))) ;;
  clear_client_pre_connections ;;
  on_world (kforeach (pre_conn_list_server m) (drop_preconn RX_QP)) ;;
  kmodify (λ m, with_lists (pre_conn_list_client m) [] m) ;;
  on_world (slab_destroy "cbn_preconn_slab"%string) ;;
  mret 0.

(** The elements of the pool and their threads are left: the code that stops
    them is commented out. *)
Definition cbn_kthread_pool_clean : sproc unit :=
  m ← kget;
  on_world (kthread_stop (pool_refil m) F_refil_thread) ;;
  on_world (slab_destroy "pool-thread-cache"%string).

Definition cbn_datapath_clean : sproc unit :=
  on_world cbn_proc_clean ;;
  on_world nf_unregister_net_hooks ;;
  _ ← cbn_pre_connect_end;
  _ ← on_world stop_sockets;
  cbn_kthread_pool_clean ;;
  on_world (slab_destroy "cbn_qp_mdata"%string) ;;
  on_world (slab_destroy "cbn_syn_mdata"%string) ;;
  on_world (slab_destroy "cbn_probe_headers"%string) ;;
  on_world (slab_destroy "cbn_listner"%string).
End module.

(** ** Starting *)

Definition with_world (w : world) (m : module) : module :=
  MkModule w (cbn_pool m) (pool_refil m) (pre_conn_list_client m) (pre_conn_list_server m).

Lemma on_world_ok {A} (f : wproc A) m a w : f (m_world m) = Ok (a, w) → on_world f m = Ok (a, with_world w m).
Proof. intros Hf. unfold on_world. by rewrite Hf. Qed.

Lemma on_pool_ok {A} (f : kproc _ A) m a p : f (cbn_pool m) = Ok (a, p) → on_pool f m = Ok (a, with_pool p m).
Proof. intros Hf. unfold on_pool. by rewrite Hf. Qed.

Lemma kbind_oops {S A B} (c : kproc S A) (f : A → kproc S B) s e : c s = Oops e → (c ≫= f) s = Oops e.
Proof. intros Hc. unfold mbind, kproc_bind. by rewrite Hc. Qed.

(** What the module holds while it is loaded, latest first. *)
Definition proc_files : list string :=
  ["version"; "cbn_transparent"; "conn_pool"; "cbn_del"; "cbn_proc"; "connections"]%string.
(** They are the files that have operations. *)
Lemma proc_files_ops `{Env} `{RbLib Z} (get_options : list Z → nat → list Z) (version : list Z) file :
  is_Some (proc_fops get_options version file) ↔ file ∈ proc_files.
Proof.
  unfold proc_fops, proc_files. rewrite !elem_of_cons, elem_of_nil.
  repeat case_decide; subst; split; try done; try tauto; try (by eexists); try (by intros []); naive_solver.
Qed.

Definition slabs : list string := ["cbn_probe_headers"; "cbn_syn_mdata"; "cbn_listner"; "cbn_qp_mdata"]%string.
Definition module_resources : list resource :=
  (R_file (Some "cbn"%string) <$> proc_files) ++
  [R_dir "cbn"%string; R_hooks; R_thread F_prec_conn_listner_server; R_slab "cbn_preconn_slab"%string;
   R_thread F_refil_thread; R_slab "pool-thread-cache"%string] ++ (R_slab <$> slabs).

(** The pool as the module's static storage has it. *)
Definition unloaded (p : kthread_pool mag_allocator task_fn) : Prop :=
  allocator p = zeroed_allocator ∧ elems p = ∅ ∧ ThreadPool.held p = [] ∧ executed p = [].

(** The shared objects of two worlds agree. *)
Definition same_objects w w' : Prop :=
  same_pairing w w' ∧ listners w' = listners w ∧ listner_root w' = listner_root w ∧ roots w' = roots w ∧
  socks w' = socks w ∧ pre_conn_listner w' = pre_conn_listner w.

(** A stretch of the start: [n] services were asked, [R] was gained, nothing
    else changed. *)
Record boots (n : nat) (R : list resource) w w' : Prop := {
  bo_same : same_objects w w';
  bo_tick : tick w' = (tick w + n)%nat;
  bo_gain : resources (log w') = R ++ resources (log w);
}.

Lemma same_objects_trans w1 w2 w3 : same_objects w1 w2 → same_objects w2 w3 → same_objects w1 w3.
Proof.
  intros ((?&?&?&?&?&?)&?&?&?&?&?) ((?&?&?&?&?&?)&?&?&?&?&?). unfold same_objects, same_pairing. split_and!; congruence.
Qed.

Lemma boots_trans n1 n2 R1 R2 w1 w2 w3 :
  boots n1 R1 w1 w2 → boots n2 R2 w2 w3 → boots (n1 + n2) (R2 ++ R1) w1 w3.
Proof.
  intros [S1 T1 G1] [S2 T2 G2]. split.
  - by eapply same_objects_trans.
  - lia.
  - by rewrite G2, G1, app_assoc.
Qed.

Lemma boots_refl w : boots 0 [] w w.
Proof. split; [by split_and! | lia | done]. Qed.

Section start.
Context `{Quiet}.

(** The next [n] requests are granted. *)
Definition granted (n : nat) w : Prop := ∀ i, (i < n)%nat → 0 < answer (tick w + i)%nat.

Lemma granted_here n w : granted (S n) w → 0 < answer (tick w).
Proof. intros Hg. specialize (Hg 0%nat ltac:(lia)). by rewrite Nat.add_0_r in Hg. Qed.

Lemma granted_after k n R w w' : granted n w → boots k R w w' → granted (n - k) w'.
Proof.
  intros Hg Hb i Hi. rewrite (bo_tick _ _ _ _ Hb). specialize (Hg (k + i)%nat ltac:(lia)). by rewrite <- Nat.add_assoc.
Qed.

Lemma slab_boots s w : 0 < answer (tick w) → ∃ w', slab_create s w = Ok (tt, w') ∧ boots 1 [R_slab s] w w'.
Proof.
  intros Ha. exists (ticked (C_slab_create s) w). split; [apply slab_create_quiet |].
  split; [by split_and! | simpl; lia | simpl]. by rewrite (proj2 (Z.eqb_neq _ 0)) by lia.
Qed.

Lemma thread_boots f d w :
  0 < answer (tick w) → ∃ w', kthread f d w = Ok (PObj (next w), w') ∧ boots 1 [R_thread f] w w'.
Proof.
  intros Ha. eexists. split; [apply kthread_quiet; lia |]. by split; [split_and! | simpl; lia |].
Qed.

Lemma dir_boots d w : 0 < answer (tick w) → ∃ w', proc_mkdir d w = Ok (Some d, w') ∧ boots 1 [R_dir d] w w'.
Proof.
  intros Ha. exists (ticked (C_proc_mkdir d) w). rewrite proc_mkdir_quiet. assert (E : answer (tick w) =? 0 = false) by lia.
  rewrite E. split; [done |]. split; [by split_and! | simpl; lia | simpl]. by rewrite E.
Qed.

Lemma file_boots d f w : 0 < answer (tick w) → ∃ w', proc_create d f w = Ok (true, w') ∧ boots 1 [R_file d f] w w'.
Proof.
  intros Ha. exists (ticked (C_proc_create d f) w). rewrite proc_create_quiet. assert (E : answer (tick w) =? 0 = false) by lia.
  rewrite E. split; [done |]. split; [by split_and! | simpl; lia | simpl]. by rewrite E.
Qed.

Lemma hooks_boots w : answer (tick w) = 0 → ∃ w', nf_register_net_hooks w = Ok (0, w') ∧ boots 1 [R_hooks] w w'.
Proof.
  intros Ha. exists (ticked C_nf_register w). unfold nf_register_net_hooks. rewrite kernel_call_quiet, Ha.
  split; [done |]. split; [by split_and! | simpl; lia | simpl]. by rewrite Ha.
Qed.

(** The next call of a start: [Hg] says it is granted, [Hb] what was gained. *)
Ltac boot lem Hg Hb :=
  let w := fresh "w" in let Hr := fresh "Hr" in let Hn := fresh "Hn" in let Hg' := fresh "Hg" in
  destruct (lem _ (granted_here _ _ Hg)) as (w & Hr & Hn); kstep Hr; clear Hr;
  pose proof (granted_after _ _ _ _ _ Hg Hn) as Hg'; cbn [Nat.sub] in Hg'; clear Hg; rename Hg' into Hg;
  apply (boots_trans _ _ _ _ _ _ _ Hb) in Hn; clear Hb; rename Hn into Hb.

Definition found_symbols w : bool :=
  negb ((answer (tick w) =? 0) || (answer (tick w + 1)%nat =? 0) || (answer (tick w + 2)%nat =? 0)).

(** [init_kallsyms] is 0 just if every symbol was found. *)
Lemma init_kallsyms_boots w :
  ∃ w', init_kallsyms w = Ok (Z.b2z (negb (found_symbols w)), w') ∧ boots 3 [] w w'.
Proof.
  unfold init_kallsyms, found_symbols. kstep (kernel_call_quiet (C_kallsyms "sched_setaffinity"%string) w).
  set (w1 := ticked _ w). kstep (kernel_call_quiet (C_kallsyms "kthread_bind_mask"%string) w1). set (w2 := ticked _ w1).
  kstep (kernel_call_quiet (C_kallsyms "__alloc_reserved_percpu"%string) w2).
  change (tick w2) with (S (S (tick w))). change (tick w1) with (S (tick w)). rewrite !Nat.add_succ_r, Nat.add_0_r.
  eexists. split; [by destruct (_ =? 0), (_ =? 0), (_ =? 0) |]. split; [by split_and! | simpl; lia | done].
Qed.

Lemma proc_init_boots w :
  granted 7 w → ∃ w', cbn_proc_init w = Ok (0, w') ∧
    boots 7 ((R_file (Some "cbn"%string) <$> proc_files) ++ [R_dir "cbn"%string]) w w'.
Proof.
  intros Hg. pose proof (boots_refl w) as Hb. unfold cbn_proc_init. boot (dir_boots "cbn") Hg Hb.
  boot (file_boots (Some "cbn"%string) "connections") Hg Hb. boot (file_boots (Some "cbn"%string) "cbn_proc") Hg Hb.
  boot (file_boots (Some "cbn"%string) "cbn_del") Hg Hb. boot (file_boots (Some "cbn"%string) "conn_pool") Hg Hb.
  boot (file_boots (Some "cbn"%string) "cbn_transparent") Hg Hb. boot (file_boots (Some "cbn"%string) "version") Hg Hb.
  eexists. split; [done | exact Hb].
Qed.

Context (kzalloc : Z → bool → Z).
Hypothesis cpus_nodup : NoDup possible_cpus.
Hypothesis kzalloc_range : ∀ k, k ∈ pair_keys possible_cpus →
  0 < kzalloc k.1 k.2 < 18446744073709551616 - pair_alloc_size.
Hypothesis kzalloc_disjoint : ∀ k1 k2, k1 ∈ pair_keys possible_cpus → k2 ∈ pair_keys possible_cpus → k1 ≠ k2 →
  kzalloc k1.1 k1.2 + pair_alloc_size ≤ kzalloc k2.1 k2.2 ∨
  kzalloc k2.1 k2.2 + pair_alloc_size ≤ kzalloc k1.1 k1.2.

(** The pool is ready: no element, a magazine pair for every CPU. *)
Definition pool_ready (p : kthread_pool mag_allocator task_fn) : Prop :=
  pool_start p ∧ top_count p = 0 ∧ dom (pcp_pair (allocator p)) = list_to_set (pair_keys possible_cpus).

Lemma pool_init_boots m :
  unloaded (cbn_pool m) → granted 2 (m_world m) →
  ∃ m', cbn_kthread_pool_init kzalloc m = Ok (0, m') ∧
    boots 2 [R_thread F_refil_thread; R_slab "pool-thread-cache"%string] (m_world m) (m_world m') ∧
    pool_ready (cbn_pool m') ∧ pool_size (cbn_pool m') = pool_size (cbn_pool m) ∧ ∃ t, pool_refil m' = PObj t.
Proof.
  intros (Ha & He & Hh & Hx) Hg. unfold cbn_kthread_pool_init.
  destruct (mag_init_ok possible_cpus kzalloc cpus_nodup kzalloc_range kzalloc_disjoint) as (a & Hi & Hwf & Hc & Hd).
  set (p1 := with_top 0 (cbn_pool m)). kstep (on_pool_ok (kmodify (with_top 0)) m tt p1 eq_refl).
  set (m1 := with_pool p1 m). assert (Hp : lift_alloc (mag_allocator_init possible_cpus kzalloc) p1 = Ok (tt, with_allocator a p1)).
  { apply lift_alloc_ok. change (allocator p1) with (allocator (cbn_pool m)). by rewrite Ha. }
  kstep (on_pool_ok _ m1 _ _ Hp). set (m2 := with_pool _ m1).
  destruct (slab_boots "pool-thread-cache" (m_world m) (granted_here _ _ Hg)) as (w1 & R1 & B1).
  kstep (on_world_ok _ m2 _ _ R1). apply (granted_after _ _ _ _ _ Hg) in B1 as Hg1.
  destruct (thread_boots F_refil_thread 0 w1 (granted_here _ _ Hg1)) as (w2 & R2 & B2).
  kstep (on_world_ok _ (with_world w1 m2) _ _ R2). kpure. eexists. split; [done |].
  split_and!; [exact (boots_trans _ _ _ _ _ _ _ B1 B2) | | done | by eexists].
  split; [| done]. by split_and!.
Qed.

Lemma pre_connect_init_boots m :
  granted 2 (m_world m) →
  ∃ w', cbn_pre_connect_init m = Ok (0, MkModule w' (cbn_pool m) (pool_refil m) [] []) ∧
    boots 2 [R_thread F_prec_conn_listner_server; R_slab "cbn_preconn_slab"%string] (m_world m) w'.
Proof.
  intros Hg. unfold cbn_pre_connect_init. kpure. set (m1 := with_lists [] [] m).
  destruct (slab_boots "cbn_preconn_slab" (m_world m) (granted_here _ _ Hg)) as (w1 & R1 & B1).
  kstep (on_world_ok _ m1 _ _ R1). apply (granted_after _ _ _ _ _ Hg) in B1 as Hg1.
  destruct (thread_boots F_prec_conn_listner_server PRECONN_SERVER_PORT w1 (granted_here _ _ Hg1)) as (w2 & R2 & B2).
  kstep (on_world_ok _ (with_world w1 m1) _ _ R2). kpure. eexists. split; [done |].
  exact (boots_trans _ _ _ _ _ _ _ B1 B2).
Qed.

Lemma parse_params_ok size m :
  ∃ p, parse_module_params size m = Ok (tt, with_pool p m) ∧
    p = with_size (if 0 <? size then size else pool_size (cbn_pool m)) (cbn_pool m).
Proof.
  unfold parse_module_params. destruct (0 <? size).
  - eexists. split; [by apply on_pool_ok |]. done.
  - exists (cbn_pool m). destruct m as [w [] ? ? ?]. done.
Qed.

Lemma four_slabs m (w : world) :
  m_world m = w → granted 4 w →
  ∃ w', (∀ B (k : sproc B),
      (on_world (slab_create "cbn_qp_mdata") ;; on_world (slab_create "cbn_listner") ;;
       on_world (slab_create "cbn_syn_mdata") ;; on_world (slab_create "cbn_probe_headers") ;; k) m = k (with_world w' m)) ∧
    boots 4 (R_slab <$> slabs) w w'.
Proof.
  intros Em Hg. pose proof (boots_refl w) as Hb.
  destruct (slab_boots "cbn_qp_mdata" _ (granted_here _ _ Hg)) as (w1 & R1 & B1).
  apply (granted_after _ _ _ _ _ Hg) in B1 as Hg1. destruct (slab_boots "cbn_listner" _ (granted_here _ _ Hg1)) as (w2 & R2 & B2).
  apply (granted_after _ _ _ _ _ Hg1) in B2 as Hg2. destruct (slab_boots "cbn_syn_mdata" _ (granted_here _ _ Hg2)) as (w3 & R3 & B3).
  apply (granted_after _ _ _ _ _ Hg2) in B3 as Hg3. destruct (slab_boots "cbn_probe_headers" _ (granted_here _ _ Hg3)) as (w4 & R4 & B4).
  exists w4. split; [| exact (boots_trans _ _ _ _ _ _ _ B1 (boots_trans _ _ _ _ _ _ _ B2 (boots_trans _ _ _ _ _ _ _ B3 B4)))].
  intros B k. rewrite <- Em in R1. kstep (on_world_ok _ m _ _ R1). kstep (on_world_ok _ (with_world w1 m) _ _ R2).
  kstep (on_world_ok _ (with_world w2 m) _ _ R3). by kstep (on_world_ok _ (with_world w3 m) _ _ R4).
Qed.

(** C27. With every request granted the module starts: it holds its slabs, its
    two threads, its hooks and its files and nothing else, the pool is ready,
    and no shared object has been touched. *)
Theorem datapath_init_registers size m :
  unloaded (cbn_pool m) → granted 11 (m_world m) → answer (tick (m_world m) + 11)%nat = 0 →
  (∀ i, (12 ≤ i < 19)%nat → 0 < answer (tick (m_world m) + i)%nat) →
  ∃ m', cbn_datapath_init kzalloc size m = Ok (0, m') ∧
    resources (log (m_world m')) = module_resources ++ resources (log (m_world m)) ∧
    pool_ready (cbn_pool m') ∧ pool_size (cbn_pool m') = (if 0 <? size then size else pool_size (cbn_pool m)) ∧
    same_objects (m_world m) (m_world m').
Proof.
  intros Hun Hg Hhook Hfiles. set (w := m_world m) in *. unfold cbn_datapath_init.
  destruct (parse_params_ok size m) as (p & Rp & Ep). kstep Rp. set (m0 := with_pool p m).
  destruct (init_kallsyms_boots w) as (w1 & R1 & B1). kstep (on_world_ok init_kallsyms m0 _ _ R1).
  assert (Hf : found_symbols w = true).
  { unfold found_symbols. assert (A0 := Hg 0%nat ltac:(lia)). assert (A1 := Hg 1%nat ltac:(lia)).
    assert (A2 := Hg 2%nat ltac:(lia)). rewrite Nat.add_0_r in A0.
    by rewrite !(proj2 (Z.eqb_neq _ 0)) by lia. }
  rewrite Hf. change (negb (Z.b2z (negb true) =? 0)) with false. cbv iota.
  apply (granted_after _ _ _ _ _ Hg) in B1 as Hg1. cbn [Nat.sub] in Hg1.
  destruct (four_slabs (with_world w1 m0) w1 eq_refl) as (w2 & R2 & B2); [intros i Hi; apply Hg1; lia |].
  rewrite R2. apply (granted_after _ _ _ _ _ Hg1) in B2 as Hg2. cbn [Nat.sub] in Hg2.
  set (m2 := with_world w2 _).
  destruct (pool_init_boots m2) as (m3 & R3 & B3 & Hready & Hsize & t & Ht);
    [change (unloaded p); by rewrite Ep | intros i Hi; apply Hg2; lia |].
  kstep R3. apply (granted_after _ _ _ _ _ Hg2) in B3 as Hg3. cbn [Nat.sub] in Hg3.
  destruct (pre_connect_init_boots m3 Hg3) as (w4 & R4 & B4). kstep R4. set (m4 := MkModule w4 _ _ _ _).
  pose proof (boots_trans _ _ _ _ _ _ _ B1 (boots_trans _ _ _ _ _ _ _ B2 (boots_trans _ _ _ _ _ _ _ B3 B4))) as B.
  assert (Et := bo_tick _ _ _ _ B). cbn in Et.
  destruct (hooks_boots w4) as (w5 & R5 & B5); [by rewrite Et |]. kstep (on_world_ok _ m4 _ _ R5).
  assert (Et5 := bo_tick _ _ _ _ B5).
  destruct (proc_init_boots w5) as (w6 & R6 & B6).
  { intros i Hi. rewrite Et5, Et. specialize (Hfiles (12 + i)%nat ltac:(lia)).
    by replace (tick w + 11 + 1 + i)%nat with (tick w + (12 + i))%nat by lia. }
  kstep (on_world_ok _ (with_world w5 m4) _ _ R6). pose proof (boots_trans _ _ _ _ _ _ _ B (boots_trans _ _ _ _ _ _ _ B5 B6)) as Ball.
  eexists. split; [done |]. split_and!; [exact (bo_gain _ _ _ _ Ball) | exact Hready | | exact (bo_same _ _ _ _ Ball)].
  change (pool_size (cbn_pool m3) = if 0 <? size then size else pool_size (cbn_pool m)). rewrite Hsize.
  change (cbn_pool m2) with p. by rewrite Ep.
Qed.

(** Without one of the symbols nothing is registered, no slab is made and
    no thread started. *)
Lemma datapath_init_no_symbols size m :
  found_symbols (m_world m) = false →
  ∃ m', cbn_datapath_init kzalloc size m = Ok (-1, m') ∧
    resources (log (m_world m')) = resources (log (m_world m)) ∧
    allocator (cbn_pool m') = allocator (cbn_pool m) ∧ elems (cbn_pool m') = elems (cbn_pool m) ∧
    same_objects (m_world m) (m_world m').
Proof.
  intros Hf. unfold cbn_datapath_init. destruct (parse_params_ok size m) as (p & Rp & Ep). kstep Rp.
  destruct (init_kallsyms_boots (m_world m)) as (w1 & R1 & B1). kstep (on_world_ok init_kallsyms (with_pool p m) _ _ R1).
  rewrite Hf. change (negb (Z.b2z (negb false) =? 0)) with true. cbv iota. eexists. split; [done |].
  split_and!; [exact (bo_gain _ _ _ _ B1) | by subst p | by subst p | exact (bo_same _ _ _ _ B1)].
Qed.
End start.

(** ** Stopping *)


Section clean.
Context `{Quiet} `{RbLaws Z}.





(** The thread that listens for pre-connections returns when an accept fails,
    and leaves a pointer into its stack. *)
Lemma preconn_server_fails fuel w arg :
  answer (tick w) = 0 → answer (tick w + 1)%nat = 0 → 0 ≤ answer (tick w + 2)%nat → answer (tick w + 3)%nat = 0 →
  answer (tick w + 4)%nat ≠ 0 →
  ∃ w', prec_conn_listner_server (S fuel) arg w = Ok (Some (answer (tick w + 4)%nat), w') ∧
    pre_conn_listner w' = PObj (next w) ∧ listners w' !! next w = None.
Proof.
  rewrite !Nat.add_succ_r, Nat.add_0_r. intros A0 A1 A2 A3 A4. unfold prec_conn_listner_server. kpure.
  kstep (eq_refl (fresh_addr w)). kpure. set (a := next w). set (g := garbage_listner (tick w)).
  set (w1 := upd_listners _ _). unfold prec_conn_listner_body. rewrite kbind_assoc.
  kstep (sock_create_quiet w1 A0). change (negb (0 =? 0)) with false. cbv iota.
  set (s := next w1). set (w2 := upd_socks _ _). rewrite kbind_assoc.
  assert (Hg : listners w2 !! a = Some g) by (simpl; apply lookup_insert_eq). kstep (load_listner_ok w2 a g Hg).
  set (L := MkListner _ _ _ _ _). rewrite kbind_assoc. kstep (store_listner_ok w2 a g L Hg). set (w3 := upd_listners _ w2).
  assert (Hs : socks w3 !! s = Some S_open) by (simpl; apply lookup_insert_eq). rewrite kbind_assoc.
  kstep (bind_quiet w3 s S_open (htons (u32 arg)) (htonl INADDR_ANY) Hs). change (tick w3) with (S (tick w)).
  rewrite A1. change (negb (0 =? 0)) with false. cbv iota. set (w4 := ticked _ w3). rewrite kbind_assoc.
  kstep (setsockopt_quiet w4 s S_open O_SO_MARK (s32 CBN_CORE_ROUTE_MARK) Hs). change (tick w4) with (S (S (tick w))).
  rewrite (proj2 (Z.ltb_ge _ _) A2). set (w5 := ticked _ w4). rewrite kbind_assoc. unfold kernel_listen.
  kstep (sock_call_quiet w5 s S_open (C_listen (PObj s) PRECONN_BACKLOG) Hs). change (tick w5) with (S (S (S (tick w)))).
  rewrite A3. change (negb (0 =? 0)) with false. cbv iota. set (w6 := ticked _ w5). unfold preconn_resgister_server. kpure.
  set (w7 := set_pre_conn_listner _ w6). cbn [preconn_accept_loop]. unfold preconn_accept_one, kernel_accept.
  rewrite !kbind_assoc. kstep (kernel_call_quiet (C_accept (PObj s)) w7). change (tick w7) with (S (S (S (S (tick w))))).
  apply Z.eqb_neq in A4. rewrite A4. kpure. rewrite A4. cbn [negb]. kpure. set (w8 := ticked _ w7).
  unfold server_out. rewrite decide_False by done. rewrite kbind_assoc. kstep (sock_release_ok w8 s S_open Hs). kpure.
  eexists. split; [done |]. split; [done | simpl; apply lookup_delete_eq].
Qed.

(** Once an accept of a pre-connection has failed, unloading the module
    reads the stack of a thread that is gone. *)
Lemma preconn_end_dangles fuel arg m rc w' :
  prec_conn_listner_server (S fuel) arg (m_world m) = Ok (Some rc, w') →
  answer (tick (m_world m)) = 0 → answer (tick (m_world m) + 1)%nat = 0 → 0 ≤ answer (tick (m_world m) + 2)%nat →
  answer (tick (m_world m) + 3)%nat = 0 → answer (tick (m_world m) + 4)%nat ≠ 0 →
  cbn_datapath_clean (with_world w' m) = Oops UseAfterFree.
Proof.
  intros Hr A0 A1 A2 A3 A4. destruct (preconn_server_fails fuel (m_world m) arg A0 A1 A2 A3 A4) as (w2 & Hr' & Hp & Hl).
  rewrite Hr in Hr'. injection Hr' as -> ->. unfold cbn_datapath_clean. set (m0 := with_world w2 m).
  kstep (on_world_ok cbn_proc_clean m0 tt _ eq_refl). set (m1 := with_world _ m0).
  kstep (on_world_ok nf_unregister_net_hooks m1 tt _ eq_refl). set (m2 := with_world _ m1).
  unfold cbn_pre_connect_end. rewrite kbind_assoc, kbind_get. change (pre_conn_listner (m_world m2)) with (pre_conn_listner w2).
  rewrite Hp, decide_False by done.
  assert (Hd : on_world (l ← load_listner (PObj (next (m_world m))); kernel_sock_shutdown (l_sock l)) m2 = Oops UseAfterFree).
  { unfold on_world, load_listner, kderef, mbind, kproc_bind. simpl. by rewrite Hl. }
  by apply kbind_oops, kbind_oops.
Qed.
End clean.

(** ** Concrete runs *)

(** Every request is granted. *)
Definition boot_env : Env := calm (λ n, if (n =? 11)%nat then 0 else 1) (λ _, []) (λ _, no_addr).
Definition boot_kzalloc (cpu : Z) (bh : bool) : Z := 4096 * (2 * cpu + Z.b2z bh + 1).
Definition fresh_module : module :=
  MkModule (empty_world 100) (MkPool DEF_CBN_POOL_SIZE 0 false zeroed_allocator ∅ [] []) PNull [] [].

Lemma boot_kzalloc_range k :
  k ∈ pair_keys (@possible_cpus boot_env) → 0 < boot_kzalloc k.1 k.2 < 18446744073709551616 - pair_alloc_size.
Proof.
  intros Hk. unfold pair_keys in Hk. simpl in Hk.
  repeat (apply elem_of_cons in Hk as [-> | Hk]; [by vm_compute |]). by apply elem_of_nil in Hk.
Qed.

Lemma boot_kzalloc_disjoint k1 k2 :
  k1 ∈ pair_keys (@possible_cpus boot_env) → k2 ∈ pair_keys (@possible_cpus boot_env) → k1 ≠ k2 →
  boot_kzalloc k1.1 k1.2 + pair_alloc_size ≤ boot_kzalloc k2.1 k2.2 ∨
  boot_kzalloc k2.1 k2.2 + pair_alloc_size ≤ boot_kzalloc k1.1 k1.2.
Proof.
  intros _ _ Hne. unfold boot_kzalloc, pair_alloc_size, sizeof_magazine, MAG_COUNT, L1_CACHE_BYTES.
  destruct k1 as [c1 b1], k2 as [c2 b2]. simpl.
  assert (2 * c1 + Z.b2z b1 ≠ 2 * c2 + Z.b2z b2); [| lia].
  intros E. apply Hne. destruct b1, b2; simpl in E; f_equal; lia.
Qed.

Lemma datapath_init_registers_witness :
  ∃ m', @cbn_datapath_init boot_env boot_kzalloc 0 fresh_module = Ok (0, m') ∧
    resources (log (m_world m')) = module_resources ∧ pool_size (cbn_pool m') = 64.
Proof.
  destruct (@datapath_init_registers boot_env (calm_quiet _ _ _) boot_kzalloc) with (size := 0) (m := fresh_module)
    as (m' & Hr & Hres & _ & Hs & _).
  - repeat constructor; set_solver.
  - exact boot_kzalloc_range.
  - exact boot_kzalloc_disjoint.
  - by split_and!.
  - intros i Hi. cbn [answer boot_env calm]. simpl tick. destruct (Nat.eqb_spec (0 + i) 11); lia.
  - done.
  - intros i Hi. cbn [answer boot_env calm]. simpl tick. destruct (Nat.eqb_spec (0 + i) 11); lia.
  - exists m'. split_and!; [exact Hr | exact Hres | exact Hs].
Defined.

Lemma datapath_init_no_symbols_witness :
  ∃ m', @cbn_datapath_init (always 0) boot_kzalloc 8 fresh_module = Ok (-1, m') ∧ resources (log (m_world m')) = [].
Proof.
  destruct (@datapath_init_no_symbols (always 0) (calm_quiet _ _ _) boot_kzalloc 8 fresh_module) as (m' & Hr & Hres & _);
    [done |]. exists m'. split; [exact Hr | exact Hres].
Defined.



(** The accept of a pre-connection fails. *)
Definition accept_fails : Env := calm (λ n, if (n =? 4)%nat then -1 else 0) (λ _, []) (λ _, no_addr).

Lemma preconn_end_dangles_witness :
  ∃ w', @prec_conn_listner_server accept_fails 1 PRECONN_SERVER_PORT (m_world fresh_module) = Ok (Some (-1), w') ∧
    @cbn_datapath_clean accept_fails rotate_lib (with_world w' fresh_module) = Oops UseAfterFree.
Proof.
  destruct (@preconn_server_fails accept_fails (calm_quiet _ _ _) 0 (m_world fresh_module) PRECONN_SERVER_PORT)
    as (w' & Hr & _); [done | done | done | done | done |].
  exists w'. split; [exact Hr |].
  by apply (@preconn_end_dangles accept_fails (calm_quiet _ _ _) rotate_lib 0 PRECONN_SERVER_PORT fresh_module (-1) w' Hr).
Defined.

(** Without its directory the files are made in /proc itself, where unloading
    does not look for them. *)
Definition no_dir : Env := calm (λ n, if (n =? 0)%nat then 0 else 1) (λ _, []) (λ _, no_addr).

Lemma proc_files_left :
  ∃ w1 w2, @cbn_proc_init no_dir (empty_world 100) = Ok (0, w1) ∧ cbn_proc_clean w1 = Ok (tt, w2) ∧
    resources (log w2) = R_file None <$> proc_files.
Proof. eexists _, _. by split_and!; [vm_compute | vm_compute | vm_compute]. Qed.
