(* ===== verification/Common.v ===== *)
(** * Printing packet headers (tcpsplit/cbn_common.h)

    The texts of [dump_iph], [dump_tcph], [dump_udphdr] and [trace_only], and
    how long they can get; [trace_only] has a buffer of 512 bytes on the stack.
    The lines of [hex_dump], from which the bytes can be read back. *)

From stdpp Require Import base list strings.
From Stdlib Require Import ZArith Lia.
From S2P Require Import Prelude World Hooks Server Proc.

(** The fields of the headers that are printed, in host byte order. *)
Record ip_view := {
  v_secmark : Z; v_ihl : Z; v_version : Z; v_tos : Z; v_tot_len : Z; v_id : Z; v_frag_off : Z;
  v_ttl : Z; v_check : Z;
}.
Record tcp_view := { v_fin : bool; v_seq : Z; v_ack_seq : Z; v_window : Z }.

(** ** cbn_common.h *)

Definition iphdr_flag (flags : Z) : list Z :=
  if Z.testbit flags 14 then chars "DF"
  else if Z.testbit flags 13 then chars "MF"
  else [].

Definition proto_string (protocol : Z) : list Z :=
  if protocol =? 1 then chars "ICMP"
  else if protocol =? 4 then chars "IP"
  else if protocol =? 6 then chars "TCP"
  else if protocol =? 17 then chars "UDP"
  else if protocol =? 50 then chars "ESP"
  else if protocol =? 51 then chars "AH"
  else [].

(** [%05d] and [%x] *)
Definition print_05 (n : Z) : list Z :=
  let d := print_d n in replicate (5 - length d) 48 ++ d.

Definition hex_digit (d : Z) : Z := if d <? 10 then 48 + d else 87 + d.

Fixpoint hex_digits (fuel : nat) (n : Z) : list Z :=
  match fuel with
  | O => []
  | S fuel => if n <? 16 then [hex_digit n] else hex_digits fuel (n / 16) ++ [hex_digit (n mod 16)]
  end.

(** [hex_dump] from the byte [i] on: a line of sixteen starts with its
    position ([%lu]). *)
Fixpoint hex_dump_from (i : Z) (buf : list Z) : list Z :=
  match buf with
  | [] => [10]
  | b :: buf =>
      (if i mod 16 =? 0 then [10] ++ digits 20 i ++ [9; 58] else []) ++
      [hex_digit (b / 16); hex_digit (b mod 16); 32] ++ hex_dump_from (i + 1) buf
  end.

Definition hex_dump (buf : list Z) : list Z := hex_dump_from 0 buf.

Definition ip4 (addr : Z) : list Z :=
  match le_bytes 4 addr with
  | [a; b; c; d] => print_d a ++ [46] ++ print_d b ++ [46] ++ print_d c ++ [46] ++ print_d d
  | _ => []
  end.

Definition tab2 : list Z := [9; 9].

Definition dump_iph (mark : Z) (iph : iphdr) (v : ip_view) : list Z :=
  tab2 ++ chars "mark " ++ print_d (s32 mark) ++ chars " secmark " ++ print_d (s32 (v_secmark v)) ++ [10] ++ tab2 ++
  chars "ihl " ++ print_d (v_ihl v) ++ chars " ver " ++ print_d (v_version v) ++ chars " tos " ++ print_d (v_tos v) ++
  chars " total len " ++ print_d (v_tot_len v) ++ [10] ++ tab2 ++
  chars "id " ++ print_05 (v_id v) ++ chars " frag_off " ++ print_05 (Z.land (v_frag_off v) 8191) ++
  chars " [" ++ iphdr_flag (v_frag_off v) ++ chars "]" ++ [10] ++ tab2 ++
  chars "ttl " ++ print_d (v_ttl v) ++ chars " proto " ++ proto_string (protocol iph) ++ chars "[" ++
  print_d (protocol iph) ++ chars "] csum 0x" ++ hex_digits 4 (v_check v) ++ [10] ++ tab2 ++
  chars "saddr " ++ ip4 (saddr iph) ++ chars " " ++ [10] ++ tab2 ++
  chars "daddr " ++ ip4 (daddr iph) ++ chars " " ++ [10].

Definition dump_tcph (th : tcphdr) (v : tcp_view) : list Z :=
  [10] ++ tab2 ++ print_d (ntohs (th_source th)) ++ chars " => " ++ print_d (ntohs (th_dest th)) ++ chars " " ++
  tab2 ++ (if th_syn th then chars "SYN" else []) ++ chars " " ++ (if th_ack th then chars "ACK" else []) ++
  chars " " ++ (if v_fin v then chars "FIN" else []) ++ [10] ++ tab2 ++
  chars "seq " ++ print_d (s32 (v_seq v)) ++ chars " ack " ++ print_d (s32 (v_ack_seq v)) ++
  chars " window " ++ print_d (v_window v) ++ [10].

Definition dump_udphdr (th : tcphdr) : list Z :=
  chars "src : " ++ print_05 (ntohs (th_source th)) ++ chars "  dst " ++ print_05 (ntohs (th_dest th)) ++ [10].

(** The contents of [store]. *)
Definition trace_only (skb : sk_buff) (v : ip_view) (tv : tcp_view) (str : list Z) : list Z :=
  str ++ [58; 10] ++ dump_iph (skb_mark skb) (ip_hdr skb) v ++
  (if protocol (ip_hdr skb) =? 6 then dump_tcph (skb_transport_header skb) tv else []) ++
  (if protocol (ip_hdr skb) =? 17 then dump_udphdr (skb_transport_header skb) else []).

(** ** The buffer is large enough *)

(** The fields lie inside their bit fields and C types. *)
Definition good_view (v : ip_view) (tv : tcp_view) : Prop :=
  0 ≤ v_ihl v < 16 ∧ 0 ≤ v_version v < 16 ∧ 0 ≤ v_tos v < 256 ∧ 0 ≤ v_tot_len v < 65536 ∧
  0 ≤ v_id v < 65536 ∧ 0 ≤ v_ttl v < 256 ∧ 0 ≤ v_window tv < 65536.

Lemma length_chars s : length (chars s) = String.length s.
Proof. unfold chars. rewrite length_fmap. induction s; simpl; auto. Qed.

Lemma print_05_length n : 0 ≤ n < 100000 → length (print_05 n) = 5%nat.
Proof.
  intros Hn. unfold print_05. rewrite length_app, length_replicate.
  pose proof (print_d_length 5 n ltac:(lia) ltac:(simpl; lia)). lia.
Qed.

Lemma hex_digits_length fuel n : (length (hex_digits fuel n) ≤ fuel)%nat.
Proof.
  revert n. induction fuel as [| fuel IH]; intros n; simpl; [lia |].
  case_match; simpl; [lia |]. rewrite length_app. simpl. pose proof (IH (n / 16)). lia.
Qed.

Lemma ip4_length addr : (length (ip4 addr) ≤ 15)%nat.
Proof.
  unfold ip4. pose proof (le_bytes_byte 4 addr) as Hb.
  destruct (le_bytes 4 addr) as [| a [| b [| c [| d [| e l]]]]]; simpl; try lia.
  rewrite !Forall_cons in Hb. unfold is_byte in Hb. destruct Hb as (Ha & Hb & Hc & Hd & _).
  rewrite !length_app. simpl. rewrite !length_app. simpl. rewrite !length_app. simpl.
  pose proof (print_d_length 3 a ltac:(lia) ltac:(simpl; lia)).
  pose proof (print_d_length 3 b ltac:(lia) ltac:(simpl; lia)).
  pose proof (print_d_length 3 c ltac:(lia) ltac:(simpl; lia)).
  pose proof (print_d_length 3 d ltac:(lia) ltac:(simpl; lia)). lia.
Qed.

Lemma proto_string_length p : (length (proto_string p) ≤ 4)%nat.
Proof. unfold proto_string. repeat case_match; rewrite ?length_chars; simpl; lia. Qed.

Lemma iphdr_flag_length f : (length (iphdr_flag f) ≤ 2)%nat.
Proof. unfold iphdr_flag. repeat case_match; rewrite ?length_chars; simpl; lia. Qed.

Lemma s32_text n : (length (print_d (s32 n)) ≤ 11)%nat.
Proof. pose proof (print_d_length_s32 (s32 n) (s32_range n)). lia. Qed.

Lemma ntohs_text n : (length (print_d (ntohs n)) ≤ 5)%nat.
Proof.
  pose proof (print_d_length 5 (ntohs n) ltac:(lia)) as H. pose proof (bswap_range 2 n).
  change (256 ^ Z.of_nat 2) with 65536 in *. unfold ntohs in *. specialize (H ltac:(simpl; lia)). lia.
Qed.

Lemma dump_iph_length mark iph v tv :
  good_view v tv → 0 ≤ protocol iph < 256 → (length (dump_iph mark iph v) ≤ 280)%nat.
Proof.
  intros (H1 & H2 & H3 & H4 & H5 & H6 & _) Hp. unfold dump_iph. rewrite !length_app, !length_chars. cbn [String.length length tab2].
  pose proof (s32_text mark). pose proof (s32_text (v_secmark v)).
  pose proof (print_d_length 2 (v_ihl v) ltac:(lia) ltac:(simpl; lia)).
  pose proof (print_d_length 2 (v_version v) ltac:(lia) ltac:(simpl; lia)).
  pose proof (print_d_length 3 (v_tos v) ltac:(lia) ltac:(simpl; lia)).
  pose proof (print_d_length 5 (v_tot_len v) ltac:(lia) ltac:(simpl; lia)).
  pose proof (print_d_length 3 (v_ttl v) ltac:(lia) ltac:(simpl; lia)).
  pose proof (print_d_length 3 (protocol iph) ltac:(lia) ltac:(simpl; lia)).
  rewrite (print_05_length (v_id v)) by lia.
  assert (Hfo : 0 ≤ Z.land (v_frag_off v) 8191 < 8192).
  { change 8191 with (Z.ones 13). rewrite Z.land_ones by lia. by apply Z.mod_pos_bound. }
  rewrite print_05_length by lia.
  pose proof (iphdr_flag_length (v_frag_off v)). pose proof (proto_string_length (protocol iph)).
  pose proof (hex_digits_length 4 (v_check v)). pose proof (ip4_length (saddr iph)). pose proof (ip4_length (daddr iph)).
  unfold tab2. cbn [length]. lia.
Qed.

Lemma dump_tcph_length th v :
  0 ≤ v_window v < 65536 → (length (dump_tcph th v) ≤ 110)%nat.
Proof.
  intros Hw. unfold dump_tcph. rewrite !length_app, !length_chars. cbn [String.length length].
  pose proof (ntohs_text (th_source th)). pose proof (ntohs_text (th_dest th)).
  pose proof (s32_text (v_seq v)). pose proof (s32_text (v_ack_seq v)).
  pose proof (print_d_length 5 (v_window v) ltac:(lia) ltac:(simpl; lia)).
  destruct (th_syn _), (th_ack _), (v_fin _); rewrite ?length_chars; unfold tab2; cbn [String.length length]; lia.
Qed.

Lemma print_05_ntohs n : length (print_05 (ntohs n)) = 5%nat.
Proof. apply print_05_length. pose proof (bswap_range 2 n). change (256 ^ Z.of_nat 2) with 65536 in *. unfold ntohs. lia. Qed.

(** Whatever the packet, the text and its NUL fit in the 512 bytes, for any
    name of up to 64 characters. *)
Lemma trace_only_fits skb v tv str :
  good_view v tv → 0 ≤ protocol (ip_hdr skb) < 256 → (length str ≤ 64)%nat →
  (length (trace_only skb v tv str) < 512)%nat.
Proof.
  intros Hv Hp Hs. unfold trace_only. rewrite !length_app.
  pose proof (dump_iph_length (skb_mark skb) (ip_hdr skb) v tv Hv Hp).
  pose proof (dump_tcph_length (skb_transport_header skb) tv ltac:(apply Hv)).
  assert (Hu : (length (dump_udphdr (skb_transport_header skb)) ≤ 30)%nat).
  { unfold dump_udphdr. rewrite !length_app, !length_chars, !print_05_ntohs. simpl. lia. }
  cbn [length]. destruct (Z.eqb_spec (protocol (ip_hdr skb)) 6) as [E | E];
    destruct (Z.eqb_spec (protocol (ip_hdr skb)) 17) as [E' | E']; cbn [length]; lia.
Qed.

(** ** The dump can be read back *)

Definition hex_value (c : Z) : Z := if c <? 58 then c - 48 else c - 87.

(** The bytes of a dump; [skip] is inside the head of a line. *)
Fixpoint read_dump (skip : bool) (text : list Z) : list Z :=
  match text with
  | [] => []
  | c :: text =>
      if skip then read_dump (negb (c =? 58)) text
      else if c =? 10 then read_dump true text
      else match text with
           | c' :: _ :: text => 16 * hex_value c + hex_value c' :: read_dump false text
           | _ => []
           end
  end.

Lemma hex_value_digit d : 0 ≤ d < 16 → hex_value (hex_digit d) = d ∧ 48 ≤ hex_digit d.
Proof. unfold hex_value, hex_digit. intros Hd. destruct (Z.ltb_spec d 10); case_match; lia. Qed.

Lemma digits_chars fuel n : 0 ≤ n → Forall (λ c, 48 ≤ c < 58) (digits fuel n).
Proof.
  revert n. induction fuel as [| fuel IH]; intros n Hn; simpl; [done |].
  case_match; [by repeat constructor; lia |]. apply Forall_app. split; [apply IH; by apply Z.div_pos |].
  repeat constructor; pose proof (Z.mod_pos_bound n 10); lia.
Qed.

Lemma read_dump_skip l text : Forall (λ c, 48 ≤ c < 58) l → read_dump true (l ++ 9 :: 58 :: text) = read_dump false text.
Proof.
  induction l as [| c l IH]; [done |]. rewrite Forall_cons. intros [Hc Hl]. simpl.
  rewrite (proj2 (Z.eqb_neq c 58)) by lia. by apply IH.
Qed.

(** Two buffers of bytes with the same dump are the same. *)
Lemma hex_dump_reads_back buf : Forall is_byte buf → read_dump false (hex_dump buf) = buf.
Proof.
  unfold hex_dump. assert (Hi : 0 ≤ 0) by lia. revert Hi. generalize 0 at 2 3 as i.
  induction buf as [| b buf IH]; intros i Hi Hb; [done |]. apply Forall_cons in Hb as [Hb Hbuf].
  assert (E : read_dump false ([hex_digit (b / 16); hex_digit (b mod 16); 32] ++ hex_dump_from (i + 1) buf) = b :: buf).
  { unfold is_byte in Hb. destruct (hex_value_digit (b / 16)) as [Ev Hv]; [split; [by apply Z.div_pos; lia | apply Z.div_lt_upper_bound; lia] |].
    destruct (hex_value_digit (b mod 16)) as [Ew _]; [by apply Z.mod_pos_bound |]. simpl.
    rewrite (proj2 (Z.eqb_neq _ 10)), Ev, Ew, <- Z.div_mod, IH by (done || lia). done. }
  cbn [hex_dump_from]. case_match; [| done]. rewrite <- !app_assoc.
  change (read_dump true (digits 20 i ++ 9 :: 58 :: [hex_digit (b / 16); hex_digit (b mod 16); 32] ++ hex_dump_from (i + 1) buf)
    = b :: buf).
  by rewrite read_dump_skip by (by apply digits_chars).
Qed.
