(* ===== verification/Logger.v ===== *)
(** * The stream logger (logger/)

    A page-sized text buffer written through /proc and drained by a read, and a
    list of callbacks that add statistics to it before each read.  The list is
    a kernel [list_head]: each node holds the addresses of its neighbours. *)

From stdpp Require Import base list gmap strings.
From Stdlib Require Import ZArith Lia.
From S2P Require Import Prelude.

Definition LOG_PAGE_SIZE : Z := 4096.
Definition TRVL_BUFFER_SIZE : Z := LOG_PAGE_SIZE - 128.

(** struct trvl_buffer_mgr *)
Record trvl_buffer_mgr := MkTrvl { mgr_len : Z; mgr_buffer : list Z }.

(** struct list_head: [next] and [prev] of every node. *)
Record links := MkLinks { next_of : gmap Z Z; prev_of : gmap Z Z }.

(** The static [dp_logger] of logger.c. *)
Record dp_logger := MkLogger { stats : trvl_buffer_mgr; cbm : links }.

Abbreviation lproc := (kproc dp_logger).

(** Addresses of [cbm.list] and of [debug_entry.list]. *)
Definition CBM_LIST : Z := 0.
Definition DEBUG_ENTRY : Z := 1.

Definition set_stats (m : trvl_buffer_mgr) (s : dp_logger) : dp_logger := MkLogger m (cbm s).
Definition set_cbm (l : links) (s : dp_logger) : dp_logger := MkLogger (stats s) l.

(** ** dpb.h *)

Definition trvlb_init : lproc Z :=
  kmodify (λ s, set_stats (MkTrvl 0 (mgr_buffer (stats s))) s) ;; mret 0.

(** [memcpy] into the buffer. *)
Definition trvlb_write (off : Z) (bytes : list Z) : lproc unit :=
  s ← kget;
  let b := mgr_buffer (stats s) in
  if (0 <=? off) && (off + Z.of_nat (length bytes) <=? Z.of_nat (length b)) then
    kmodify (set_stats (MkTrvl (mgr_len (stats s))
      (take (Z.to_nat off) b ++ bytes ++ drop (Z.to_nat off + length bytes) b)))
  else oops BufferOverflow.

Definition set_len (n : Z) : lproc unit :=
  kmodify (λ s, set_stats (MkTrvl n (mgr_buffer (stats s))) s).

(** The comparisons are made in [unsigned long]. *)
Definition trvlb_log_formated_string (buff : list Z) : lproc Z :=
  let len := Z.of_nat (length buff) in
  if TRVL_BUFFER_SIZE <? u64 len then mret 0
  else
    s ← kget;
    (if TRVL_BUFFER_SIZE <? u64 (s32 (len + mgr_len (stats s))) then set_len 0 else mret tt) ;;
    s ← kget;
    trvlb_write (mgr_len (stats s)) buff ;;
    set_len (s32 (mgr_len (stats s) + len)) ;;
    mret len.

(** The bytes that count and their number. *)
Definition trvlb_pull_formated_buffer : lproc (list Z * Z) :=
  s ← kget;
  mret (take (Z.to_nat (mgr_len (stats s))) (mgr_buffer (stats s)), mgr_len (stats s)).

Definition trvlb_put_formated_buffer (flag : Z) : lproc unit :=
  if negb (flag =? 0) then set_len 0 else mret tt.

Definition trvlb_get_buff_head : lproc (Z * Z) :=
  s ← kget;
  mret (mgr_len (stats s), s32 (TRVL_BUFFER_SIZE - mgr_len (stats s))).

Definition trvlb_put_buff_head (len : Z) : lproc Z :=
  s ← kget;
  if TRVL_BUFFER_SIZE <? u64 (s32 (mgr_len (stats s) + len)) then mret (- EINVAL)
  else set_len (s32 (mgr_len (stats s) + len)) ;; mret 0.

(** ** stats_cb_mgr.h *)

Definition list_next (a : Z) : lproc Z := kderef (λ s, next_of (cbm s) !! a) ListCorrupt.
Definition list_prev (a : Z) : lproc Z := kderef (λ s, prev_of (cbm s) !! a) ListCorrupt.

Definition scbm_init : lproc Z :=
  kmodify (λ s, set_cbm (MkLinks (<[CBM_LIST := CBM_LIST]> (next_of (cbm s)))
                                 (<[CBM_LIST := CBM_LIST]> (prev_of (cbm s)))) s) ;;
  mret 0.

(** [list_add_tail(entry, head)]: the four stores of [__list_add]. *)
Definition scbm_register (entry : Z) : lproc Z :=
  prev ← list_prev CBM_LIST;
  kmodify (λ s, set_cbm (MkLinks (next_of (cbm s)) (<[CBM_LIST := entry]> (prev_of (cbm s)))) s) ;;
  kmodify (λ s, set_cbm (MkLinks (<[entry := CBM_LIST]> (next_of (cbm s))) (prev_of (cbm s))) s) ;;
  kmodify (λ s, set_cbm (MkLinks (next_of (cbm s)) (<[entry := prev]> (prev_of (cbm s)))) s) ;;
  kmodify (λ s, set_cbm (MkLinks (<[prev := entry]> (next_of (cbm s))) (prev_of (cbm s))) s) ;;
  mret 0.

(** "Hello World\n" *)
Definition hello : list Z := [72; 101; 108; 108; 111; 32; 87; 111; 114; 108; 100; 10].

(** [scnprintf]: what fits before the terminating NUL. *)
Definition debug_stats (tailroom : Z) : list Z := take (Z.to_nat (tailroom - 1)) hello.

(** The callback of an entry; the module has one entry. *)
Definition get_stat (entry tailroom : Z) : list Z :=
  if entry =? DEBUG_ENTRY then debug_stats tailroom else [].

(** The body of the walk: the text of an entry, with its NUL when there is
    room for one, and the new length. *)
Definition collect_one (entry : Z) : lproc Z :=
  '(off, tailroom) ← trvlb_get_buff_head;
  let text := get_stat entry tailroom in
  (if 0 <? tailroom then trvlb_write off (text ++ [0]) else mret tt) ;;
  trvlb_put_buff_head (Z.of_nat (length text)).

(** [list_for_each_safe], with fuel. *)
Fixpoint collect_from (fuel : nat) (itr : Z) : lproc bool :=
  if itr =? CBM_LIST then mret true
  else
    match fuel with
    | O => mret false
    | S fuel =>
        tmp ← list_next itr;
        _ ← collect_one itr;
        collect_from fuel tmp
    end.

(** [false]: the walk has not come back to the head when the fuel ran out. *)
Definition scbm_collect_stats (fuel : nat) : lproc bool :=
  first ← list_next CBM_LIST;
  collect_from fuel first.

(** ** logger.c *)

(** [copied]: whether [memdup_user_nul] succeeded, else its error. *)
Definition logger_log_write (copied : Z) (buf : list Z) : lproc Z :=
  let size := Z.of_nat (length buf) in
  if (size <=? 1) || (LOG_PAGE_SIZE <=? size) then mret (- EINVAL)
  else if copied <? 0 then mret copied
  else
    _ ← trvlb_log_formated_string buf;
    mret size.

Definition stats_log_write (size : Z) : lproc Z :=
  _ ← scbm_register DEBUG_ENTRY;
  mret size.

(** The loop of a read: what reaches the user, and the result.  [copy] says
    whether [copy_to_user] succeeds. *)
Fixpoint read_loop (fuel : nat) (copy : bool) (len cnt : Z) (out : list Z) : lproc (option (list Z * Z)) :=
  match fuel with
  | O => mret None
  | S fuel =>
      if cnt <? len then
        '(bytes, size) ← trvlb_pull_formated_buffer;
        if size =? 0 then mret (Some (out, cnt))
        else if len <? cnt + size then trvlb_put_formated_buffer 0 ;; mret (Some (out, cnt))
        else if copy then
          trvlb_put_formated_buffer size ;;
          read_loop fuel copy len (cnt + size) (out ++ bytes)
        else trvlb_put_formated_buffer 0 ;; mret (Some (out, - EFAULT))
      else mret (Some (out, cnt))
  end.

(** The new [*ppos], what reaches the user, and the result. *)
Definition stats_log_read (fuel : nat) (copy : bool) (buf len ppos : Z) : lproc (option (Z * (list Z * Z))) :=
  if buf =? 0 then mret (Some (ppos, ([], - EINVAL)))
  else if Z.land ppos 1 =? 1 then mret (Some (ppos + 1, ([], 0)))
  else
    done ← scbm_collect_stats fuel;
    if (done : bool) then
      r ← read_loop fuel copy len 0 [];
      mret (match r with Some x => Some (ppos + 1, x) | None => None end)
    else mret None.

Definition trvlb_close : lproc Z := set_len 0 ;; mret 0.
Definition scbm_close : lproc unit := mret tt.

(** The rest of [md_init] is in [LogChain], with the parameter it rounds. *)
Definition md_init : lproc Z := _ ← trvlb_init; _ ← scbm_init; mret 0.
Definition md_close : lproc unit := scbm_close ;; _ ← trvlb_close; mret tt.

(** ** The buffer *)

Implicit Types s : dp_logger.

Definition log_ok s : Prop :=
  Z.of_nat (length (mgr_buffer (stats s))) = TRVL_BUFFER_SIZE ∧ 0 ≤ mgr_len (stats s) ≤ TRVL_BUFFER_SIZE.

(** The text waiting to be read. *)
Definition pending s : list Z := take (Z.to_nat (mgr_len (stats s))) (mgr_buffer (stats s)).

Lemma length_pending s : log_ok s → Z.of_nat (length (pending s)) = mgr_len (stats s).
Proof. intros [Hb Hl]. unfold pending. rewrite length_take. lia. Qed.

(** What the buffer holds after a write at an offset inside it. *)
Lemma splice_length (b bytes : list Z) (off : nat) :
  (off + length bytes ≤ length b)%nat →
  length (take off b ++ bytes ++ drop (off + length bytes) b) = length b.
Proof. intros Hle. rewrite !length_app, length_take, length_drop. lia. Qed.

Lemma splice_take (b bytes : list Z) (off : nat) :
  (off + length bytes ≤ length b)%nat →
  take (off + length bytes) (take off b ++ bytes ++ drop (off + length bytes) b) = take off b ++ bytes.
Proof.
  intros Hle. rewrite app_assoc. apply take_app_length'.
  rewrite length_app, length_take. lia.
Qed.

(** Appending where there is room. *)
Lemma trvlb_append v text :
  log_ok v → mgr_len (stats v) + Z.of_nat (length text) ≤ TRVL_BUFFER_SIZE →
  ∃ s', (s ← kget; trvlb_write (mgr_len (stats s)) text ;;
         set_len (s32 (mgr_len (stats s) + Z.of_nat (length text))) ;;
         mret (Z.of_nat (length text))) v = Ok (Z.of_nat (length text), s') ∧
    log_ok s' ∧ cbm s' = cbm v ∧ pending s' = pending v ++ text.
Proof.
  intros [Hbv Hlv] Hroom. kpure. unfold trvlb_write. rewrite kbind_assoc. kpure.
  rewrite (proj2 (Z.leb_le 0 _)), (proj2 (Z.leb_le _ (Z.of_nat (length (mgr_buffer (stats v)))))) by lia.
  cbn [andb]. unfold set_len. kpure. eexists. split; [reflexivity |].
  assert (Hle : (Z.to_nat (mgr_len (stats v)) + length text ≤ length (mgr_buffer (stats v)))%nat) by lia.
  unfold TRVL_BUFFER_SIZE, LOG_PAGE_SIZE in *.
  rewrite s32_small by lia. split_and!; [| done |].
  - split; simpl; [by rewrite splice_length | unfold TRVL_BUFFER_SIZE, LOG_PAGE_SIZE; lia].
  - unfold pending. simpl. rewrite Z2Nat.inj_add, Nat2Z.id by lia. by apply splice_take.
Qed.

Lemma trvlb_log_spec s text :
  log_ok s → Z.of_nat (length text) < LOG_PAGE_SIZE →
  ∃ rc s', trvlb_log_formated_string text s = Ok (rc, s') ∧ log_ok s' ∧ cbm s' = cbm s ∧
    pending s' =
      if TRVL_BUFFER_SIZE <? Z.of_nat (length text) then pending s
      else if TRVL_BUFFER_SIZE <? Z.of_nat (length text) + mgr_len (stats s) then text
      else pending s ++ text.
Proof.
  intros Hok Hlen. pose proof Hok as [Hb Hl].
  assert (Hsz : TRVL_BUFFER_SIZE = 3968) by done. assert (Hpg : LOG_PAGE_SIZE = 4096) by done.
  unfold trvlb_log_formated_string. rewrite u64_small by lia.
  destruct (Z.ltb_spec TRVL_BUFFER_SIZE (Z.of_nat (length text))) as [Hbig | Hfit]; [by eexists _, s |].
  kpure. rewrite s32_small, u64_small by lia.
  destruct (Z.ltb_spec TRVL_BUFFER_SIZE (Z.of_nat (length text) + mgr_len (stats s))) as [Hover | Hroom].
  - kstep (eq_refl (set_len 0 s)). set (v := set_stats _ s).
    assert (Hv : log_ok v) by (split; [exact Hb | simpl; lia]).
    destruct (trvlb_append v text Hv) as (s' & Hrun & Hok' & Hc & Hp); [simpl; lia |].
    eexists _, s'. by split_and!.
  - rewrite kbind_ret. destruct (trvlb_append s text Hok) as (s' & Hrun & Hok' & Hc & Hp); [lia |].
    eexists _, s'. by split_and!.
Qed.

(** C34. A write that fits appends, one that does not starts the buffer
    afresh, one that never could is dropped though its size is reported as
    written: the buffer is never overrun. *)
Theorem log_write_appends s text :
  log_ok s → 1 < Z.of_nat (length text) < LOG_PAGE_SIZE →
  ∃ s', logger_log_write 0 text s = Ok (Z.of_nat (length text), s') ∧ log_ok s' ∧ cbm s' = cbm s ∧
    pending s' =
      if TRVL_BUFFER_SIZE <? Z.of_nat (length text) then pending s
      else if TRVL_BUFFER_SIZE <? Z.of_nat (length text) + mgr_len (stats s) then text
      else pending s ++ text.
Proof.
  intros Hok Hlen. unfold logger_log_write.
  rewrite (proj2 (Z.leb_gt _ 1)), (proj2 (Z.leb_gt LOG_PAGE_SIZE _)) by lia. cbn [orb].
  change (0 <? 0) with false. cbv iota.
  destruct (trvlb_log_spec s text Hok ltac:(lia)) as (rc & s' & Hrun & Hrest). kstep Hrun. by exists s'.
Qed.

(** ** Reading *)

(** The list of callbacks is empty: nothing was registered. *)
Definition no_callbacks s : Prop := next_of (cbm s) !! CBM_LIST = Some CBM_LIST.

(** C35. With no callback registered, a read on an even position ends, hands
    over the waiting text in one piece and empties the buffer -- when the
    reader has room for all of it; else it gets nothing and the text stays. *)
Theorem read_drains fuel s buf len ppos :
  log_ok s → no_callbacks s → buf ≠ 0 → Z.land ppos 1 = 0 → 0 ≤ len → (1 < fuel)%nat →
  ∃ s', stats_log_read fuel true buf len ppos s =
      Ok (Some (ppos + 1, if mgr_len (stats s) <=? len
                          then (pending s, mgr_len (stats s)) else ([], 0)), s') ∧
    log_ok s' ∧ cbm s' = cbm s ∧
    pending s' = if mgr_len (stats s) <=? len then [] else pending s.
Proof.
  intros Hok Hnone Hbuf Hpos Hlen Hfuel. pose proof Hok as [Hb Hl]. unfold stats_log_read.
  rewrite (proj2 (Z.eqb_neq buf 0) Hbuf), Hpos. change (0 =? 1) with false. cbv iota.
  destruct fuel as [| [| fuel]]; [lia | lia |].
  assert (Hc : scbm_collect_stats (S (S fuel)) s = Ok (true, s)).
  { unfold scbm_collect_stats, list_next. by erewrite kbind_deref by exact Hnone. }
  kstep Hc. cbn [read_loop]. unfold trvlb_pull_formated_buffer. fold (pending s).
  destruct (Z.ltb_spec 0 len) as [Hpos' | Hzero].
  - rewrite !kbind_assoc. kpure. fold (pending s). rewrite Z.add_0_l.
    destruct (Z.eqb_spec (mgr_len (stats s)) 0) as [E0 | E0].
    { kpure. exists s. rewrite E0, (proj2 (Z.leb_le 0 len)) by done.
      assert (Hnil : pending s = []) by (unfold pending; by rewrite E0).
      rewrite Hnil. by split_and!. }
    destruct (Z.ltb_spec len (mgr_len (stats s))) as [Hlt | Hge].
    { rewrite (proj2 (Z.leb_gt _ len)) by lia. kpure. by exists s. }
    rewrite (proj2 (Z.leb_le _ len)) by lia. unfold trvlb_put_formated_buffer.
    rewrite (proj2 (Z.eqb_neq _ 0) E0). cbn [negb]. unfold set_len. kpure. set (v := set_stats _ s).
    destruct (mgr_len (stats s) <? len); kpure; exists v; (split_and!; try done);
      (split; [exact Hb | simpl; lia]).
  - assert (len = 0) as -> by lia. kpure. exists s.
    destruct (Z.leb_spec (mgr_len (stats s)) 0) as [E0 | E0]; [| done].
    assert (mgr_len (stats s) = 0) as E by lia.
    assert (Hnil : pending s = []) by (unfold pending; by rewrite E).
    rewrite Hnil, E. by split_and!.
Qed.

(** ** Registering the statistics twice *)

(** The links after [scbm_init]. *)
Definition fresh_links s : Prop :=
  next_of (cbm s) !! CBM_LIST = Some CBM_LIST ∧ prev_of (cbm s) !! CBM_LIST = Some CBM_LIST.

Lemma scbm_register_eq e p s :
  prev_of (cbm s) !! CBM_LIST = Some p →
  scbm_register e s = Ok (0, set_cbm (MkLinks (<[p := e]> (<[e := CBM_LIST]> (next_of (cbm s))))
    (<[e := p]> (<[CBM_LIST := e]> (prev_of (cbm s))))) s).
Proof.
  intros Hp. unfold scbm_register, list_prev. erewrite kbind_deref by exact Hp. cbv beta. by kpure.
Qed.

(** One turn of the walk: the text of an entry is appended when it fits, and
    the links are not touched. *)
Lemma get_stat_length e n : Z.of_nat (length (get_stat e n)) ≤ Z.max 0 (n - 1).
Proof. unfold get_stat, debug_stats. case_match; simpl; [rewrite length_take |]; lia. Qed.

Lemma collect_turn e s :
  log_ok s →
  ∃ s', collect_one e s = Ok (0, s') ∧ log_ok s' ∧ cbm s' = cbm s.
Proof.
  intros [Hb Hl]. assert (Hsz : TRVL_BUFFER_SIZE = 3968) by done.
  unfold collect_one, trvlb_get_buff_head. rewrite kbind_assoc. kpure. rewrite s32_small by lia.
  set (n := TRVL_BUFFER_SIZE - mgr_len (stats s)). pose proof (get_stat_length e n) as Hg.
  set (text := get_stat e n) in *.
  assert (Hw : ∃ v, (if 0 <? n then trvlb_write (mgr_len (stats s)) (text ++ [0]) else mret tt) s = Ok (tt, v) ∧
    log_ok v ∧ cbm v = cbm s ∧ mgr_len (stats v) = mgr_len (stats s)).
  { destruct (Z.ltb_spec 0 n) as [Hn | Hn]; [| by exists s]. unfold trvlb_write. kpure.
    assert (Hlen : length (text ++ [0]) = S (length text)) by (rewrite length_app; simpl; lia).
    rewrite (proj2 (Z.leb_le 0 _)), (proj2 (Z.leb_le _ (Z.of_nat (length (mgr_buffer (stats s))))))
      by (rewrite ?Hlen; lia).
    cbn [andb]. eexists. split; [reflexivity |]. split_and!; [| done | done].
    split; [| simpl; lia]. simpl. rewrite splice_length; [exact Hb | rewrite Hlen; lia]. }
  destruct Hw as (v & Hrun & [Hbv Hlv] & Hc & Hlen). kstep Hrun. unfold trvlb_put_buff_head. kpure.
  rewrite s32_small, u64_small by lia. rewrite (proj2 (Z.ltb_ge TRVL_BUFFER_SIZE _)) by lia.
  kstep (eq_refl (set_len (mgr_len (stats v) + Z.of_nat (length text)) v)).
  eexists. split; [reflexivity |]. split; [split; [exact Hbv | simpl; lia] | done].
Qed.

Lemma collect_self_loops fuel s :
  next_of (cbm s) !! DEBUG_ENTRY = Some DEBUG_ENTRY → log_ok s →
  ∃ s', collect_from fuel DEBUG_ENTRY s = Ok (false, s').
Proof.
  revert s. induction fuel as [| fuel IH]; intros s Hself Hok; [by exists s |].
  cbn [collect_from]. change (DEBUG_ENTRY =? CBM_LIST) with false. cbv iota.
  unfold list_next. erewrite kbind_deref by exact Hself. cbv beta.
  destruct (collect_turn DEBUG_ENTRY s Hok) as (v & Hrun & Hokv & Hc).
  kstep Hrun. apply IH; [by rewrite Hc | done].
Qed.

(** Two writes to the statistics file link the one static entry behind
    itself: the walk over the list never comes back to its head, and the next
    read does not end. *)
Lemma register_twice_loops s n1 n2 :
  log_ok s → fresh_links s →
  ∃ s1 s2, stats_log_write n1 s = Ok (n1, s1) ∧ stats_log_write n2 s1 = Ok (n2, s2) ∧
    ∀ fuel, ∃ s3, scbm_collect_stats fuel s2 = Ok (false, s3).
Proof.
  intros Hok [Hn Hp]. unfold stats_log_write.
  kstep (scbm_register_eq DEBUG_ENTRY CBM_LIST s Hp). set (s1 := set_cbm _ s).
  eexists s1, _. split; [reflexivity |].
  assert (Hp1 : prev_of (cbm s1) !! CBM_LIST = Some DEBUG_ENTRY).
  { simpl. rewrite lookup_insert_ne by done. apply lookup_insert_eq. }
  kstep (scbm_register_eq DEBUG_ENTRY DEBUG_ENTRY s1 Hp1). set (s2 := set_cbm _ s1).
  split; [reflexivity |].
  assert (Hself : next_of (cbm s2) !! DEBUG_ENTRY = Some DEBUG_ENTRY) by (simpl; apply lookup_insert_eq).
  assert (Hhead : next_of (cbm s2) !! CBM_LIST = Some DEBUG_ENTRY).
  { simpl. rewrite !(lookup_insert_ne _ DEBUG_ENTRY CBM_LIST) by done. apply lookup_insert_eq. }
  assert (Hok2 : log_ok s2) by exact Hok.
  intros fuel. unfold scbm_collect_stats, list_next. erewrite kbind_deref by exact Hhead. cbv beta.
  clear Hhead. by apply collect_self_loops.
Qed.

(** ** Concrete runs: an empty buffer, and one that holds two bytes. *)

Definition log_with (text : list Z) : dp_logger :=
  MkLogger (MkTrvl (Z.of_nat (length text)) (text ++ replicate (3968 - length text) 0))
    (MkLinks {[ CBM_LIST := CBM_LIST ]} {[ CBM_LIST := CBM_LIST ]}).

Lemma log_with_ok text : (length text ≤ 3968)%nat → log_ok (log_with text).
Proof.
  intros Hlen. split; simpl; unfold TRVL_BUFFER_SIZE, LOG_PAGE_SIZE; [| lia].
  rewrite length_app, length_replicate. lia.
Qed.

Lemma log_write_appends_witness :
  ∃ s', logger_log_write 0 [65; 66] (log_with [72; 73]) = Ok (2, s') ∧ pending s' = [72; 73; 65; 66].
Proof.
  destruct (log_write_appends (log_with [72; 73]) [65; 66]) as (s' & Hr & _ & _ & Hp).
  - apply log_with_ok. simpl. lia.
  - by vm_compute.
  - exists s'. split; [exact Hr |]. rewrite Hp. by vm_compute.
Defined.

Lemma read_drains_witness :
  ∃ s', stats_log_read 2 true 4096 100 0 (log_with [72; 73]) = Ok (Some (1, ([72; 73], 2)), s') ∧ pending s' = [].
Proof.
  destruct (read_drains 2 (log_with [72; 73]) 4096 100 0) as (s' & Hr & _ & _ & Hp); try done.
  - lia.
  - exists s'. split; [rewrite Hr; by vm_compute | by rewrite Hp].
Defined.

Lemma register_twice_loops_witness :
  ∃ s1 s2, stats_log_write 1 (log_with []) = Ok (1, s1) ∧ stats_log_write 1 s1 = Ok (1, s2) ∧
    ∃ s3, scbm_collect_stats 1000 s2 = Ok (false, s3).
Proof.
  destruct (register_twice_loops (log_with []) 1 1) as (s1 & s2 & H1 & H2 & Hloop).
  - apply log_with_ok. simpl. lia.
  - done.
  - exists s1, s2. split_and!; [exact H1 | exact H2 | exact (Hloop 1000%nat)].
Defined.
