(* ===== verification/LogChain.v ===== *)
(** * The logger's chain of buffers, and its start and stop (dpb.h, logger.c)

    [struct dp_logger] of dpb.h strings text buffers together: a text goes to
    the head of the last one, and a new one can be asked for.  The module does
    not use it yet; the macro [log_string], which would, calls
    [dp_logger_put_head], which no file declares, and is not modelled.  Below it
    the module's start and stop, on the kernel resources of [World]. *)

From stdpp Require Import base list gmap strings.
From Stdlib Require Import ZArith Lia.
From S2P Require Import Prelude Logger World.

(** struct dp_logger of dpb.h *)
Record log_chain := MkChain { chain_list : list trvl_buffer_mgr; chain_cnt : Z }.

Abbreviation cproc := (kproc log_chain).

(** A function of a buffer run on [list_last_entry]; on an empty list that is
    no buffer. *)
Definition on_last {A} (f : lproc A) : cproc A := λ c,
  match last (chain_list c) with
  | None => Oops ListCorrupt
  | Some mgr =>
      match f (MkLogger mgr (MkLinks ∅ ∅)) with
      | Ok (a, s) => Ok (a, MkChain (removelast (chain_list c) ++ [stats s]) (chain_cnt c))
      | Oops e => Oops e
      end
  end.

Definition dp_logger_init : cproc Z := λ _, Ok (0, MkChain [] 0).

(** [kmalloc]: the memory of a buffer, or none. *)
Definition dp_logger_next_head (kmalloc : option (list Z)) : cproc (option (Z * Z)) :=
  match kmalloc with
  | None => mret None
  | Some memory =>
      kmodify (λ c, MkChain (chain_list c ++ [MkTrvl 0 memory]) (s32 (chain_cnt c + 1))) ;;
      head ← on_last trvlb_get_buff_head;
      mret (Some head)
  end.

Definition dp_logger_get_head : cproc (option (Z * Z)) :=
  c ← kget;
  if chain_cnt c =? 0 then mret None
  else head ← on_last trvlb_get_buff_head; mret (Some head).

Definition dp_logger_put_buff_head (len : Z) : cproc Z :=
  c ← kget;
  if chain_cnt c =? 0 then mret (- EINVAL) else on_last (trvlb_put_buff_head len).

(** A user of the chain puts a text and its NUL at the head it was given, and
    then tells the chain the length of the text. *)
Definition write_head (off : Z) (text : list Z) : cproc Z :=
  on_last (trvlb_write off (text ++ [0])) ;;
  dp_logger_put_buff_head (Z.of_nat (length text)).

(** ** The chain is well formed *)

Definition mgr_ok (m : trvl_buffer_mgr) : Prop :=
  Z.of_nat (length (mgr_buffer m)) = TRVL_BUFFER_SIZE ∧ 0 ≤ mgr_len m ≤ TRVL_BUFFER_SIZE.

Definition mgr_text (m : trvl_buffer_mgr) : list Z := take (Z.to_nat (mgr_len m)) (mgr_buffer m).

(** Fewer than 2^31 - 1 buffers: the count does not wrap. *)
Definition chain_ok (c : log_chain) : Prop :=
  Forall mgr_ok (chain_list c) ∧ chain_cnt c = Z.of_nat (length (chain_list c)) ∧ chain_cnt c < 2147483647.

(** The messages of the chain, buffer by buffer. *)
Definition chain_text (c : log_chain) : list (list Z) := mgr_text <$> chain_list c.

Lemma on_last_ok {A} (f : lproc A) l m n a s :
  f (MkLogger m (MkLinks ∅ ∅)) = Ok (a, s) →
  on_last f (MkChain (l ++ [m]) n) = Ok (a, MkChain (l ++ [stats s]) n).
Proof. intros Hf. unfold on_last. simpl. by rewrite last_snoc, Hf, removelast_last. Qed.

(** Writing a message of at most the room there is, and its NUL, and counting
    it. *)
Lemma write_then_put l m n text :
  mgr_ok m → n ≠ 0 → Z.of_nat (length text) < TRVL_BUFFER_SIZE - mgr_len m →
  ∃ m', write_head (mgr_len m) text (MkChain (l ++ [m]) n) = Ok (0, MkChain (l ++ [m']) n) ∧
    mgr_ok m' ∧ mgr_text m' = mgr_text m ++ text.
Proof.
  intros [Hb Hl] Hn Hroom. assert (Hsz : TRVL_BUFFER_SIZE = 3968) by done.
  set (b := take (Z.to_nat (mgr_len m)) (mgr_buffer m) ++ (text ++ [0]) ++
    drop (Z.to_nat (mgr_len m) + length (text ++ [0])) (mgr_buffer m)).
  assert (Hlen : length (text ++ [0]) = S (length text)) by (rewrite length_app; simpl; lia).
  assert (Hbl : length b = length (mgr_buffer m)) by (apply splice_length; rewrite Hlen; lia).
  assert (Hw : trvlb_write (mgr_len m) (text ++ [0]) (MkLogger m (MkLinks ∅ ∅)) =
    Ok (tt, MkLogger (MkTrvl (mgr_len m) b) (MkLinks ∅ ∅))).
  { unfold trvlb_write. kpure. simpl stats.
    rewrite (proj2 (Z.leb_le 0 _)), (proj2 (Z.leb_le _ (Z.of_nat (length (mgr_buffer m))))) by (rewrite ?Hlen; lia). done. }
  unfold write_head. kstep (on_last_ok _ l m n tt _ Hw). simpl stats. unfold dp_logger_put_buff_head. rewrite kbind_get. cbn [chain_cnt].
  rewrite (proj2 (Z.eqb_neq n 0) Hn). set (m1 := MkTrvl (mgr_len m) b).
  assert (Hp : trvlb_put_buff_head (Z.of_nat (length text)) (MkLogger m1 (MkLinks ∅ ∅)) =
    Ok (0, MkLogger (MkTrvl (mgr_len m + Z.of_nat (length text)) b) (MkLinks ∅ ∅))).
  { unfold trvlb_put_buff_head, set_len. kpure. cbn [stats]. change (mgr_len m1) with (mgr_len m). rewrite s32_small, u64_small by lia.
    by rewrite (proj2 (Z.ltb_ge TRVL_BUFFER_SIZE _)) by lia. }
  eexists. split; [exact (on_last_ok _ l m1 n 0 _ Hp) |]. split.
  - split; simpl; [by rewrite Hbl | lia].
  - unfold mgr_text. simpl. unfold b. rewrite Z2Nat.inj_add, Nat2Z.id by lia.
    change (mgr_text m) with (take (Z.to_nat (mgr_len m)) (mgr_buffer m)). set (o := take _ (mgr_buffer m)).
    replace (o ++ (text ++ [0]) ++ _) with ((o ++ text) ++ [0] ++ drop (Z.to_nat (mgr_len m) + length (text ++ [0])) (mgr_buffer m))
      by (by rewrite <- !app_assoc).
    unfold o. apply take_app_length'. rewrite length_app, length_take. lia.
Qed.

Lemma get_head_last l m n :
  mgr_ok m → on_last trvlb_get_buff_head (MkChain (l ++ [m]) n) =
    Ok ((mgr_len m, TRVL_BUFFER_SIZE - mgr_len m), MkChain (l ++ [m]) n).
Proof.
  intros [_ Hl]. assert (Hsz : TRVL_BUFFER_SIZE = 3968) by done.
  apply (on_last_ok _ l m n _ (MkLogger m (MkLinks ∅ ∅))). unfold trvlb_get_buff_head. kpure. cbn [stats].
  by rewrite s32_small by lia.
Qed.

(** A length the head has no room for is refused. *)
Lemma put_too_long l m n len :
  mgr_ok m → n ≠ 0 → TRVL_BUFFER_SIZE - mgr_len m < len → len < 2147479680 →
  dp_logger_put_buff_head len (MkChain (l ++ [m]) n) = Ok (- EINVAL, MkChain (l ++ [m]) n).
Proof.
  intros [_ Hl] Hn Hlen Hbig. assert (Hsz : TRVL_BUFFER_SIZE = 3968) by done.
  unfold dp_logger_put_buff_head. rewrite kbind_get. cbn [chain_cnt]. rewrite (proj2 (Z.eqb_neq n 0) Hn).
  apply (on_last_ok _ l m n _ (MkLogger m (MkLinks ∅ ∅))). unfold trvlb_put_buff_head. kpure. cbn [stats].
  rewrite s32_small, u64_small by lia. by rewrite (proj2 (Z.ltb_lt TRVL_BUFFER_SIZE _)) by lia.
Qed.

(** A new head: an empty buffer behind the others. *)
Lemma next_head_new memory l n :
  chain_ok (MkChain l n) → Z.of_nat (length memory) = TRVL_BUFFER_SIZE →
  dp_logger_next_head (Some memory) (MkChain l n) =
    Ok (Some (0, TRVL_BUFFER_SIZE), MkChain (l ++ [MkTrvl 0 memory]) (n + 1)) ∧ mgr_ok (MkTrvl 0 memory).
Proof.
  intros (_ & Hcnt & Hbig) Hm. simpl in Hcnt, Hbig. assert (Hok : mgr_ok (MkTrvl 0 memory)) by by split.
  split; [| done]. unfold dp_logger_next_head. kpure. cbn [chain_list chain_cnt]. rewrite s32_small by lia.
  by kstep (get_head_last l (MkTrvl 0 memory) (n + 1) Hok).
Qed.

(** C36. The heads of the chain. A text of less than the room the chain tells
    of, put at the head it gives, is appended to the last buffer and to no
    other once its length is put; a length beyond the room is refused and
    changes nothing; a new head is an empty buffer behind the others, whose
    texts stay, and takes a text the same way; and without memory there is no
    new head and nothing changes. *)
Theorem chain_head_appends l m n memory text len :
  chain_ok (MkChain (l ++ [m]) n) → Z.of_nat (length memory) = TRVL_BUFFER_SIZE →
  ∃ off room, dp_logger_get_head (MkChain (l ++ [m]) n) = Ok (Some (off, room), MkChain (l ++ [m]) n) ∧
    (Z.of_nat (length text) < room →
      ∃ c', write_head off text (MkChain (l ++ [m]) n) = Ok (0, c') ∧
        chain_text c' = (mgr_text <$> l) ++ [mgr_text m ++ text]) ∧
    (room < len < 2147479680 →
      dp_logger_put_buff_head len (MkChain (l ++ [m]) n) = Ok (- EINVAL, MkChain (l ++ [m]) n)) ∧
    (∃ c1, dp_logger_next_head (Some memory) (MkChain (l ++ [m]) n) = Ok (Some (0, TRVL_BUFFER_SIZE), c1) ∧
      chain_text c1 = chain_text (MkChain (l ++ [m]) n) ++ [[]] ∧
      (Z.of_nat (length text) < TRVL_BUFFER_SIZE →
        ∃ c2, write_head 0 text c1 = Ok (0, c2) ∧ chain_text c2 = chain_text (MkChain (l ++ [m]) n) ++ [text])) ∧
    dp_logger_next_head None (MkChain (l ++ [m]) n) = Ok (None, MkChain (l ++ [m]) n).
Proof.
  intros Hc Hmem. pose proof Hc as (Hall & Hcnt & Hbig). simpl in Hall, Hcnt, Hbig.
  assert (Hm : mgr_ok m) by (apply Forall_app in Hall as [_ Hm]; by apply Forall_cons in Hm as [? _]).
  assert (Hn : n ≠ 0) by (rewrite length_app in Hcnt; simpl in Hcnt; lia).
  exists (mgr_len m), (TRVL_BUFFER_SIZE - mgr_len m). split_and!.
  - unfold dp_logger_get_head. rewrite kbind_get. cbn [chain_cnt]. rewrite (proj2 (Z.eqb_neq n 0) Hn).
    by kstep (get_head_last l m n Hm).
  - intros Ht. destruct (write_then_put l m n text Hm Hn Ht) as (m' & Hr & _ & E).
    eexists. split; [exact Hr |]. unfold chain_text. simpl. by rewrite fmap_app, <- E.
  - intros [? ?]. by apply put_too_long.
  - destruct (next_head_new memory _ n Hc Hmem) as [Hr Hok]. eexists. split; [exact Hr |].
    unfold chain_text. cbn [chain_list]. rewrite fmap_app. split; [done |]. intros Ht.
    destruct (write_then_put (l ++ [m]) (MkTrvl 0 memory) (n + 1) text Hok) as (m' & Hw & _ & E); [lia | simpl; lia |].
    eexists. split; [exact Hw |]. cbn [chain_list]. rewrite fmap_app. change (mgr_text <$> [m']) with [mgr_text m']. by rewrite E.
  - done.
Qed.

(** ** Start and stop of the module *)

(** The world, the logger's own state, the parameter [bufsize]. *)
Record log_module := MkLogModule { lm_world : world; lm_log : dp_logger; bufsize : Z }.

Abbreviation mproc := (kproc log_module).

Definition on_kernel {A} (f : wproc A) : mproc A := λ m,
  match f (lm_world m) with
  | Ok (a, w) => Ok (a, MkLogModule w (lm_log m) (bufsize m))
  | Oops e => Oops e
  end.

Definition on_log {A} (f : lproc A) : mproc A := λ m,
  match f (lm_log m) with
  | Ok (a, s) => Ok (a, MkLogModule (lm_world m) s (bufsize m))
  | Oops e => Oops e
  end.

Definition roundup_pow_of_two (n : Z) : Z := 2 ^ Z.log2_up n.

Definition PROC_DIR : string := "dp_logger".
Definition stats_procname : string := "stats".
Definition log_procname : string := "log".

Definition remove_proc_subtree (dir : string) : wproc unit := kmodify (add_log (E_proc_remove dir)).

Section logger_module.
Context `{Env}.

Definition md_init_all : mproc Z :=
  kmodify (λ m, MkLogModule (lm_world m) (lm_log m) (u32 (roundup_pow_of_two (bufsize m)))) ;;
  on_log md_init.

(** [ret] is what [md_init] returned at every label. *)
Definition dp_log_init : mproc Z :=
  m ← kget;
  if bufsize m =? 0 then mret (- EINVAL)
  else
    ret ← md_init_all;
    if negb (ret =? 0) then mret ret
    else
      let err_proc := on_log md_close ;; mret ret in
      let err_proc2 := on_kernel (remove_proc_subtree PROC_DIR) ;; err_proc in
      proc_dir ← on_kernel (proc_mkdir PROC_DIR);
      match proc_dir with
      | None => err_proc
      | Some _ =>
          ok ← on_kernel (proc_create proc_dir stats_procname);
          if negb ok then err_proc2
          else
            ok ← on_kernel (proc_create proc_dir log_procname);
            if negb ok then err_proc2 else mret 0
      end.

Definition dp_log_exit : mproc unit :=
  on_kernel (remove_proc_subtree PROC_DIR) ;; on_log md_close.
End logger_module.

Section logger_module_lemmas.
Context `{Quiet}.

Lemma on_kernel_ok {A} (f : wproc A) m a w :
  f (lm_world m) = Ok (a, w) → on_kernel f m = Ok (a, MkLogModule w (lm_log m) (bufsize m)).
Proof. intros Hf. unfold on_kernel. by rewrite Hf. Qed.

(** A directory of this name is not there yet. *)
Definition no_log_dir (rs : list resource) : Prop :=
  Forall (λ r, given_back (E_proc_remove PROC_DIR) r = false) rs.

Lemma filter_no_log_dir rs : no_log_dir rs → filter (λ r, given_back (E_proc_remove PROC_DIR) r = false) rs = rs.
Proof. induction 1 as [| r rs Hr Hrs IH]; [done |]. by rewrite filter_cons, decide_True, IH. Qed.

(** The module starts with an empty log and no callback. Its directory
    and both files are there, or, when one of them could not be made, none of
    them -- but the result is 0 all the same. *)
Lemma dp_log_init_result m :
  bufsize m ≠ 0 → no_log_dir (resources (log (lm_world m))) →
  let n := tick (lm_world m) in
  let made := negb ((answer n =? 0) || (answer (S n) =? 0) || (answer (S (S n)) =? 0)) in
  ∃ m', dp_log_init m = Ok (0, m') ∧ pending (lm_log m') = [] ∧ fresh_links (lm_log m') ∧
    resources (log (lm_world m')) =
      (if made then [R_file (Some PROC_DIR) log_procname; R_file (Some PROC_DIR) stats_procname; R_dir PROC_DIR]
       else []) ++ resources (log (lm_world m)).
Proof.
  intros Hb Hno n made. destruct m as [w [st lk] b]. simpl in *. unfold dp_log_init. rewrite kbind_get. cbn [bufsize].
  rewrite (proj2 (Z.eqb_neq b 0) Hb). unfold md_init_all. rewrite kbind_assoc. kpure. cbn [lm_world lm_log bufsize].
  set (b' := u32 _). set (s1 := MkLogger (MkTrvl 0 (mgr_buffer st)) (MkLinks (<[CBM_LIST := CBM_LIST]> (next_of lk)) (<[CBM_LIST := CBM_LIST]> (prev_of lk)))).
  assert (Hi : on_log md_init (MkLogModule w (MkLogger st lk) b') = Ok (0, MkLogModule w s1 b')) by done.
  kstep Hi. change (negb (0 =? 0)) with false. cbv iota.
  assert (Hs1 : pending s1 = [] ∧ fresh_links s1) by (split; [done | split; apply lookup_insert_eq]).
  (* the rest keeps the log as it is and answers 0 *)
  assert (Hok : ∀ w', resources (log w') = (if made then [R_file (Some PROC_DIR) log_procname; R_file (Some PROC_DIR) stats_procname; R_dir PROC_DIR] else []) ++ resources (log w) →
    ∃ m', Ok (0, MkLogModule w' s1 b') = Ok (0, m') ∧ pending (lm_log m') = [] ∧ fresh_links (lm_log m') ∧
    resources (log (lm_world m')) = (if made then [R_file (Some PROC_DIR) log_procname; R_file (Some PROC_DIR) stats_procname; R_dir PROC_DIR] else []) ++ resources (log w)).
  { intros w' Hw'. exists (MkLogModule w' s1 b'). split; [done |]. by destruct Hs1. }
  kstep (on_kernel_ok _ (MkLogModule w s1 b') _ _ (proc_mkdir_quiet PROC_DIR w)). cbn [lm_log bufsize]. set (w1 := ticked _ w).
  unfold made in *. fold n. destruct (answer n =? 0) eqn:E0; cbn [negb orb] in *.
  { apply (Hok w1). simpl. change (tick w) with n. by rewrite E0. }
  kstep (on_kernel_ok _ (MkLogModule w1 s1 b') _ _ (proc_create_quiet (Some PROC_DIR) stats_procname w1)). cbn [lm_log bufsize].
  set (w2 := ticked _ w1). change (tick w1) with (S n). destruct (answer (S n) =? 0) eqn:E1; cbn [negb orb] in *.
  { apply (Hok (add_log (E_proc_remove PROC_DIR) w2)). simpl. change (tick w) with n. rewrite E1, E0. cbn [app]. rewrite filter_cons, decide_False by done. by apply filter_no_log_dir. }
  kstep (on_kernel_ok _ (MkLogModule w2 s1 b') _ _ (proc_create_quiet (Some PROC_DIR) log_procname w2)). cbn [lm_log bufsize].
  set (w3 := ticked _ w2). change (tick w2) with (S (S n)). destruct (answer (S (S n)) =? 0) eqn:E2; cbn [negb orb] in *.
  - apply (Hok (add_log (E_proc_remove PROC_DIR) w3)). simpl. change (tick w) with n. rewrite E2, E1, E0. cbn [app].
    rewrite !filter_cons, !decide_False by done. by apply filter_no_log_dir.
  - apply (Hok w3). simpl. change (tick w) with n. by rewrite E0, E1, E2.
Qed.
End logger_module_lemmas.

(** ** Concrete runs *)

(** One buffer, with three bytes of room. *)
Definition nearly_full : log_chain := MkChain [MkTrvl 3965 (replicate 3968 7)] 1.

Lemma chain_head_appends_witness :
  ∃ c', write_head 3965 [72; 105] nearly_full = Ok (0, c') ∧ chain_text c' = [replicate 3965 7 ++ [72; 105]].
Proof.
  destruct (chain_head_appends [] (MkTrvl 3965 (replicate 3968 7)) 1 (replicate 3968 0) [72; 105] 4) as
    (off & room & Hh & Hw & _).
  - split_and!; [| done | done]. repeat constructor; by vm_compute.
  - by vm_compute.
  - assert (E : Some (off, room) = Some (3965, 3)) by (injection Hh as <- <-; reflexivity). injection E as -> ->.
    destruct Hw as (c' & Hr & Ht); [reflexivity |]. exists c'. split; [exact Hr | exact Ht].
Defined.

(** The second file is refused. *)
Definition one_log_file : Env := calm (λ n, if (n =? 2)%nat then 0 else 1) (λ _, []) (λ _, no_addr).

Lemma dp_log_init_result_witness :
  ∃ m', @dp_log_init one_log_file (MkLogModule (empty_world 100) (log_with [72]) 4096) = Ok (0, m') ∧
    resources (log (lm_world m')) = [].
Proof.
  destruct (@dp_log_init_result one_log_file (calm_quiet _ _ _) (MkLogModule (empty_world 100) (log_with [72]) 4096))
    as (m' & Hr & _ & _ & Hres); [done | constructor |]. exists m'. split; [exact Hr | exact Hres].
Defined.
