(* ===== verification/Tracer.v ===== *)
(** * The packet tracer (pkt_tracer/pkt_trace.c, pkt_tracer/cbn_common.h)

    A module of its own that prints the headers of marked packets and of
    packets to or from the ports of the proxies, into a buffer of 512 bytes on
    the stack.  It has its own copy of cbn_common.h, whose texts differ from
    the proxy's. *)

From stdpp Require Import base list strings.
From Stdlib Require Import ZArith Lia.
From S2P Require Import Prelude World Hooks Server Proc Common.

Section tracer.
(** [%p] prints a hash of the address: 16 hexadecimal digits, or a text of
    that length before the hash key is there. *)
Variable pointer_text : Z → list Z.

(** ** cbn_common.h of the tracer *)

Definition dump_iph (mark : Z) (iph : iphdr) (v : ip_view) : list Z :=
  tab2 ++ chars "mark 0x" ++ hex_digits 8 mark ++ chars " secmark " ++ print_d (s32 (v_secmark v)) ++ [10] ++ tab2 ++
  chars "ihl " ++ print_d (v_ihl v) ++ chars " ver " ++ print_d (v_version v) ++ chars " tos " ++ print_d (v_tos v) ++
  chars " total len " ++ print_d (v_tot_len v) ++ [10] ++ tab2 ++
  chars "id " ++ print_05 (v_id v) ++ chars " frag_off " ++ print_05 (Z.land (v_frag_off v) 8191) ++
  chars " [" ++ iphdr_flag (v_frag_off v) ++ chars "]" ++ [10] ++ tab2 ++
  chars "ttl " ++ print_d (v_ttl v) ++ chars " proto " ++ proto_string (protocol iph) ++ chars "[" ++
  print_d (protocol iph) ++ chars "] csum 0x" ++ hex_digits 4 (v_check v) ++ [10] ++ tab2 ++
  chars "saddr " ++ ip4 (saddr iph) ++ chars " " ++ [10] ++ tab2 ++
  chars "daddr " ++ ip4 (daddr iph) ++ chars " " ++ [10].

Definition dump_tcph (th : tcphdr) (v : tcp_view) : list Z :=
  [10] ++ tab2 ++ print_d (ntohs (th_source th)) ++ chars " => " ++ print_d (ntohs (th_dest th)) ++ chars " " ++
  tab2 ++ (if th_syn th then chars "SYN" else []) ++ chars " " ++ (if th_ack th then chars "ACK" else []) ++
  chars " " ++ (if v_fin v then chars "FIN" else []) ++ [10] ++ tab2 ++
  chars "seq " ++ print_d (u32 (v_seq v)) ++ chars " ack " ++ print_d (s32 (v_ack_seq v)) ++
  chars " window " ++ print_d (v_window v) ++ [10].

(** The contents of [store], for a packet at the address [a]. *)
Definition trace_only (a : Z) (skb : sk_buff) (v : ip_view) (tv : tcp_view) (str : list Z) : list Z :=
  str ++ [58; 60] ++ pointer_text a ++ [62; 10] ++ dump_iph (skb_mark skb) (ip_hdr skb) v ++
  (if protocol (ip_hdr skb) =? 6 then dump_tcph (skb_transport_header skb) tv else []) ++
  (if protocol (ip_hdr skb) =? 17 then
     tab2 ++ chars "src : " ++ print_05 (ntohs (th_source (skb_transport_header skb))) ++
     chars "  dst " ++ print_05 (ntohs (th_dest (skb_transport_header skb))) ++ [10]
   else []).

(** ** pkt_trace.c *)

Definition in_proxy_range (port : Z) : bool := (5000 <=? port) && (port <=? 6000).

Definition get_port (skb : sk_buff) : bool :=
  let '(src, dst) := if protocol (ip_hdr skb) =? 6 then tcp_port skb else (0, 0) in
  let '(src, dst) := if protocol (ip_hdr skb) =? 17 then udp_port skb else (src, dst) in
  in_proxy_range src || in_proxy_range dst.

(** The verdict and what is printed, if anything is. *)
Definition cbn_trace_hook (priv : list Z) (a : Z) (skb : sk_buff) (v : ip_view) (tv : tcp_view) : verdict * option (list Z) :=
  (NF_ACCEPT,
   if negb (skb_mark skb =? 0) || get_port skb then Some (trace_only a skb v tv priv) else None).

(** The hooks the module registers. *)
Inductive trace_fn := H_cbn_trace_hook.

Definition cbn_nf_hooks : list (nf_hook_ops trace_fn) := [
  MkHook H_cbn_trace_hook NF_INET_POST_ROUTING NF_IP_PRI_FIRST "POST";
  MkHook H_cbn_trace_hook NF_INET_POST_ROUTING NF_IP_PRI_LAST "POST LAST";
  MkHook H_cbn_trace_hook NF_INET_LOCAL_OUT NF_IP_PRI_FIRST "NF_INET_LOCAL_OUT";
  MkHook H_cbn_trace_hook NF_INET_LOCAL_IN NF_IP_PRI_FIRST "NF_INET_LOCAL_IN";
  MkHook H_cbn_trace_hook NF_INET_FORWARD NF_IP_PRI_FIRST "NF_INET_FORWARD";
  MkHook H_cbn_trace_hook NF_INET_PRE_ROUTING NF_IP_PRI_FIRST "RX";
  MkHook H_cbn_trace_hook NF_INET_PRE_ROUTING NF_IP_PRI_LAST "RX-Last"].

Section module.
Context `{Env}.

Definition pkt_trace_init : wproc Z := _ ← nf_register_net_hooks; mret 0.
Definition pkt_trace_clean : wproc unit := nf_unregister_net_hooks.

(** The tracer holds its hooks while it is loaded; the result says nothing
    about whether they were registered. *)
Lemma pkt_trace_loaded w :
  ∃ w1 w2, pkt_trace_init w = Ok (0, w1) ∧ pkt_trace_clean w1 = Ok (tt, w2) ∧
    resources (log w1) = (if answer (tick w) =? 0 then [R_hooks] else []) ++ resources (log w) ∧
    (R_hooks ∉ resources (log w) → resources (log w2) = resources (log w)).
Proof.
  eexists _, _. split; [reflexivity |]. split; [reflexivity |]. cbn. split; [done |]. intros Hn.
  assert (Hf : filter (λ r, given_back E_nf_unregister r = false) (resources (log w)) = resources (log w)).
  { apply filter_keep, Forall_forall. intros r Hr. destruct r; try done. }
  destruct (answer (tick w) =? 0); cbn [app]; [by rewrite filter_cons, decide_False |]; done.
Qed.
End module.

(** ** The buffer is large enough *)

Hypothesis pointer_text_length : ∀ a, length (pointer_text a) = 16%nat.

Lemma u32_text n : (length (print_d (u32 n)) ≤ 10)%nat.
Proof.
  pose proof (u32_range n). pose proof (print_d_length 10 (u32 n) ltac:(lia)) as Hd.
  change (10 ^ Z.of_nat 10) with 10000000000 in Hd. lia.
Qed.

Lemma tracer_iph_length mark iph v tv :
  good_view v tv → 0 ≤ protocol iph < 256 → (length (dump_iph mark iph v) ≤ 290)%nat.
Proof.
  intros Hv Hp. pose proof (Common.dump_iph_length 0 iph v tv Hv Hp) as Hd. revert Hd.
  unfold dump_iph, Common.dump_iph. rewrite !length_app, !length_chars.
  pose proof (hex_digits_length 8 mark).
  change (print_d (s32 0)) with [48]. cbn [String.length length tab2]. lia.
Qed.

Lemma tracer_tcph_length th v :
  0 ≤ v_window v < 65536 → (length (dump_tcph th v) ≤ 110)%nat.
Proof.
  intros Hw. unfold dump_tcph. rewrite !length_app, !length_chars. cbn [String.length length].
  pose proof (ntohs_text (th_source th)). pose proof (ntohs_text (th_dest th)).
  pose proof (u32_text (v_seq v)). pose proof (s32_text (v_ack_seq v)).
  pose proof (print_d_length 5 (v_window v) ltac:(lia) ltac:(simpl; lia)).
  destruct (th_syn _), (th_ack _), (v_fin _); rewrite ?length_chars; unfold tab2; cbn [String.length length]; lia.
Qed.

Lemma hook_name_length o : o ∈ cbn_nf_hooks → (length (chars (priv o)) ≤ 17)%nat.
Proof.
  intros Ho. rewrite length_chars. unfold cbn_nf_hooks in Ho.
  repeat (apply elem_of_cons in Ho as [-> | Ho]; [cbn; lia |]). by apply elem_of_nil in Ho.
Qed.

(** A packet to or from a port of a proxy. *)
Lemma get_port_true skb :
  get_port skb = true ↔ (protocol (ip_hdr skb) = 6 ∨ protocol (ip_hdr skb) = 17) ∧
    (5000 ≤ ntohs (th_source (skb_transport_header skb)) ≤ 6000 ∨ 5000 ≤ ntohs (th_dest (skb_transport_header skb)) ≤ 6000).
Proof.
  unfold get_port, tcp_port, udp_port, in_proxy_range.
  destruct (Z.eqb_spec (protocol (ip_hdr skb)) 6), (Z.eqb_spec (protocol (ip_hdr skb)) 17); rewrite orb_true_iff, !andb_true_iff, !Z.leb_le;
    intuition lia.
Qed.

(** C37. Every hook the tracer registers accepts every packet, prints exactly
    the marked packets and the TCP and UDP packets with a port from 5000 to
    6000 at one end, and what it prints fits with its NUL in the 512 bytes of
    [store]. *)
Theorem trace_fits o a skb v tv :
  o ∈ cbn_nf_hooks → good_view v tv → 0 ≤ protocol (ip_hdr skb) < 256 →
  ∃ out, cbn_trace_hook (chars (priv o)) a skb v tv = (NF_ACCEPT, out) ∧
    (is_Some out ↔ skb_mark skb ≠ 0 ∨
      (protocol (ip_hdr skb) = 6 ∨ protocol (ip_hdr skb) = 17) ∧
      (5000 ≤ ntohs (th_source (skb_transport_header skb)) ≤ 6000 ∨
       5000 ≤ ntohs (th_dest (skb_transport_header skb)) ≤ 6000)) ∧
    ∀ text, out = Some text → (length text < 512)%nat.
Proof.
  intros Hn Hv Hp. eexists. split; [reflexivity |]. split.
  { rewrite <- get_port_true. destruct (Z.eqb_spec (skb_mark skb) 0), (get_port skb); simpl; split; try done; try tauto; try (by intros [] ).
    all: intros; by eexists. }
  intros text Ht. case_match; [| done]. injection Ht as <-. unfold trace_only. rewrite !length_app.
  pose proof (hook_name_length o Hn) as Hname. generalize dependent (chars (priv o)). intros str Hname.
  pose proof (pointer_text_length a).
  pose proof (tracer_iph_length (skb_mark skb) (ip_hdr skb) v tv Hv Hp).
  pose proof (tracer_tcph_length (skb_transport_header skb) tv ltac:(apply Hv)).
  cbn [length]. destruct (protocol (ip_hdr skb) =? 6), (protocol (ip_hdr skb) =? 17);
    rewrite ?length_app, ?length_chars, ?print_05_ntohs; unfold tab2; cbn [String.length length]; lia.
Qed.
End tracer.

Lemma trace_fits_witness :
  ∃ out, cbn_trace_hook (λ _, replicate 16 48) (chars "RX") 64 (tcp_packet 7 16777343 33554559 8080 48405 true) 
           (Build_ip_view 0 5 4 0 60 1 16384 64 4660) (Build_tcp_view false 1 0 512) = (NF_ACCEPT, Some out) ∧
    (length out < 512)%nat.
Proof.
  destruct (trace_fits (λ _, replicate 16 48) ltac:(done) (MkHook H_cbn_trace_hook NF_INET_PRE_ROUTING NF_IP_PRI_FIRST "RX") 64 (tcp_packet 7 16777343 33554559 8080 48405 true)
    (Build_ip_view 0 5 4 0 60 1 16384 64 4660) (Build_tcp_view false 1 0 512)) as (out & Hrun & _ & Hlen).
  - unfold cbn_nf_hooks. rewrite !elem_of_cons. tauto.
  - unfold good_view. simpl. lia.
  - done.
  - eexists. split; [reflexivity |]. apply Hlen. by injection Hrun as <-.
Defined.
