(* ===== verification/Client.v ===== *)
(** * The traffic client (src/kernel_client/client.c)

    A module of its own: two threads that send when a line is written to their
    file under /proc, and two servers that read, one by copying and one by
    taking over the pages.  It uses the kernel services and the kinds of
    object of the proxy, so its procedures run on the same [world]. *)

From stdpp Require Import base list gmap gmultiset sets strings.
From Stdlib Require Import ZArith Lia.
From S2P Require Import Prelude RbTree Keys World Qp Relay Hooks.

Definition RX_ORDER : Z := 2.
Definition PORT : Z := 8080.
Definition PORT_Z : Z := 8081.
Definition SERVER_ADDR : Z := Z.lor (Z.lor (Z.lor (Z.shiftl 10 24) (Z.shiftl 154 16)) (Z.shiftl 0 8)) 21.
Definition SEND_COUNT : Z := Z.shiftl 1 19.
Definition UDP_COUNT : Z := Z.shiftl 1 25.
Definition ANY_ADDR : Z := 0.
Definition SERVER_BACKLOG : Z := 32.

Section client.
Context `{Env}.

(** ** The files *)

(** A first byte of '0' sets [is_zcopy], any other clears it; the thread is
    woken. *)
Definition client_write (task : Z) (buf : list Z) : wproc Z :=
  rc ← kernel_call C_copy_from_user;
  if rc <? 0 then mret rc
  else
    kmodify (set_zcopy 0) ;;
    (if nth 0 (buf ++ [0]) 0 =? 48 then kmodify (set_zcopy 1) else mret tt) ;;
    kmodify (add_log (E_wake task)) ;;
    mret (Z.of_nat (length buf)).

(** The result and the new position. *)
Definition client_read (buf ppos : Z) : Z * Z :=
  if buf =? 0 then (- EINVAL, ppos)
  else if negb (Z.land ppos 1 =? 0) then (0, s64 (ppos + 1))
  else (0, s64 (ppos + 1)).

(** ** Reading by copying *)

Fixpoint recv_loop (fuel : nat) (sock : ptr) (rc : Z) : wproc (option Z) :=
  match fuel with
  | O => mret None
  | S fuel =>
      stop ← kthread_should_stop;
      if stop : bool then mret (Some rc)
      else
        '(rc, _) ← kernel_recvmsg sock (Z.shiftl PAGE_SIZE RX_ORDER * Z.of_nat VEC_SZ);
        if rc <=? 0 then mret (Some rc) else recv_loop fuel sock rc
  end.

Definition start_new_connection (fuel : nat) (sock : ptr) : wproc (option Z) :=
  '(kvec, ok) ← alloc_kvec (C_alloc_pages RX_ORDER) VEC_SZ;
  r ← (if ok : bool then recv_loop fuel sock 0 else mret (Some 0));
  match r with
  | Some rc => kforeach kvec free_page ;; mret (Some rc)
  | None => mret None
  end.

(** ** Reading by taking over the pages *)

(** [tcp_read_sock_zcopy]: an error, or the addresses of the pages it put in
    the first entries of the vector, at most [nr] of them. *)
Definition tcp_read_sock_zcopy (sock : ptr) (nr : Z) : wproc (Z * list Z) :=
  _ ← sock_addr sock;
  w ← kget;
  rc ← kernel_call (C_read_zcopy sock nr);
  if rc <=? 0 then mret (rc, [])
  else
    let pages := take (Z.to_nat nr) (payload (tick w)) in
    kmodify (add_log (E_recv sock pages)) ;; mret (rc, pages).

(** [skb_peek_tail]: is there anything in the receive queue? *)
Definition peek_tail (sock : ptr) : wproc bool :=
  _ ← sock_addr sock; rc ← kernel_call (C_peek_tail sock); mret (negb (rc =? 0)).

Fixpoint tcp_read_sock_zcopy_blocking (fuel : nat) (sock : ptr) (nr : Z) : wproc (option (Z * list Z)) :=
  match fuel with
  | O => mret None
  | S fuel =>
      let wait :=
        _ ← sock_addr sock; _ ← kernel_call (C_wait_data sock); _ ← peek_tail sock;
        tcp_read_sock_zcopy_blocking fuel sock nr in
      last ← peek_tail sock;
      if negb (last : bool) then wait
      else
        '(rc, pages) ← tcp_read_sock_zcopy sock nr;
        if rc <? 0 then mret (Some (rc, pages))
        else if rc =? 0 then wait
        else mret (Some (rc, pages))
  end.

(** The pages are given back up to the first NULL, and their entries cleared. *)
Fixpoint put_pages (kvec : list Z) : wproc (list Z) :=
  match kvec with
  | [] => mret []
  | p :: rest =>
      if p =? 0 then mret (p :: rest)
      else
        kmodify (add_log (E_put_page p)) ;;
        rest ← put_pages rest;
        mret (0 :: rest)
  end.

Definition store_pages (pages kvec : list Z) : list Z := pages ++ drop (length pages) kvec.

Fixpoint zcopy_loop (fuel : nat) (sock : ptr) (kvec : list Z) (rc : Z) : wproc (option Z) :=
  match fuel with
  | O => mret None
  | S fuel =>
      stop ← kthread_should_stop;
      if stop : bool then mret (Some rc)
      else
        r ← tcp_read_sock_zcopy_blocking fuel sock (Z.of_nat VEC_SZ);
        match r with
        | None => mret None
        | Some (rc, pages) =>
            if rc <? 0 then mret (Some rc)
            else if rc =? 0 then zcopy_loop fuel sock (store_pages pages kvec) rc
            else
              kvec ← put_pages (store_pages pages kvec);
              zcopy_loop fuel sock kvec rc
        end
  end.

Definition start_new_connection_z (fuel : nat) (sock : ptr) : wproc (option Z) :=
  zcopy_loop fuel sock (replicate VEC_SZ 0) 0.

(** ** The servers *)

(** The labels [error] and [out]. *)
Definition release_out (sock : ptr) (rc : Z) : wproc (option Z) :=
  (if decide (sock = PNull) then mret tt else sock_release sock) ;; mret (Some rc).

Definition ptr_value (p : ptr) : Z := match p with PNull => 0 | PErr e => u64 (- e) | PObj a => a end.

Fixpoint server_loop (fuel : nat) (f : thread_fn) (sock : ptr) : wproc (option Z) :=
  match fuel with
  | O => mret None
  | S fuel =>
      '(rc, nsock) ← kernel_accept sock;
      if negb (rc =? 0) then release_out sock rc
      else
        _ ← kthread f (ptr_value nsock);
        stop ← kthread_should_stop;
        if stop : bool then release_out sock rc else server_loop fuel f sock
  end.

(** Both servers, by port and connection thread. *)
Definition serve (fuel : nat) (f : thread_fn) (port : Z) : wproc (option Z) :=
  '(rc, sock) ← sock_create_kern;
  if negb (rc =? 0) then release_out sock rc
  else
    rc ← kernel_bind sock (htons port) (htonl ANY_ADDR);
    if negb (rc =? 0) then release_out sock rc
    else
      rc ← kernel_listen sock SERVER_BACKLOG;
      if negb (rc =? 0) then release_out sock rc else server_loop fuel f sock.

Definition split_server (fuel : nat) : wproc (option Z) := serve fuel F_start_new_connection PORT.
Definition split_server_z (fuel : nat) : wproc (option Z) := serve fuel F_start_new_connection_z PORT_Z.

(** ** Sending *)

(** One message of 64 pages: tried until the socket takes it. *)
Fixpoint send_retry (fuel : nat) (tx : ptr) : wproc (option Z) :=
  match fuel with
  | O => mret None
  | S fuel =>
      _ ← sock_addr tx;
      rc ← kernel_call (C_sendmsg tx (Z.shiftl PAGE_SIZE 6));
      if rc <=? 0 then _ ← kernel_call C_schedule; send_retry fuel tx
      else mret (Some rc)
  end.

Fixpoint send_turns (n : nat) (fuel : nat) (tx : ptr) : wproc (option unit) :=
  match n with
  | O => mret (Some tt)
  | S n =>
      r ← send_retry fuel tx;
      match r with
      | Some _ => send_turns n fuel tx
      | None => mret None
      end
  end.

Definition send_loop (fuel : nat) (tx : ptr) : wproc (option unit) := send_turns (Z.to_nat SEND_COUNT) fuel tx.

(** The labels [err] and [ok]. *)
Definition tcp_client_ok (tx : ptr) (base : Z) : wproc (option unit) :=
  sock_release tx ;; free_page (Some base) ;; mret (Some tt).

Definition tcp_client (fuel : nat) : wproc (option unit) :=
  rc ← kernel_call (C_alloc_pages 6);
  if rc =? 0 then tcp_client_ok PNull 0
  else
    base ← fresh_addr;
    kmodify (add_log (E_alloc_page base)) ;;
    '(rc, tx) ← sock_create_kern;
    if negb (rc =? 0) then tcp_client_ok tx base
    else
      w ← kget;
      (if negb (is_zcopy w =? 0) then _ ← sock_addr tx; mret tt else mret tt) ;;
      rc ← kernel_connect tx (htons PORT) (htonl SERVER_ADDR);
      if negb (rc =? 0) then tcp_client_ok tx base
      else
        r ← send_loop fuel tx;
        match r with
        | Some _ => tcp_client_ok tx base
        | None => mret None
        end.

Fixpoint udp_turns (n : nat) (tx : ptr) : wproc unit :=
  match n with
  | O => mret tt
  | S n => _ ← sock_addr tx; _ ← kernel_call (C_sendmsg tx 42); udp_turns n tx
  end.

(** Nothing calls it. *)
Definition udp_client : wproc unit :=
  rc ← kernel_call C_alloc_page;
  if rc =? 0 then mret tt
  else
    base ← fresh_addr;
    kmodify (add_log (E_alloc_page base)) ;;
    '(rc, tx) ← sock_create_kern;
    if negb (rc =? 0) then mret tt else udp_turns (Z.to_nat UDP_COUNT) tx.

Fixpoint poll_thread (turns fuel : nat) : wproc (option Z) :=
  match turns with
  | O => mret None
  | S turns =>
      stop ← kthread_should_stop;
      if stop : bool then mret (Some 0)
      else
        _ ← kernel_call C_schedule;
        stop ← kthread_should_stop;
        if stop : bool then poll_thread turns fuel
        else
          r ← tcp_client fuel;
          match r with
          | Some _ => poll_thread turns fuel
          | None => mret None
          end
  end.

(** ** Start and stop *)

(** A field of the task behind a pointer that was not checked. *)
Definition task_of (t : ptr) : wproc unit :=
  match t with PObj _ => mret tt | _ => oops NullDeref end.

(** [wake_up_process], and [flags &= ~PF_NO_SETAFFINITY] before it. *)
Definition wake_task (t : ptr) : wproc unit :=
  task_of t ;; kmodify (add_log (E_wake (ptr_value t))).

Definition client_init : wproc Z :=
  proc_dir ← proc_mkdir "io_client"%string;
  _ ← kernel_call (C_kallsyms "kthread_bind_mask"%string);
  udp_client_task ← kthread (F_poll_thread 0) 0;
  tcp_client_task ← kthread (F_poll_thread 1) 1;
  task_of udp_client_task ;;
  task_of tcp_client_task ;;
  wake_task udp_client_task ;;
  wake_task tcp_client_task ;;
  _ ← kthread F_split_server 0;
  _ ← kthread F_split_server_z 0;
  ok ← proc_create proc_dir "udp_client"%string;
  if negb ok then mret (-1)
  else
    ok ← proc_create proc_dir "tcp_client"%string;
    if negb ok then mret (-1) else mret 0.

(** The four tasks are the module's variables. *)
Definition client_exit (udp_client_task tcp_client_task tcp_server0 tcp_server1 : ptr) : wproc unit :=
  kmodify (add_log (E_proc_remove "io_client"%string)) ;;
  kthread_stop udp_client_task (F_poll_thread 0) ;;
  kthread_stop tcp_client_task (F_poll_thread 1) ;;
  kthread_stop tcp_server0 F_split_server ;;
  kthread_stop tcp_server1 F_split_server_z.
End client.

(** ** What went through *)

(** The pages given back, oldest first. *)
Fixpoint pages_put (l : list event) : list Z :=
  match l with
  | [] => []
  | E_put_page p :: l => pages_put l ++ [p]
  | _ :: l => pages_put l
  end.

(** The messages a socket took. *)
Fixpoint messages (s : ptr) (l : list event) : Z :=
  match l with
  | [] => 0
  | E_call (C_sendmsg s' _) rc :: l => messages s l + (if decide (s = s' ∧ 0 < rc) then 1 else 0)
  | _ :: l => messages s l
  end.

(** The threads that were started and not stopped. *)
Fixpoint running (l : list event) : list thread_fn :=
  match l with
  | [] => []
  | E_kthread_run f _ :: l => f :: running l
  | E_kthread_stop f :: l => filter (λ g, g ≠ f) (running l)
  | _ :: l => running l
  end.

Section client_lemmas.
Context `{Quiet}.
Implicit Types w : world.

(** A blocking read returns pages or an error, never 0. *)
Lemma blocking_not_zero fuel sock nr w rc pages w' :
  tcp_read_sock_zcopy_blocking fuel sock nr w = Ok (Some (rc, pages), w') → rc ≠ 0.
Proof.
  revert w. induction fuel as [| fuel IH]; intros w Hr; [done |]. cbn [tcp_read_sock_zcopy_blocking] in Hr.
  apply kbind_inv in Hr as (last & w1 & H1 & Hr). destruct last; simpl in Hr.
  - apply kbind_inv in Hr as ([rc' ps] & w2 & H2 & Hr). destruct (Z.ltb_spec rc' 0) as [Hlt | Hge].
    { injection Hr as <- <- <-. lia. }
    destruct (Z.eqb_spec rc' 0) as [-> | Hne]; [| by injection Hr as <- <- <-].
    repeat apply kbind_inv in Hr as (? & ? & _ & Hr). by eapply IH.
  - repeat apply kbind_inv in Hr as (? & ? & _ & Hr). by eapply IH.
Qed.

(** The connection thread has what the read loop has. *)
Definition same_stream (sock : ptr) w w' : Prop :=
  ∃ ps, received sock (log w') = received sock (log w) ++ ps ∧ pages_put (log w') = pages_put (log w) ++ ps.

#[local] Instance same_stream_refl sock : Reflexive (same_stream sock).
Proof. intros w. exists []. by rewrite !app_nil_r. Qed.

#[local] Instance same_stream_trans sock : Transitive (same_stream sock).
Proof.
  intros w1 w2 w3 (p1 & R1 & P1) (p2 & R2 & P2). exists (p1 ++ p2). by rewrite R2, R1, P2, P1, !app_assoc.
Qed.

Lemma put_pages_spec pages n w :
  Forall (λ p, p ≠ 0) pages →
  ∃ w', put_pages (pages ++ replicate n 0) w = Ok (replicate (length pages + n) 0, w') ∧
    pages_put (log w') = pages_put (log w) ++ pages ∧ ∀ s, received s (log w') = received s (log w).
Proof.
  intros Hp. revert w. induction Hp as [| p pages Hp Hps IH]; intros w; simpl.
  { exists w. rewrite app_nil_r. split; [by destruct n | done]. }
  apply Z.eqb_neq in Hp. rewrite Hp. kpure.
  destruct (IH (add_log (E_put_page p) w)) as (w' & Hr & Hput & Hrecv). kstep Hr.
  eexists. split; [done |]. split; [by rewrite Hput; simpl; rewrite <- app_assoc | done].
Qed.

(** Nothing for the connection: no pages came, none were put. *)
Definition quiet_stream (sock : ptr) w w' : Prop :=
  received sock (log w') = received sock (log w) ∧ pages_put (log w') = pages_put (log w).

#[local] Instance quiet_stream_refl sock : Reflexive (quiet_stream sock).
Proof. by intros w. Qed.

#[local] Instance quiet_stream_trans sock : Transitive (quiet_stream sock).
Proof. intros w1 w2 w3 [H1 H2] [H3 H4]. split; congruence. Qed.

Lemma quiet_call sock c : keeps (quiet_stream sock) (kernel_call c).
Proof. by intros w a w' [= <- <-]. Qed.

#[local] Hint Resolve quiet_call : keeps.

Lemma quiet_peek sock s : keeps (quiet_stream sock) (peek_tail s).
Proof. unfold peek_tail, sock_addr. kkeeps. Qed.

(** The pages that arrive are addresses, not NULL. *)
Definition good_pages : Prop := ∀ n, Forall (λ p, p ≠ 0) (payload n).

Lemma read_zcopy_stream sock nr w rc pages w' :
  good_pages → tcp_read_sock_zcopy sock nr w = Ok ((rc, pages), w') →
  received sock (log w') = received sock (log w) ++ pages ∧ pages_put (log w') = pages_put (log w) ∧
  (length pages ≤ Z.to_nat nr)%nat ∧ Forall (λ p, p ≠ 0) pages ∧ (rc ≤ 0 → pages = []).
Proof.
  intros Hg Hr. unfold tcp_read_sock_zcopy in Hr. apply kbind_inv in Hr as (a & w1 & H1 & Hr).
  apply sock_addr_inv in H1 as (_ & -> & _). rewrite kbind_get in Hr.
  kstep_in Hr (kernel_call_eq (C_read_zcopy sock nr) w). destruct (Z.leb_spec (answer (tick w)) 0).
  - injection Hr as <- <- <-. simpl. rewrite app_nil_r. split_and!; try done. lia.
  - injection Hr as <- <- <-. simpl. rewrite decide_True by done. split_and!; try done; [| by apply Forall_take | lia].
    rewrite length_take. lia.
Qed.

Lemma blocking_stream fuel sock nr w r w' :
  good_pages → tcp_read_sock_zcopy_blocking fuel sock nr w = Ok (r, w') →
  match r with
  | Some (rc, pages) =>
      received sock (log w') = received sock (log w) ++ pages ∧ pages_put (log w') = pages_put (log w) ∧
      (length pages ≤ Z.to_nat nr)%nat ∧ Forall (λ p, p ≠ 0) pages ∧ (rc ≤ 0 → pages = [])
  | None => quiet_stream sock w w'
  end.
Proof.
  intros Hg. revert w. induction fuel as [| fuel IH]; intros w Hr; [by injection Hr as <- <- |].
  cbn [tcp_read_sock_zcopy_blocking] in Hr. apply kbind_inv in Hr as (last & w1 & H1 & Hr).
  apply (quiet_peek sock) in H1.
  assert (Hwait : ∀ w2, quiet_stream sock w w2 →
    (_ ← sock_addr sock; _ ← kernel_call (C_wait_data sock); _ ← peek_tail sock;
     tcp_read_sock_zcopy_blocking fuel sock nr) w2 = Ok (r, w') →
    match r with
    | Some (rc, pages) =>
        received sock (log w') = received sock (log w) ++ pages ∧ pages_put (log w') = pages_put (log w) ∧
        (length pages ≤ Z.to_nat nr)%nat ∧ Forall (λ p, p ≠ 0) pages ∧ (rc ≤ 0 → pages = [])
    | None => quiet_stream sock w w'
    end).
  { intros w2 [R2 P2] Hw. apply kbind_inv in Hw as (a & w3 & H3 & Hw).
    apply sock_addr_inv in H3 as (_ & -> & _). kstep_in Hw (kernel_call_eq (C_wait_data sock) w2).
    apply kbind_inv in Hw as (l2 & w4 & H4 & Hw). destruct (quiet_peek sock _ _ _ _ H4) as [R4 P4]. simpl in R4, P4.
    specialize (IH w4 Hw). destruct r as [[rc pages] |].
    - by rewrite R4, P4, R2, P2 in IH.
    - destruct IH as [R5 P5]. split; congruence. }
  destruct last; cbn [negb] in Hr; [| by eapply Hwait].
  apply kbind_inv in Hr as ([rc ps] & w2 & H2 & Hr).
  apply read_zcopy_stream in H2 as (R2 & P2 & Hl & Hf & Hn); [| done]. destruct H1 as [R1 P1].
  rewrite R1 in R2. rewrite P1 in P2. destruct (rc <? 0); [by injection Hr as <- <- |].
  destruct (Z.eqb_spec rc 0) as [-> | Hne]; [| by injection Hr as <- <-].
  eapply (Hwait w2); [| done]. rewrite Hn, app_nil_r in R2 by done. by split.
Qed.

Lemma zcopy_loop_stream fuel sock w rc r w' :
  good_pages → zcopy_loop fuel sock (replicate VEC_SZ 0) rc w = Ok (r, w') → same_stream sock w w'.
Proof.
  intros Hg. revert w rc. induction fuel as [| fuel IH]; intros w rc Hr.
  { injection Hr as <- <-. apply same_stream_refl. }
  cbn [zcopy_loop] in Hr. unfold kthread_should_stop in Hr. rewrite kbind_assoc in Hr.
  kstep_in Hr (kernel_call_eq C_should_stop w). rewrite kbind_ret in Hr. set (w1 := add_log _ _) in *.
  destruct (negb _); [injection Hr as <- <-; exists []; by rewrite !app_nil_r |].
  apply kbind_inv in Hr as (o & w2 & H2 & Hr). pose proof (blocking_stream _ _ _ _ _ _ Hg H2) as Hs.
  destruct o as [[rc' pages] |]; [| destruct Hs as [R P]; injection Hr as <- <-; exists []; by rewrite !app_nil_r].
  destruct Hs as (R2 & P2 & Hl & Hf & Hn). apply blocking_not_zero in H2 as Hnz.
  destruct (Z.ltb_spec rc' 0) as [Hneg | Hpos].
  { injection Hr as <- <-. exists []. rewrite Hn, app_nil_r in R2 by lia. by rewrite !app_nil_r. }
  apply Z.eqb_neq in Hnz as Hb. rewrite Hb in Hr. unfold store_pages in Hr. rewrite drop_replicate in Hr.
  destruct (put_pages_spec pages (VEC_SZ - length pages) w2 Hf) as (w3 & H3 & P3 & R3). kstep_in Hr H3.
  replace (length pages + (VEC_SZ - length pages))%nat with VEC_SZ in Hr by (unfold VEC_SZ in *; lia).
  apply IH in Hr. etransitivity; [| exact Hr]. exists pages. by rewrite R3, R2, P3, P2.
Qed.

(** C38. Every page the connection took over is given back exactly once, in
    the order they came, however the connection ends or where it stands. *)
Theorem zcopy_pages_returned fuel sock w r w' :
  good_pages → start_new_connection_z fuel sock w = Ok (r, w') → same_stream sock w w'.
Proof. apply zcopy_loop_stream. Qed.

(** ** A silent peer *)

Lemma peek_tail_quiet w a st :
  socks w !! a = Some st →
  peek_tail (PObj a) w = Ok (negb (answer (tick w) =? 0), ticked (C_peek_tail (PObj a)) w).
Proof.
  intros Hs. unfold peek_tail. kstep (sock_addr_ok w a st Hs).
  by kstep (kernel_call_quiet (C_peek_tail (PObj a)) w).
Qed.

(** With nothing in the queue any more, a closed connection say, the blocking
    read waits for ever: it looks neither at the state of the connection nor
    at a request to stop. *)
Lemma blocking_read_spins fuel w a st nr :
  socks w !! a = Some st → (∀ n, answer n = 0) →
  ∃ w', tcp_read_sock_zcopy_blocking fuel (PObj a) nr w = Ok (None, w').
Proof.
  intros Hs Hans. revert w Hs. induction fuel as [| fuel IH]; intros w Hs; [by eexists |].
  cbn [tcp_read_sock_zcopy_blocking]. kstep (peek_tail_quiet w a st Hs). rewrite Hans.
  change (negb (negb (0 =? 0))) with true. cbv iota. set (w1 := ticked _ w).
  assert (Hs1 : socks w1 !! a = Some st) by done. kstep (sock_addr_ok w1 a st Hs1).
  kstep (kernel_call_quiet (C_wait_data (PObj a)) w1). set (w2 := ticked _ w1).
  assert (Hs2 : socks w2 !! a = Some st) by done. kstep (peek_tail_quiet w2 a st Hs2). by apply IH.
Qed.

(** ** The connection that copies *)

Definition sock_live (a : Z) w : Prop := is_Some (socks w !! a).

Lemma sock_live_undisturbed a : undisturbed (sock_live a).
Proof. intros w Hw. rewrite interfere_quiet. by split_and!. Qed.

(** What a read loop does to the shared objects: nothing. *)
Definition reads_only w w' : Prop := socks w' = socks w ∧ held (log w') = held (log w).

#[local] Instance reads_only_refl : Reflexive reads_only.
Proof. by intros w. Qed.

#[local] Instance reads_only_trans : Transitive reads_only.
Proof. intros w1 w2 w3 [H1 H2] [H3 H4]. split; congruence. Qed.

Lemma recvmsg_quiet w a len :
  sock_live a w →
  ∃ rc bytes w', kernel_recvmsg (PObj a) len w = Ok ((rc, bytes), w') ∧ reads_only w w' ∧
    tick w' = S (tick w) ∧ (answer (tick w) ≤ 0 → rc ≤ 0).
Proof.
  intros [st Hs]. unfold kernel_recvmsg. kstep (sock_addr_ok w a st Hs). kpure.
  kstep (kernel_call_quiet (C_recvmsg (PObj a) len) w).
  destruct (Z.leb_spec (answer (tick w)) 0); eexists _, _, _; (split; [done |]);
    (split; [done | split; [done | lia]]).
Qed.

Lemma recv_loop_total k fuel w a rc :
  sock_live a w → (k < fuel)%nat → answer (S (tick w) + 2 * k)%nat ≤ 0 →
  ∃ rc' w', recv_loop fuel (PObj a) rc w = Ok (Some rc', w') ∧ reads_only w w'.
Proof.
  revert k w rc. induction fuel as [| fuel IH]; intros k w rc Hs Hk Hans; [lia |].
  cbn [recv_loop]. unfold kthread_should_stop. rewrite kbind_assoc. kstep (kernel_call_quiet C_should_stop w).
  kpure. destruct (negb _); [by eexists _, _ |]. set (w1 := ticked _ w).
  destruct (recvmsg_quiet w1 a (Z.shiftl PAGE_SIZE RX_ORDER * Z.of_nat VEC_SZ) Hs)
    as (rc' & bytes & w2 & H2 & [Es Eh] & Et & Hrc). kstep H2.
  destruct (Z.leb_spec rc' 0) as [Hle | Hgt]; [by eexists _, _ |].
  destruct k as [| k]; [rewrite Nat.mul_0_r, Nat.add_0_r in Hans; specialize (Hrc Hans); lia |].
  destruct (IH k w2 rc') as (rc2 & w3 & H3 & [Es3 Eh3]).
  - unfold sock_live. by rewrite Es.
  - lia.
  - rewrite Et. by replace (S (S (tick w1)) + 2 * k)%nat with (S (tick w) + 2 * S k)%nat by (simpl; lia).
  - eexists _, _. split; [done |]. split; [by rewrite Es3, Es | by rewrite Eh3, Eh].
Qed.

Lemma alloc_kvec_socks call n : keeps (λ w w', socks w' = socks w) (alloc_kvec call n).
Proof.
  assert (Reflexive (λ w w', socks w' = socks w)) by done.
  assert (Transitive (λ w w', socks w' = socks w)) by (intros ?????; congruence).
  induction n; simpl; kkeeps; try (apply keeps_modify; done); intros w a' w' [= <- <-]; [by rewrite interfere_quiet | done].
Qed.

Lemma free_kvec_socks kvec : keeps (λ w w', socks w' = socks w) (kforeach kvec free_page).
Proof.
  assert (Reflexive (λ w w', socks w' = socks w)) by done.
  assert (Transitive (λ w w', socks w' = socks w)) by (intros ?????; congruence).
  unfold free_page. kkeeps. by apply keeps_modify.
Qed.

(** The connection ends when a receive fails or the peer closes, at the
    [k]-th turn at the latest, and frees every page it allocated once -- but the
    socket it was given stays open for ever. *)
Lemma connection_ends_socket_leaks k fuel w a :
  sock_live a w → 0 < next w → (∀ i, (i < VEC_SZ)%nat → answer (tick w + i)%nat ≠ 0) →
  (k < fuel)%nat → answer (S (tick w + VEC_SZ) + 2 * k)%nat ≤ 0 →
  ∃ rc w', start_new_connection fuel (PObj a) w = Ok (Some rc, w') ∧
    held (log w') = held (log w) ∧ socks w' = socks w.
Proof.
  intros Hs Hn Hpages Hk Hans. unfold start_new_connection.
  destruct (alloc_kvec_total (sock_live a) (C_alloc_pages RX_ORDER) VEC_SZ w (sock_live_undisturbed a) Hs Hn Hpages)
    as (l & w1 & Hl & Hs1 & Hall & Hh). kstep Hl.
  destruct (recv_loop_total k fuel w1 a 0 Hs1 Hk) as (rc & w2 & H2 & [Es Eh]).
  { by rewrite (alloc_kvec_tick _ _ _ _ _ Hl). }
  kstep H2. destruct (free_kvec_total l w2 (held (log w)) Hall) as (w3 & H3 & Hh3); [by rewrite Eh, Hh |].
  kstep H3. eexists _, _. split_and!; [done | done |].
  pose proof (alloc_kvec_socks _ _ _ _ _ Hl). pose proof (free_kvec_socks _ _ _ _ H3). simpl in *. congruence.
Qed.

(** ** The servers *)

(** The connections handed over, oldest first. *)
Fixpoint handed (f : thread_fn) (l : list event) : list Z :=
  match l with
  | [] => []
  | E_kthread_run g a :: l => if decide (g = f) then handed f l ++ [a] else handed f l
  | _ :: l => handed f l
  end.

(** The accepted sockets are open, each with a thread that was asked for; [acc]
    are those whose thread was made. *)
Lemma server_loop_total fuel f w a st :
  socks w !! a = Some st → (∀ s, s ∈ dom (socks w) → s < next w) →
  ∃ r w' acc, server_loop fuel f (PObj a) w = Ok (r, w') ∧
    (∀ s, s ∈ acc → next w ≤ s) ∧
    match r with
    | Some _ => dom (socks w') = dom (socks w) ∖ {[a]} ∪ list_to_set acc
    | None => dom (socks w') = dom (socks w) ∪ list_to_set acc
    end.
Proof.
  revert w st. induction fuel as [| fuel IH]; intros w st Hs Hn.
  { exists None, w, []. split_and!; [done | by intros s ?%elem_of_nil |]. simpl. set_solver. }
  cbn [server_loop]. unfold kernel_accept. rewrite kbind_assoc. kstep (kernel_call_quiet (C_accept (PObj a)) w).
  set (w1 := ticked _ w). destruct (Z.eqb_spec (answer (tick w)) 0) as [E | E].
  2: { apply Z.eqb_neq in E. rewrite kbind_ret, E. cbn [negb]. unfold release_out. rewrite decide_False by done.
       kstep (sock_release_ok w1 a st Hs). eexists _, _, []. split_and!; [done | by intros s ?%elem_of_nil |].
       simpl. rewrite dom_delete_L. set_solver. }
  rewrite kbind_assoc. kstep (eq_refl (fresh_addr w1)). kpure. change (negb (0 =? 0)) with false. cbv iota.
  set (n := next w1). set (w2 := upd_socks _ _). unfold kthread. rewrite kbind_assoc.
  kstep (kernel_call_quiet (C_kthread f) w2). set (w3 := ticked _ w2).
  assert (Hgo : ∀ w4, socks w4 = <[n := S_open]> (socks w) → next w + 1 ≤ next w4 →
    ∃ r w' acc, (stop ← kthread_should_stop; if stop : bool then release_out (PObj a) 0 else server_loop fuel f (PObj a)) w4
      = Ok (r, w') ∧ (∀ s, s ∈ acc → next w ≤ s) ∧
    match r with
    | Some _ => dom (socks w') = dom (socks w) ∖ {[a]} ∪ list_to_set acc
    | None => dom (socks w') = dom (socks w) ∪ list_to_set acc
    end).
  { intros w4 Es4 En4. unfold kthread_should_stop. rewrite kbind_assoc. kstep (kernel_call_quiet C_should_stop w4).
    kpure. set (w5 := ticked _ w4).
    assert (Hna : n ≠ a).
    { intros Hna. assert (Hlt : a < next w) by (apply Hn, elem_of_dom; by eexists). rewrite <- Hna in Hlt.
      change n with (next w) in Hlt. lia. }
    assert (Hs5 : socks w5 !! a = Some st) by (change (socks w5) with (socks w4); by rewrite Es4, lookup_insert_ne).
    destruct (negb _).
    - unfold release_out. rewrite decide_False by done. kstep (sock_release_ok w5 a st Hs5).
      exists (Some 0). eexists _, [n]. split_and!; [done | |].
      + intros s Hin%list_elem_of_singleton. rewrite Hin. unfold n. simpl. lia.
      + simpl. rewrite dom_delete_L. change (socks w5) with (socks w4). rewrite Es4, dom_insert_L. set_solver.
    - destruct (IH w5 st Hs5) as (r & w' & acc & Hr & Hacc & Hd).
      { intros s. change (socks w5) with (socks w4). rewrite Es4, dom_insert_L. change (next w5) with (next w4).
        rewrite elem_of_union, elem_of_singleton. intros [Hin | Hin%Hn]; [rewrite Hin; unfold n; simpl; lia | lia]. }
      exists r, w', (n :: acc). split_and!; [done | |].
      + intros s [Hin | Hin%Hacc]%elem_of_cons; [rewrite Hin; unfold n; simpl; lia |]. change (next w5) with (next w4) in Hin. lia.
      + change (socks w5) with (socks w4) in Hd. rewrite Es4, dom_insert_L in Hd. destruct r; simpl; set_solver. }
  destruct (_ <? 0); kpure; [by apply Hgo |].
  kstep (eq_refl (fresh_addr w3)). kpure. apply Hgo; [done |].
  cbn [next add_log set_next]. change (next w3) with (next w + 1). lia.
Qed.

(** However a server ends, without a fault, its listening socket is
    closed; the sockets it leaves open are those it accepted. A server that
    cannot be bound or listened on closes the socket it made. *)
Lemma serve_closes_listener fuel f port w :
  (∀ s, s ∈ dom (socks w) → s < next w) →
  ∃ r w' acc, serve fuel f port w = Ok (r, w') ∧ (∀ s, s ∈ acc → next w < s) ∧
    (is_Some r → dom (socks w') = dom (socks w) ∪ list_to_set acc).
Proof.
  intros Hn. unfold serve. destruct (decide (answer (tick w) = 0)) as [E | E].
  2: { kstep (sock_create_fails w E). apply Z.eqb_neq in E. rewrite E. cbn [negb].
       eexists _, _, []. split_and!; [done | by intros s ?%elem_of_nil |]. intros _. simpl. set_solver. }
  kstep (sock_create_quiet w E). change (negb (0 =? 0)) with false. cbv iota.
  set (a := next w). set (w1 := upd_socks _ _).
  assert (Hna : a ∉ dom (socks w)) by (intros Hin%Hn; unfold a in Hin; lia).
  assert (Hclose : ∀ rc w2, socks w2 = socks w1 →
    ∃ r w' acc, release_out (PObj a) rc w2 = Ok (r, w') ∧ (∀ s, s ∈ acc → next w < s) ∧
    (is_Some r → dom (socks w') = dom (socks w) ∪ list_to_set acc)).
  { intros rc w2 Es2. assert (Hs2 : socks w2 !! a = Some S_open) by (rewrite Es2; simpl; apply lookup_insert_eq).
    unfold release_out. rewrite decide_False by done. kstep (sock_release_ok w2 a S_open Hs2).
    eexists _, _, []. split_and!; [done | by intros s ?%elem_of_nil |]. intros _. simpl. rewrite Es2. simpl.
    rewrite dom_delete_L, dom_insert_L. set_solver. }
  assert (Hs1 : socks w1 !! a = Some S_open) by (simpl; apply lookup_insert_eq).
  kstep (bind_quiet w1 a S_open (htons port) (htonl ANY_ADDR) Hs1). set (w2 := ticked _ w1).
  destruct (negb _); [by apply Hclose |]. unfold kernel_listen.
  kstep (sock_call_quiet w2 a S_open (C_listen (PObj a) SERVER_BACKLOG) Hs1). set (w3 := ticked _ w2).
  destruct (negb _); [by apply Hclose |].
  destruct (server_loop_total fuel f w3 a S_open Hs1) as (r & w' & acc & Hr & Hacc & Hd).
  { intros s. change (socks w3) with (<[a := S_open]> (socks w)). rewrite dom_insert_L.
    change (next w3) with (next w + 1). rewrite elem_of_union, elem_of_singleton.
    intros [Hin | Hin%Hn]; [rewrite Hin; unfold a; lia | lia]. }
  exists r, w', acc. split_and!; [done | |].
  - intros s Hin%Hacc. change (next w3) with (next w + 1) in Hin. lia.
  - intros [rc ->]. rewrite Hd. change (socks w3) with (<[a := S_open]> (socks w)). rewrite dom_insert_L. set_solver.
Qed.

(** ** The sender *)

Lemma send_retry_takes fuel w a st :
  socks w !! a = Some st → 0 < answer (tick w) →
  send_retry (S fuel) (PObj a) w = Ok (Some (answer (tick w)), ticked (C_sendmsg (PObj a) (Z.shiftl PAGE_SIZE 6)) w).
Proof.
  intros Hs Hans. cbn [send_retry]. kstep (sock_addr_ok w a st Hs).
  kstep (kernel_call_quiet (C_sendmsg (PObj a) (Z.shiftl PAGE_SIZE 6)) w). by rewrite (proj2 (Z.leb_gt _ _)) by done.
Qed.

(** A sender that only makes calls. *)
Definition sends_only (tx : ptr) (n : Z) w w' : Prop :=
  socks w' = socks w ∧ held (log w') = held (log w) ∧ next w' = next w ∧
  messages tx (log w') = messages tx (log w) + n.

Lemma send_turns_takes n fuel w a st :
  socks w !! a = Some st → (∀ m, (tick w ≤ m)%nat → 0 < answer m) →
  ∃ w', send_turns n (S fuel) (PObj a) w = Ok (Some tt, w') ∧ sends_only (PObj a) (Z.of_nat n) w w'.
Proof.
  revert w. induction n as [| n IH]; intros w Hs Hans.
  { exists w. split; [done |]. split_and!; [done | done | done | lia]. }
  cbn [send_turns]. kstep (send_retry_takes fuel w a st Hs (Hans _ (le_n _))). set (w1 := ticked _ w).
  destruct (IH w1 Hs) as (w' & Hr & Es & Eh & En & Em); [intros m Hm; apply Hans; simpl in Hm; lia |].
  exists w'. split; [done |]. split_and!; [done | done | done |]. rewrite Em. simpl.
  rewrite decide_True by (split; [done | by apply Hans]). lia.
Qed.

(** A socket that takes nothing keeps the sender for ever: it does not look at
    a request to stop. *)
Lemma send_retry_spins fuel w a st :
  socks w !! a = Some st → (∀ m, answer m ≤ 0) → ∃ w', send_retry fuel (PObj a) w = Ok (None, w').
Proof.
  intros Hs Hans. revert w Hs. induction fuel as [| fuel IH]; intros w Hs; [by eexists |].
  cbn [send_retry]. kstep (sock_addr_ok w a st Hs).
  kstep (kernel_call_quiet (C_sendmsg (PObj a) (Z.shiftl PAGE_SIZE 6)) w). set (w1 := ticked _ w).
  rewrite (proj2 (Z.leb_le _ _)) by done. kstep (kernel_call_quiet C_schedule w1). by apply IH.
Qed.

(** C39. With memory, a socket, a connection, and a socket that takes what it
    is given, a run of the client sends its 2^19 messages of 64 pages, closes
    the socket and frees the pages. *)
Theorem tcp_client_sends fuel w :
  0 < next w → (∀ s, s ∈ dom (socks w) → s < next w) →
  answer (tick w) ≠ 0 → answer (S (tick w)) = 0 → answer (S (S (tick w))) = 0 →
  (∀ m, (S (S (S (tick w))) ≤ m)%nat → 0 < answer m) →
  ∃ w', tcp_client (S fuel) w = Ok (Some tt, w') ∧ socks w' = socks w ∧ held (log w') = held (log w) ∧
    messages (PObj (next w + 1)) (log w') = messages (PObj (next w + 1)) (log w) + 524288.
Proof.
  intros Hpos Hn A0 A1 A2 Hans. unfold tcp_client. kstep (kernel_call_quiet (C_alloc_pages 6) w).
  apply Z.eqb_neq in A0. rewrite A0. set (w1 := ticked _ w). kstep (eq_refl (fresh_addr w1)). kpure.
  change (next w1) with (next w). set (w2 := add_log _ _). kstep (sock_create_quiet w2 A1).
  change (negb (0 =? 0)) with false. cbv iota. change (next w2) with (next w + 1). set (a := next w + 1).
  set (w3 := upd_socks _ _). kpure.
  assert (Hs3 : socks w3 !! a = Some S_open) by (simpl; apply lookup_insert_eq).
  assert (Hflag : (if negb (is_zcopy w3 =? 0) then _ ← sock_addr (PObj a); mret tt else mret tt) w3 = Ok (tt, w3)).
  { destruct (negb _); [by kstep (sock_addr_ok w3 a S_open Hs3) | done]. }
  kstep Hflag. kstep (connect_quiet w3 a S_open (htons PORT) (htonl SERVER_ADDR) Hs3).
  change (tick w3) with (S (S (tick w))). rewrite A2. change (negb (0 =? 0)) with false. cbv iota. set (w4 := ticked _ w3).
  destruct (send_turns_takes (Z.to_nat SEND_COUNT) fuel w4 a S_open Hs3 Hans) as (w5 & Hr & Es & Eh & En & Em).
  unfold send_loop. kstep Hr. unfold tcp_client_ok.
  assert (Hs5 : socks w5 !! a = Some S_open) by (by rewrite Es). kstep (sock_release_ok w5 a S_open Hs5).
  rewrite free_page_some by lia. eexists. split; [done |].
  assert (Hfresh : socks w !! a = None).
  { apply not_elem_of_dom. intros Hin%Hn. unfold a in Hin. lia. }
  split_and!.
  - cbn [socks add_log upd_socks]. rewrite Es. change (socks w4) with (<[a := S_open]> (socks w)).
    by apply delete_insert_id.
  - cbn [log add_log upd_socks held]. rewrite Eh.
    change (held (log w4)) with ({[+ next w +]} ⊎ held (log w)). clear. multiset_solver.
  - cbn [log add_log upd_socks messages]. rewrite Em, Z2Nat.id by done. done.
Qed.

(** Without pages, or without a socket, the client releases a NULL socket. *)
Lemma tcp_client_null fuel w :
  answer (tick w) = 0 ∨ answer (S (tick w)) ≠ 0 → tcp_client fuel w = Oops NullDeref.
Proof.
  intros Ha. unfold tcp_client. kstep (kernel_call_quiet (C_alloc_pages 6) w).
  destruct (Z.eqb_spec (answer (tick w)) 0) as [E | E]; [done |]. destruct Ha as [| Ha]; [done |].
  set (w1 := ticked _ w). kstep (eq_refl (fresh_addr w1)). kpure. set (w2 := add_log _ _).
  kstep (sock_create_fails w2 Ha). apply Z.eqb_neq in Ha. change (tick w2) with (S (tick w)). by rewrite Ha.
Qed.

(** ** Start and stop *)

Definition client_threads : list thread_fn :=
  [F_split_server_z; F_split_server; F_poll_thread 1; F_poll_thread 0].

(** The module starts four threads; when one of its files cannot be made
    it reports a failure, but the threads go on running. *)
Lemma client_init_threads w :
  (∀ i, (2 ≤ i < 6)%nat → 0 ≤ answer (tick w + i)%nat) →
  ∃ w', client_init w = Ok (if (answer (tick w + 6)%nat =? 0) || (answer (tick w + 7)%nat =? 0) then -1 else 0, w') ∧
    running (log w') = client_threads ++ running (log w).
Proof.
  intros Hans. assert (A2 := Hans 2%nat ltac:(lia)). assert (A3 := Hans 3%nat ltac:(lia)).
  assert (A4 := Hans 4%nat ltac:(lia)). assert (A5 := Hans 5%nat ltac:(lia)). rewrite !Nat.add_succ_r, Nat.add_0_r in *.
  unfold client_init. kstep (proc_mkdir_quiet "io_client"%string w). set (dir := if _ : bool then _ else _). set (w1 := ticked _ w).
  kstep (kernel_call_quiet (C_kallsyms "kthread_bind_mask"%string) w1). set (w2 := ticked _ w1).
  kstep (kthread_quiet (F_poll_thread 0) 0 w2 A2). set (w3 := add_log _ _).
  kstep (kthread_quiet (F_poll_thread 1) 1 w3 A3). set (w4 := add_log _ _).
  unfold wake_task. cbn [task_of]. kpure. set (w5 := add_log (E_wake _) (add_log _ _)).
  kstep (kthread_quiet F_split_server 0 w5 A4). set (w6 := add_log _ _).
  kstep (kthread_quiet F_split_server_z 0 w6 A5). set (w7 := add_log _ _).
  kstep (proc_create_quiet dir "udp_client"%string w7). set (w8 := ticked _ w7).
  change (tick w7) with (S (S (S (S (S (S (tick w))))))).
  destruct (answer (S (S (S (S (S (S (tick w))))))) =? 0); cbn [negb]; [eexists; by split |].
  kstep (proc_create_quiet dir "tcp_client"%string w8).
  change (tick w8) with (S (S (S (S (S (S (S (tick w)))))))). cbn [orb].
  destruct (answer (S (S (S (S (S (S (S (tick w)))))))) =? 0); (eexists; by split).
Qed.

(** The threads are stopped when the module is removed. *)
Lemma client_exit_stops udp tcp s0 s1 w :
  ∃ w', client_exit (PObj udp) (PObj tcp) (PObj s0) (PObj s1) w = Ok (tt, w') ∧
    ∀ f, f ∈ running (log w') ↔ f ∈ running (log w) ∧ f ∉ client_threads.
Proof.
  unfold client_exit, kthread_stop, preempt. kpure. rewrite !interfere_quiet. eexists. split; [done |]. intros f. simpl.
  rewrite !list_elem_of_filter. unfold client_threads. rewrite !not_elem_of_cons. set_solver.
Qed.
End client_lemmas.

(** ** Concrete runs *)

(** Socket 20 is open, [next] is 100. *)
Definition client_world : world := upd_socks <[20 := S_open]> (empty_world 100).

(** One read takes over the pages 7 and 9, the next fails. *)
Definition two_pages : Env := calm
  (λ n, match n with 0%nat => 0 | 1%nat => 1 | 2%nat => 2 | 3%nat => 0 | 4%nat => 1 | _ => -5 end) (λ _, [7; 9]) (λ _, no_addr).
Definition after_pages : world :=
  match @start_new_connection_z two_pages 3 (PObj 20) client_world with Ok (_, w') => w' | Oops _ => client_world end.

Lemma two_pages_run : @start_new_connection_z two_pages 3 (PObj 20) client_world = Ok (Some (-5), after_pages).
Proof. by vm_compute. Qed.

Lemma zcopy_pages_returned_witness :
  same_stream (PObj 20) client_world after_pages ∧ pages_put (log after_pages) = [7; 9].
Proof.
  split; [| by vm_compute].
  apply (@zcopy_pages_returned two_pages 3 (PObj 20) client_world (Some (-5)) after_pages).
  - intros n. simpl. repeat constructor; done.
  - exact two_pages_run.
Defined.

Lemma connection_ends_socket_leaks_witness :
  ∃ rc w', @start_new_connection (calm (λ n, if (n =? 17)%nat then 0 else if (n =? 16)%nat then 0 else 1) (λ _, []) (λ _, no_addr)) 1 (PObj 20)
    client_world = Ok (Some rc, w') ∧ held (log w') = ∅ ∧ socks w' = socks client_world.
Proof.
  set (E := calm _ _ _).
  apply (@connection_ends_socket_leaks E (calm_quiet _ _ _) 0 1 client_world 20).
  - by eexists.
  - done.
  - intros i Hi. unfold VEC_SZ in Hi. cbn [answer E calm]. simpl tick.
    destruct (Nat.eqb_spec (0 + i) 17); [lia |]. destruct (Nat.eqb_spec (0 + i) 16); [lia | done].
  - lia.
  - done.
Defined.

(** A connection is accepted, then the accept fails. *)
Definition one_accept : Env := calm (λ n, if (n =? 6)%nat then -1 else 0) (λ _, []) (λ _, no_addr).

Lemma serve_closes_listener_witness :
  ∃ r w' acc, @serve one_accept 5 F_start_new_connection PORT client_world = Ok (r, w') ∧
    (∀ s, s ∈ acc → 100 < s) ∧ (is_Some r → dom (socks w') = dom (socks client_world) ∪ list_to_set acc).
Proof.
  apply (@serve_closes_listener one_accept (calm_quiet _ _ _) 5 F_start_new_connection PORT client_world).
  intros s Hs. unfold client_world in Hs. cbn [socks upd_socks empty_world] in Hs.
  rewrite dom_insert_L, dom_empty_L, union_empty_r_L in Hs. apply elem_of_singleton in Hs. subst. done.
Defined.

Definition takes_all : Env := calm (λ n, if decide (n = 1 ∨ n = 2)%nat then 0 else 1) (λ _, []) (λ _, no_addr).

Lemma tcp_client_sends_witness :
  ∃ w', @tcp_client takes_all 1 client_world = Ok (Some tt, w') ∧ socks w' = socks client_world ∧
    messages (PObj 101) (log w') = 524288.
Proof.
  destruct (@tcp_client_sends takes_all (calm_quiet _ _ _) 0 client_world) as (w' & Hr & Hs & _ & Hm).
  - done.
  - intros s Hs. unfold client_world in Hs. cbn [socks upd_socks empty_world] in Hs.
    rewrite dom_insert_L, dom_empty_L, union_empty_r_L in Hs. apply elem_of_singleton in Hs. subst. done.
  - done.
  - done.
  - done.
  - intros m Hm. cbn [answer takes_all calm]. simpl in Hm. case_decide; lia.
  - exists w'. split; [exact Hr |]. split; [exact Hs | exact Hm].
Defined.

Lemma tcp_client_null_witness : @tcp_client (always 0) 1 client_world = Oops NullDeref.
Proof. apply (@tcp_client_null (always 0) (calm_quiet _ _ _)). by left. Defined.

(** The second file cannot be made. *)
Definition one_file : Env := calm (λ n, if (n =? 7)%nat then 0 else 1) (λ _, []) (λ _, no_addr).

Lemma client_init_threads_witness :
  ∃ w', @client_init one_file (empty_world 100) = Ok (-1, w') ∧ running (log w') = client_threads.
Proof.
  destruct (@client_init_threads one_file (calm_quiet _ _ _) (empty_world 100)) as (w' & Hr & Hl).
  - intros i Hi. cbn [answer one_file calm]. destruct (_ =? 7)%nat; lia.
  - exists w'. split; [exact Hr | by rewrite Hl].
Defined.
